(* ===== verification/_CoqProject ===== *)
-Q . S2P
Prelude.v
Felt.v
Types.v
Group.v
Ark.v
CoreV2.v
Merkle.v
Mirror.v
Groth16.v
Circuit.v
Compact.v
Solidity.v
Setup.v
Client.v
ClientFiles.v
Wallet.v
WalletSpec.v
Browser.v
Wasm.v
Starknet.v
CoreV1.v
Pedersen.v
Wots.v
Xmss.v
WalletV1.v
ServerBase.v
Store.v
Signer.v
Processor.v
Server.v
RoundV1.v
Interleave.v
Threads.v
Routes.v
Cli.v
Evm.v
SolPoseidon.v
Vault.v
VaultLedger.v
Adapter.v
VaultSpec.v
