(* ===== verification/Prelude.v ===== *)
(** * zkAPI: a verification library for the Rust crates and the vault

    zkAPI sells API calls against prepaid, anonymous notes.  A user deposits
    into a vault contract; each note is a leaf of a Merkle tree.  A request
    carries a zero-knowledge proof that the user owns some active note whose
    hidden balance covers a bound, and reveals a nullifier of the note's
    current state; the server executes the call, takes the charge off the
    hidden balance homomorphically and signs the next state.  To leave, the
    user withdraws the balance of the newest state, together with the server
    (a clearance signature) or alone (an escape withdrawal, which the server
    can challenge with a later request of the same nullifier).

    This library models the crates under [src/rust/crates] and the contracts
    under [src/contracts/src].  Version 2 of the protocol (Groth16 over BN254,
    Baby-JubJub, Schnorr state signatures) is what the wallets, the core, the
    proof crate and the contracts implement; the server and the command line
    speak version 1 (Stark curve, XMSS state signatures), and so does the first
    wallet, which the client crate keeps beside the new one.

    ** Files and what they model

    Shared:
    - [Prelude]: results with panics, the state monad of effectful code, locks,
      fixed-width integers, byte strings, bounded search, tactics, hints.
    - [Group], [Ark], [Starknet]: interfaces of the third-party curve, field
      and hash crates, with concrete instances ([Toy], [ToyStark]) on which the
      witnesses evaluate the model.
    - [Felt] (zkapi-types: felt.rs, serialization.rs, domain.rs), [Types]
      (note.rs, wire.rs, signature.rs, inputs.rs, lib.rs): the 32-byte felt and
      its hexadecimal form, every wire record, the flattening of the public
      statements, the Keccak hash-to-field loop.

    Protocol version 2:
    - [CoreV2] (zkapi-core: v2.rs, leaf.rs, nullifier.rs), [Merkle]
      (merkle.rs): the protocol's hashes and its Merkle tree.
    - [Mirror] (zkapi-indexer: events.rs, tree_mirror.rs, service.rs): contract
      events replayed on the tree; the paths served to wallets.
    - [Groth16] and [Circuit] (zkapi-proof: groth16.rs): commitments, Schnorr
      signatures and field-level hashes; the two constraint systems.
    - [Compact] (zkapi-proof: compact.rs): the byte-level interface to both;
      [Setup], [Solidity] (the rest of compact.rs): the key files and manifest
      the setup writes, and the two contracts it generates.
    - [Client] (zkapi-client: config.rs, error.rs), [ClientFiles] (journal.rs,
      note_state.rs), [Wallet] (wallet_v2.rs), [WalletSpec]: the disk and the
      wallet's files, its methods, and what they guarantee.
    - [Browser] (zkapi-browser: lib.rs): the storage-free wallet; [Wasm]: the
      functions it exports to a page, and the page that keeps what they return.

    Protocol version 1:
    - [CoreV1] (zkapi-core: poseidon.rs, commitment.rs), [Pedersen], [Wots],
      [Xmss] (zkapi-crypto: pedersen.rs, wots.rs, xmss.rs): messages,
      commitments, one-time and many-time signatures.
    - [ServerBase] (zkapi-server: error.rs, config.rs, provider.rs), [Store]
      (nullifier_store.rs), [Signer] (signer.rs), [Processor] (processor.rs),
      [Server] (watcher.rs, the handlers of routes.rs, and the theorems on the
      whole server), [Routes] (routes.rs: create_router): the route table and
      the requests a running server serves.
    - [WalletV1] (zkapi-client: wallet.rs): the version 1 wallet; [RoundV1]:
      that wallet against the handlers of [Server] over HTTP.
    - [Cli] (zkapi-cli: main.rs): the commands.
    - [Interleave]: programs of atomic actions and a rely-guarantee logic for
      them; [Threads]: the handlers of processor.rs as such programs (run alone
      they are those of [Processor]) and the pool of threads that runs them.

    The contracts (contracts/src):
    - [Evm] (libraries/Types.sol, Errors.sol, Events.sol, the interface of the
      proof adapter): words, checked arithmetic, the contract's data.
    - [SolPoseidon] (Bn254Poseidon.sol, MerkleUpdateLib.sol, NoteLeafLib.sol):
      the hashes with their generated constants, and the Rust hashes they equal.
    - [Vault] (ZkApiVault.sol): the constructor and every external function;
      [VaultLedger]: what a call may do to notes and money, the invariant of all
      histories; [VaultSpec]: the events replayed by [Mirror], and leaving alone.
    - [Adapter] (adapters/Groth16ProofAdapter.sol): the verifier with the
      committed keys, against [Compact]'s, and behind the vault.

    A definition has the name of the Rust or Solidity item it translates; a
    method [T::f] is [f] or [T_f].  [PROJECT.json] gives the lines of each.

    ** How the parts interact

    [Wallet] asks [Mirror]'s path for its leaf, builds a statement with
    [Compact], journals it, and completes it with the server's answer;
    [Browser] does the same on snapshots handed to it.  [Processor] checks a
    version 1 request, reserves its nullifier in [Store], calls the provider,
    and lets [Signer] build the next state from the leaf it reserved (through
    [Pedersen] and [CoreV1]) and sign it with [Xmss] over [Wots]; the
    transcript is finalized in [Store], from which recovery and the challenge
    planner of [Server] answer later.  [RoundV1] joins the two sides: what
    [WalletV1] posts is what [Processor] checks, and what the handler returns
    is what the wallet installs.  [Routes] puts the handlers behind the paths,
    [Cli] starts that server, and [Wasm] puts [Browser] behind JSON strings.
    [Vault] asks [Adapter] (the class [Evm.ProofAdapter]) for each proof, moves
    the leaf with [SolPoseidon], and emits the events that [Mirror] replays; the
    path that [Mirror] serves is what the next call of the vault takes, and the
    proofs are those of [Compact].

    ** Conventions

    - A call returns [Ok], [Err] or [Panic] ([Prelude.result]): [expect],
      [unwrap], slicing and indexing out of range, and overflow of [+] and [<<]
      where it is reachable are panics.
    - An unsigned integer of [w] bits is a [Z]; [fits w] states its range where
      a theorem needs it, and casts and wrap-around are written out.
    - Effects are threaded ([Prelude.M]): the disk of the wallet, the directory
      of the setup and the database of the server carry a schedule that says of each system call or
      SQL statement whether it succeeds, fails, or is where the process dies.
      Theorems quantify over the schedule.  When the schedule is used up,
      everything succeeds.
    - A mutex-protected operation is one step; a panic under a lock poisons it
      ([Prelude.with_lock]).  Interleavings are sequences of such steps
      ([Store.history], [Signer.signer_run], [Wallet.wallet_step],
      [Threads.pool_step]).  In a pool a thread whose statement died stays
      among the others until the process's death is its own step, which only
      adds behaviours.
    - A transaction that reverts or panics changes nothing ([Vault.transact]).
      A payment fails or succeeds as a schedule says, and a recipient that runs
      code may call the owner's functions ([Vault.reenter]); all others are
      under [nonReentrant].  A token moves the amount it is asked to move:
      [w_held] counts what the vault's own calls brought in and took out, a
      payment addressed to the vault itself among the latter.  Gas is not
      counted.
    - Randomness, clocks, HTTP answers, provers and providers are arguments, so
      theorems hold for all of them.  A handler reads the clock once: the expiry
      check and the timestamps it stores are one [now].  A theorem that needs
      charges below [2^63], what the store's column keeps, says so
      ([Threads.pool_step] itself takes any provider).
    - JSON text is not modelled; printing and parsing a value is the identity,
      except that every felt goes through [to_hex] and the checked [from_hex].
      Where one program's text is another's input it is an argument with its
      round trip as a law ([Wasm.JsonType], [RoundV1.HttpText]).
    - wallet.rs is not compiled (lib.rs gives the module the path wallet_v2.rs)
      and names builders and state fields the other crates no longer have.
      [WalletV1] takes the fields from the file ([NoteStateV1]) and the
      builders, the Scarb prover and base64 as arguments.

    ** What the theorems show

    - The wallet (C1 to C6): its state file is valid through I/O errors, crashes
      and any answers; a completion is atomic and moves the balance by the
      charge; honest answers are accepted; a valid state can always be spent and
      withdrawn; and the crash window that leaves a wallet stuck.
    - The proof system (C7 to C10): soundness of both circuits against an
      arbitrary assignment; key files that are whole or rejected, and generated
      contracts in which every marker is filled by its own value.
    - The vault (C11 to C14): in any history of transactions its holdings are
      the deposits of the open notes; a user with an accepted proof leaves an
      unpaused vault or is challenged, whatever anyone does afterwards; which
      call changes a note, and on what terms; the indexer's mirror has the
      vault's root and serves accepted paths.
    - The chain and the crates (C15 to C17): an exit belongs to an accepted proof
      and no two exits to one nullifier of the field; the contract's verifier and
      hashes are those of the crates.
    - The browser (C18 to C21): its requests and completions are those of the
      native wallet; what a page stores is valid whatever it is given; the paths
      it computes.
    - Version 1, end to end (C22 to C24): a wallet's request is answered, the
      answer installed, and recovery finds the same state; a moved root stops
      the wallet; its state file is valid through any history.
    - The server (C25 to C31): what an accepted request passed and obtains,
      idempotent retries and recovery, progress (also after a crash), one answer
      and one signing leaf per nullifier under any interleaving of threads,
      exclusion of requests and clearances, what the deployed routes can change,
      and a request that stops the signer.
    - The stores and signers under it (C32 to C36): at most one spend per
      nullifier, one signature per leaf across restarts, XMSS and WOTS+
      correctness and bounds.
    - Trees, mirror and encodings (C37 to C40): refinement of the event history,
      equality with the textbook Merkle tree, the two crates hash alike,
      termination of hash-to-field.

    Further results are lemmas: completeness of the request circuit
    ([Circuit]), the prover's refusal of invalid states, the native and the
    verified statements, round trips of proofs ([Compact]) and felts ([Felt]),
    the browser's withdrawals ([Browser]), the gate and the
    challenge planner of the server ([Server]), Pedersen
    updates ([Pedersen]), read-back of transcripts ([Store]), membership
    ([Merkle]), and the commands that generate keys or panic ([Cli]).

    ** Bounds and fuel

    - The loops that retry with a [u32] counter ([Types.hash_bytes_to_felt],
      [Groth16]'s generator derivation) are [Prelude.search] at depth 32, a
      balanced search of exactly the [2^32] counters the loop tries before its
      [expect] fails; no fuel is added.
    - All other recursion is structural: tree levels, chain steps, bit lists.
    - Tree heights of XMSS are below 32, where [1u32 << height] is defined; the
      program uses 20.

    ** Not modelled

    - Third-party code: curve and field arithmetic, Poseidon and Keccak
      permutations, Groth16 key generation, proving and verification, the Stwo
      verifier, SQLite, base64, serde, clap, axum's matching and extractors,
      HTTP.  Each is a class or an argument.  Hashes are arbitrary functions:
      statements about forgery end in an explicit collision or an explicit
      linear relation of generators.
    - The benchmark, the setup program's main and the fixture generators of
      zkapi-proof/examples, which time or print what the library computes.
    - On the chain: the token, the recipients, OpenZeppelin's guards beyond what
      they check, and the precompiled contracts ([Adapter.Precompiles], whose
      laws are EIP-196 and EIP-197).
    - The Cairo programs, scripts and web pages. *)
From Stdlib Require Export ZArith Lia.
From Stdlib Require Export Strings.Byte Strings.String.
From stdpp Require Export base list strings vector pretty option gmap.

Coercion Z.of_nat : nat >-> Z.

(** ** Results with panics

    Rust's [Result<A, E>] plus the third outcome a Rust call has: a panic
    ([expect], slice out of range, [unreachable!]). *)
Inductive result (E A : Type) : Type :=
| Ok (a : A)
| Err (e : E)
| Panic.
Arguments Ok {E A} a.
Arguments Err {E A} e.
Arguments Panic {E A}.

Definition result_bind {E A B} (f : A → result E B) (r : result E A) : result E B :=
  match r with
  | Ok a => f a
  | Err e => Err e
  | Panic => Panic
  end.

#[export] Instance result_mret {E} : MRet (result E) := λ A a, Ok a.
#[export] Instance result_mbind {E} : MBind (result E) := λ A B f r, result_bind f r.
#[export] Instance result_fmap {E} : FMap (result E) :=
  λ A B f r, result_bind (λ a, Ok (f a)) r.

(** [Result::map_err]. *)
Definition map_err {E E' A} (f : E → E') (r : result E A) : result E' A :=
  match r with
  | Ok a => Ok a
  | Err e => Err (f e)
  | Panic => Panic
  end.

(** [Option::ok_or]. *)
Definition ok_or {E A} (o : option A) (e : E) : result E A :=
  match o with Some a => Ok a | None => Err e end.

(** [Option::expect] / [Option::unwrap]. *)
Definition expect {E A} (o : option A) : result E A :=
  match o with Some a => Ok a | None => Panic end.

(** [Result::ok]. *)
Definition result_ok {E A} (r : result E A) : option A :=
  match r with Ok a => Some a | _ => None end.

Lemma result_bind_Ok {E A B} (f : A → result E B) (r : result E A) (b : B) :
  r ≫= f = Ok b ↔ ∃ a, r = Ok a ∧ f a = Ok b.
Proof. destruct r; cbn; split; [eauto|intros (? & [= ->] & ?); done|done|by intros (? & ? & ?)|done|by intros (? & ? & ?)]. Qed.

Lemma map_err_Ok {E E' A} (f : E → E') (r : result E A) (a : A) :
  map_err f r = Ok a ↔ r = Ok a.
Proof. destruct r; cbn; naive_solver. Qed.

Lemma ok_or_Ok {E A} (o : option A) (e : E) (a : A) : ok_or o e = Ok a ↔ o = Some a.
Proof. destruct o; cbn; naive_solver. Qed.

Lemma expect_Ok {E A} (o : option A) (a : A) : @expect E A o = Ok a ↔ o = Some a.
Proof. destruct o; cbn; naive_solver. Qed.

Lemma result_Ok_bind {E X Y} (x : X) (f : X → result E Y) : Ok x ≫= f = f x.
Proof. done. Qed.

(** ** State passing with errors

    A computation that threads a mutable state.  The state survives an error:
    that is what the program's [&mut self] and database effects do. *)
Definition M (S E A : Type) : Type := S → result E A * S.

#[export] Instance M_mret {S E} : MRet (M S E) := λ A a s, (Ok a, s).
#[export] Instance M_mbind {S E} : MBind (M S E) := λ A B f m s,
  match m s with
  | (Ok a, s') => f a s'
  | (Err e, s') => (Err e, s')
  | (Panic, s') => (Panic, s')
  end.

Lemma M_bind_Ok {S E A B} (m : M S E A) (f : A → M S E B) s a s' :
  m s = (Ok a, s') → (m ≫= f) s = f a s'.
Proof. unfold mbind, M_mbind. by intros ->. Qed.

Lemma M_bind_stop {S E A B} (m : M S E A) (f : A → M S E B) s r s' :
  m s = (r, s') → (∀ a, r ≠ Ok a) →
  (m ≫= f) s = (match r with Ok _ | Panic => Panic | Err e => Err e end, s').
Proof. unfold mbind, M_mbind. intros ->. destruct r as [a|e|]; [by intros H; destruct (H a)|done..]. Qed.

Definition lift {S E A} (r : result E A) : M S E A := λ s, (r, s).

Lemma lift_bind {S E X Y} (r : result E X) (f : X → M S E Y) w :
  (lift r ≫= f) w = match r with Ok x => f x w | Err e => (Err e, w) | Panic => (Panic, w) end.
Proof. by destruct r. Qed.

Lemma M_bind_assoc {S E X Y Z} (m : M S E X) (f : X → M S E Y) (g : Y → M S E Z) w :
  ((m ≫= f) ≫= g) w = (m ≫= λ x, f x ≫= g) w.
Proof. unfold mbind, M_mbind. by destruct (m w) as [[x|e|] w']. Qed.

(** [Result::is_ok]. *)
Definition is_ok {E A} (r : result E A) : bool := match r with Ok _ => true | _ => false end.

Lemma is_ok_run {S E A} (m : M S E A) s : is_ok (m s).1 = true → ∃ a s', m s = (Ok a, s').
Proof. destruct (m s) as [[a|e|] s'] eqn:E0; [eauto|discriminate..]. Qed.

Lemma is_ok_value {E A} (r : result E A) : is_ok r = true → ∃ a, r = Ok a.
Proof. destruct r; [eauto|discriminate..]. Qed.

Definition get {S E} : M S E S := λ s, (Ok s, s).
Lemma get_bind {S E X} (f : S → M S E X) w : (get ≫= f) w = f w w.
Proof. done. Qed.

Definition put {S E} (s : S) : M S E () := λ _, (Ok tt, s).
Definition fail {S E A} (e : E) : M S E A := λ s, (Err e, s).

(** [zoom]: run a computation on a component of the state. *)
Definition zoom {S T E A} (g : S → T) (p : T → S → S) (m : M T E A) : M S E A :=
  λ s, let '(r, t) := m (g s) in (r, p t s).

Create HintDb steps.

(** [Result::map_err] on a stateful computation. *)
Definition catch_err {S E E' A} (f : E → E') (m : M S E A) : M S E' A :=
  λ s, let '(r, s') := m s in (map_err f r, s').

(** [Mutex::lock] around [m]: a panic inside poisons the lock, and a poisoned
    lock answers [on_poison]. *)
Definition with_lock {S E A} (poisoned : S → bool) (poison : S → S) (on_poison : result E A)
  (m : M S E A) : M S E A := λ s,
  if poisoned s then (on_poison, s)
  else match m s with (Panic, s') => (Panic, poison s') | rs => rs end.

Lemma M_bind_inv {S E A B} (m : M S E A) (f : A → M S E B) s b s' :
  (m ≫= f) s = (Ok b, s') → ∃ a s1, m s = (Ok a, s1) ∧ f a s1 = (Ok b, s').
Proof. unfold mbind, M_mbind. destruct (m s) as [[a|e|] s1]; [eauto|done|done]. Qed.

Lemma catch_err_inv {S E E' A} (f : E → E') (m : M S E A) s a s' :
  catch_err f m s = (Ok a, s') → m s = (Ok a, s').
Proof. unfold catch_err. destruct (m s) as [[x|e|] s1]; cbn; intros H; by simplify_eq. Qed.

Lemma lift_inv {S E A} (r : result E A) (s s' : S) (a : A) :
  lift r s = (Ok a, s') → r = Ok a ∧ s' = s.
Proof. unfold lift. by intros [= -> ->]. Qed.

Lemma zoom_inv {S T E A} (g : S → T) (p : T → S → S) (m : M T E A) s r s' :
  zoom g p m s = (r, s') → ∃ t, m (g s) = (r, t) ∧ s' = p t s.
Proof. unfold zoom. destruct (m (g s)) as [r1 t]. intros [= -> <-]. eauto. Qed.

(** Split a successful run [H : m s = (Ok _, _)] of a sequence into its steps. *)
Ltac run_inv H :=
  let a := fresh "x" in let s := fresh "s" in let H1 := fresh "R" in
  apply M_bind_inv in H as (a & s & H1 & H); try (apply lift_inv in H1 as [H1 ->]).

(** A relation between the states before and after, whatever the outcome. *)
Section steps.
Context {S E : Type} (R : relation S) `{!PreOrder R}.

Definition steps {A} (m : M S E A) : Prop := ∀ s, R s (m s).2.

Lemma steps_ret {A} (a : A) : steps (mret a).
Proof. intros s. reflexivity. Qed.

Lemma steps_fail {A} e : steps (fail e : M S E A).
Proof. intros s. reflexivity. Qed.

Lemma steps_lift {A} (r : result E A) : steps (lift r).
Proof. intros s. reflexivity. Qed.

Lemma steps_get : steps get.
Proof. intros s. reflexivity. Qed.

Lemma steps_bind {A B} (m : M S E A) (f : A → M S E B) :
  steps m → (∀ a, steps (f a)) → steps (m ≫= f).
Proof.
  intros Hm Hf s. specialize (Hm s). unfold mbind, M_mbind.
  destruct (m s) as [[a|e|] s1]; cbn in *; [|done|done]. etrans; [exact Hm|apply Hf].
Qed.

Lemma steps_get_bind {B} (f : S → M S E B) : (∀ s, R s (f s s).2) → steps (get ≫= f).
Proof. intros Hf s. apply Hf. Qed.

Lemma steps_with_lock {A} poisoned poison on_poison (m : M S E A) :
  (∀ s, R s (poison s)) → steps m → steps (with_lock poisoned poison on_poison m).
Proof.
  intros Hp Hm s. unfold with_lock. destruct (poisoned s); [reflexivity|].
  specialize (Hm s). destruct (m s) as [[a|e|] s1]; cbn in *; [done|done|]. by etrans.
Qed.
End steps.

Lemma steps_catch {S E E'} (R : relation S) {A} (f : E → E') (m : M S E A) :
  steps R m → steps R (catch_err f m).
Proof. intros Hm s. specialize (Hm s). unfold catch_err. by destruct (m s). Qed.

#[export] Hint Resolve steps_ret steps_fail steps_lift steps_get steps_bind steps_catch : steps.

(** [if cond { return Err(e) }] in front of the rest of a handler. *)
Definition guard_err {E} (b : bool) (e : E) : result E () := if b then Err e else Ok tt.

Lemma guard_err_Ok {E} (b : bool) (e : E) (u : ()) : guard_err b e = Ok u ↔ b = false.
Proof. destruct b, u; cbn; naive_solver. Qed.

(** ** Tactics *)

(** Split a hypothesis [r1 ≫= f = Ok _] into its successful steps. *)
Ltac res_inv :=
  repeat match goal with
  | H : _ ≫= _ = Ok _ |- _ => apply result_bind_Ok in H as (? & ? & H)
  | H : map_err _ _ = Ok _ |- _ => apply map_err_Ok in H
  | H : ok_or _ _ = Ok _ |- _ => apply ok_or_Ok in H
  | H : expect _ = Ok _ |- _ => apply expect_Ok in H
  | H : guard_err _ _ = Ok _ |- _ => apply guard_err_Ok in H
  | H : Ok _ = Ok _ |- _ => injection H as H
  | H : Err _ = Ok _ |- _ => discriminate H
  | H : Panic = Ok _ |- _ => discriminate H
  end.

(** Turn the boolean tests a handler passed into propositions. *)
Ltac bool_facts :=
  repeat match goal with
  | H : negb _ = false |- _ => apply negb_false_iff in H
  | H : negb _ = true |- _ => apply negb_true_iff in H
  | H : _ || _ = false |- _ => apply orb_false_iff in H as [? H]
  | H : bool_decide (_ ≠ _) = false |- _ => apply bool_decide_eq_false, dec_stable in H
  | H : bool_decide _ = true |- _ => apply bool_decide_eq_true in H
  | H : bool_decide _ = false |- _ => apply bool_decide_eq_false in H
  | H : (_ =? _)%Z = true |- _ => apply Z.eqb_eq in H
  | H : (_ =? _)%Z = false |- _ => apply Z.eqb_neq in H
  | H : (_ <=? _)%Z = false |- _ => apply Z.leb_gt in H
  | H : (_ <? _)%Z = false |- _ => apply Z.ltb_ge in H
  end.

(** Case analysis on the tests of a handler, closing impossible branches. *)
Ltac split_if :=
  match goal with
  | |- context [if ?b then _ else _] => destruct b eqn:?
  | H : context [if ?b then _ else _] |- _ => destruct b eqn:?
  end; try done.

(** Run a handler over its next successful step. *)
Ltac ok_step :=
  cbn [map_err ok_or negb orb guard_err]; rewrite result_Ok_bind; cbn beta zeta.

(** ** Machine widths *)

Definition fits (w : Z) (z : Z) : Prop := (0 ≤ z < 2 ^ w)%Z.
#[export] Instance fits_dec w z : Decision (fits w z) := _.

Definition wrap (w : Z) (z : Z) : Z := (z mod 2 ^ w)%Z.

(** Rust's [as i64] from an unsigned integer: truncate, then two's complement. *)
Definition as_signed (w : Z) (z : Z) : Z :=
  let m := wrap w z in (if m <? 2 ^ (w - 1) then m else m - 2 ^ w)%Z.

Lemma wrap_fits w z : (0 ≤ w)%Z → fits w (wrap w z).
Proof. intros. apply Z.mod_pos_bound. lia. Qed.

Lemma wrap_id w z : fits w z → wrap w z = z.
Proof. intros []. by apply Z.mod_small. Qed.

Lemma as_signed_small w z : (0 < w)%Z → fits (w - 1) z → as_signed w z = z.
Proof.
  intros Hw [Hz1 Hz2]. unfold as_signed.
  assert (2 ^ w = 2 * 2 ^ (w - 1))%Z as Hp.
  { rewrite <- Z.pow_succ_r by lia. f_equal. lia. }
  rewrite wrap_id by (split; lia).
  by destruct (Z.ltb_spec z (2 ^ (w - 1))); [|lia].
Qed.

(** ** Bytes *)

#[export] Instance byte_eq_decision : EqDecision byte := byte_eq_dec.

Definition byte_val (b : byte) : Z := Z.of_N (Byte.to_N b).
Definition byte_of (z : Z) : byte := default x00 (Byte.of_N (Z.to_N (Z.land z 255))).

Lemma byte_of_mod z : byte_of z = default x00 (Byte.of_N (Z.to_N (z mod 256))).
Proof. unfold byte_of. change 255%Z with (Z.ones 8). by rewrite Z.land_ones. Qed.

Lemma byte_val_bound b : (0 ≤ byte_val b < 256)%Z.
Proof. unfold byte_val. pose proof (Byte.to_N_bounded b). lia. Qed.

Lemma byte_of_val b : byte_of (byte_val b) = b.
Proof.
  pose proof (byte_val_bound b). rewrite byte_of_mod, Z.mod_small by lia.
  unfold byte_val. rewrite N2Z.id, Byte.of_to_N. done.
Qed.

Lemma byte_val_of z : byte_val (byte_of z) = (z mod 256)%Z.
Proof.
  pose proof (Z.mod_pos_bound z 256 ltac:(lia)) as Hb. rewrite byte_of_mod. unfold byte_val.
  destruct (Byte.of_N (Z.to_N (z mod 256))) as [b|] eqn:E.
  - apply Byte.to_of_N in E. change (default x00 (Some b)) with b. rewrite E. lia.
  - apply Byte.of_N_None_iff in E. lia.
Qed.

#[export] Instance byte_val_inj : Inj (=) (=) byte_val.
Proof. intros x y H. by rewrite <- (byte_of_val x), <- (byte_of_val y), H. Qed.

(** Big-endian value of a byte string. *)
Definition be_val (l : list byte) : Z :=
  foldl (λ acc b, acc * 256 + byte_val b)%Z 0%Z l.

Lemma be_val_snoc l b : be_val (l ++ [b]) = (be_val l * 256 + byte_val b)%Z.
Proof. unfold be_val. by rewrite foldl_app. Qed.

Lemma be_val_app l k : be_val (l ++ k) = (be_val l * 256 ^ length k + be_val k)%Z.
Proof.
  induction k as [|b k IH] using rev_ind.
  - rewrite app_nil_r. cbn. lia.
  - rewrite app_assoc, !be_val_snoc, IH, length_app, Nat2Z.inj_add. cbn [length].
    rewrite Z.pow_add_r by lia. lia.
Qed.

Lemma be_val_cons b l : be_val (b :: l) = (byte_val b * 256 ^ length l + be_val l)%Z.
Proof. change (b :: l) with ([b] ++ l). rewrite be_val_app. cbn. lia. Qed.

Lemma be_val_bound l : (0 ≤ be_val l < 256 ^ length l)%Z.
Proof.
  induction l as [|b l IH] using rev_ind; [cbn; lia|].
  rewrite be_val_snoc, length_app, Nat2Z.inj_add, Z.pow_add_r by lia.
  pose proof (byte_val_bound b). cbn [length]. lia.
Qed.

Lemma be_val_replicate n l : be_val (replicate n x00 ++ l) = be_val l.
Proof.
  induction n; [done|]. cbn [replicate app]. by rewrite be_val_cons, IHn.
Qed.

Lemma be_val_inj l k : length l = length k → be_val l = be_val k → l = k.
Proof.
  revert k. induction l as [|b l IH] using rev_ind; intros k Hl Hv.
  - by destruct k.
  - destruct k as [|c k] using rev_ind; [rewrite length_app in Hl; cbn in Hl; lia|].
    clear IHk. rewrite !length_app in Hl; cbn in Hl.
    rewrite !be_val_snoc in Hv.
    pose proof (byte_val_bound b). pose proof (byte_val_bound c).
    assert (byte_val b = byte_val c) as ->%byte_val_inj by lia.
    rewrite (IH k); [done|lia|lia].
Qed.

(** [to_be_bytes]: the [n] low-order bytes, most significant first. *)
Fixpoint be_bytes (n : nat) (z : Z) : vec byte n :=
  match n with
  | O => [#]
  | S m => byte_of (Z.shiftr z (8 * m)) ::: be_bytes m z
  end.

Lemma be_val_be_bytes n z : be_val (be_bytes n z) = (z mod 256 ^ n)%Z.
Proof.
  induction n as [|n IH]; [by rewrite Z.mod_1_r|].
  cbn [be_bytes vec_to_list]. rewrite be_val_cons, IH, byte_val_of, length_vec_to_list.
  rewrite Z.shiftr_div_pow2, Z.pow_mul_r by lia. change (2 ^ 8)%Z with 256%Z.
  rewrite Nat2Z.inj_succ, Z.pow_succ_r by lia.
  rewrite (Z.mul_comm 256), Z.rem_mul_r by lia. lia.
Qed.

Lemma be_bytes_val {n} (v : vec byte n) : be_bytes n (be_val v) = v.
Proof.
  apply vec_to_list_inj2, be_val_inj; rewrite ?length_vec_to_list; [done|].
  rewrite be_val_be_bytes, Z.mod_small; [done|].
  pose proof (be_val_bound v) as Hb. by rewrite length_vec_to_list in Hb.
Qed.

#[global] Arguments be_bytes : simpl never.

(** Rust's [PartialOrd] on byte arrays: lexicographic. *)
Fixpoint bytes_ltb (l k : list byte) : bool :=
  match l, k with
  | _, [] => false
  | [], _ :: _ => true
  | b :: l, c :: k =>
      if decide (b = c) then bytes_ltb l k else (byte_val b <? byte_val c)%Z
  end.

Lemma bytes_ltb_val l k :
  length l = length k → bytes_ltb l k = (be_val l <? be_val k)%Z.
Proof.
  revert k. induction l as [|b l IH]; intros [|c k] Hl; try done.
  injection Hl as Hl. cbn [bytes_ltb]. rewrite !be_val_cons, Hl.
  pose proof (be_val_bound l) as H1. pose proof (be_val_bound k) as H2. rewrite Hl in H1.
  destruct (decide (b = c)) as [->|Hne].
  - rewrite IH by done. apply eq_true_iff_eq. rewrite !Z.ltb_lt. lia.
  - assert (byte_val b ≠ byte_val c) by (intros ?%byte_val_inj; done).
    apply eq_true_iff_eq. rewrite !Z.ltb_lt. nia.
Qed.

(** [<[T; N]>::try_from(Vec<T>)]. *)
Fixpoint vec_of_list {A} (n : nat) (l : list A) : option (vec A n) :=
  match n, l with
  | O, [] => Some [#]
  | S m, x :: l => vcons x <$> vec_of_list m l
  | _, _ => None
  end.

Lemma vec_of_list_to_list {A} n (v : vec A n) : vec_of_list n (vec_to_list v) = Some v.
Proof. induction v as [|x n v IH]; cbn; [done|]. by rewrite IH. Qed.

Lemma vec_of_list_Some {A} n (l : list A) v : vec_of_list n l = Some v ↔ l = vec_to_list v.
Proof.
  split; [|intros ->; apply vec_of_list_to_list].
  revert l v. induction n as [|n IH]; intros [|x l] v H; try done.
  - by inv_vec v.
  - cbn in H. destruct (vec_of_list n l) as [w|] eqn:E; [|done]. injection H as <-.
    cbn. f_equal. by apply IH.
Qed.

Lemma vec_of_list_length {A} n (l : list A) :
  is_Some (vec_of_list n l) ↔ length l = n.
Proof.
  split.
  - intros [v ->%vec_of_list_Some]. by rewrite length_vec_to_list.
  - revert l. induction n as [|n IH]; intros [|x l] Hl; try discriminate Hl; [by exists [#]|].
    injection Hl as Hl. destruct (IH l Hl) as [v Hv]. cbn. rewrite Hv. eauto.
Qed.

(** ** Bits, least significant first *)

Fixpoint bits_val (l : list bool) : Z :=
  match l with [] => 0 | b :: l => Z.b2z b + 2 * bits_val l end.

Fixpoint to_bits (n : nat) (z : Z) : vec bool n :=
  match n with O => [#] | S n => Z.odd z ::: to_bits n (Z.div2 z) end.

Lemma bits_val_bound l : (0 ≤ bits_val l < 2 ^ length l)%Z.
Proof.
  induction l as [|b l IH]; cbn [bits_val length]; [cbn; lia|].
  rewrite Nat2Z.inj_succ, Z.pow_succ_r by lia. destruct b; cbn [Z.b2z]; lia.
Qed.

Lemma bits_val_to_bits (n : nat) z : (0 ≤ z < 2 ^ n)%Z → bits_val (to_bits n z) = z.
Proof.
  revert z. induction n as [|n IH]; intros z Hz; cbn [to_bits vec_to_list bits_val]; [cbn in Hz; lia|].
  rewrite Nat2Z.inj_succ, Z.pow_succ_r in Hz by lia.
  pose proof (Z.div2_odd z) as E. rewrite IH; destruct (Z.odd z); cbn [Z.b2z] in *; lia.
Qed.

Lemma to_bits_val n (v : vec bool n) : to_bits n (bits_val v) = v.
Proof.
  induction v as [|b n v IH]; [done|]. cbn [vec_to_list bits_val to_bits].
  pose proof (Z.odd_add_mul_2 (Z.b2z b) (bits_val v)) as Ho. rewrite Ho.
  replace (Z.odd (Z.b2z b)) with b by by destruct b. f_equal.
  rewrite <- IH at 2. f_equal. rewrite Z.div2_div, Z.mul_comm, Z.div_add by lia.
  by destruct b.
Qed.

Lemma testbit_bits_val l (k : nat) : Z.testbit (bits_val l) k = default false (l !! k).
Proof.
  revert k. induction l as [|b l IH]; intros k; [apply Z.testbit_0_l|].
  cbn [bits_val]. destruct k as [|k]; cbn [lookup list_lookup].
  - rewrite Z.add_comm. cbn. rewrite Z.testbit_0_r; by destruct b.
  - rewrite Nat2Z.inj_succ, Z.add_comm. rewrite Z.testbit_succ_r by lia. apply IH.
Qed.

(** ** Bounded search

    [loop { try k; k += 1 }] over the [2^d] counter values from [start]: the
    code's loop on a [d]-bit counter that stops at the first success.  [None]
    when every value was tried. *)
Fixpoint search {A} (f : Z → option A) (d : nat) (start : Z) : option A :=
  match d with
  | O => f start
  | S d' =>
      match search f d' start with
      | Some a => Some a
      | None => search f d' (start + 2 ^ d')%Z
      end
  end.

Lemma search_None {A} (f : Z → option A) d start :
  search f d start = None ↔ ∀ k, (start ≤ k < start + 2 ^ d)%Z → f k = None.
Proof.
  revert start. induction d as [|d IH]; intros start; cbn [search].
  - split; [|intros H; apply H; lia]. intros H k Hk. by assert (k = start) as -> by lia.
  - rewrite Nat2Z.inj_succ, Z.pow_succ_r by lia.
    destruct (search f d start) as [a|] eqn:E.
    + split; [done|]. intros H. exfalso.
      assert (search f d start = None) as Hn by (apply IH; intros k Hk; apply H; lia).
      congruence.
    + rewrite IH. split; intros H k Hk.
      * destruct (decide (k < start + 2 ^ d)%Z).
        -- apply (proj1 (IH start) E). lia.
        -- apply H. lia.
      * apply H. lia.
Qed.

Lemma search_Some {A} (f : Z → option A) d start a :
  search f d start = Some a →
  ∃ k, (start ≤ k < start + 2 ^ d)%Z ∧ f k = Some a ∧
       ∀ j, (start ≤ j < k)%Z → f j = None.
Proof.
  revert start. induction d as [|d IH]; intros start; cbn [search].
  - intros H. exists start. repeat split; [lia..|done|intros; lia].
  - rewrite Nat2Z.inj_succ, Z.pow_succ_r by lia.
    destruct (search f d start) as [b|] eqn:E; intros H.
    + injection H as ->. destruct (IH _ E) as (k & Hk & ?). exists k. split; [lia|done].
    + destruct (IH _ H) as (k & Hk & Hf & Hmin). exists k. split; [lia|]. split; [done|].
      intros j Hj. destruct (decide (j < start + 2 ^ d)%Z).
      * by apply (proj1 (search_None f d start) E); lia.
      * apply Hmin. lia.
Qed.

(** The loop is used through these two lemmas; it is only evaluated on concrete
    input. *)
#[global] Opaque search.
