(* ===== verification/Felt.v ===== *)
(** * Field-element encoding ([zkapi-types]: felt.rs, serialization.rs, domain.rs)

    [Felt252] is the program's 32-byte big-endian array.  The hexadecimal
    reader is modelled on UTF-8 bytes, with the panics of [str] slicing and the
    exact digit rules of [u8::from_str_radix]. *)
From S2P Require Import Prelude.

(** ** Strings as UTF-8 bytes *)

Definition str_bytes (s : string) : list byte := list_byte_of_string s.
Definition str_of (l : list byte) : string := string_of_list_byte l.

Lemma str_bytes_of l : str_bytes (str_of l) = l.
Proof. apply list_byte_of_string_of_list_byte. Qed.

Lemma str_of_bytes s : str_of (str_bytes s) = s.
Proof. apply string_of_list_byte_of_string. Qed.

#[export] Instance str_bytes_inj : Inj (=) (=) str_bytes.
Proof. intros s t H. by rewrite <- (str_of_bytes s), <- (str_of_bytes t), H. Qed.

(** A UTF-8 continuation byte [10xxxxxx]. *)
Definition is_cont (b : byte) : bool := (128 <=? byte_val b)%Z && (byte_val b <? 192)%Z.

(** [s.chars().count()]. *)
Definition char_count (l : list byte) : nat := length (filter (λ b, ¬ is_cont b) l).

(** [str::is_char_boundary]. *)
Definition is_char_boundary (l : list byte) (i : nat) : bool :=
  match i with
  | O => true
  | _ => match l !! i with
         | Some b => negb (is_cont b)
         | None => bool_decide (i = length l)
         end
  end.

(** [&s[i..j]]: panics off a character boundary. *)
Definition str_slice {E} (l : list byte) (i j : nat) : result E (list byte) :=
  if bool_decide (i ≤ j ≤ length l)%nat && is_char_boundary l i && is_char_boundary l j
  then Ok (take (j - i) (drop i l)) else Panic.

(** [s.strip_prefix(p).unwrap_or(s)]. *)
Definition strip_prefix_or (p l : list byte) : list byte :=
  if bool_decide (take (length p) l = p) then drop (length p) l else l.

(** [format!("{:0>64}", s)]: left padding counts characters, not bytes. *)
Definition pad_left (n : nat) (l : list byte) : list byte :=
  replicate (n - char_count l) x30 ++ l.

(** ** [u8::from_str_radix(_, 16)] *)

Inductive ParseIntError : Type := Empty | InvalidDigit | PosOverflow.

Definition ParseIntError_display (e : ParseIntError) : string :=
  match e with
  | Empty => "cannot parse integer from empty string"
  | InvalidDigit => "invalid digit found in string"
  | PosOverflow => "number too large to fit in target type"
  end.

(** [char::to_digit(16)] on an ASCII byte. *)
Definition hex_digit (b : byte) : option Z :=
  let v := byte_val b in
  if (48 <=? v)%Z && (v <=? 57)%Z then Some (v - 48)%Z
  else if (97 <=? v)%Z && (v <=? 102)%Z then Some (v - 87)%Z
  else if (65 <=? v)%Z && (v <=? 70)%Z then Some (v - 55)%Z
  else None.

Fixpoint radix16_digits (acc : Z) (l : list byte) : result ParseIntError Z :=
  match l with
  | [] => Ok acc
  | b :: l =>
      match hex_digit b with
      | None => Err InvalidDigit
      | Some d =>
          let acc' := (acc * 16 + d)%Z in
          if (256 <=? acc')%Z then Err PosOverflow else radix16_digits acc' l
      end
  end.

(** Unsigned [from_str_radix]: one leading ["+"] is accepted. *)
Definition u8_from_str_radix16 (l : list byte) : result ParseIntError byte :=
  match l with
  | [] => Err Empty
  | [x2b] | [x2d] => Err InvalidDigit
  | x2b :: rest => byte_of <$> radix16_digits 0 rest
  | _ => byte_of <$> radix16_digits 0 l
  end.

(** The loop [for i in 0..n { bytes[i] = from_str_radix(&padded[2i..2i+2])? }]. *)
Fixpoint parse_pairs {E} (on_err : ParseIntError → E) (padded : list byte) (i n : nat) :
  result E (vec byte n) :=
  match n with
  | O => Ok [#]
  | S m =>
      p ← str_slice padded (i * 2) (i * 2 + 2);
      b ← map_err on_err (u8_from_str_radix16 p);
      v ← parse_pairs on_err padded (S i) m;
      Ok (b ::: v)
  end.

(** ** [Felt252] *)

Record Felt252 : Type := Felt { felt_bytes : vec byte 32 }.

#[export] Instance Felt252_eq_dec : EqDecision Felt252.
Proof. solve_decision. Defined.

Definition felt_val (f : Felt252) : Z := be_val (felt_bytes f).

Definition FIELD_MODULUS_HEX : string :=
  "0x30644e72e131a029b85045b68181585d2833e84879b9709143e1f593f0000001".

Definition ZERO : Felt252 := Felt (vreplicate 32 x00).
Definition ONE : Felt252 := Felt (vreplicate 31 x00 +++ [# x01]).

Definition from_u64 (val : Z) : Felt252 := Felt (vreplicate 24 x00 +++ be_bytes 8 val).
Definition from_u128 (val : Z) : Felt252 := Felt (vreplicate 16 x00 +++ be_bytes 16 val).

Definition field_modulus_bytes {E} : result E (vec byte 32) :=
  let hex := strip_prefix_or (str_bytes "0x") (str_bytes FIELD_MODULUS_HEX) in
  match parse_pairs id hex 0 32 with Ok v => Ok v | _ => Panic end.

Definition try_from_bytes_be (bytes : vec byte 32) : result string Felt252 :=
  m ← field_modulus_bytes;
  if negb (bytes_ltb bytes (vec_to_list m))
  then Err "field element must be below the BN254 scalar modulus"
  else Ok (Felt bytes).

Definition from_hex_checked (s : string) : result string Felt252 :=
  let s := strip_prefix_or (str_bytes "0x") (str_bytes s) in
  let s := strip_prefix_or (str_bytes "0X") s in
  if (64 <? length s)%nat then Err "hex string too long for felt252"
  else
    bytes ← parse_pairs (λ e, "invalid hex: " +:+ ParseIntError_display e)
              (pad_left 64 s) 0 32;
    try_from_bytes_be bytes.

Definition from_hex (s : string) : result string Felt252 := from_hex_checked s.

(** Lower-case hexadecimal digit of a nibble, as [{:02x}] prints it. *)
Definition hex_char (d : Z) : byte := byte_of (if (d <? 10)%Z then 48 + d else 87 + d)%Z.
Definition hex_of_byte (b : byte) : list byte :=
  [hex_char (byte_val b / 16); hex_char (byte_val b mod 16)].
Definition hex_encode (l : list byte) : list byte := l ≫= hex_of_byte.

(** [trim_start_matches('0')]. *)
Fixpoint trim_zeros (l : list byte) : list byte :=
  match l with
  | x30 :: l => trim_zeros l
  | _ => l
  end.

Definition to_hex (f : Felt252) : string :=
  let trimmed := trim_zeros (hex_encode (felt_bytes f)) in
  match trimmed with
  | [] => "0x0"
  | _ => "0x" +:+ str_of trimmed
  end.

Definition is_zero (f : Felt252) : bool := bool_decide (felt_bytes f = vreplicate 32 x00).

Definition to_u64 (f : Felt252) : option Z :=
  if negb (bool_decide (take 24 (felt_bytes f) = replicate 24 x00)) then None
  else Some (be_val (drop 24 (felt_bytes f))).

Definition to_u128 (f : Felt252) : option Z :=
  if negb (bool_decide (take 16 (felt_bytes f) = replicate 16 x00)) then None
  else Some (be_val (drop 16 (felt_bytes f))).

(** ** serialization.rs *)

Definition address_to_felt (addr : vec byte 20) : Felt252 :=
  Felt (vreplicate 12 x00 +++ addr).

Definition felt_to_address (f : Felt252) : option (vec byte 20) :=
  if negb (bool_decide (take 12 (felt_bytes f) = replicate 12 x00)) then None
  else vec_of_list 20 (drop 12 (felt_bytes f)).

Definition bool_to_felt (b : bool) : Felt252 := if b then ONE else ZERO.

Definition felt_to_bool (f : Felt252) : option bool :=
  if decide (f = ZERO) then Some false
  else if decide (f = ONE) then Some true
  else None.

(** ** domain.rs *)

(** A Rust [const]: it exists when its evaluation does not panic. *)
Definition const_eval {E A} (r : result E A) : match r with Ok _ => A | _ => () end :=
  match r with Ok a => a | _ => tt end.

Definition domain_felt (label : list byte) : result string Felt252 :=
  if (length label <=? 31)%nat
  then match vec_of_list 32 (replicate (32 - length label) x00 ++ label) with
       | Some v => Ok (Felt v)
       | None => Panic
       end
  else Panic.

Definition DOMAIN_REG : Felt252 := const_eval (domain_felt (str_bytes "zkapi.reg")).
Definition DOMAIN_LEAF : Felt252 := const_eval (domain_felt (str_bytes "zkapi.leaf")).
Definition DOMAIN_NODE : Felt252 := const_eval (domain_felt (str_bytes "zkapi.node")).
Definition DOMAIN_NULL : Felt252 := const_eval (domain_felt (str_bytes "zkapi.null")).
Definition DOMAIN_STATE : Felt252 := const_eval (domain_felt (str_bytes "zkapi.state")).
Definition DOMAIN_CLEAR : Felt252 := const_eval (domain_felt (str_bytes "zkapi.clear")).
Definition DOMAIN_REQPUB : Felt252 := const_eval (domain_felt (str_bytes "zkapi.reqpub")).
Definition DOMAIN_WDPUB : Felt252 := const_eval (domain_felt (str_bytes "zkapi.wdpub")).
Definition DOMAIN_BAL_G : Felt252 := const_eval (domain_felt (str_bytes "zkapi.bal.g")).
Definition DOMAIN_BAL_H : Felt252 := const_eval (domain_felt (str_bytes "zkapi.bal.h")).
Definition DOMAIN_XMSS_LEAF : Felt252 := const_eval (domain_felt (str_bytes "zkapi.xmss.leaf")).
Definition DOMAIN_XMSS_NODE : Felt252 := const_eval (domain_felt (str_bytes "zkapi.xmss.node")).
Definition DOMAIN_XMSS_CHAIN : Felt252 := const_eval (domain_felt (str_bytes "zkapi.xmss.chain")).
Definition DOMAIN_XMSS_MSG : Felt252 := const_eval (domain_felt (str_bytes "zkapi.xmss.msg")).
Definition DOMAIN_XMSS_SK : Felt252 := const_eval (domain_felt (str_bytes "zkapi.xmss.sk")).
Definition DOMAIN_ANCHOR : Felt252 := const_eval (domain_felt (str_bytes "zkapi.anchor")).
Definition DOMAIN_BLIND : Felt252 := const_eval (domain_felt (str_bytes "zkapi.blind")).

Record DomainTag : Type := { label : string; tag_felt : Felt252 }.

Definition DOMAIN_TAGS : list DomainTag :=
  [ {| label := "zkapi.reg"; tag_felt := DOMAIN_REG |};
    {| label := "zkapi.leaf"; tag_felt := DOMAIN_LEAF |};
    {| label := "zkapi.node"; tag_felt := DOMAIN_NODE |};
    {| label := "zkapi.null"; tag_felt := DOMAIN_NULL |};
    {| label := "zkapi.state"; tag_felt := DOMAIN_STATE |};
    {| label := "zkapi.clear"; tag_felt := DOMAIN_CLEAR |};
    {| label := "zkapi.reqpub"; tag_felt := DOMAIN_REQPUB |};
    {| label := "zkapi.wdpub"; tag_felt := DOMAIN_WDPUB |};
    {| label := "zkapi.bal.g"; tag_felt := DOMAIN_BAL_G |};
    {| label := "zkapi.bal.h"; tag_felt := DOMAIN_BAL_H |};
    {| label := "zkapi.xmss.leaf"; tag_felt := DOMAIN_XMSS_LEAF |};
    {| label := "zkapi.xmss.node"; tag_felt := DOMAIN_XMSS_NODE |};
    {| label := "zkapi.xmss.chain"; tag_felt := DOMAIN_XMSS_CHAIN |};
    {| label := "zkapi.xmss.msg"; tag_felt := DOMAIN_XMSS_MSG |};
    {| label := "zkapi.xmss.sk"; tag_felt := DOMAIN_XMSS_SK |};
    {| label := "zkapi.anchor"; tag_felt := DOMAIN_ANCHOR |};
    {| label := "zkapi.blind"; tag_felt := DOMAIN_BLIND |} ].

(** ** Field range *)

Definition FIELD_MODULUS : Z :=
  21888242871839275222246405745257275088548364400416034343698204186575808495617.

(** Canonical encodings: the values [try_from_bytes_be] accepts. *)
Definition canonical (f : Felt252) : Prop := (felt_val f < FIELD_MODULUS)%Z.

Lemma field_modulus_bytes_ok {E} : @field_modulus_bytes E = Ok (be_bytes 32 FIELD_MODULUS).
Proof. vm_compute. reflexivity. Qed.

Lemma try_from_bytes_be_spec b :
  try_from_bytes_be b =
    if (be_val b <? FIELD_MODULUS)%Z then Ok (Felt b)
    else Err "field element must be below the BN254 scalar modulus".
Proof.
  unfold try_from_bytes_be. rewrite field_modulus_bytes_ok. cbn [mbind result_mbind result_bind].
  rewrite bytes_ltb_val by by rewrite !length_vec_to_list.
  rewrite be_val_be_bytes, Z.mod_small by (vm_compute; split; [discriminate|reflexivity]).
  by destruct (be_val b <? FIELD_MODULUS)%Z.
Qed.

Lemma try_from_bytes_be_canonical b f :
  try_from_bytes_be b = Ok f → canonical f ∧ felt_bytes f = b.
Proof.
  rewrite try_from_bytes_be_spec. destruct (Z.ltb_spec (be_val b) FIELD_MODULUS); [|done].
  by intros [= <-].
Qed.

Lemma felt_val_bound f : fits 256 (felt_val f).
Proof.
  unfold fits, felt_val. pose proof (be_val_bound (felt_bytes f)) as H.
  rewrite length_vec_to_list in H. exact H.
Qed.

#[export] Instance felt_val_inj : Inj (=) (=) felt_val.
Proof.
  intros [v] [w] H. f_equal. apply vec_to_list_inj2, be_val_inj; [|done].
  by rewrite !length_vec_to_list.
Qed.

Lemma canonical_try_from_bytes_be f : canonical f → try_from_bytes_be (felt_bytes f) = Ok f.
Proof.
  intros Hc. rewrite try_from_bytes_be_spec. change (be_val (felt_bytes f)) with (felt_val f).
  rewrite (proj2 (Z.ltb_lt _ _) Hc). by destruct f.
Qed.

(** ** Integers in felts *)

Lemma felt_val_pad n m (H : (n + m = 32)%nat) (v : vec byte m) (f : Felt252) :
  vec_to_list (felt_bytes f) = replicate n x00 ++ v → felt_val f = be_val v.
Proof. intros Hf. unfold felt_val. rewrite Hf. apply be_val_replicate. Qed.

Lemma felt_val_from_u64 z : felt_val (from_u64 z) = (z mod 2 ^ 64)%Z.
Proof.
  rewrite (felt_val_pad 24 8 eq_refl (be_bytes 8 z)); [apply be_val_be_bytes|].
  etrans; [exact (vec_to_list_app (vreplicate 24 x00) (be_bytes 8 z))|].
  by rewrite vec_to_list_replicate.
Qed.

Lemma felt_val_from_u128 z : felt_val (from_u128 z) = (z mod 2 ^ 128)%Z.
Proof.
  rewrite (felt_val_pad 16 16 eq_refl (be_bytes 16 z)); [apply be_val_be_bytes|].
  etrans; [exact (vec_to_list_app (vreplicate 16 x00) (be_bytes 16 z))|].
  by rewrite vec_to_list_replicate.
Qed.

Lemma from_u64_inj x y : fits 64 x → fits 64 y → from_u64 x = from_u64 y → x = y.
Proof.
  intros Hx Hy H%(f_equal felt_val). rewrite !felt_val_from_u64 in H.
  by rewrite !Z.mod_small in H.
Qed.

Lemma from_u128_inj x y : fits 128 x → fits 128 y → from_u128 x = from_u128 y → x = y.
Proof.
  intros Hx Hy H%(f_equal felt_val). rewrite !felt_val_from_u128 in H.
  by rewrite !Z.mod_small in H.
Qed.

(** A big-endian string of [n + m] bytes starts with [n] zeros iff its value
    fits in its [m] low bytes. *)
Lemma be_val_high_zero n m (l : list byte) :
  length l = (n + m)%nat →
  take n l = replicate n x00 ↔ (be_val l < 256 ^ m)%Z.
Proof.
  intros Hl. rewrite <- (take_drop n l) at 2. rewrite be_val_app, length_drop, Hl.
  replace (n + m - n)%nat with m by lia.
  pose proof (be_val_bound (drop n l)) as Hd. rewrite length_drop, Hl in Hd.
  replace (n + m - n)%nat with m in Hd by lia.
  pose proof (be_val_bound (take n l)) as Ht.
  assert (be_val (replicate n x00) = 0%Z) as H0.
  { pose proof (be_val_replicate n []) as E. by rewrite app_nil_r in E. }
  split.
  - intros ->. lia.
  - intros H. apply be_val_inj; [rewrite length_take, length_replicate; lia|]. nia.
Qed.

Lemma to_uint_spec n m (f : Felt252) v :
  (n + m = 32)%nat →
  (if negb (bool_decide (take n (felt_bytes f) = replicate n x00)) then None
   else Some (be_val (drop n (felt_bytes f)))) = Some v ↔
  felt_val f = v ∧ (v < 256 ^ m)%Z.
Proof.
  intros Hnm. assert (length (vec_to_list (felt_bytes f)) = (n + m)%nat) as Hl.
  { by rewrite length_vec_to_list. }
  pose proof (be_val_high_zero n m _ Hl) as Hz.
  case_bool_decide as Hd; cbn [negb].
  - assert (felt_val f = be_val (drop n (felt_bytes f))) as Hv.
    { unfold felt_val. rewrite <- (take_drop n (vec_to_list (felt_bytes f))), Hd at 1.
      apply be_val_replicate. }
    apply Hz in Hd. fold (felt_val f) in Hd. rewrite Hv in Hd. rewrite Hv.
    split; [intros [= <-]; auto|intros [-> _]; done].
  - split; [done|]. intros [<- Hlt]. destruct Hd. by apply Hz.
Qed.

Lemma is_zero_ZERO f : is_zero f = true ↔ f = ZERO.
Proof.
  unfold is_zero. rewrite bool_decide_eq_true. split; [|by intros ->].
  destruct f; cbn. by intros ->.
Qed.

Lemma to_u64_spec f v : to_u64 f = Some v ↔ felt_val f = v ∧ (v < 2 ^ 64)%Z.
Proof. exact (to_uint_spec 24 8 f v eq_refl). Qed.

Lemma to_u128_spec f v : to_u128 f = Some v ↔ felt_val f = v ∧ (v < 2 ^ 128)%Z.
Proof. exact (to_uint_spec 16 16 f v eq_refl). Qed.

(** ** Hexadecimal *)

Definition ascii (b : byte) : Prop := is_cont b = false.

Lemma char_boundary_ascii l i : Forall ascii l → (i ≤ length l)%nat → is_char_boundary l i = true.
Proof.
  intros Ha Hi. destruct i as [|i]; [done|]. cbn [is_char_boundary].
  destruct (l !! S i) as [b|] eqn:E.
  - rewrite Forall_lookup in Ha. by rewrite (Ha _ _ E).
  - apply lookup_ge_None in E. apply bool_decide_eq_true. lia.
Qed.

Lemma char_count_ascii l : Forall ascii l → char_count l = length l.
Proof.
  unfold char_count. induction 1 as [|b l Hb _ IH]; [done|].
  rewrite filter_cons_True by (unfold ascii in Hb; rewrite Hb; intros []). cbn. by rewrite IH.
Qed.

(** The two digits [{:02x}] prints read back as the byte, and are ASCII digits
    or lower-case letters. *)
Lemma hex_of_byte_spec b :
  u8_from_str_radix16 (hex_of_byte b) = Ok b ∧
  Forall (λ c, ascii c ∧ c ≠ x58) (hex_of_byte b).
Proof.
  assert (∀ c, (λ b, u8_from_str_radix16 (hex_of_byte b) = Ok b ∧
    forallb (λ c, negb (is_cont c) && negb (bool_decide (c = x58))) (hex_of_byte b) = true) c)
    as H by (intros []; vm_compute; auto).
  destruct (H b) as [H1 H2]. split; [done|].
  apply Forall_forall. intros c Hc. rewrite List.forallb_forall in H2.
  specialize (H2 c (proj1 (list_elem_of_In _ _) Hc)).
  apply andb_true_iff in H2 as [Ha%negb_true_iff Hx%negb_true_iff%bool_decide_eq_false].
  by split.
Qed.

Lemma hex_encode_ascii l : Forall (λ c, ascii c ∧ c ≠ x58) (hex_encode l).
Proof.
  apply Forall_bind, Forall_true. intros b. apply hex_of_byte_spec.
Qed.

Lemma hex_encode_length l : length (hex_encode l) = (length l * 2)%nat.
Proof.
  induction l as [|b l IH]; [done|].
  change (hex_encode (b :: l)) with (hex_of_byte b ++ hex_encode l).
  rewrite length_app, IH. cbn. lia.
Qed.

Lemma str_slice_ascii {E} l i j :
  Forall ascii l → (i ≤ j ≤ length l)%nat → @str_slice E l i j = Ok (take (j - i) (drop i l)).
Proof.
  intros Ha Hij. unfold str_slice.
  rewrite (bool_decide_eq_true_2 _ Hij), !char_boundary_ascii by (done || lia). done.
Qed.

Lemma parse_pairs_hex {E} (e : ParseIntError → E) pre n (v : vec byte n) i :
  Forall ascii pre → length pre = (i * 2)%nat →
  parse_pairs e (pre ++ hex_encode v) i n = Ok v.
Proof.
  revert pre i. induction v as [|b n v IH]; intros pre i Ha Hl; [done|].
  cbn [parse_pairs vec_to_list].
  assert (Forall ascii (pre ++ hex_encode (b :: v))) as Hall.
  { apply Forall_app. split; [done|]. eapply Forall_impl; [apply hex_encode_ascii|]. by intros ? []. }
  rewrite str_slice_ascii; [|done|rewrite length_app, hex_encode_length; cbn; lia].
  cbn [mbind result_mbind result_bind].
  replace (i * 2 + 2 - i * 2)%nat with 2%nat by lia.
  rewrite <- Hl, drop_app_length.
  change (take 2 (hex_encode (b :: v))) with (hex_of_byte b).
  rewrite (proj1 (hex_of_byte_spec b)). cbn [map_err result_bind].
  change (hex_encode (b :: v)) with (hex_of_byte b ++ hex_encode v). rewrite app_assoc.
  rewrite IH; [done| |rewrite length_app, Hl; cbn; lia].
  apply Forall_app. split; [done|].
  eapply Forall_impl; [apply (hex_of_byte_spec b)|]. by intros ? [].
Qed.

Lemma trim_zeros_spec l : ∃ k, l = replicate k x30 ++ trim_zeros l.
Proof.
  induction l as [|b l [k IH]]; [by exists 0%nat|].
  destruct (decide (b = x30)) as [->|Hne].
  - exists (S k). cbn. by rewrite <- IH.
  - exists 0%nat. by destruct b.
Qed.

Lemma strip_prefix_0x l : strip_prefix_or (str_bytes "0x") (x30 :: x78 :: l) = l.
Proof. unfold strip_prefix_or. by rewrite bool_decide_eq_true_2. Qed.

Lemma strip_prefix_0X_lower l :
  Forall (λ c, c ≠ x58) l → strip_prefix_or (str_bytes "0X") l = l.
Proof.
  intros Hl. unfold strip_prefix_or. rewrite bool_decide_eq_false_2; [done|].
  change (str_bytes "0X") with [x30; x58]. destruct l as [|a [|b l]]; cbn; try done.
  intros [= -> ->]. inversion Hl as [|? ? _ Hl']. by inversion Hl'.
Qed.

Lemma str_bytes_app s t : str_bytes (s +:+ t) = str_bytes s ++ str_bytes t.
Proof.
  induction s as [|c s IH]; [done|].
  change (str_bytes (String c s +:+ t)) with (Ascii.byte_of_ascii c :: str_bytes (s +:+ t)).
  by rewrite IH.
Qed.

(** [to_hex] prints ["0x"] and the digits without leading zeros; zero is
    ["0x0"]. *)
Lemma to_hex_bytes f : ∃ t k,
  str_bytes (to_hex f) = x30 :: x78 :: t ∧
  hex_encode (felt_bytes f) = replicate k x30 ++ t.
Proof.
  unfold to_hex. destruct (trim_zeros_spec (hex_encode (felt_bytes f))) as [k Hk].
  destruct (trim_zeros (hex_encode (felt_bytes f))) as [|c t] eqn:E.
  - assert (k = 64)%nat as ->.
    { apply (f_equal length) in Hk.
      by rewrite hex_encode_length, length_vec_to_list, app_nil_r, length_replicate in Hk. }
    exists [x30], 63%nat. by rewrite Hk.
  - exists (c :: t), k. split; [|done].
    by rewrite str_bytes_app, str_bytes_of.
Qed.

(** Reading what [to_hex] prints gives the field-range check of the bytes. *)
Lemma from_hex_to_hex f : from_hex (to_hex f) = try_from_bytes_be (felt_bytes f).
Proof.
  destruct (to_hex_bytes f) as (t & k & Ht & Hk).
  pose proof (hex_encode_ascii (felt_bytes f)) as Ha. rewrite Hk in Ha.
  apply Forall_app in Ha as [_ Ha].
  assert (length (replicate k x30 ++ t) = 64%nat) as Hlen.
  { by rewrite <- Hk, hex_encode_length, length_vec_to_list. }
  rewrite length_app, length_replicate in Hlen.
  unfold from_hex, from_hex_checked. rewrite Ht, strip_prefix_0x, strip_prefix_0X_lower
    by (eapply Forall_impl; [exact Ha|by intros ? []]).
  destruct (Nat.ltb_spec 64 (length t)); [lia|].
  unfold pad_left. rewrite char_count_ascii by (eapply Forall_impl; [exact Ha|by intros ? []]).
  replace (64 - length t)%nat with k by lia. rewrite <- Hk.
  rewrite <- (app_nil_l (hex_encode _)), parse_pairs_hex by done. done.
Qed.

#[export] Instance to_hex_inj : Inj (=) (=) to_hex.
Proof.
  intros f g Hfg. destruct (to_hex_bytes f) as (t & k & Ht & Hk).
  destruct (to_hex_bytes g) as (t' & k' & Ht' & Hk').
  rewrite Hfg, Ht' in Ht. injection Ht as ->.
  assert (hex_encode (felt_bytes f) = hex_encode (felt_bytes g)) as E.
  { rewrite Hk, Hk'. f_equal. f_equal.
    apply (f_equal length) in Hk, Hk'.
    rewrite hex_encode_length, length_app, length_replicate, length_vec_to_list in Hk, Hk'. lia. }
  assert (@Ok () _ (felt_bytes f) = Ok (felt_bytes g)) as [= H].
  { rewrite <- (parse_pairs_hex (λ _, tt) [] 32 (felt_bytes f) 0) by done.
    rewrite <- (parse_pairs_hex (λ _, tt) [] 32 (felt_bytes g) 0) by done. by rewrite E. }
  destruct f, g; cbn in *. by rewrite H.
Qed.

Lemma from_hex_canonical s f : from_hex s = Ok f → canonical f.
Proof.
  unfold from_hex, from_hex_checked. intros H. repeat split_if. res_inv.
  by apply try_from_bytes_be_canonical in H as [? _].
Qed.

(** A list of ASCII bytes keeps [from_hex] inside string bounds. *)
Lemma parse_pairs_no_panic {E} (e : ParseIntError → E) l i n :
  Forall ascii l → (i * 2 + n * 2 ≤ length l)%nat → parse_pairs e l i n ≠ Panic.
Proof.
  intros Ha. revert i. induction n as [|n IH]; intros i Hl; [done|]. cbn [parse_pairs].
  rewrite str_slice_ascii by (done || lia). cbn [mbind result_mbind result_bind].
  assert (∀ acc m, radix16_digits acc m ≠ Panic) as Hr.
  { intros acc m. revert acc. induction m as [|c m IHm]; intros acc; [done|].
    cbn. destruct (hex_digit c); [|done]. by case_match. }
  set (p := take _ _). destruct (u8_from_str_radix16 p) as [b|err|] eqn:Eu; cbn; [|done|].
  - specialize (IH (S i)). destruct (parse_pairs e l (S i) n); cbn; [done|done|].
    intros _. apply IH; [lia|done].
  - exfalso. revert Eu. unfold u8_from_str_radix16.
    assert (∀ m, byte_of <$> radix16_digits 0 m ≠ Panic) as Hf.
    { intros m. specialize (Hr 0%Z m). by destruct (radix16_digits 0 m). }
    clear -Hf. destruct p as [|c [|d p]]; [done|by destruct c; try apply Hf|].
    destruct c; apply Hf.
Qed.

Lemma Forall_strip_prefix_or (P : byte → Prop) p l :
  Forall P l → Forall P (strip_prefix_or p l).
Proof. intros. unfold strip_prefix_or. case_bool_decide; [by apply Forall_drop|done]. Qed.

(** ** Properties *)

(** Hexadecimal round trip: [from_hex] reads back what [to_hex] printed
    exactly when the stored bytes are below the field modulus, and rejects the
    string otherwise; it never panics on it. *)
Theorem felt_hex_roundtrip (f : Felt252) :
  from_hex (to_hex f) =
    if (felt_val f <? FIELD_MODULUS)%Z then Ok f
    else Err "field element must be below the BN254 scalar modulus".
Proof.
  rewrite from_hex_to_hex, try_from_bytes_be_spec. fold (felt_val f).
  by destruct (felt_val f <? FIELD_MODULUS)%Z, f.
Qed.

(** Totality of the hexadecimal reader on ASCII input: no slice is off a
    character boundary or out of range, and an accepted value is canonical. *)
Theorem from_hex_ascii_total (s : string) :
  Forall ascii (str_bytes s) →
  from_hex s ≠ Panic ∧ ∀ f, from_hex s = Ok f → canonical f.
Proof.
  intros Ha. split; [|intros f; apply from_hex_canonical].
  unfold from_hex, from_hex_checked.
  set (t := strip_prefix_or _ (strip_prefix_or _ _)).
  assert (Forall ascii t) as Ht by by do 2 apply Forall_strip_prefix_or.
  destruct (Nat.ltb_spec 64 (length t)); [done|].
  assert (length (pad_left 64 t) = 64%nat) as Hp.
  { unfold pad_left. rewrite length_app, length_replicate, char_count_ascii by done. lia. }
  assert (Forall ascii (pad_left 64 t)) as Hpa.
  { apply Forall_app. split; [|done]. by apply Forall_replicate. }
  pose proof (parse_pairs_no_panic (λ e, "invalid hex: " +:+ ParseIntError_display e)
    (pad_left 64 t) 0 32 Hpa ltac:(lia)) as Hn.
  destruct (parse_pairs _ _ _ _) as [v|e|]; cbn; [|done|done].
  rewrite try_from_bytes_be_spec. by case_match.
Qed.

Lemma from_hex_ascii_total_witness :
  Forall ascii (str_bytes "0xff") ∧ from_hex "0xff" ≠ Panic.
Proof.
  assert (Forall ascii (str_bytes "0xff")) as H by (repeat constructor).
  split; [exact H|exact (proj1 (from_hex_ascii_total "0xff" H))].
Defined.

(** The reader's behaviour outside well-formed input: a string with a
    two-byte character panics (the padding counts characters, the slices count
    bytes), and a sign in front of a digit is accepted as if it were a zero. *)
Theorem from_hex_malformed :
  from_hex (str_of [xc3; xa9]) = Panic ∧
  from_hex "0x+1" = from_hex "0x01" ∧ from_hex "0x+1" = Ok ONE ∧
  from_hex "0x-1" = Err "invalid hex: invalid digit found in string".
Proof. repeat split; vm_compute; reflexivity. Qed.

(** Integer embeddings: [from_u64]/[from_u128] are exact on their widths and
    [to_u64]/[to_u128] return precisely the values that fit, so the pairs are
    inverse to each other. *)
Theorem felt_int_roundtrip (f : Felt252) (v : Z) :
  (fits 64 v → to_u64 (from_u64 v) = Some v) ∧
  (fits 128 v → to_u128 (from_u128 v) = Some v) ∧
  (to_u64 f = Some v ↔ f = from_u64 v ∧ fits 64 v) ∧
  (to_u128 f = Some v ↔ f = from_u128 v ∧ fits 128 v).
Proof.
  assert (∀ f v, to_u64 f = Some v ↔ f = from_u64 v ∧ fits 64 v) as H64.
  { intros g w. rewrite to_u64_spec. pose proof (felt_val_bound g) as [? _]. split.
    - intros [Hv ?]. assert (fits 64 w) as Hw by (split; lia). split; [|done].
      apply felt_val_inj. by rewrite Hv, felt_val_from_u64, Z.mod_small.
    - intros [-> Hw]. by rewrite felt_val_from_u64, Z.mod_small by done; destruct Hw. }
  assert (∀ f v, to_u128 f = Some v ↔ f = from_u128 v ∧ fits 128 v) as H128.
  { intros g w. rewrite to_u128_spec. pose proof (felt_val_bound g) as [? _]. split.
    - intros [Hv ?]. assert (fits 128 w) as Hw by (split; lia). split; [|done].
      apply felt_val_inj. by rewrite Hv, felt_val_from_u128, Z.mod_small.
    - intros [-> Hw]. by rewrite felt_val_from_u128, Z.mod_small by done; destruct Hw. }
  split; [intros; by apply H64|]. split; [intros; by apply H128|]. split; [apply H64|apply H128].
Qed.

Lemma felt_int_roundtrip_witness : fits 64 7 ∧ to_u64 (from_u64 7) = Some 7%Z.
Proof.
  assert (fits 64 7) as H by (vm_compute; split; [discriminate|reflexivity]).
  split; [exact H|exact (proj1 (felt_int_roundtrip ZERO 7) H)].
Defined.

(** Domain separation: every registered label fits a felt, its constant is
    [domain_felt] of the label (a canonical field element), and the seventeen
    constants are pairwise distinct. *)
Theorem domain_tags_distinct :
  NoDup (tag_felt <$> DOMAIN_TAGS) ∧
  Forall (λ t, domain_felt (str_bytes (label t)) = Ok (tag_felt t) ∧
               canonical (tag_felt t)) DOMAIN_TAGS.
Proof.
  split.
  - assert (bool_decide (NoDup (tag_felt <$> DOMAIN_TAGS)) = true) as H
      by (vm_compute; reflexivity).
    by apply bool_decide_eq_true in H.
  - repeat constructor; vm_compute; reflexivity.
Qed.
