(* ===== verification/Types.v ===== *)
(** * Wire types and public statements ([zkapi-types]: note.rs, wire.rs,
    signature.rs, inputs.rs, lib.rs)

    The data the parties exchange, the flattening of the public statements to
    field elements, and the Keccak hash-to-field loop.  Keccak-256 (crate
    [sha3]) is a parameter. *)
From S2P Require Import Prelude Felt.

(** ** Constants of lib.rs *)
Definition PROTOCOL_VERSION : Z := 2.
Definition MERKLE_DEPTH : nat := 32.
Definition XMSS_TREE_HEIGHT : nat := 20.
Definition WOTS_W : nat := 16.
Definition WOTS_N_BITS : nat := 248.
Definition WOTS_LEN1 : nat := 62.
Definition WOTS_LEN2 : nat := 3.
Definition WOTS_LEN : nat := WOTS_LEN1 + WOTS_LEN2.
Definition CHALLENGE_PERIOD : Z := 86400.
Definition GENESIS_ANCHOR : Z := 1.
Definition STATEMENT_TYPE_REQUEST : Z := 1.
Definition STATEMENT_TYPE_WITHDRAWAL : Z := 2.

Record EpochRoots : Type := {
  er_epoch : Z;
  er_state_root : Felt252;
  er_clear_root : Felt252;
}.

Definition lookup_state_root (roots : list EpochRoots) (epoch : Z) : option Felt252 :=
  (λ x, er_state_root x.2) <$> list_find (λ entry, er_epoch entry = epoch) roots.

Definition lookup_clear_root (roots : list EpochRoots) (epoch : Z) : option Felt252 :=
  (λ x, er_clear_root x.2) <$> list_find (λ entry, er_epoch entry = epoch) roots.

(** ** note.rs *)
Inductive NoteStatus : Type :=
| NS_Uninitialized | NS_Active | NS_PendingWithdrawal | NS_Closed.
#[export] Instance NoteStatus_eq_dec : EqDecision NoteStatus.
Proof. solve_decision. Defined.

Definition note_status_u8 (s : NoteStatus) : Z :=
  match s with
  | NS_Uninitialized => 0 | NS_Active => 1 | NS_PendingWithdrawal => 2 | NS_Closed => 3
  end.

Definition note_status_from_u8 (v : Z) : option NoteStatus :=
  if decide (v = 0%Z) then Some NS_Uninitialized
  else if decide (v = 1%Z) then Some NS_Active
  else if decide (v = 2%Z) then Some NS_PendingWithdrawal
  else if decide (v = 3%Z) then Some NS_Closed
  else None.

Record Note : Type := {
  note_id : Z;
  note_commitment : Felt252;
  note_deposit_amount : Z;
  note_expiry_ts : Z;
  note_status : NoteStatus;
}.

(** An escape withdrawal that waits for its challenge period. *)
Record PendingWithdrawal : Type := {
  pwd_exists : bool;
  pwd_withdrawal_nullifier : Felt252;
  pwd_final_balance : Z;
  pwd_destination : vec byte 20;
  pwd_challenge_deadline : Z;
}.

Inductive NullifierStatus : Type := Reserved | Finalized | ClearanceReserved.
#[export] Instance NullifierStatus_eq_dec : EqDecision NullifierStatus.
Proof. solve_decision. Defined.

(** ** signature.rs *)
Record SchnorrSignature : Type := {
  sig_r_x : Felt252;
  sig_r_y : Felt252;
  sig_s : Felt252;
}.
#[export] Instance SchnorrSignature_eq_dec : EqDecision SchnorrSignature.
Proof. solve_decision. Defined.

Definition IDENTITY : SchnorrSignature := {| sig_r_x := ZERO; sig_r_y := ONE; sig_s := ZERO |}.

Record XmssSignature : Type := {
  xmss_epoch : Z;
  xmss_leaf_index : Z;
  wots_sig : list Felt252;
  auth_path : list Felt252;
}.
#[export] Instance XmssSignature_eq_dec : EqDecision XmssSignature.
Proof. solve_decision. Defined.

Definition validate_for_height (sig : XmssSignature) (expected_height : nat) : result string () :=
  if negb (bool_decide (length (wots_sig sig) = WOTS_LEN))
  then Err ("WOTS+ signature length mismatch: expected " +:+ pretty WOTS_LEN +:+
            ", got " +:+ pretty (length (wots_sig sig)))
  else
    let height := length (auth_path sig) in
    if negb (bool_decide (height = expected_height))
    then Err ("XMSS auth path length mismatch: expected " +:+ pretty expected_height +:+
              ", got " +:+ pretty height)
    else if (32 <=? expected_height)%nat
    then Err "XMSS tree height too large for u32 leaf index"
    else if (2 ^ expected_height <=? xmss_leaf_index sig)%Z
    then Err ("XMSS leaf index " +:+ pretty (xmss_leaf_index sig) +:+
              " exceeds tree capacity " +:+ pretty (2 ^ expected_height)%Z)
    else Ok tt.

Definition validate (sig : XmssSignature) : result string () :=
  validate_for_height sig XMSS_TREE_HEIGHT.

(** ** wire.rs *)
Inductive ProofBackendWire : Type := StwoCairo | Groth16Bn254.
#[export] Instance ProofBackendWire_eq_dec : EqDecision ProofBackendWire.
Proof. solve_decision. Defined.

Record ProofArtifactWire : Type := {
  pa_backend : ProofBackendWire;
  pa_public_output_hash : Felt252;
  pa_proof : string;
}.

Record Groth16ProofWire : Type := {
  gp_backend : ProofBackendWire;
  gp_proof : string;
}.
#[export] Instance Groth16ProofWire_eq_dec : EqDecision Groth16ProofWire.
Proof. solve_decision. Defined.

Record CurvePointWire : Type := { cp_x : Felt252; cp_y : Felt252 }.
#[export] Instance CurvePointWire_eq_dec : EqDecision CurvePointWire.
Proof. solve_decision. Defined.

(** ** inputs.rs: public statements *)
Record RequestPublicInputsV2 : Type := {
  rp2_protocol_version : Z;
  rp2_chain_id : Z;
  rp2_contract_address : Felt252;
  rp2_active_root : Felt252;
  rp2_state_signing_key_x : Felt252;
  rp2_state_signing_key_y : Felt252;
  rp2_request_time : Z;
  rp2_solvency_bound : Z;
  rp2_request_nullifier : Felt252;
  rp2_authorization_tag : Felt252;
  rp2_anonymous_commitment_x : Felt252;
  rp2_anonymous_commitment_y : Felt252;
}.
#[export] Instance RequestPublicInputsV2_eq_dec : EqDecision RequestPublicInputsV2.
Proof. solve_decision. Defined.

Definition request_v2_to_field_elements (p : RequestPublicInputsV2) : vec Felt252 12 :=
  [# from_u64 (rp2_protocol_version p); from_u64 (rp2_chain_id p);
     rp2_contract_address p; rp2_active_root p;
     rp2_state_signing_key_x p; rp2_state_signing_key_y p;
     from_u64 (rp2_request_time p); from_u128 (rp2_solvency_bound p);
     rp2_request_nullifier p; rp2_authorization_tag p;
     rp2_anonymous_commitment_x p; rp2_anonymous_commitment_y p ].

Record WithdrawalPublicInputsV2 : Type := {
  wp2_protocol_version : Z;
  wp2_chain_id : Z;
  wp2_contract_address : Felt252;
  wp2_active_root : Felt252;
  wp2_state_signing_key_x : Felt252;
  wp2_state_signing_key_y : Felt252;
  wp2_clearance_signing_key_x : Felt252;
  wp2_clearance_signing_key_y : Felt252;
  wp2_note_id : Z;
  wp2_final_balance : Z;
  wp2_destination : vec byte 20;
  wp2_withdrawal_nullifier : Felt252;
  wp2_has_clearance : bool;
  wp2_withdrawal_tag : Felt252;
}.

Definition destination_field (p : WithdrawalPublicInputsV2) : Felt252 :=
  Felt (vreplicate 12 x00 +++ wp2_destination p).

Definition withdrawal_v2_to_field_elements (p : WithdrawalPublicInputsV2) : vec Felt252 14 :=
  [# from_u64 (wp2_protocol_version p); from_u64 (wp2_chain_id p);
     wp2_contract_address p; wp2_active_root p;
     wp2_state_signing_key_x p; wp2_state_signing_key_y p;
     wp2_clearance_signing_key_x p; wp2_clearance_signing_key_y p;
     from_u64 (wp2_note_id p); from_u128 (wp2_final_balance p);
     destination_field p; wp2_withdrawal_nullifier p;
     from_u64 (Z.b2z (wp2_has_clearance p)); wp2_withdrawal_tag p ].

Record ApiRequestV2 : Type := {
  ar2_client_request_id : string;
  ar2_payload : string;
  ar2_payload_hash : Felt252;
  ar2_public_inputs : RequestPublicInputsV2;
  ar2_proof : Groth16ProofWire;
}.

Record RequestResponseV2 : Type := {
  rr2_status : string;
  rr2_client_request_id : string;
  rr2_request_nullifier : Felt252;
  rr2_response_code : Z;
  rr2_response_payload : string;
  rr2_response_hash : Felt252;
  rr2_charge_applied : Z;
  rr2_next_commitment : CurvePointWire;
  rr2_next_anchor : Felt252;
  rr2_blind_delta_srv : Felt252;
  rr2_next_state_signature : SchnorrSignature;
  rr2_policy_reason_code : option Z;
  rr2_policy_evidence_hash : option Felt252;
}.

Record ClearanceResponseV2 : Type := {
  cr2_status : string;
  cr2_withdrawal_nullifier : Felt252;
  cr2_signature : SchnorrSignature;
}.

Record RecoveryResponseV2 : Type := {
  rc2_status : string;
  rc2_nullifier_status : string;
  rc2_request_response : option RequestResponseV2;
}.

Record RequestPublicInputs : Type := {
  rp_statement_type : Z;
  rp_protocol_version : Z;
  rp_chain_id : Z;
  rp_contract_address : Felt252;
  rp_active_root : Felt252;
  rp_state_sig_epoch : Z;
  rp_state_sig_root : Felt252;
  rp_request_nullifier : Felt252;
  rp_anon_commitment_x : Felt252;
  rp_anon_commitment_y : Felt252;
  rp_expiry_ts : Z;
  rp_solvency_bound : Z;
}.

Definition request_to_cairo_outputs (p : RequestPublicInputs) : list Felt252 :=
  [ from_u64 (rp_statement_type p); from_u64 (rp_protocol_version p); from_u64 (rp_chain_id p);
    rp_contract_address p; rp_active_root p;
    from_u64 (rp_state_sig_epoch p); rp_state_sig_root p;
    rp_request_nullifier p; rp_anon_commitment_x p; rp_anon_commitment_y p;
    from_u64 (rp_expiry_ts p); from_u128 (rp_solvency_bound p) ].

Record WithdrawalPublicInputs : Type := {
  wp_statement_type : Z;
  wp_protocol_version : Z;
  wp_chain_id : Z;
  wp_contract_address : Felt252;
  wp_active_root : Felt252;
  wp_note_id : Z;
  wp_final_balance : Z;
  wp_destination : vec byte 20;
  wp_withdrawal_nullifier : Felt252;
  wp_is_genesis : bool;
  wp_has_clearance : bool;
  wp_state_sig_epoch : Z;
  wp_state_sig_root : Felt252;
  wp_clear_sig_epoch : Z;
  wp_clear_sig_root : Felt252;
}.

Definition withdrawal_to_cairo_outputs (p : WithdrawalPublicInputs) : list Felt252 :=
  [ from_u64 (wp_statement_type p); from_u64 (wp_protocol_version p); from_u64 (wp_chain_id p);
    wp_contract_address p; wp_active_root p; from_u64 (wp_note_id p);
    from_u128 (wp_final_balance p); Felt (vreplicate 12 x00 +++ wp_destination p);
    wp_withdrawal_nullifier p;
    from_u64 (Z.b2z (wp_is_genesis p)); from_u64 (Z.b2z (wp_has_clearance p));
    from_u64 (wp_state_sig_epoch p); wp_state_sig_root p;
    from_u64 (wp_clear_sig_epoch p); wp_clear_sig_root p ].

Record ApiRequest : Type := {
  ar_client_request_id : string;
  ar_payload : string;
  ar_payload_hash : Felt252;
  ar_public_inputs : RequestPublicInputs;
  ar_proof : ProofArtifactWire;
}.

Record RequestResponse : Type := {
  rr_status : string;
  rr_client_request_id : string;
  rr_request_nullifier : Felt252;
  rr_response_code : Z;
  rr_response_payload : string;
  rr_response_hash : Felt252;
  rr_charge_applied : Z;
  rr_next_commitment : CurvePointWire;
  rr_next_anchor : Felt252;
  rr_blind_delta_srv : Felt252;
  rr_next_state_sig_epoch : Z;
  rr_next_state_sig_root : Felt252;
  rr_next_state_sig : XmssSignature;
  rr_policy_reason_code : option Z;
  rr_policy_evidence_hash : option Felt252;
}.

Record ErrorResponse : Type := {
  er_status : string;
  er_client_request_id : string;
  er_error_code : string;
  er_error_message : string;
  er_retriable : bool;
  er_latest_root : option Felt252;
  er_server_time_ms : option Z;
  er_retry_after_seconds : option Z;
}.

Record ClearanceRequest : Type := { crq_withdrawal_nullifier : Felt252 }.

Record ClearanceResponse : Type := {
  cr_status : string;
  cr_withdrawal_nullifier : Felt252;
  cr_clear_sig_epoch : Z;
  cr_clear_sig_root : Felt252;
  cr_clear_sig : XmssSignature;
}.

Record RecoveryResponse : Type := {
  rc_status : string;
  rc_nullifier_status : string;
  rc_request_response : option RequestResponse;
}.

(** ** Hash to field *)

(** Crate [sha3]: the 32-byte Keccak-256 digest of a byte string. *)
Class Keccak : Type := keccak256 : list byte → vec byte 32.

Section hash_to_felt.
Context {KC : Keccak}.

(** What [h.update] feeds the hasher for one counter value. *)
Definition hash_preimage (domain payload : list byte) (counter : Z) : list byte :=
  domain ++ be_bytes 8 (length payload) ++ payload ++ be_bytes 4 counter.

Definition hash_attempt (domain payload : list byte) (counter : Z) : option Felt252 :=
  result_ok (try_from_bytes_be (keccak256 (hash_preimage domain payload counter))).

(** The loop tries every [u32] counter and panics on [checked_add] overflow. *)
Definition hash_bytes_to_felt {E} (domain payload : list byte) : result E Felt252 :=
  expect (search (hash_attempt domain payload) 32 0).

Definition hash_felts_to_felt {E} (domain : list byte) (felts : list Felt252) :
  result E Felt252 :=
  hash_bytes_to_felt domain (felts ≫= λ f, vec_to_list (felt_bytes f)).

Definition request_context_preimage (client_request_id : string) (payload_hash : Felt252) :
  list byte :=
  let id := str_bytes client_request_id in
  be_bytes 8 (length id) ++ id ++ felt_bytes payload_hash.

Definition canonical_request_context {E} (client_request_id : string)
  (payload_hash : Felt252) : result E Felt252 :=
  hash_bytes_to_felt (str_bytes "zkapi.v2.request-context")
    (request_context_preimage client_request_id payload_hash).

Definition canonical_payload_hash {E} (payload : list byte) : result E Felt252 :=
  hash_bytes_to_felt (str_bytes "zkapi.payload.v1") payload.

Definition canonical_response_hash {E} (payload : list byte) : result E Felt252 :=
  hash_bytes_to_felt (str_bytes "zkapi.response.v1") payload.

Definition request_public_output_hash {E} (p : RequestPublicInputs) : result E Felt252 :=
  hash_felts_to_felt (str_bytes "zkapi.req.outputs.v1") (request_to_cairo_outputs p).

Definition withdrawal_public_output_hash {E} (p : WithdrawalPublicInputs) : result E Felt252 :=
  hash_felts_to_felt (str_bytes "zkapi.wd.outputs.v1") (withdrawal_to_cairo_outputs p).

Definition request_public_output_hash_from_outputs (outputs : list Felt252) :
  result string Felt252 :=
  if negb (bool_decide (length outputs = 12%nat))
  then Err ("request proof emitted " +:+ pretty (length outputs) +:+
            " public outputs, expected 12")
  else
    first ← expect (head outputs);
    if negb (bool_decide (to_u64 first = Some STATEMENT_TYPE_REQUEST))
    then Err "request proof emitted wrong statement_type"
    else hash_felts_to_felt (str_bytes "zkapi.req.outputs.v1") outputs.

Definition withdrawal_public_output_hash_from_outputs (outputs : list Felt252) :
  result string Felt252 :=
  if negb (bool_decide (length outputs = 15%nat))
  then Err ("withdrawal proof emitted " +:+ pretty (length outputs) +:+
            " public outputs, expected 15")
  else
    first ← expect (head outputs);
    if negb (bool_decide (to_u64 first = Some STATEMENT_TYPE_WITHDRAWAL))
    then Err "withdrawal proof emitted wrong statement_type"
    else hash_felts_to_felt (str_bytes "zkapi.wd.outputs.v1") outputs.

Definition public_output_hash_from_cairo_outputs (outputs : list Felt252) :
  result string Felt252 :=
  match head outputs ≫= to_u64 with
  | Some statement_type =>
      if (statement_type =? STATEMENT_TYPE_REQUEST)%Z
      then request_public_output_hash_from_outputs outputs
      else if (statement_type =? STATEMENT_TYPE_WITHDRAWAL)%Z
      then withdrawal_public_output_hash_from_outputs outputs
      else Err ("unknown statement_type " +:+ pretty statement_type)
  | None => Err "proof emitted no public outputs"
  end.
End hash_to_felt.

(** ** Theorems *)

(** The [u16]/[u64]/[u128] fields of the statements hold values of their width. *)
Definition request_v2_fits (p : RequestPublicInputsV2) : Prop :=
  fits 16 (rp2_protocol_version p) ∧ fits 64 (rp2_chain_id p) ∧
  fits 64 (rp2_request_time p) ∧ fits 128 (rp2_solvency_bound p).

Definition withdrawal_v2_fits (p : WithdrawalPublicInputsV2) : Prop :=
  fits 16 (wp2_protocol_version p) ∧ fits 64 (wp2_chain_id p) ∧
  fits 32 (wp2_note_id p) ∧ fits 128 (wp2_final_balance p).

Lemma fits_weaken w w' z : (0 ≤ w ≤ w')%Z → fits w z → fits w' z.
Proof.
  intros Hw [? ?]. split; [done|]. eapply Z.lt_le_trans; [done|].
  apply Z.pow_le_mono_r; lia.
Qed.

Lemma vapp_inj_r {A n m} (u : vec A n) (v w : vec A m) : u +++ v = u +++ w → v = w.
Proof. intros H%(f_equal (@vec_to_list _ _)). rewrite !vec_to_list_app in H.
  by apply vec_to_list_inj2, (app_inv_head (vec_to_list u)). Qed.

Lemma destination_felt_inj (d e : vec byte 20) :
  Felt (vreplicate 12 x00 +++ d) = Felt (vreplicate 12 x00 +++ e) → d = e.
Proof. intros H%(f_equal felt_bytes). exact (vapp_inj_r (vreplicate 12 x00) d e H). Qed.

Lemma b2z_from_u64_inj b c : from_u64 (Z.b2z b) = from_u64 (Z.b2z c) → b = c.
Proof. intros H%from_u64_inj; [|destruct b, c; cbn; unfold fits; lia..]. by destruct b, c. Qed.

Section statements.
Context {KC : Keccak}.

Lemma hash_attempt_Some domain payload k f :
  hash_attempt domain payload k = Some f ↔
  felt_bytes f = keccak256 (hash_preimage domain payload k) ∧ canonical f.
Proof.
  unfold hash_attempt. split.
  - intros H. destruct (try_from_bytes_be _) as [g| |] eqn:E; try done.
    injection H as ->. apply try_from_bytes_be_canonical in E as [? ?]. done.
  - intros [<- Hc]. by rewrite canonical_try_from_bytes_be.
Qed.

Lemma hash_bytes_to_felt_canonical {E} domain payload f :
  @hash_bytes_to_felt _ E domain payload = Ok f → canonical f.
Proof.
  unfold hash_bytes_to_felt. destruct (search _ _ _) as [g|] eqn:S; [|done]. intros [= ->].
  apply search_Some in S as (k & _ & Hk & _). by apply hash_attempt_Some in Hk as [_ ?].
Qed.

(** The preimages separate their fields: the length prefix delimits the id. *)
Lemma length_prefixed_inj (a b : list byte) (x y : list byte) :
  fits 64 (length a) → fits 64 (length b) →
  be_bytes 8 (length a) ++ a ++ x = be_bytes 8 (length b) ++ b ++ y → a = b ∧ x = y.
Proof.
  intros Ha Hb E. apply app_inj_1 in E as [E1 E2]; [|by rewrite !length_vec_to_list].
  assert (length a = length b) as Hl.
  { apply (f_equal be_val) in E1. rewrite !be_val_be_bytes in E1.
    rewrite !Z.mod_small in E1 by done. lia. }
  by apply app_inj_1 in E2.
Qed.

Lemma request_context_preimage_inj id id' h h' :
  fits 64 (length (str_bytes id)) → fits 64 (length (str_bytes id')) →
  request_context_preimage id h = request_context_preimage id' h' → id = id' ∧ h = h'.
Proof.
  intros Hi Hi' E. apply length_prefixed_inj in E as [E1 E2]; [|done..].
  apply str_bytes_inj in E1. apply vec_to_list_inj2 in E2. destruct h, h'; cbn in *.
  by subst.
Qed.

Lemma hash_bytes_to_felt_spec {E} domain payload (f : Felt252) :
  @hash_bytes_to_felt _ E domain payload = Ok f ↔
  ∃ k, fits 32 k ∧ hash_attempt domain payload k = Some f ∧
       ∀ j, (0 ≤ j < k)%Z → hash_attempt domain payload j = None.
Proof.
  unfold hash_bytes_to_felt. destruct (search _ 32 0) as [g|] eqn:S; cbn.
  - apply search_Some in S as (k & Hk & Hf & Hmin). split.
    + intros [= <-]. exists k. split; [split; lia|done].
    + intros (k' & Hk' & Hf' & Hmin'). f_equal.
      destruct (Z.lt_trichotomy k k') as [Hlt|[->|Hlt]].
      * rewrite Hmin' in Hf by lia. done.
      * congruence.
      * rewrite Hmin in Hf' by (destruct Hk'; lia). done.
  - split; [done|]. intros (k & Hk & Hf & _). exfalso.
    pose proof (proj1 (search_None _ _ _) S k Hk). congruence.
Qed.

(** C40. Hash to field: the loop ends; it returns the digest of the first counter whose
    digest is a canonical field element, and panics only when all [2^32]
    counters are rejected. *)
Theorem hash_bytes_to_felt_first domain payload :
  (∀ f, hash_bytes_to_felt (E := string) domain payload = Ok f ↔
     canonical f ∧
     ∃ k, fits 32 k ∧ felt_bytes f = keccak256 (hash_preimage domain payload k) ∧
       ∀ j, (0 ≤ j < k)%Z →
         (FIELD_MODULUS ≤ be_val (keccak256 (hash_preimage domain payload j)))%Z) ∧
  (hash_bytes_to_felt (E := string) domain payload = Panic ↔
     ∀ k, fits 32 k →
       (FIELD_MODULUS ≤ be_val (keccak256 (hash_preimage domain payload k)))%Z).
Proof.
  assert (∀ j, hash_attempt domain payload j = None ↔
    (FIELD_MODULUS ≤ be_val (keccak256 (hash_preimage domain payload j)))%Z) as Hnone.
  { intros j. unfold hash_attempt. rewrite try_from_bytes_be_spec.
    destruct (Z.ltb_spec (be_val (keccak256 (hash_preimage domain payload j))) FIELD_MODULUS);
      cbn; split; done || lia. }
  split.
  - intros f. rewrite hash_bytes_to_felt_spec. setoid_rewrite hash_attempt_Some.
    setoid_rewrite Hnone. split; [intros (k & ? & [? ?] & ?)|intros (? & k & ? & ? & ?)]; eauto 10.
  - unfold hash_bytes_to_felt. destruct (search _ 32 0) as [g|] eqn:S; cbn.
    + apply search_Some in S as (k & Hk & Hf & _). split; [done|].
      intros Hall. exfalso. specialize (Hall k Hk). apply Hnone in Hall. congruence.
    + split; [|done]. intros _ k Hk. apply Hnone. by apply (proj1 (search_None _ _ _) S).
Qed.

(** The request context binds the request id and the payload hash: two
    different pairs with the same context exhibit a Keccak collision on the
    two preimages the loop hashed. *)
Theorem request_context_binding id id' h h' c :
  fits 64 (length (str_bytes id) + 40) → fits 64 (length (str_bytes id') + 40) →
  canonical_request_context (E := string) id h = Ok c →
  canonical_request_context (E := string) id' h' = Ok c →
  (id, h) ≠ (id', h') →
  ∃ k k',
    let x := hash_preimage (str_bytes "zkapi.v2.request-context")
               (request_context_preimage id h) k in
    let y := hash_preimage (str_bytes "zkapi.v2.request-context")
               (request_context_preimage id' h') k' in
    x ≠ y ∧ keccak256 x = keccak256 y.
Proof.
  unfold canonical_request_context.
  intros Hi Hi' (k & _ & [Hk _]%hash_attempt_Some & _)%hash_bytes_to_felt_spec
    (k' & _ & [Hk' _]%hash_attempt_Some & _)%hash_bytes_to_felt_spec Hne.
  exists k, k'. split; [|congruence]. intros E.
  apply app_inv_head, length_prefixed_inj in E as [E _].
  - apply request_context_preimage_inj in E as [-> ->]; [done|unfold fits in *; lia..].
  - unfold request_context_preimage. rewrite !length_app, !length_vec_to_list.
    unfold fits in *. lia.
  - unfold request_context_preimage. rewrite !length_app, !length_vec_to_list.
    unfold fits in *. lia.
Qed.

(** The hash recomputed from a proof's raw outputs agrees with the hash of
    the statement that emitted them, for requests and for withdrawals; every
    other output list is an error. *)
Theorem public_output_hash_agrees :
  (∀ p, rp_statement_type p = STATEMENT_TYPE_REQUEST →
     public_output_hash_from_cairo_outputs (request_to_cairo_outputs p)
     = request_public_output_hash p) ∧
  (∀ p, wp_statement_type p = STATEMENT_TYPE_WITHDRAWAL →
     public_output_hash_from_cairo_outputs (withdrawal_to_cairo_outputs p)
     = withdrawal_public_output_hash p) ∧
  (∀ outputs h, public_output_hash_from_cairo_outputs outputs = Ok h →
     ∃ f t, head outputs = Some f ∧ to_u64 f = Some t ∧
       ((t = STATEMENT_TYPE_REQUEST ∧ length outputs = 12%nat) ∨
        (t = STATEMENT_TYPE_WITHDRAWAL ∧ length outputs = 15%nat))).
Proof.
  assert (∀ v, fits 64 v → to_u64 (from_u64 v) = Some v) as H64.
  { intros v [? Hv]. apply to_u64_spec. rewrite felt_val_from_u64, Z.mod_small; [done|lia]. }
  split; [|split].
  - intros p Hp. unfold public_output_hash_from_cairo_outputs, request_to_cairo_outputs.
    cbn [head mbind option_bind]. rewrite Hp, H64 by (unfold fits, STATEMENT_TYPE_REQUEST; lia).
    unfold request_public_output_hash, request_public_output_hash_from_outputs,
      request_to_cairo_outputs. cbn -[to_u64 from_u64 from_u128 hash_felts_to_felt].
    by rewrite Hp, H64 by (unfold fits, STATEMENT_TYPE_REQUEST; lia).
  - intros p Hp. unfold public_output_hash_from_cairo_outputs, withdrawal_to_cairo_outputs.
    cbn [head mbind option_bind]. rewrite Hp, H64 by (unfold fits, STATEMENT_TYPE_WITHDRAWAL; lia).
    unfold withdrawal_public_output_hash, withdrawal_public_output_hash_from_outputs,
      withdrawal_to_cairo_outputs. cbn -[to_u64 from_u64 from_u128 hash_felts_to_felt].
    by rewrite Hp, H64 by (unfold fits, STATEMENT_TYPE_WITHDRAWAL; lia).
  - intros outputs h. unfold public_output_hash_from_cairo_outputs,
      request_public_output_hash_from_outputs, withdrawal_public_output_hash_from_outputs.
    destruct (head outputs) as [f|]; [|done]. cbn [mbind option_bind].
    destruct (to_u64 f) as [t|] eqn:Et; [|done]. intros H.
    exists f, t. split_and!; [done..|]. repeat split_if.
    + left. apply Z.eqb_eq in Heqb. apply negb_false_iff, bool_decide_eq_true in Heqb0. done.
    + right. apply Z.eqb_eq in Heqb0. apply negb_false_iff, bool_decide_eq_true in Heqb1. done.
Qed.
End statements.

Lemma vcons_eq_inv {A n} (x y : A) (v w : vec A n) : x ::: v = y ::: w → x = y ∧ v = w.
Proof. apply vcons_inj. Qed.

(** Split an equation of two vector literals into its components. *)
Ltac vec_eq_inv :=
  repeat match goal with
  | H : _ ::: _ = _ ::: _ |- _ => apply vcons_eq_inv in H as [? H]
  end.

Lemma request_v2_to_field_elements_inj p q :
  request_v2_fits p → request_v2_fits q →
  request_v2_to_field_elements p = request_v2_to_field_elements q → p = q.
Proof.
  intros (?&?&?&?) (?&?&?&?) E. unfold request_v2_to_field_elements in E. vec_eq_inv.
  repeat match goal with
  | H : from_u64 _ = from_u64 _ |- _ =>
      apply from_u64_inj in H; [|by eapply fits_weaken; [|eassumption]; lia..]
  | H : from_u128 _ = from_u128 _ |- _ => apply from_u128_inj in H; [|done..]
  end.
  destruct p, q; cbn [rp2_protocol_version rp2_chain_id rp2_contract_address rp2_active_root
    rp2_state_signing_key_x rp2_state_signing_key_y rp2_request_time rp2_solvency_bound
    rp2_request_nullifier rp2_authorization_tag rp2_anonymous_commitment_x
    rp2_anonymous_commitment_y] in *. by subst.
Qed.

Lemma withdrawal_v2_to_field_elements_inj p q :
  withdrawal_v2_fits p → withdrawal_v2_fits q →
  withdrawal_v2_to_field_elements p = withdrawal_v2_to_field_elements q → p = q.
Proof.
  intros (?&?&?&?) (?&?&?&?) E. unfold withdrawal_v2_to_field_elements in E. vec_eq_inv.
  repeat match goal with
  | H : from_u64 (Z.b2z _) = from_u64 _ |- _ => apply b2z_from_u64_inj in H
  | H : from_u64 _ = from_u64 _ |- _ =>
      apply from_u64_inj in H; [|by eapply fits_weaken; [|eassumption]; lia..]
  | H : from_u128 _ = from_u128 _ |- _ => apply from_u128_inj in H; [|done..]
  | H : destination_field _ = destination_field _ |- _ => apply destination_felt_inj in H
  end.
  destruct p, q; cbn [wp2_protocol_version wp2_chain_id wp2_contract_address wp2_active_root
    wp2_state_signing_key_x wp2_state_signing_key_y wp2_clearance_signing_key_x
    wp2_clearance_signing_key_y wp2_note_id wp2_final_balance wp2_destination
    wp2_withdrawal_nullifier wp2_has_clearance wp2_withdrawal_tag] in *. by subst.
Qed.

(** The v2 public statements flatten injectively: two statements with the
    same field elements are the same statement, so a proof for one is not a
    proof for another. *)
Theorem to_field_elements_inj :
  (∀ p q, request_v2_fits p → request_v2_fits q →
     request_v2_to_field_elements p = request_v2_to_field_elements q → p = q) ∧
  (∀ p q, withdrawal_v2_fits p → withdrawal_v2_fits q →
     withdrawal_v2_to_field_elements p = withdrawal_v2_to_field_elements q → p = q).
Proof.
  split; [exact request_v2_to_field_elements_inj|exact withdrawal_v2_to_field_elements_inj].
Qed.

(** ** Witnesses *)

Lemma request_context_binding_witness :
  let K : Keccak := λ _, vreplicate 32 x00 in
  ("a"%string, ZERO) ≠ ("b"%string, ZERO) ∧
  ∃ k k',
    let x := hash_preimage (str_bytes "zkapi.v2.request-context")
               (request_context_preimage "a" ZERO) k in
    let y := hash_preimage (str_bytes "zkapi.v2.request-context")
               (request_context_preimage "b" ZERO) k' in
    x ≠ y ∧ @keccak256 K x = @keccak256 K y.
Proof.
  intros K. split; [discriminate|].
  apply (@request_context_binding K "a" "b" ZERO ZERO ZERO).
  1,2: (vm_compute; split; [discriminate|reflexivity]).
  1,2: (vm_compute; reflexivity).
  discriminate.
Defined.

Definition sample_request_v1 : RequestPublicInputs := {|
  rp_statement_type := 1; rp_protocol_version := 2; rp_chain_id := 1;
  rp_contract_address := ONE; rp_active_root := ONE; rp_state_sig_epoch := 0;
  rp_state_sig_root := ZERO; rp_request_nullifier := ONE; rp_anon_commitment_x := ONE;
  rp_anon_commitment_y := ONE; rp_expiry_ts := 10; rp_solvency_bound := 5 |}.

Lemma public_output_hash_agrees_witness :
  let K : Keccak := λ _, vreplicate 32 x01 in
  rp_statement_type sample_request_v1 = STATEMENT_TYPE_REQUEST ∧
  @public_output_hash_from_cairo_outputs K (request_to_cairo_outputs sample_request_v1)
  = @request_public_output_hash K _ sample_request_v1.
Proof.
  intros K. split; [reflexivity|].
  exact (proj1 (@public_output_hash_agrees K) sample_request_v1 eq_refl).
Defined.

Definition sample_request_v2 : RequestPublicInputsV2 := {|
  rp2_protocol_version := 2; rp2_chain_id := 1; rp2_contract_address := ONE;
  rp2_active_root := ONE; rp2_state_signing_key_x := ONE; rp2_state_signing_key_y := ONE;
  rp2_request_time := 9; rp2_solvency_bound := 5; rp2_request_nullifier := ONE;
  rp2_authorization_tag := ONE; rp2_anonymous_commitment_x := ONE;
  rp2_anonymous_commitment_y := ONE |}.

Lemma to_field_elements_inj_witness :
  request_v2_fits sample_request_v2 ∧ sample_request_v2 = sample_request_v2.
Proof.
  assert (request_v2_fits sample_request_v2) as H.
  { repeat split; vm_compute; reflexivity || discriminate. }
  split; [exact H|exact (proj1 to_field_elements_inj _ _ H H eq_refl)].
Defined.

(** A digest function for evaluating the model on concrete inputs; its values
    are always canonical, so the hash-to-field loop stops at once. *)
Definition toy_keccak : Keccak := λ l,
  be_bytes 32 (foldl (λ acc b, (acc * 257 + byte_val b + 1) mod 2 ^ 250)%Z 7%Z l).
