(* ===== verification/Group.v ===== *)
(** * Abelian groups and integer multiples

    The curve libraries the program calls give a commutative group; this file
    is the interface ([AbelianGroup]) and the theory of integer multiples that
    the commitment and signature proofs use. *)
From S2P Require Import Prelude.

Class AbelianGroup (G : Type) : Type := {
  gzero : G;
  gadd : G → G → G;
  gneg : G → G;
  gadd_assoc x y z : gadd x (gadd y z) = gadd (gadd x y) z;
  gadd_comm x y : gadd x y = gadd y x;
  gadd_zero_r x : gadd x gzero = x;
  gadd_neg_r x : gadd x (gneg x) = gzero;
}.

Declare Scope group_scope.
Delimit Scope group_scope with G.
Infix "+" := gadd : group_scope.
Notation "- x" := (gneg x) : group_scope.
Notation "x - y" := (gadd x (gneg y)) : group_scope.

Section group.
Context {G : Type} `{AbelianGroup G}.
Implicit Types g h x y : G.
Local Open Scope group_scope.

Fixpoint nmul (n : nat) (g : G) : G :=
  match n with O => gzero | S n => g + nmul n g end.

(** Integer multiple, by repeated addition.  The curve libraries'
    double-and-add is shown equal to it where the source has the loop. *)
Definition zmul (z : Z) (g : G) : G :=
  if (z <? 0)%Z then - nmul (Z.to_nat (- z)) g else nmul (Z.to_nat z) g.

Lemma gadd_zero_l x : gzero + x = x.
Proof. by rewrite gadd_comm, gadd_zero_r. Qed.

Lemma gadd_neg_l x : - x + x = gzero.
Proof. by rewrite gadd_comm, gadd_neg_r. Qed.

Lemma gadd_cancel_l x y (z : G) : x + y = x + z → y = z.
Proof.
  intros E. rewrite <- (gadd_zero_l y), <- (gadd_zero_l z), <- (gadd_neg_l x).
  by rewrite <- !gadd_assoc, E.
Qed.

Lemma gadd_cancel_r x y (z : G) : y + x = z + x → y = z.
Proof. rewrite !(gadd_comm _ x). apply gadd_cancel_l. Qed.

Lemma gneg_unique x y : x + y = gzero → y = - x.
Proof. intros E. apply (gadd_cancel_l x). by rewrite E, gadd_neg_r. Qed.

Lemma gneg_zero : - gzero = gzero.
Proof. symmetry. apply gneg_unique. by rewrite gadd_zero_r. Qed.

Lemma gneg_neg x : - - x = x.
Proof. symmetry. apply gneg_unique, gadd_neg_l. Qed.

Lemma gadd_shuffle x y (z w : G) : (x + y) + (z + w) = (x + z) + (y + w).
Proof.
  rewrite <- !gadd_assoc. f_equal. rewrite !gadd_assoc. f_equal. apply gadd_comm.
Qed.

Lemma gneg_add x y : - (x + y) = - x - y.
Proof.
  symmetry. apply gneg_unique. rewrite gadd_shuffle, !gadd_neg_r. apply gadd_zero_r.
Qed.

Lemma nmul_add n m g : nmul (n + m) g = nmul n g + nmul m g.
Proof.
  induction n as [|n IH]; cbn; [by rewrite gadd_zero_l|]. by rewrite IH, gadd_assoc.
Qed.

Lemma nmul_distr n g h : nmul n (g + h) = nmul n g + nmul n h.
Proof.
  induction n as [|n IH]; cbn; [by rewrite gadd_zero_l|]. rewrite IH. apply gadd_shuffle.
Qed.

Lemma nmul_neg n g : nmul n (- g) = - nmul n g.
Proof. induction n as [|n IH]; cbn; [by rewrite gneg_zero|]. by rewrite IH, gneg_add. Qed.

Lemma zmul_of_nat n g : zmul (Z.of_nat n) g = nmul n g.
Proof. unfold zmul. destruct (Z.ltb_spec (Z.of_nat n) 0); [lia|]. by rewrite Nat2Z.id. Qed.

Lemma zmul_nonneg z g : (0 ≤ z)%Z → zmul z g = nmul (Z.to_nat z) g.
Proof. intros. unfold zmul. by destruct (Z.ltb_spec z 0); [lia|]. Qed.

Lemma zmul_0 g : zmul 0 g = gzero.
Proof. done. Qed.

Lemma zmul_1 g : zmul 1 g = g.
Proof. apply gadd_zero_r. Qed.

Lemma zmul_opp z g : zmul (- z) g = - zmul z g.
Proof.
  unfold zmul. destruct (Z.ltb_spec z 0), (Z.ltb_spec (- z) 0); try lia.
  - by rewrite gneg_neg.
  - by rewrite Z.opp_involutive.
  - assert (z = 0%Z) as -> by lia. symmetry. apply gneg_zero.
Qed.

Lemma zmul_succ z g : zmul (z + 1) g = zmul z g + g.
Proof.
  destruct (Z_lt_le_dec z 0) as [Hz|Hz].
  - assert (∃ n, z = - Z.of_nat (S n))%Z as [n ->] by (exists (Z.to_nat (- z - 1)); lia).
    replace (- Z.of_nat (S n) + 1)%Z with (- Z.of_nat n)%Z by lia.
    rewrite !zmul_opp, !zmul_of_nat. cbn. rewrite gneg_add, <- gadd_assoc.
    rewrite (gadd_comm _ g), gadd_assoc, gadd_neg_l. by rewrite gadd_zero_l.
  - rewrite !zmul_nonneg by lia. rewrite Z2Nat.inj_add by lia. rewrite nmul_add.
    f_equal. apply gadd_zero_r.
Qed.

Lemma zmul_add a b g : zmul (a + b) g = zmul a g + zmul b g.
Proof.
  induction b as [|b IH|b IH] using Z.peano_ind.
  - by rewrite Z.add_0_r, zmul_0, gadd_zero_r.
  - rewrite Z.add_succ_r, <- !Z.add_1_r, !zmul_succ, IH. symmetry. apply gadd_assoc.
  - apply (gadd_cancel_r g). rewrite <- zmul_succ, <- gadd_assoc, <- zmul_succ.
    replace (a + Z.pred b + 1)%Z with (a + b)%Z by lia.
    by replace (Z.pred b + 1)%Z with b by lia.
Qed.

Lemma zmul_sub a b g : zmul (a - b) g = zmul a g - zmul b g.
Proof. by rewrite <- Z.add_opp_r, zmul_add, zmul_opp. Qed.

Lemma zmul_distr z g h : zmul z (g + h) = zmul z g + zmul z h.
Proof. unfold zmul. destruct (z <? 0)%Z; rewrite nmul_distr; [apply gneg_add|done]. Qed.

Lemma zmul_neg z g : zmul z (- g) = - zmul z g.
Proof. unfold zmul. by destruct (z <? 0)%Z; rewrite nmul_neg. Qed.

Lemma zmul_gzero z : zmul z gzero = gzero.
Proof.
  apply (gadd_cancel_l (zmul z gzero)). by rewrite <- zmul_distr, !gadd_zero_r.
Qed.

Lemma zmul_mul a b g : zmul (a * b) g = zmul a (zmul b g).
Proof.
  induction a as [|a IH|a IH] using Z.peano_ind.
  - done.
  - rewrite Z.mul_succ_l, zmul_add, IH, <- Z.add_1_r, zmul_succ. done.
  - apply (gadd_cancel_r (zmul b g)). rewrite <- zmul_add, <- zmul_succ.
    replace (Z.pred a * b + b)%Z with (a * b)%Z by lia.
    by replace (Z.pred a + 1)%Z with a by lia.
Qed.

(** Multiples only depend on the residue modulo an annihilating integer. *)
Lemma zmul_mod n z g : zmul n g = gzero → zmul (z mod n) g = zmul z g.
Proof.
  intros Hn. rewrite (Z_div_mod_eq_full z n) at 2.
  by rewrite zmul_add, Z.mul_comm, zmul_mul, Hn, zmul_gzero, gadd_zero_l.
Qed.
End group.

(** Scalars are used through the lemmas only; unfolding a 250-bit multiple
    would not terminate in practice. *)
#[global] Opaque nmul zmul.

(** Normalise a sum: push multiples through sums and negations. *)
Create Rewrite HintDb zmul.
#[export] Hint Rewrite @zmul_add @zmul_sub @zmul_distr @zmul_neg @zmul_0 @zmul_1
  @gadd_zero_l @gadd_zero_r @gneg_add @gneg_neg : zmul.
