(* ===== verification/Ark.v ===== *)
(** * The cryptographic libraries, as interfaces

    The program computes with crates that are not part of it: [ark-ff] (prime
    fields), [ark-ed-on-bn254] (the Baby-JubJub curve), and the Poseidon sponge
    of [ark-crypto-primitives].  Each is a class: its operations and the
    documented facts the program relies on.  [Toy] is a concrete instance (the
    integers modulo the two orders) used by the witnesses to evaluate the
    model. *)
From S2P Require Import Prelude Felt Group.

(** ** Prime fields

    [fof] is the residue of an integer ([From<u64>], [from_be_bytes_mod_order]
    of the big-endian value); [fint] is [into_bigint]. *)
Class PrimeField (F : Type) : Type := {
  fmodulus : Z;
  fof : Z → F;
  fint : F → Z;
  fmodulus_gt_1 : (1 < fmodulus)%Z;
  fint_fof z : fint (fof z) = (z mod fmodulus)%Z;
  fof_fint x : fof (fint x) = x;
}.
Arguments fmodulus F {_}.

Section prime_field.
Context {F : Type} {PF : PrimeField F}.

Definition fzero : F := fof 0.
Definition fone : F := fof 1.
Definition fadd (x y : F) : F := fof (fint x + fint y).
Definition fsub (x y : F) : F := fof (fint x - fint y).
Definition fmul (x y : F) : F := fof (fint x * fint y).
Definition fneg (x : F) : F := fof (- fint x).

Lemma fint_bound (x : F) : (0 ≤ fint x < fmodulus F)%Z.
Proof.
  rewrite <- (fof_fint x), fint_fof. pose proof fmodulus_gt_1. apply Z.mod_pos_bound. lia.
Qed.

#[export] Instance fint_inj : Inj (=) (=) (@fint F PF).
Proof. intros x y H. by rewrite <- (fof_fint x), <- (fof_fint y), H. Qed.

#[export] Instance field_eq_dec : EqDecision F.
Proof.
  intros x y. destruct (decide (fint x = fint y)) as [E|E].
  - left. by apply fint_inj.
  - right. congruence.
Defined.

Lemma fof_mod z : fof (z mod fmodulus F) = fof z :> F.
Proof. apply fint_inj. rewrite !fint_fof. apply Z.mod_mod. pose proof fmodulus_gt_1. lia. Qed.

Lemma fint_small z : (0 ≤ z < fmodulus F)%Z → fint (fof z : F) = z.
Proof. intros. rewrite fint_fof. by apply Z.mod_small. Qed.

Lemma fof_inj_small a b :
  (0 ≤ a < fmodulus F)%Z → (0 ≤ b < fmodulus F)%Z → fof a = fof b :> F → a = b.
Proof. intros Ha Hb E%(f_equal fint). by rewrite !fint_small in E. Qed.
End prime_field.

(** ** Curve and sponge *)

(** Order of the prime subgroup of Baby-JubJub, the modulus of its scalar field. *)
Definition ED_ORDER : Z :=
  2736030358979909402780800718157159386076813972158567259200215660948447373041.

(** [PoseidonConfig::new]'s fields. *)
Record PoseidonConfig (F : Type) : Type := {
  pc_full_rounds : nat;
  pc_partial_rounds : nat;
  pc_alpha : Z;
  pc_mds : list (list F);
  pc_ark : list (list F);
  pc_rate : nat;
  pc_capacity : nat;
}.
Arguments Build_PoseidonConfig {F}.

Class Ark : Type := {
  (** [ark_bn254::Fr], also [ark_ed_on_bn254::Fq]. *)
  Fr : Type;
  Fr_field :: PrimeField Fr;
  Fr_modulus : fmodulus Fr = FIELD_MODULUS;
  Fr_inverse : Fr → option Fr;
  Fr_sqrt : Fr → option Fr;
  (** [ark_ed_on_bn254::Fr]. *)
  Sc : Type;
  Sc_field :: PrimeField Sc;
  Sc_modulus : fmodulus Sc = ED_ORDER;
  (** [EdwardsProjective]: the group of curve points. *)
  EdG : Type;
  EdG_group :: AbelianGroup EdG;
  EdG_eq_dec :: EqDecision EdG;
  generator : EdG;
  mul_bigint : Z → EdG → EdG;
  mul_bigint_zmul z g : (0 ≤ z)%Z → mul_bigint z g = zmul z g;
  generator_order : zmul ED_ORDER generator = gzero;
  (** [EdwardsAffine] is the pair of coordinates. *)
  COEFF_D : Fr;
  COFACTOR : Z;
  COFACTOR_nonneg : (0 ≤ COFACTOR)%Z;
  into_affine : EdG → Fr * Fr;
  into_group : Fr * Fr → EdG;
  is_on_curve : Fr * Fr → bool;
  is_in_correct_subgroup : Fr * Fr → bool;
  into_affine_zero : into_affine gzero = (fzero, fone);
  into_affine_on_curve g : is_on_curve (into_affine g) = true;
  into_group_affine g : into_group (into_affine g) = g;
  into_affine_group P : is_on_curve P = true → into_affine (into_group P) = P;
  correct_subgroup P : is_on_curve P = true →
    is_in_correct_subgroup P = true ↔ zmul ED_ORDER (into_group P) = gzero;
  (** The Poseidon sponge: parameter generation, and [new]; [absorb];
      [squeeze_native_field_elements(1)[0]]. *)
  find_poseidon_ark_and_mds :
    Z → nat → nat → nat → nat → list (list Fr) * list (list Fr);
  poseidon_sponge : PoseidonConfig Fr → list Fr → Fr;
}.

Section ark.
Context {A : Ark}.

#[export] Instance into_affine_inj : Inj (=) (=) into_affine.
Proof. intros g h E. by rewrite <- (into_group_affine g), <- (into_group_affine h), E. Qed.

(** Elements of the prime subgroup. *)
Definition in_subgroup (g : EdG) : Prop := zmul ED_ORDER g = gzero.

Lemma in_subgroup_affine g :
  is_in_correct_subgroup (into_affine g) = true ↔ in_subgroup g.
Proof.
  unfold in_subgroup. rewrite correct_subgroup by apply into_affine_on_curve.
  by rewrite into_group_affine.
Qed.

Lemma Fr_gt (x : Fr) : (0 ≤ fint x < FIELD_MODULUS)%Z.
Proof. rewrite <- Fr_modulus. apply fint_bound. Qed.

Lemma Sc_gt (x : Sc) : (0 ≤ fint x < ED_ORDER)%Z.
Proof. rewrite <- Sc_modulus. apply fint_bound. Qed.

Lemma in_subgroup_generator : in_subgroup generator.
Proof. exact generator_order. Qed.

Lemma in_subgroup_add g h : in_subgroup g → in_subgroup h → in_subgroup (g + h)%G.
Proof. unfold in_subgroup. intros Hg Hh. by rewrite zmul_distr, Hg, Hh, gadd_zero_l. Qed.

Lemma in_subgroup_neg g : in_subgroup g → in_subgroup (- g)%G.
Proof. unfold in_subgroup. intros Hg. by rewrite zmul_neg, Hg, gneg_zero. Qed.

Lemma in_subgroup_zmul z g : in_subgroup g → in_subgroup (zmul z g).
Proof.
  unfold in_subgroup. intros Hg. by rewrite <- zmul_mul, Z.mul_comm, zmul_mul, Hg, zmul_gzero.
Qed.

(** Scalars act through their residue modulo the subgroup order. *)
Lemma zmul_order z g : in_subgroup g → zmul (z mod ED_ORDER) g = zmul z g.
Proof. intros Hg. by apply zmul_mod. Qed.

Lemma mul_fof z g : in_subgroup g → mul_bigint (fint (fof z : Sc)) g = zmul z g.
Proof.
  intros Hg. rewrite mul_bigint_zmul by apply fint_bound.
  by rewrite fint_fof, Sc_modulus, zmul_order.
Qed.

Lemma mul_scalar (s : Sc) g : mul_bigint (fint s) g = zmul (fint s) g.
Proof. apply mul_bigint_zmul, fint_bound. Qed.
End ark.

Create HintDb subgroup discriminated.
#[export] Hint Constants Opaque : subgroup.
#[export] Hint Resolve in_subgroup_generator in_subgroup_add in_subgroup_neg in_subgroup_zmul
  : subgroup.

(** ** A concrete instance *)

(** Integers modulo [p]. *)
Record modint (p : Z) : Type := ModInt {
  mval : Z;
  mval_ok : ((0 <=? mval) && (mval <? p))%Z = true;
}.
Arguments ModInt {p}.
Arguments mval {p}.

Lemma modint_eq {p} (x y : modint p) : mval x = mval y → x = y.
Proof.
  destruct x as [x Hx], y as [y Hy]; cbn. intros <-. f_equal. apply proof_irrel.
Qed.

Definition modint_of (p : positive) (z : Z) : modint (Z.pos p).
Proof.
  refine (ModInt (z mod Z.pos p) _).
  abstract (pose proof (Z.mod_pos_bound z (Z.pos p) eq_refl);
            apply andb_true_iff; split; [apply Z.leb_le|apply Z.ltb_lt]; lia).
Defined.

Lemma mval_bound {p} (x : modint p) : (0 ≤ mval x < p)%Z.
Proof. destruct x as [x Hx]; cbn. apply andb_true_iff in Hx as [?%Z.leb_le ?%Z.ltb_lt]. lia. Qed.

Lemma mval_of p z : mval (modint_of p z) = (z mod Z.pos p)%Z.
Proof. done. Qed.

Definition modint_field (p : positive) (Hp : (1 < Z.pos p)%Z) : PrimeField (modint (Z.pos p)).
Proof.
  refine {| fmodulus := Z.pos p; fof := modint_of p; fint := mval |}.
  - exact Hp.
  - intros z. apply mval_of.
  - intros x. apply modint_eq. rewrite mval_of. apply Z.mod_small, mval_bound.
Defined.

#[local] Transparent nmul zmul.

Section modint_group.
Context (p : positive).

Lemma modint_ring_eq a b : (a mod Z.pos p = b mod Z.pos p)%Z → modint_of p a = modint_of p b.
Proof. intros E. apply modint_eq. by rewrite !mval_of. Qed.

Definition modint_group : AbelianGroup (modint (Z.pos p)).
Proof.
  refine {| gzero := modint_of p 0;
            gadd x y := modint_of p (mval x + mval y);
            gneg x := modint_of p (- mval x) |}.
  - intros x y z. apply modint_ring_eq. rewrite !mval_of.
    rewrite Zplus_mod_idemp_l, Zplus_mod_idemp_r. f_equal. lia.
  - intros x y. f_equal. lia.
  - intros x. apply modint_eq. rewrite !mval_of, Z.mod_0_l, Z.add_0_r by lia.
    apply Z.mod_small, mval_bound.
  - intros x. apply modint_ring_eq. rewrite !mval_of, Zplus_mod_idemp_r. f_equal. lia.
Defined.

Lemma modint_zmul z (x : modint (Z.pos p)) :
  @zmul _ modint_group z x = modint_of p (z * mval x).
Proof.
  assert (∀ n, @nmul _ modint_group n x = modint_of p (Z.of_nat n * mval x)) as Hn.
  { intros n. induction n as [|n IH]; [done|].
    cbn [nmul]. rewrite IH. cbn [gadd modint_group]. apply modint_ring_eq.
    rewrite mval_of, Zplus_mod_idemp_r. f_equal. lia. }
  unfold zmul. destruct (Z.ltb_spec z 0).
  - rewrite Hn. cbn [gneg modint_group]. apply modint_ring_eq. rewrite mval_of.
    rewrite <- (Z.sub_0_l (_ mod _)), Zminus_mod_idemp_r.
    rewrite Z2Nat.id by lia. f_equal. lia.
  - rewrite Hn, Z2Nat.id by lia. done.
Qed.

#[export] Instance modint_eq_dec q : EqDecision (modint q).
Proof.
  intros x y. destruct (decide (mval x = mval y)) as [E|E].
  - left. by apply modint_eq.
  - right. congruence.
Defined.
End modint_group.

Definition FIELD_MODULUS_pos : positive := Eval vm_compute in Z.to_pos FIELD_MODULUS.
Definition ED_ORDER_pos : positive := Eval vm_compute in Z.to_pos ED_ORDER.

Definition toy_Fr : PrimeField (modint (Z.pos FIELD_MODULUS_pos)) :=
  modint_field FIELD_MODULUS_pos eq_refl.
Definition toy_Sc : PrimeField (modint (Z.pos ED_ORDER_pos)) :=
  modint_field ED_ORDER_pos eq_refl.

(** A sponge for evaluation: a polynomial hash in the field. *)
Definition toy_sponge (l : list (modint (Z.pos FIELD_MODULUS_pos))) :
  modint (Z.pos FIELD_MODULUS_pos) :=
  modint_of FIELD_MODULUS_pos
    (foldl (λ acc x, (acc * 31 + mval x + 11) mod FIELD_MODULUS)%Z 17%Z l).

(** The group [Z/r], embedded in the plane as the line [y = 1]. *)
Definition toy_on_curve
  (P : modint (Z.pos FIELD_MODULUS_pos) * modint (Z.pos FIELD_MODULUS_pos)) : bool :=
  (mval P.1 <? ED_ORDER)%Z && (mval P.2 =? 1)%Z.

Definition Toy : Ark.
Proof.
  refine {|
    Fr := modint (Z.pos FIELD_MODULUS_pos); Fr_field := toy_Fr; Fr_modulus := eq_refl;
    Fr_inverse := λ x, if (mval x =? 0)%Z then None else Some x;
    Fr_sqrt := Some;
    Sc := modint (Z.pos ED_ORDER_pos); Sc_field := toy_Sc; Sc_modulus := eq_refl;
    EdG := modint (Z.pos ED_ORDER_pos);
    EdG_group := modint_group ED_ORDER_pos;
    EdG_eq_dec := modint_eq_dec (Z.pos ED_ORDER_pos);
    generator := modint_of ED_ORDER_pos 1;
    mul_bigint := λ z g, modint_of ED_ORDER_pos (z * mval g);
    COEFF_D := modint_of FIELD_MODULUS_pos 168696;
    COFACTOR := 8;
    into_affine := λ g,
      (modint_of FIELD_MODULUS_pos (mval g), modint_of FIELD_MODULUS_pos 1);
    into_group := λ P, modint_of ED_ORDER_pos (mval P.1);
    is_on_curve := toy_on_curve;
    is_in_correct_subgroup := λ _, true;
    find_poseidon_ark_and_mds := λ _ _ _ _ _, ([], replicate 3 (replicate 3 (modint_of FIELD_MODULUS_pos 0)));
    poseidon_sponge := λ _ l, toy_sponge l |}.
  - intros z g _. symmetry. apply modint_zmul.
  - abstract (rewrite modint_zmul; by apply modint_eq).
  - done.
  - abstract (by f_equal; apply modint_eq).
  - intros g. unfold toy_on_curve. cbn [fst snd]. rewrite !mval_of.
    pose proof (mval_bound g). rewrite !Z.mod_small by (unfold FIELD_MODULUS_pos, ED_ORDER_pos in *; lia).
    apply andb_true_iff. split; [|done]. apply Z.ltb_lt. unfold ED_ORDER, ED_ORDER_pos in *. lia.
  - intros g. apply modint_eq. cbn [fst]. rewrite !mval_of. pose proof (mval_bound g).
    rewrite (Z.mod_small _ (Z.pos FIELD_MODULUS_pos))
      by (unfold FIELD_MODULUS_pos, ED_ORDER_pos in *; lia).
    by apply Z.mod_small.
  - intros [x y]. unfold toy_on_curve. cbn [fst snd].
    intros [Hx%Z.ltb_lt Hy%Z.eqb_eq]%andb_true_iff. pose proof (mval_bound x).
    f_equal; apply modint_eq; rewrite !mval_of; [|by rewrite Hy].
    rewrite (Z.mod_small _ (Z.pos ED_ORDER_pos)) by (unfold ED_ORDER, ED_ORDER_pos in *; lia).
    by apply Z.mod_small.
  - intros P _. split; [|done]. intros _. rewrite modint_zmul. apply modint_eq.
    rewrite !mval_of. rewrite Z.mul_comm. apply Z_mod_mult.
Defined.

Lemma toy_zmul z (g : @EdG Toy) :
  @zmul (@EdG Toy) (@EdG_group Toy) z g = modint_of ED_ORDER_pos (z * mval g).
Proof. exact (modint_zmul ED_ORDER_pos z g). Qed.
