(* ===== verification/CoreV2.v ===== *)
(** * Protocol hashes over the BN254 scalar field ([zkapi-core]: v2.rs, leaf.rs,
    nullifier.rs)

    Every protocol value of version 2 is a domain-separated Poseidon hash of
    field elements; this file has all of them, with the conversion between
    [Felt252] byte arrays and the field. *)
From S2P Require Import Prelude Felt Types Group Ark.

Definition DOMAIN_REG : list byte := str_bytes "zkapi.v2.reg".
Definition DOMAIN_LEAF : list byte := str_bytes "zkapi.v2.leaf".
Definition DOMAIN_NODE : list byte := str_bytes "zkapi.v2.node".
Definition DOMAIN_NULLIFIER : list byte := str_bytes "zkapi.v2.null".
Definition DOMAIN_AUTHORIZATION : list byte := str_bytes "zkapi.v2.auth".
Definition DOMAIN_STATE : list byte := str_bytes "zkapi.v2.state".
Definition DOMAIN_CLEARANCE : list byte := str_bytes "zkapi.v2.clear".
Definition DOMAIN_WITHDRAWAL : list byte := str_bytes "zkapi.v2.withdraw".
Definition DOMAIN_ANCHOR : list byte := str_bytes "zkapi.v2.anchor".
Definition DOMAIN_BLIND : list byte := str_bytes "zkapi.v2.blind".

Section v2.
Context {A : Ark}.

(** [Fr::MODULUS_BIT_SIZE]. *)
Definition MODULUS_BIT_SIZE : Z := 254.

Definition config : PoseidonConfig Fr :=
  let full_rounds := 8%nat in
  let partial_rounds := 57%nat in
  let rate := 2%nat in
  let '(ark, mds) :=
    find_poseidon_ark_and_mds MODULUS_BIT_SIZE rate full_rounds partial_rounds 0 in
  Build_PoseidonConfig full_rounds partial_rounds 5 mds ark rate 1.

Definition domain (label : list byte) : Fr := fof (be_val label).

Definition felt_to_field (value : Felt252) : Fr := fof (be_val (felt_bytes value)).

(** [into_bigint().to_bytes_be()] of a four-limb integer is 32 bytes, so the
    copy into the array starts at offset 0. *)
Definition field_to_felt (value : Fr) : Felt252 := Felt (be_bytes 32 (fint value)).

Definition hash_fields (inputs : list Fr) : Fr := poseidon_sponge config inputs.

Definition hash_felts (inputs : list Felt252) : Felt252 :=
  field_to_felt (hash_fields (felt_to_field <$> inputs)).

Definition hash_domain (label : list byte) (inputs : list Felt252) : Felt252 :=
  field_to_felt (hash_fields (domain label :: (felt_to_field <$> inputs))).

Definition registration_commitment (secret : Felt252) : Felt252 :=
  hash_domain DOMAIN_REG [secret; ZERO].

Definition note_leaf (note_id : Z) (registration : Felt252) (deposit_amount expiry : Z) : Felt252 :=
  hash_domain DOMAIN_LEAF
    [from_u64 note_id; registration; from_u128 deposit_amount; from_u64 expiry].

Definition merkle_node (left right : Felt252) : Felt252 := hash_domain DOMAIN_NODE [left; right].

(** The loop of [merkle_root] from a given level. *)
Fixpoint merkle_root_from (note_id : Z) (level : nat) (current : Felt252)
  (siblings : list Felt252) : Felt252 :=
  match siblings with
  | [] => current
  | sibling :: siblings =>
      merkle_root_from note_id (S level)
        (if (Z.land (Z.shiftr note_id level) 1 =? 0)%Z
         then merkle_node current sibling else merkle_node sibling current)
        siblings
  end.

Definition merkle_root (note_id : Z) (leaf : Felt252) (siblings : vec Felt252 MERKLE_DEPTH) :
  Felt252 :=
  merkle_root_from note_id 0 leaf siblings.

(** [values[0] = 0], [values[level] = node(values[level-1], values[level-1])]. *)
Fixpoint zero_hashes_from (n : nat) (prev : Felt252) : list Felt252 :=
  match n with
  | O => [prev]
  | S n => prev :: zero_hashes_from n (merkle_node prev prev)
  end.

Definition zero_hashes : list Felt252 := zero_hashes_from MERKLE_DEPTH ZERO.

Definition nullifier (secret anchor : Felt252) : Felt252 :=
  hash_domain DOMAIN_NULLIFIER [secret; anchor].

Definition authorization_tag (nullifier request_context : Felt252) : Felt252 :=
  hash_domain DOMAIN_AUTHORIZATION [nullifier; request_context].

Definition state_message (protocol_version chain_id : Z)
  (contract_address commitment_x commitment_y anchor : Felt252) : Felt252 :=
  hash_domain DOMAIN_STATE
    [from_u64 protocol_version; from_u64 chain_id; contract_address;
     commitment_x; commitment_y; anchor].

Definition clearance_message (protocol_version chain_id : Z)
  (contract_address withdrawal_nullifier : Felt252) : Felt252 :=
  hash_domain DOMAIN_CLEARANCE
    [from_u64 protocol_version; from_u64 chain_id; contract_address; withdrawal_nullifier].

Definition withdrawal_tag (nullifier destination : Felt252) (final_balance : Z)
  (has_clearance : bool) : Felt252 :=
  hash_domain DOMAIN_WITHDRAWAL
    [nullifier; destination; from_u128 final_balance; from_u64 (Z.b2z has_clearance)].

Definition next_anchor (server_randomness request_nullifier commitment_x commitment_y : Felt252) :
  Felt252 :=
  hash_domain DOMAIN_ANCHOR [server_randomness; request_nullifier; commitment_x; commitment_y].

Definition blind_delta (server_randomness request_nullifier : Felt252) : Felt252 :=
  hash_domain DOMAIN_BLIND [server_randomness; request_nullifier].

(** leaf.rs and nullifier.rs. *)
Definition compute_note_leaf (note_id : Z) (commitment : Felt252) (deposit_amount expiry_ts : Z) :
  Felt252 := note_leaf note_id commitment deposit_amount expiry_ts.
Definition compute_registration_commitment (secret : Felt252) : Felt252 :=
  registration_commitment secret.
Definition compute_nullifier (secret anchor : Felt252) : Felt252 := nullifier secret anchor.
Definition compute_genesis_nullifier (secret : Felt252) : Felt252 := compute_nullifier secret ONE.

(** ** Field and felt *)

Lemma felt_val_field_to_felt x : felt_val (field_to_felt x) = fint x.
Proof.
  unfold felt_val, field_to_felt. cbn [felt_bytes]. rewrite be_val_be_bytes, Z.mod_small; [done|].
  pose proof (Fr_gt x). assert (FIELD_MODULUS < 256 ^ 32%nat)%Z by (vm_compute; reflexivity). lia.
Qed.

Lemma felt_to_field_val f : felt_to_field f = fof (felt_val f).
Proof. reflexivity. Qed.

Lemma felt_to_field_to_felt x : felt_to_field (field_to_felt x) = x.
Proof.
  rewrite felt_to_field_val, felt_val_field_to_felt. apply fof_fint.
Qed.

Lemma field_to_felt_canonical x : canonical (field_to_felt x).
Proof. unfold canonical. rewrite felt_val_field_to_felt. apply Fr_gt. Qed.

Lemma fint_felt_to_field f : fint (felt_to_field f) = (felt_val f mod FIELD_MODULUS)%Z.
Proof. by rewrite felt_to_field_val, fint_fof, Fr_modulus. Qed.

Lemma field_to_felt_to_field f :
  field_to_felt (felt_to_field f) = f ↔ canonical f.
Proof.
  split; [intros <-; apply field_to_felt_canonical|]. intros Hc.
  apply felt_val_inj. rewrite felt_val_field_to_felt, fint_felt_to_field.
  apply Z.mod_small. split; [apply felt_val_bound|done].
Qed.

#[export] Instance field_to_felt_inj : Inj (=) (=) field_to_felt.
Proof.
  intros x y E. by rewrite <- (felt_to_field_to_felt x), <- (felt_to_field_to_felt y), E.
Qed.

Lemma hash_domain_canonical label inputs : canonical (hash_domain label inputs).
Proof. apply field_to_felt_canonical. Qed.

(** Small integers keep their value through a felt and the field. *)
Lemma felt_to_field_from_u64 z : fits 64 z → felt_to_field (from_u64 z) = fof z.
Proof.
  intros Hz. rewrite felt_to_field_val, felt_val_from_u64. by rewrite Z.mod_small.
Qed.

Lemma felt_to_field_from_u128 z : fits 128 z → felt_to_field (from_u128 z) = fof z.
Proof.
  intros Hz. rewrite felt_to_field_val, felt_val_from_u128. by rewrite Z.mod_small.
Qed.

Lemma felt_to_field_ZERO : felt_to_field ZERO = fzero.
Proof. rewrite felt_to_field_val. by replace (felt_val ZERO) with 0%Z by (vm_compute; reflexivity). Qed.

Lemma felt_to_field_ONE : felt_to_field ONE = fone.
Proof. rewrite felt_to_field_val. by replace (felt_val ONE) with 1%Z by (vm_compute; reflexivity). Qed.
End v2.

(** The ten version-2 labels give distinct field elements, so no hash of one
    kind is computed on the inputs of another. *)
Definition v2_labels : list (list byte) :=
  [DOMAIN_REG; DOMAIN_LEAF; DOMAIN_NODE; DOMAIN_NULLIFIER; DOMAIN_AUTHORIZATION;
   DOMAIN_STATE; DOMAIN_CLEARANCE; DOMAIN_WITHDRAWAL; DOMAIN_ANCHOR; DOMAIN_BLIND].

Lemma v2_labels_vals_NoDup : NoDup (be_val <$> v2_labels).
Proof.
  assert (bool_decide (NoDup (be_val <$> v2_labels)) = true) as H by (vm_compute; reflexivity).
  by apply bool_decide_eq_true in H.
Qed.

Lemma v2_labels_bound : Forall (λ l, (0 ≤ be_val l < FIELD_MODULUS)%Z) v2_labels.
Proof. repeat constructor; vm_compute; reflexivity || discriminate. Qed.

(** Field conversion: [field_to_felt] prints the canonical encoding of a
    field element, [felt_to_field] reads it back, and a felt survives the round
    trip exactly when it is canonical; the conversion is injective on canonical
    felts. *)
Theorem felt_field_roundtrip `{Ark} :
  (∀ x, canonical (field_to_felt x) ∧ felt_to_field (field_to_felt x) = x) ∧
  (∀ f, field_to_felt (felt_to_field f) = f ↔ canonical f).
Proof.
  split; [|apply field_to_felt_to_field].
  intros x. split; [apply field_to_felt_canonical|apply felt_to_field_to_felt].
Qed.

(** Domain separation of version 2: the ten labels used by the protocol
    hashes map to pairwise distinct field elements. *)
Theorem v2_domains_distinct `{Ark} : NoDup (domain <$> v2_labels).
Proof.
  pose proof v2_labels_vals_NoDup as Hn. pose proof v2_labels_bound as Hb.
  induction v2_labels as [|l ls IH]; [constructor|].
  apply NoDup_cons in Hn as [Hl Hn]. apply Forall_cons in Hb as [Hbl Hb].
  cbn [fmap list_fmap]. constructor; [|by apply IH]. intros Hin. apply Hl.
  apply list_elem_of_fmap in Hin as (m & E & Hm). apply list_elem_of_fmap. exists m.
  split; [|done]. rewrite Forall_forall in Hb. specialize (Hb _ Hm).
  by apply (fof_inj_small (F := Fr)); rewrite ?Fr_modulus.
Qed.
