(* ===== verification/Merkle.v ===== *)
(** * Merkle tree ([zkapi-core]: merkle.rs)

    The incremental tree keeps, per level, a map from node index to hash and
    falls back to the zero hash of the level.  [tree_wf] says every cached node
    is the hash of its children; [ref_node] is the textbook definition of the
    tree over a leaf function, and the theorems show the cache computes it. *)
From S2P Require Import Prelude Felt Types Group Ark CoreV2.

Section merkle.
Context {A : Ark}.

Definition compute_zero_hashes : list Felt252 := zero_hashes_from MERKLE_DEPTH ZERO.

Fixpoint compute_root_from (idx : Z) (current : Felt252) (siblings : list Felt252) : Felt252 :=
  match siblings with
  | [] => current
  | sibling :: siblings =>
      compute_root_from (Z.shiftr idx 1)
        (if (Z.land idx 1 =? 0)%Z then merkle_node current sibling
         else merkle_node sibling current)
        siblings
  end.

Definition compute_root (index : Z) (leaf : Felt252) (siblings : vec Felt252 MERKLE_DEPTH) :
  Felt252 :=
  compute_root_from index leaf siblings.

Definition verify_membership (root : Felt252) (index : Z) (leaf : Felt252)
  (siblings : vec Felt252 MERKLE_DEPTH) : bool :=
  bool_decide (compute_root index leaf siblings = root).

(** [nodes[level]] is the map of level [level]; level 0 holds the leaves. *)
Record MerkleTree : Type := {
  mt_next_index : Z;
  mt_leaves : list Felt252;
  mt_zero_hashes : list Felt252;
  mt_nodes : list (gmap Z Felt252);
}.

Definition new : MerkleTree := {|
  mt_next_index := 0;
  mt_leaves := [];
  mt_zero_hashes := compute_zero_hashes;
  mt_nodes := replicate (S MERKLE_DEPTH) ∅;
|}.

Definition node_of (zeros : list Felt252) (nodes : list (gmap Z Felt252)) (level : nat) (index : Z) :
  Felt252 :=
  match default ∅ (nodes !! level) !! index with
  | Some h => h
  | None => default ZERO (zeros !! level)
  end.

Definition get_node (t : MerkleTree) (level : nat) (index : Z) : Felt252 :=
  node_of (mt_zero_hashes t) (mt_nodes t) level index.

Definition root (t : MerkleTree) : Felt252 := get_node t MERKLE_DEPTH 0.
Definition next_index (t : MerkleTree) : Z := mt_next_index t.
Definition get_leaf (t : MerkleTree) (index : Z) : Felt252 := get_node t 0 index.

(** [nodes[level].insert(index, h)]. *)
Definition insert_node (level : nat) (index : Z) (h : Felt252) (nodes : list (gmap Z Felt252)) :
  list (gmap Z Felt252) :=
  alter <[index := h]> level nodes.

(** The loop of [set_leaf]: [n] levels from [level] upwards. *)
Fixpoint update_path (zeros : list Felt252) (n level : nat) (idx : Z)
  (nodes : list (gmap Z Felt252)) : list (gmap Z Felt252) :=
  match n with
  | O => nodes
  | S n =>
      let parent_idx := (idx / 2)%Z in
      let left_idx := (parent_idx * 2)%Z in
      let right_idx := (left_idx + 1)%Z in
      let left := node_of zeros nodes level left_idx in
      let right := node_of zeros nodes level right_idx in
      let parent := merkle_node left right in
      update_path zeros n (S level) parent_idx (insert_node (S level) parent_idx parent nodes)
  end.

Definition grow_leaves (leaves : list Felt252) (index : Z) : list Felt252 :=
  leaves ++ replicate (S (Z.to_nat index) - length leaves) ZERO.

Definition set_leaf (t : MerkleTree) (index : Z) (value : Felt252) : MerkleTree := {|
  mt_next_index := mt_next_index t;
  mt_leaves := <[Z.to_nat index := value]> (grow_leaves (mt_leaves t) index);
  mt_zero_hashes := mt_zero_hashes t;
  mt_nodes := update_path (mt_zero_hashes t) MERKLE_DEPTH 0 index
                (insert_node 0 index value (mt_nodes t));
|}.

(** [next_index] is a [u32]; the increment wraps in release builds. *)
Definition insert (t : MerkleTree) (value : Felt252) : Z * MerkleTree :=
  let idx := mt_next_index t in
  let t' := set_leaf t idx value in
  (idx, {| mt_next_index := wrap 32 (idx + 1); mt_leaves := mt_leaves t';
           mt_zero_hashes := mt_zero_hashes t'; mt_nodes := mt_nodes t' |}).

Fixpoint siblings_from (t : MerkleTree) (n level : nat) (idx : Z) : vec Felt252 n :=
  match n with
  | O => [#]
  | S n => get_node t level (Z.lxor idx 1) ::: siblings_from t n (S level) (idx / 2)
  end.

Definition get_siblings (t : MerkleTree) (index : Z) : vec Felt252 MERKLE_DEPTH :=
  siblings_from t MERKLE_DEPTH 0 index.

(** ** Reference tree *)

Fixpoint ref_node (leaf : Z → Felt252) (level : nat) (index : Z) : Felt252 :=
  match level with
  | O => leaf index
  | S level =>
      merkle_node (ref_node leaf level (index * 2)) (ref_node leaf level (index * 2 + 1))
  end.

Definition ref_root (leaf : Z → Felt252) : Felt252 := ref_node leaf MERKLE_DEPTH 0.

(** ** Invariant *)

Record tree_wf (t : MerkleTree) : Prop := {
  wf_zeros : mt_zero_hashes t = compute_zero_hashes;
  wf_levels : length (mt_nodes t) = S MERKLE_DEPTH;
  wf_nodes level index : (level < MERKLE_DEPTH)%nat → (0 ≤ index)%Z →
    get_node t (S level) index =
      merkle_node (get_node t level (index * 2)) (get_node t level (index * 2 + 1));
}.

Lemma zero_hashes_from_lookup n prev k :
  (k < n)%nat → ∃ z, zero_hashes_from n prev !! k = Some z ∧
    zero_hashes_from n prev !! S k = Some (merkle_node z z).
Proof.
  revert prev k. induction n as [|n IH]; intros prev k Hk; [lia|].
  destruct k as [|k]; cbn.
  - exists prev. split; [done|]. by destruct n.
  - apply IH. lia.
Qed.

Lemma node_of_empty zeros n level index :
  node_of zeros (replicate n ∅) level index = default ZERO (zeros !! level).
Proof.
  unfold node_of. destruct (replicate n ∅ !! level) as [m|] eqn:E; cbn.
  - apply lookup_replicate in E as [-> _]. by rewrite lookup_empty.
  - by rewrite lookup_empty.
Qed.

Lemma new_wf : tree_wf new.
Proof.
  split; [done|done|].
  intros level index Hl _. unfold get_node, new. cbn [mt_zero_hashes mt_nodes].
  rewrite !node_of_empty.
  destruct (zero_hashes_from_lookup MERKLE_DEPTH ZERO level Hl) as (z & H1 & H2).
  unfold compute_zero_hashes. by rewrite H1, H2.
Qed.

Lemma node_of_insert zeros nodes level index h level' index' :
  (level < length nodes)%nat →
  node_of zeros (insert_node level index h nodes) level' index' =
    if decide (level' = level ∧ index' = index) then h else node_of zeros nodes level' index'.
Proof.
  intros Hl. unfold node_of, insert_node.
  destruct (decide (level' = level)) as [->|Hne].
  - rewrite list_lookup_alter_eq. destruct (lookup_lt_is_Some_2 _ _ Hl) as [m ->].
    cbn [fmap option_fmap option_map default from_option]. unfold id.
    destruct (decide (index' = index)) as [->|Hi].
    + rewrite decide_True by (by split). by rewrite lookup_insert_eq.
    + rewrite decide_False by (by intros [_ ?]). by rewrite lookup_insert_ne.
  - rewrite list_lookup_alter_ne by done. by rewrite decide_False by (by intros []).
Qed.

Lemma update_path_length zeros n level idx nodes :
  length (update_path zeros n level idx nodes) = length nodes.
Proof.
  revert level idx nodes. induction n as [|n IH]; intros; [done|]. cbn [update_path].
  rewrite IH. apply length_alter.
Qed.

(** [update_path] only touches the levels above [level]. *)
Lemma update_path_below zeros n level idx nodes level' index :
  (level + n < length nodes)%nat → (level' ≤ level)%nat →
  node_of zeros (update_path zeros n level idx nodes) level' index = node_of zeros nodes level' index.
Proof.
  revert level idx nodes. induction n as [|n IH]; intros level idx nodes Hl Hle; [done|].
  cbn [update_path]. rewrite IH by (unfold insert_node; rewrite ?length_alter; lia).
  rewrite node_of_insert by lia. rewrite decide_False; [done|]. lia.
Qed.

(** Where [nodes] is consistent off the path of [idx], the loop restores
    consistency everywhere. *)
Lemma update_path_consistent zeros n level idx nodes :
  (level + n < length nodes)%nat → (0 ≤ idx)%Z →
  (∀ l i, (level ≤ l < level + n)%nat → (0 ≤ i)%Z → i ≠ (idx / 2 ^ (l - level + 1)%nat)%Z →
     node_of zeros nodes (S l) i
     = merkle_node (node_of zeros nodes l (i * 2)) (node_of zeros nodes l (i * 2 + 1))) →
  ∀ l i, (level ≤ l < level + n)%nat → (0 ≤ i)%Z →
    let nodes' := update_path zeros n level idx nodes in
    node_of zeros nodes' (S l) i
    = merkle_node (node_of zeros nodes' l (i * 2)) (node_of zeros nodes' l (i * 2 + 1)).
Proof.
  revert level idx nodes. induction n as [|n IH]; intros level idx nodes Hl Hidx Hcons l i Hli Hi;
    [lia|]. cbn [update_path].
  set (parent := merkle_node _ _). set (nodes1 := insert_node _ _ _ nodes).
  assert (length nodes1 = length nodes) as Hlen by apply length_alter.
  assert (∀ l' i', node_of zeros nodes1 l' i' =
    if decide (l' = S level ∧ i' = (idx / 2)%Z) then parent else node_of zeros nodes l' i') as Hn1.
  { intros. unfold nodes1. apply node_of_insert. lia. }
  destruct (decide (l = level)) as [->|Hne].
  - cbn zeta. rewrite !update_path_below by lia. rewrite !Hn1.
    rewrite (decide_False (P := level = S level ∧ _)) by lia.
    rewrite (decide_False (P := level = S level ∧ _)) by lia.
    destruct (decide (S level = S level ∧ i = (idx / 2)%Z)) as [[_ ->]|Hi2]; [done|].
    apply Hcons; [lia|lia|]. intros ->. apply Hi2. split; [done|].
    by replace (level - level + 1)%nat with 1%nat by lia.
  - apply IH; [lia|apply Z.div_pos; lia| |lia|lia]. clear l i Hli Hi Hne.
    intros l i Hli Hi Hne. rewrite !Hn1.
    rewrite (decide_False (P := S l = S level ∧ _)) by lia.
    replace (idx / 2 / 2 ^ (l - S level + 1)%nat)%Z with (idx / 2 ^ (l - level + 1)%nat)%Z in Hne.
    2:{ rewrite Z.div_div by lia. f_equal. rewrite <- Z.pow_succ_r by lia. f_equal. lia. }
    assert (∀ c, (c = 0 ∨ c = 1)%Z → (i * 2 + c)%Z = (idx / 2)%Z → l = S level → False) as Hout.
    { intros c Hc E ->. apply Hne. replace (S level - level + 1)%nat with 2%nat by lia.
      replace (idx / 2 ^ 2%nat)%Z with (idx / 2 / 2)%Z by (rewrite Z.div_div by lia; done).
      rewrite <- E. apply Z.div_unique with c; lia. }
    rewrite (decide_False (P := l = S level ∧ (i * 2)%Z = _)).
    2:{ intros [? ?]. apply (Hout 0%Z); [lia|lia|done]. }
    rewrite (decide_False (P := l = S level ∧ (i * 2 + 1)%Z = _)).
    2:{ intros [? ?]. apply (Hout 1%Z); [lia|lia|done]. }
    apply Hcons; [lia|done|done].
Qed.

Lemma set_leaf_wf t index value : tree_wf t → (0 ≤ index)%Z → tree_wf (set_leaf t index value).
Proof.
  intros [Hz Hlen Hn] Hi. split; cbn [set_leaf mt_zero_hashes mt_nodes].
  - done.
  - rewrite update_path_length. unfold insert_node. by rewrite length_alter.
  - intros level i Hl Hi'. unfold get_node. cbn [set_leaf mt_zero_hashes mt_nodes].
    apply (update_path_consistent (mt_zero_hashes t) MERKLE_DEPTH 0); [|done| |lia|done].
    { unfold insert_node. rewrite length_alter. lia. }
    clear level i Hl Hi'. intros l i Hl Hi' Hne.
    rewrite !node_of_insert by lia. rewrite (decide_False (P := S l = 0%nat ∧ _)) by lia.
    assert (∀ c, (c = 0 ∨ c = 1)%Z → (i * 2 + c)%Z = index → l = 0%nat → False) as Hout.
    { intros c Hc E ->. apply Hne. change (2 ^ (0 - 0 + 1)%nat)%Z with 2%Z.
      rewrite <- E. apply Z.div_unique with c; lia. }
    rewrite (decide_False (P := l = 0%nat ∧ (i * 2)%Z = _)).
    2:{ intros [? ?]. apply (Hout 0%Z); [lia|lia|done]. }
    rewrite (decide_False (P := l = 0%nat ∧ (i * 2 + 1)%Z = _)).
    2:{ intros [? ?]. apply (Hout 1%Z); [lia|lia|done]. }
    apply Hn; lia.
Qed.

Lemma get_leaf_set t index value index' :
  tree_wf t →
  get_leaf (set_leaf t index value) index' =
    if decide (index' = index) then value else get_leaf t index'.
Proof.
  intros [Hz Hlen Hn]. unfold get_leaf, get_node. cbn [set_leaf mt_zero_hashes mt_nodes].
  rewrite update_path_below by (unfold insert_node; rewrite ?length_alter; lia).
  rewrite node_of_insert by lia.
  destruct (decide (index' = index)) as [->|]; [by rewrite decide_True|].
  by rewrite decide_False by (by intros []).
Qed.

Lemma get_node_0 t index : get_node t 0 index = get_leaf t index.
Proof. reflexivity. Qed.

Lemma get_leaf_new index : get_leaf new index = ZERO.
Proof. unfold get_leaf, get_node, new. cbn [mt_zero_hashes mt_nodes]. by rewrite node_of_empty. Qed.

(** From here on the cache is used through the lemmas above only. *)
#[local] Opaque node_of update_path merkle_node.

(** ** The cache computes the reference tree *)

Lemma get_node_ref t level index :
  tree_wf t → (level ≤ MERKLE_DEPTH)%nat → (0 ≤ index)%Z →
  get_node t level index = ref_node (get_leaf t) level index.
Proof.
  intros Hwf. revert index. induction level as [|level IH]; intros index Hl Hi; [done|].
  cbn [ref_node]. rewrite (wf_nodes _ Hwf) by lia. by rewrite !IH by lia.
Qed.

Lemma ref_node_ext f g (level : nat) index :
  (0 ≤ index)%Z →
  (∀ i, (index * 2 ^ level ≤ i < (index + 1) * 2 ^ level)%Z → f i = g i) →
  ref_node f level index = ref_node g level index.
Proof.
  revert index. induction level as [|level IH]; intros index Hi Hfg; [apply Hfg; cbn; lia|].
  cbn [ref_node]. rewrite Nat2Z.inj_succ, Z.pow_succ_r in Hfg by lia.
  f_equal; apply IH; try lia; intros i Hb; apply Hfg; nia.
Qed.

Lemma ref_root_ext f g : (∀ i, fits 32 i → f i = g i) → ref_root f = ref_root g.
Proof.
  intros Hfg. unfold ref_root. apply (ref_node_ext f g MERKLE_DEPTH 0); [done|].
  intros i Hi. apply Hfg. exact Hi.
Qed.

Lemma root_ref t : tree_wf t → root t = ref_root (get_leaf t).
Proof. intros Ht. exact (get_node_ref t MERKLE_DEPTH 0 Ht (le_n _) (Z.le_refl 0)). Qed.

Lemma root_ext t u :
  tree_wf t → tree_wf u → (∀ i, fits 32 i → get_leaf t i = get_leaf u i) → root t = root u.
Proof.
  intros Ht Hu Heq. rewrite !root_ref by done. by apply ref_root_ext.
Qed.

(** ** Paths *)

Lemma land_1 idx : Z.land idx 1 = (idx mod 2)%Z.
Proof. change 1%Z with (Z.ones 1). by rewrite Z.land_ones. Qed.

Lemma lxor_1 idx : Z.lxor idx 1 = (if (idx mod 2 =? 0) then idx + 1 else idx - 1)%Z.
Proof.
  destruct (Z.eqb_spec (idx mod 2) 0) as [E|E].
  - replace idx with (2 * (idx / 2))%Z at 1 by (pose proof (Z_div_mod_eq_full idx 2); lia).
    assert (Z.land (2 * (idx / 2)) 1 = 0)%Z as H0 by (rewrite land_1, Z.mul_comm; apply Z_mod_mult).
    rewrite <- Z.add_nocarry_lxor by done. pose proof (Z_div_mod_eq_full idx 2). lia.
  - assert (idx mod 2 = 1)%Z as E1 by (pose proof (Z.mod_pos_bound idx 2); lia).
    replace idx with (2 * (idx / 2) + 1)%Z at 1 by (pose proof (Z_div_mod_eq_full idx 2); lia).
    assert (Z.land (2 * (idx / 2)) 1 = 0)%Z as H0 by (rewrite land_1, Z.mul_comm; apply Z_mod_mult).
    rewrite Z.add_nocarry_lxor, Z.lxor_assoc, Z.lxor_nilpotent, Z.lxor_0_r by done.
    pose proof (Z_div_mod_eq_full idx 2). lia.
Qed.

Lemma shiftr_1 idx : Z.shiftr idx 1 = (idx / 2)%Z.
Proof. by rewrite Z.shiftr_div_pow2. Qed.

(** The two children hashed at the level of [idx], around [current]. *)
Definition path_pair (idx : Z) (current sibling : Felt252) : Felt252 * Felt252 :=
  if (Z.land idx 1 =? 0)%Z then (current, sibling) else (sibling, current).

Lemma compute_root_from_cons idx current sibling siblings :
  compute_root_from idx current (sibling :: siblings) =
  compute_root_from (idx / 2)
    (merkle_node (path_pair idx current sibling).1 (path_pair idx current sibling).2) siblings.
Proof. cbn [compute_root_from]. rewrite shiftr_1. unfold path_pair. by destruct (_ =? _)%Z. Qed.

(** The children of the parent of [idx], in a tree where the sibling is read
    with [idx ^ 1]. *)
Lemma path_pair_children (f : Z → Felt252) idx c :
  (0 ≤ idx)%Z →
  path_pair idx c (f (Z.lxor idx 1)) =
  ((if decide (idx = idx / 2 * 2)%Z then c else f (idx / 2 * 2)%Z),
   (if decide (idx = idx / 2 * 2 + 1)%Z then c else f (idx / 2 * 2 + 1)%Z)).
Proof.
  intros Hi. unfold path_pair. rewrite land_1, lxor_1.
  pose proof (Z_div_mod_eq_full idx 2). pose proof (Z.mod_pos_bound idx 2).
  destruct (Z.eqb_spec (idx mod 2) 0).
  - rewrite decide_True, decide_False by lia. do 2 f_equal. lia.
  - rewrite decide_False, decide_True by lia. do 2 f_equal. lia.
Qed.

(** Walking up from [idx] with the siblings of [t] computes the node of a tree
    [u] that agrees with [t] off the path. *)
Lemma compute_root_siblings t u n level idx :
  tree_wf u → (level + n ≤ MERKLE_DEPTH)%nat → (0 ≤ idx)%Z →
  (∀ k i, (level ≤ k < level + n)%nat → (0 ≤ i)%Z → i ≠ (idx / 2 ^ (k - level)%nat)%Z →
     get_node u k i = get_node t k i) →
  compute_root_from idx (get_node u level idx) (siblings_from t n level idx)
  = get_node u (level + n)%nat (idx / 2 ^ n).
Proof.
  intros Hu. revert level idx. induction n as [|n IH]; intros level idx Hl Hi Hoff.
  - cbn. by rewrite Z.div_1_r, Nat.add_0_r.
  - cbn [siblings_from vec_to_list]. rewrite compute_root_from_cons.
    rewrite (path_pair_children (get_node t level)) by done. cbn [fst snd].
    assert (∀ j, (0 ≤ j)%Z → (if decide (idx = j) then get_node u level idx
      else get_node t level j) = get_node u level j) as Hsel.
    { intros j Hj. destruct (decide (idx = j)) as [<-|Hne]; [done|].
      symmetry. apply Hoff; [lia|done|]. rewrite Nat.sub_diag. change (2 ^ 0%nat)%Z with 1%Z.
      by rewrite Z.div_1_r. }
    assert (0 ≤ idx / 2)%Z by (apply Z.div_pos; lia).
    rewrite !Hsel by lia.
    rewrite <- (wf_nodes _ Hu) by lia. rewrite IH; [|lia|done|].
    + replace (S level + n)%nat with (level + S n)%nat by lia. f_equal.
      rewrite Z.div_div by lia. f_equal. rewrite Nat2Z.inj_succ, Z.pow_succ_r; lia.
    + intros k i Hk Hi' Hne. apply Hoff; [lia|done|].
      intros ->. apply Hne. rewrite Z.div_div by lia. f_equal.
      rewrite <- Z.pow_succ_r by lia. f_equal. lia.
Qed.

Lemma set_leaf_off_path t index value k i :
  tree_wf t → (0 ≤ index)%Z → (k ≤ MERKLE_DEPTH)%nat → (0 ≤ i)%Z →
  i ≠ (index / 2 ^ k)%Z →
  get_node (set_leaf t index value) k i = get_node t k i.
Proof.
  intros Ht Hi Hk Hi' Hne.
  rewrite !get_node_ref by (done || by apply set_leaf_wf).
  apply ref_node_ext; [done|]. intros j Hj. rewrite get_leaf_set by done.
  rewrite decide_False; [done|]. intros ->. apply Hne.
  apply Z.div_unique with (index - i * 2 ^ k)%Z; lia.
Qed.

Lemma compute_root_set t index value :
  tree_wf t → fits 32 index →
  compute_root index value (get_siblings t index) = root (set_leaf t index value).
Proof.
  intros Ht [Hi Hi']. unfold compute_root, get_siblings, root.
  pose proof (set_leaf_wf t index value Ht Hi) as Hu.
  assert (get_node (set_leaf t index value) 0 index = value) as Hv.
  { rewrite get_node_0, get_leaf_set by exact Ht. by rewrite decide_True. }
  rewrite <- Hv at 1.
  rewrite (compute_root_siblings t _ MERKLE_DEPTH 0 index Hu (le_n _) Hi).
  - rewrite Nat.add_0_l, (Z.div_small index) by (split; [exact Hi|exact Hi']). reflexivity.
  - intros k i Hk Hi0 Hne. apply set_leaf_off_path; [done|done|lia|done|].
    by rewrite Nat.sub_0_r in Hne.
Qed.

Lemma compute_root_get t index :
  tree_wf t → fits 32 index →
  compute_root index (get_leaf t index) (get_siblings t index) = root t.
Proof.
  intros Ht Hi. rewrite compute_root_set by done.
  apply root_ext; [by apply set_leaf_wf; [|apply Hi]|done|].
  intros i _. rewrite get_leaf_set by done. by destruct (decide (i = index)) as [->|].
Qed.

(** Two walks that meet at the top either started at the same value or hashed
    two different pairs to the same node on the way. *)
Fixpoint walk_collision (idx : Z) (c c' : Felt252) (sib sib' : list Felt252) : Prop :=
  match sib, sib' with
  | s :: sib, s' :: sib' =>
      let p := path_pair idx c s in
      let q := path_pair idx c' s' in
      (p ≠ q ∧ merkle_node p.1 p.2 = merkle_node q.1 q.2) ∨
      walk_collision (idx / 2) (merkle_node p.1 p.2) (merkle_node q.1 q.2) sib sib'
  | _, _ => False
  end.

Lemma walk_binding idx c c' sib sib' :
  length sib = length sib' →
  compute_root_from idx c sib = compute_root_from idx c' sib' →
  c = c' ∨ walk_collision idx c c' sib sib'.
Proof.
  revert idx c c' sib'. induction sib as [|s sib IH]; intros idx c c' [|s' sib'] Hlen Hr;
    try done; [by left|].
  rewrite !compute_root_from_cons in Hr. injection Hlen as Hlen.
  cbn [walk_collision]. apply IH in Hr as [Hn|Hc]; [|by right; right|done].
  destruct (decide (path_pair idx c s = path_pair idx c' s')) as [E|E]; [left|by right; left].
  unfold path_pair in E. destruct (_ =? _)%Z; congruence.
Qed.

Lemma compute_root_binding idx c c' (sib sib' : vec Felt252 MERKLE_DEPTH) :
  compute_root idx c sib = compute_root idx c' sib' →
  c = c' ∨ walk_collision idx c c' sib sib'.
Proof. intros Hr. apply walk_binding; [by rewrite !length_vec_to_list|exact Hr]. Qed.

Lemma verify_membership_true r idx leaf siblings :
  verify_membership r idx leaf siblings = true ↔ compute_root idx leaf siblings = r.
Proof. unfold verify_membership. apply bool_decide_eq_true. Qed.

(** The level loop of v2.rs and the shifting loop of merkle.rs agree. *)
Lemma merkle_root_from_shift note_id level current siblings :
  merkle_root_from note_id level current siblings
  = compute_root_from (Z.shiftr note_id level) current siblings.
Proof.
  revert level current. induction siblings as [|s siblings IH]; intros level current; [done|].
  cbn [merkle_root_from compute_root_from]. rewrite IH. f_equal.
  rewrite Z.shiftr_shiftr by lia. f_equal. lia.
Qed.

(** ** Reachable trees *)

Inductive tree_reach : MerkleTree → Prop :=
| reach_new : tree_reach new
| reach_set t index value : tree_reach t → fits 32 index → tree_reach (set_leaf t index value)
| reach_insert t value : tree_reach t → tree_reach (insert t value).2.

(** The whole invariant: the hash cache, the [u32] counter, and the flat leaf
    vector that mirrors level 0. *)
Definition leaves_mirror (t : MerkleTree) : Prop :=
  ∀ i, (0 ≤ i)%Z → default ZERO (mt_leaves t !! Z.to_nat i) = get_leaf t i.

Lemma grow_leaves_lookup leaves index (k : nat) :
  default ZERO (grow_leaves leaves index !! k) = default ZERO (leaves !! k).
Proof.
  unfold grow_leaves. destruct (decide (k < length leaves)%nat).
  - by rewrite lookup_app_l.
  - rewrite lookup_app_r by lia. rewrite (lookup_ge_None_2 leaves) by lia.
    destruct (replicate _ ZERO !! _) as [z|] eqn:E; [|done].
    by apply lookup_replicate in E as [-> _].
Qed.

Lemma set_leaf_mirror t index value :
  tree_wf t → (0 ≤ index)%Z → leaves_mirror t → leaves_mirror (set_leaf t index value).
Proof.
  intros Ht Hi Hm i Hi'. rewrite get_leaf_set by done. cbn [set_leaf mt_leaves].
  destruct (decide (i = index)) as [->|Hne].
  - rewrite list_lookup_insert_eq; [done|].
    unfold grow_leaves. rewrite length_app, length_replicate. lia.
  - rewrite list_lookup_insert_ne by lia. by rewrite grow_leaves_lookup, Hm.
Qed.

Lemma tree_reach_wf t :
  tree_reach t → tree_wf t ∧ fits 32 (next_index t) ∧ leaves_mirror t.
Proof.
  induction 1 as [|t index value _ (Ht & Hn & Hm) [Hi _]|t value _ (Ht & Hn & Hm)].
  - split; [exact new_wf|]. split; [by split|]. intros i _. by rewrite get_leaf_new.
  - split; [by apply set_leaf_wf|]. split; [done|]. by apply set_leaf_mirror.
  - unfold insert. cbn [snd]. assert (0 ≤ mt_next_index t)%Z as Hi by apply Hn.
    pose proof (set_leaf_wf t _ value Ht Hi) as [Hz Hl Hw].
    split; [by split|]. split; [by apply wrap_fits|].
    exact (set_leaf_mirror t _ value Ht Hi Hm).
Qed.

(** ** Properties *)

(** C38. The incremental tree computes the Merkle root of its leaves: in every
    tree built by [new], [set_leaf] and [insert], each cached or defaulted node
    is the node of the textbook tree over the current leaves, so the root is the
    root of depth 32 of exactly those leaves; the flat leaf vector agrees. *)
Theorem merkle_tree_reference t :
  tree_reach t →
  root t = ref_root (get_leaf t) ∧
  (∀ level index, (level ≤ MERKLE_DEPTH)%nat → (0 ≤ index)%Z →
     get_node t level index = ref_node (get_leaf t) level index) ∧
  (∀ i, (0 ≤ i)%Z → default ZERO (mt_leaves t !! Z.to_nat i) = get_leaf t i).
Proof.
  intros (Ht & _ & Hm)%tree_reach_wf. split; [|split; [|exact Hm]].
  - by apply root_ref.
  - intros. by apply get_node_ref.
Qed.

(** Updating a leaf: [set_leaf] changes that leaf only, and its new root is
    what [compute_root] recomputes from the new value and the siblings taken
    before the update (the computation the vault contract performs). *)
Theorem merkle_set_leaf_spec t index value :
  tree_reach t → fits 32 index →
  (∀ i, get_leaf (set_leaf t index value) i =
     if decide (i = index) then value else get_leaf t i) ∧
  root (set_leaf t index value) = compute_root index value (get_siblings t index).
Proof.
  intros (Ht & _ & _)%tree_reach_wf Hi. split.
  - intros i. by apply get_leaf_set.
  - symmetry. by apply compute_root_set.
Qed.

(** Membership proofs: the path [get_siblings] returns verifies for the
    current leaf against the current root, and any other leaf and path that
    verify at the same index exhibit two different pairs of children with the
    same [merkle_node] on the way up. *)
Theorem merkle_membership t index :
  tree_reach t → fits 32 index →
  verify_membership (root t) index (get_leaf t index) (get_siblings t index) = true ∧
  (∀ leaf' siblings',
     verify_membership (root t) index leaf' siblings' = true →
     leaf' = get_leaf t index ∨
     walk_collision index leaf' (get_leaf t index) siblings' (get_siblings t index)).
Proof.
  intros (Ht & _ & _)%tree_reach_wf Hi.
  pose proof (compute_root_get t index Ht Hi) as Hroot. split.
  - by apply verify_membership_true.
  - intros leaf' siblings' Hv%verify_membership_true. apply compute_root_binding. congruence.
Qed.

(** The two Merkle-path loops of the code are the same function. *)
Theorem merkle_root_equiv note_id leaf siblings :
  CoreV2.merkle_root note_id leaf siblings = compute_root note_id leaf siblings.
Proof.
  unfold merkle_root, compute_root. rewrite merkle_root_from_shift. by rewrite Z.shiftr_0_r.
Qed.

(** Zeroing a leaf and writing its old value back restores the root. *)
Theorem merkle_restore t index :
  tree_reach t → fits 32 index →
  root (set_leaf (set_leaf t index ZERO) index (get_leaf t index)) = root t.
Proof.
  intros (Ht & _ & _)%tree_reach_wf [Hi _].
  assert (tree_wf (set_leaf t index ZERO)) as Ht' by by apply set_leaf_wf.
  apply root_ext; [by apply set_leaf_wf|done|]. intros i _.
  rewrite !get_leaf_set by done. by destruct (decide (i = index)) as [->|].
Qed.
End merkle.

(** ** Witnesses *)

#[local] Existing Instance Toy.

Definition sample_tree : MerkleTree := set_leaf (set_leaf new 2 ONE) 5 (from_u64 7).

Lemma sample_tree_reach : tree_reach sample_tree.
Proof. repeat apply reach_set; [apply reach_new|by split..]. Qed.

Lemma merkle_tree_reference_witness :
  get_leaf sample_tree 5 = from_u64 7 ∧
  root sample_tree = ref_root (get_leaf sample_tree).
Proof.
  split; [vm_compute; reflexivity|].
  exact (proj1 (merkle_tree_reference sample_tree sample_tree_reach)).
Defined.

Lemma merkle_set_leaf_spec_witness :
  root (set_leaf sample_tree 3 ONE)
  = compute_root 3 ONE (get_siblings sample_tree 3) ∧
  root (set_leaf sample_tree 3 ONE) ≠ root sample_tree.
Proof.
  split; [|vm_compute; discriminate].
  apply (merkle_set_leaf_spec sample_tree 3 ONE); [exact sample_tree_reach|by split].
Defined.

Lemma merkle_membership_witness :
  verify_membership (root sample_tree) 5 (from_u64 7) (get_siblings sample_tree 5) = true.
Proof.
  apply (merkle_membership sample_tree 5); [exact sample_tree_reach|by split].
Defined.

Lemma merkle_restore_witness :
  root (set_leaf (set_leaf sample_tree 5 ZERO) 5 (from_u64 7)) = root sample_tree ∧
  root (set_leaf sample_tree 5 ZERO) ≠ root sample_tree.
Proof.
  split; [|vm_compute; discriminate].
  apply (merkle_restore sample_tree 5); [exact sample_tree_reach|by split].
Defined.
