(* ===== verification/Mirror.v ===== *)
(** * Indexer: the local mirror of the vault's Merkle tree ([zkapi-indexer]:
    events.rs, tree_mirror.rs, service.rs)

    The mirror consumes contract events.  [note_view] is the abstract view: what
    one note's events say about its leaf, independent of every other note. *)
From S2P Require Import Prelude Felt Types Group Ark CoreV2 Merkle.

Inductive VaultEvent : Type :=
| NoteDeposited (note_id : Z) (commitment : Felt252) (amount expiry_ts : Z) (new_root : Felt252)
| MutualClose (note_id : Z) (nullifier : Felt252) (final_balance : Z)
| EscapeWithdrawalInitiated (note_id : Z) (nullifier : Felt252)
    (final_balance challenge_deadline : Z) (new_root : Felt252)
| EscapeWithdrawalChallenged (note_id : Z) (nullifier restored_root : Felt252)
| EscapeWithdrawalFinalized (note_id : Z) (nullifier : Felt252) (final_balance : Z)
| ExpiredClaimed (note_id deposit_amount : Z) (new_root : Felt252).

Definition event_note (ev : VaultEvent) : Z :=
  match ev with
  | NoteDeposited n _ _ _ _ | MutualClose n _ _ | EscapeWithdrawalInitiated n _ _ _ _
  | EscapeWithdrawalChallenged n _ _ | EscapeWithdrawalFinalized n _ _
  | ExpiredClaimed n _ _ => n
  end.

Record TreeMirror : Type := {
  tree : MerkleTree;
  original_leaves : gmap Z Felt252;
}.

Section mirror.
Context {A : Ark}.

Definition mirror_new : TreeMirror := {| tree := Merkle.new; original_leaves := ∅ |}.

Definition mirror_root (m : TreeMirror) : Felt252 := Merkle.root (tree m).
Definition next_note_id (m : TreeMirror) : Z := Merkle.next_index (tree m).
Definition get_path (m : TreeMirror) (note_id : Z) : vec Felt252 MERKLE_DEPTH :=
  Merkle.get_siblings (tree m) note_id.
Definition get_zero_path (m : TreeMirror) (note_id : Z) : vec Felt252 MERKLE_DEPTH :=
  Merkle.get_siblings (tree m) note_id.
Definition mirror_get_leaf (m : TreeMirror) (note_id : Z) : Felt252 :=
  Merkle.get_leaf (tree m) note_id.

Definition with_tree (m : TreeMirror) (t : MerkleTree) : TreeMirror :=
  {| tree := t; original_leaves := original_leaves m |}.

Definition process_event (m : TreeMirror) (event : VaultEvent) : TreeMirror :=
  match event with
  | NoteDeposited note_id commitment amount expiry_ts _ =>
      let leaf := compute_note_leaf note_id commitment amount expiry_ts in
      {| tree := set_leaf (tree m) note_id leaf;
         original_leaves := <[note_id := leaf]> (original_leaves m) |}
  | MutualClose note_id _ _ => with_tree m (set_leaf (tree m) note_id ZERO)
  | EscapeWithdrawalInitiated note_id _ _ _ _ => with_tree m (set_leaf (tree m) note_id ZERO)
  | EscapeWithdrawalChallenged note_id _ _ =>
      match original_leaves m !! note_id with
      | Some original => with_tree m (set_leaf (tree m) note_id original)
      | None => m
      end
  | EscapeWithdrawalFinalized _ _ _ => m
  | ExpiredClaimed note_id _ _ => with_tree m (set_leaf (tree m) note_id ZERO)
  end.

Definition process_events (m : TreeMirror) (events : list VaultEvent) : TreeMirror :=
  foldl process_event m events.

(** service.rs: the read endpoints.  The [RwLock] is never poisoned (no writer
    panics), so [read().unwrap()] returns the mirror. *)
Record IndexerService : Type := { mirror : TreeMirror }.
Definition service_get_root (s : IndexerService) : Felt252 := mirror_root (mirror s).
Definition service_get_next_note_id (s : IndexerService) : Z := next_note_id (mirror s).
Definition service_get_note_path (s : IndexerService) (n : Z) : vec Felt252 MERKLE_DEPTH :=
  get_path (mirror s) n.
Definition service_get_zero_path (s : IndexerService) (n : Z) : vec Felt252 MERKLE_DEPTH :=
  get_zero_path (mirror s) n.
Definition service_get_leaf (s : IndexerService) (n : Z) : Felt252 := mirror_get_leaf (mirror s) n.

(** ** Abstract view of one note *)

Record note_view : Type := { nv_leaf : Felt252; nv_original : option Felt252 }.

Definition note_fresh : note_view := {| nv_leaf := ZERO; nv_original := None |}.

Definition note_step (n : Z) (v : note_view) (ev : VaultEvent) : note_view :=
  if decide (event_note ev = n) then
    match ev with
    | NoteDeposited n c a e _ =>
        let leaf := note_leaf n c a e in {| nv_leaf := leaf; nv_original := Some leaf |}
    | EscapeWithdrawalChallenged _ _ _ =>
        {| nv_leaf := default (nv_leaf v) (nv_original v); nv_original := nv_original v |}
    | EscapeWithdrawalFinalized _ _ _ => v
    | _ => {| nv_leaf := ZERO; nv_original := nv_original v |}
    end
  else v.

Definition note_after (n : Z) (events : list VaultEvent) : note_view :=
  foldl (note_step n) note_fresh events.

(** The mirror shows the view of every note. *)
Definition shows (m : TreeMirror) (n : Z) (v : note_view) : Prop :=
  mirror_get_leaf m n = nv_leaf v ∧ original_leaves m !! n = nv_original v.

Definition mirror_inv (m : TreeMirror) : Prop := tree_reach (tree m) ∧ next_note_id m = 0%Z.

Lemma process_event_inv m ev :
  mirror_inv m → fits 32 (event_note ev) → mirror_inv (process_event m ev).
Proof.
  intros [Hr Hn] Hf. destruct ev; cbn [process_event event_note] in *;
    try (split; [by apply reach_set|exact Hn]); [|done].
  destruct (original_leaves m !! note_id); [|done]. split; [by apply reach_set|exact Hn].
Qed.

Lemma shows_set_leaf m n v note_id value orig :
  tree_reach (tree m) →
  shows m n v →
  shows {| tree := set_leaf (tree m) note_id value; original_leaves := orig |} n
    {| nv_leaf := if decide (n = note_id) then value else nv_leaf v;
       nv_original := orig !! n |}.
Proof.
  intros (Ht & _ & _)%tree_reach_wf [Hl Ho]. split; [|done].
  unfold mirror_get_leaf. cbn [tree nv_leaf]. rewrite get_leaf_set by done.
  by destruct (decide (n = note_id)).
Qed.

Lemma shows_step m n v ev :
  tree_reach (tree m) → shows m n v → shows (process_event m ev) n (note_step n v ev).
Proof.
  intros Hr Hs. unfold note_step. pose proof Hs as [Hl Ho].
  destruct ev as [k c a e r|k x b|k x b d r|k x r|k x b|k a r];
    cbn [process_event event_note]; try done; [|..].
  1: { destruct (shows_set_leaf m n v k (note_leaf k c a e)
         (<[k := note_leaf k c a e]> (original_leaves m)) Hr Hs) as [H1 H2].
       destruct (decide (k = n)) as [->|Hne].
       - rewrite decide_True in H1 by done. split; [exact H1|]. etrans; [exact H2|]. apply lookup_insert_eq.
       - rewrite decide_False in H1 by done. split; [exact H1|]. etrans; [exact H2|].
         etrans; [exact (lookup_insert_ne _ _ _ _ Hne)|exact Ho]. }
  3: { destruct (original_leaves m !! k) as [o|] eqn:Ek.
       - destruct (shows_set_leaf m n v k o (original_leaves m) Hr Hs) as [H1 H2].
         destruct (decide (k = n)) as [->|Hne].
         + rewrite decide_True in H1 by done. split; [|exact Ho].
           rewrite Ek in Ho. rewrite <- Ho. exact H1.
         + rewrite decide_False in H1 by done. by split.
       - destruct (decide (k = n)) as [->|Hne]; [|done].
         split; [|exact Ho]. rewrite Ek in Ho. rewrite <- Ho. exact Hl. }
  all: try by destruct (decide (k = n)).
  all: destruct (shows_set_leaf m n v k ZERO (original_leaves m) Hr Hs) as [H1 H2];
    destruct (decide (k = n)) as [->|Hne];
    [rewrite decide_True in H1 by done|rewrite decide_False in H1 by done]; by split.
Qed.

Lemma process_events_sim m n v events :
  mirror_inv m → shows m n v → Forall (λ ev, fits 32 (event_note ev)) events →
  mirror_inv (process_events m events) ∧
  shows (process_events m events) n (foldl (note_step n) v events).
Proof.
  intros Hm Hs Hf. revert m v Hm Hs. induction Hf as [|ev events Hev _ IH]; intros m v Hm Hs;
    [done|]. cbn. apply IH; [by apply process_event_inv|apply shows_step; [apply Hm|done]].
Qed.

Lemma mirror_new_inv : mirror_inv mirror_new.
Proof. split; [apply reach_new|done]. Qed.

Lemma mirror_new_shows n : shows mirror_new n note_fresh.
Proof. split; [apply get_leaf_new|done]. Qed.

(** C37. The mirror refines the event history: after any sequence of events, the
    leaf and the remembered original of each note are those of the note's own
    events, and the root is the Merkle root of these leaves, for which the
    served paths verify. *)
Theorem mirror_refines_events events n :
  Forall (λ ev, fits 32 (event_note ev)) events →
  let m := process_events mirror_new events in
  mirror_get_leaf m n = nv_leaf (note_after n events) ∧
  original_leaves m !! n = nv_original (note_after n events) ∧
  mirror_root m = ref_root (λ k, nv_leaf (note_after k events)) ∧
  (fits 32 n → verify_membership (mirror_root m) n (mirror_get_leaf m n) (get_path m n) = true).
Proof.
  intros Hf m.
  assert (∀ k, mirror_inv m ∧ shows m k (note_after k events)) as Hall.
  { intros k. apply process_events_sim; [apply mirror_new_inv|apply mirror_new_shows|done]. }
  destruct (Hall n) as [[Hr _] [Hl Ho]]. split; [done|]. split; [done|].
  apply tree_reach_wf in Hr as (Ht & _ & _). split.
  - etrans; [exact (root_ref _ Ht)|]. apply ref_root_ext. intros k _. apply (Hall k).
  - intros Hn. apply verify_membership_true. by apply compute_root_get.
Qed.

(** A challenged escape withdrawal leaves no trace: initiating it zeroes the
    leaf, challenging it restores the root the mirror had before. *)
Theorem mirror_challenge_restores events n x b d r x' r' :
  Forall (λ ev, fits 32 (event_note ev)) events → fits 32 n →
  let m := process_events mirror_new events in
  original_leaves m !! n = Some (mirror_get_leaf m n) →
  let m' := process_event m (EscapeWithdrawalInitiated n x b d r) in
  mirror_get_leaf m' n = ZERO ∧
  mirror_root (process_event m' (EscapeWithdrawalChallenged n x' r')) = mirror_root m.
Proof.
  intros Hf Hn m Ho m'.
  destruct (process_events_sim mirror_new n note_fresh events mirror_new_inv
    (mirror_new_shows n) Hf) as [[Hr _] _]. fold m in Hr.
  apply tree_reach_wf in Hr as (Ht & _ & _). destruct Hn as [Hn0 Hn1].
  assert (tree_wf (set_leaf (tree m) n ZERO)) as Ht' by by apply set_leaf_wf.
  split.
  - unfold mirror_get_leaf, m'. cbn [process_event with_tree tree].
    by rewrite get_leaf_set, decide_True by done.
  - unfold m'. cbn [process_event with_tree tree original_leaves]. rewrite Ho.
    cbn [with_tree tree]. apply root_ext; [by apply set_leaf_wf|done|].
    intros i _. cbn [tree with_tree]. rewrite !get_leaf_set by done.
    by destruct (decide (i = n)) as [->|].
Qed.

(** The mirror's note counter never moves: deposits write leaves by index
    and do not go through [insert], so [next_note_id] answers 0 for ever. *)
Theorem mirror_next_note_id_stuck events :
  Forall (λ ev, fits 32 (event_note ev)) events →
  service_get_next_note_id {| mirror := process_events mirror_new events |} = 0%Z.
Proof.
  intros Hf. unfold service_get_next_note_id. cbn [mirror].
  apply (process_events_sim mirror_new 0 note_fresh events mirror_new_inv (mirror_new_shows 0) Hf).
Qed.
End mirror.

(** ** Witnesses *)
#[local] Existing Instance Toy.

Definition sample_events : list VaultEvent :=
  [NoteDeposited 0 ONE 100 1000 ZERO; NoteDeposited 1 ONE 50 1000 ZERO;
   MutualClose 0 ONE 40].

Lemma sample_events_fit : Forall (λ ev, fits 32 (event_note ev)) sample_events.
Proof. repeat constructor; vm_compute; reflexivity || discriminate. Qed.

Lemma mirror_refines_events_witness :
  let m := process_events mirror_new sample_events in
  mirror_get_leaf m 0 = ZERO ∧ mirror_get_leaf m 1 = note_leaf 1 ONE 50 1000 ∧
  mirror_get_leaf m 1 = nv_leaf (note_after 1 sample_events).
Proof.
  split; [vm_compute; reflexivity|]. split; [vm_compute; reflexivity|].
  exact (proj1 (mirror_refines_events sample_events 1 sample_events_fit)).
Defined.

Lemma mirror_challenge_restores_witness :
  let m := process_events mirror_new sample_events in
  mirror_root (process_event (process_event m (EscapeWithdrawalInitiated 1 ONE 30 9 ZERO))
    (EscapeWithdrawalChallenged 1 ONE ZERO)) = mirror_root m.
Proof.
  assert (fits 32 1) as H1 by by split.
  assert (original_leaves (process_events mirror_new sample_events) !! 1%Z
    = Some (mirror_get_leaf (process_events mirror_new sample_events) 1)) as H2
    by (vm_compute; reflexivity).
  exact (proj2 (mirror_challenge_restores sample_events 1 ONE 30 9 ZERO ONE ZERO
    sample_events_fit H1 H2)).
Defined.

Lemma mirror_next_note_id_stuck_witness :
  length sample_events = 3%nat ∧
  service_get_next_note_id {| mirror := process_events mirror_new sample_events |} = 0%Z.
Proof.
  split; [reflexivity|exact (mirror_next_note_id_stuck sample_events sample_events_fit)].
Defined.
