(* ===== verification/Groth16.v ===== *)
(** * Curve operations and statement hashes of the proof system
    ([zkapi-proof]: groth16.rs, native part)

    Baby-JubJub generators found by hashing, the note-bound Pedersen commitment
    [balance*G + blinding*H + leaf*J], the Schnorr signature with a Poseidon
    challenge, and the statement hashes on field elements.  The constraint
    systems are in Circuit.v. *)
From S2P Require Import Prelude Felt Types Group Ark CoreV2.

Module groth16.

Definition REQUEST_PUBLIC_INPUTS : nat := 12.
Definition WITHDRAWAL_PUBLIC_INPUTS : nat := 14.
Definition REQUEST_MERKLE_DEPTH : nat := 32.

Definition DOMAIN_REG : list byte := str_bytes "zkapi.v2.reg".
Definition DOMAIN_LEAF : list byte := str_bytes "zkapi.v2.leaf".
Definition DOMAIN_NODE : list byte := str_bytes "zkapi.v2.node".
Definition DOMAIN_NULLIFIER : list byte := str_bytes "zkapi.v2.null".
Definition DOMAIN_AUTHORIZATION : list byte := str_bytes "zkapi.v2.auth".
Definition DOMAIN_STATE : list byte := str_bytes "zkapi.v2.state".
Definition DOMAIN_CLEARANCE : list byte := str_bytes "zkapi.v2.clear".
Definition DOMAIN_WITHDRAWAL : list byte := str_bytes "zkapi.v2.withdraw".
Definition DOMAIN_SIGNATURE : list byte := str_bytes "zkapi.v2.sig".

Section hashing.
Context {A : Ark}.

Definition poseidon_config : PoseidonConfig Fr :=
  let full_rounds := 8%nat in
  let partial_rounds := 57%nat in
  let rate := 2%nat in
  let '(ark, mds) :=
    find_poseidon_ark_and_mds MODULUS_BIT_SIZE rate full_rounds partial_rounds 0 in
  Build_PoseidonConfig full_rounds partial_rounds 5 mds ark rate 1.

Definition poseidon_hash (inputs : list Fr) : Fr := poseidon_sponge poseidon_config inputs.

Definition domain (label : list byte) : Fr := fof (be_val label).

Definition state_message (protocol_version chain_id : Z) (contract_address : Fr)
  (commitment : Fr * Fr) (anchor : Fr) : Fr :=
  poseidon_hash
    [domain DOMAIN_STATE; fof protocol_version; fof chain_id; contract_address;
     commitment.1; commitment.2; anchor].

Definition clearance_message (protocol_version chain_id : Z)
  (contract_address withdrawal_nullifier : Fr) : Fr :=
  poseidon_hash
    [domain DOMAIN_CLEARANCE; fof protocol_version; fof chain_id; contract_address;
     withdrawal_nullifier].

Definition request_nullifier (secret anchor : Fr) : Fr :=
  poseidon_hash [domain DOMAIN_NULLIFIER; secret; anchor].

Definition withdrawal_tag (nullifier destination : Fr) (final_balance : Z)
  (has_clearance : bool) : Fr :=
  poseidon_hash
    [domain DOMAIN_WITHDRAWAL; nullifier; destination; fof final_balance;
     fof (Z.b2z has_clearance)].

Definition authorization_tag (nullifier request_context : Fr) : Fr :=
  poseidon_hash [domain DOMAIN_AUTHORIZATION; nullifier; request_context].

Definition registration_commitment (secret : Fr) : Fr :=
  poseidon_hash [domain DOMAIN_REG; secret; fzero].

Definition note_leaf (note_id : Z) (registration : Fr) (deposit_amount expiry : Z) : Fr :=
  poseidon_hash
    [domain DOMAIN_LEAF; fof note_id; registration; fof deposit_amount; fof expiry].

Fixpoint merkle_root_from (note_id : Z) (level : nat) (current : Fr) (siblings : list Fr) : Fr :=
  match siblings with
  | [] => current
  | sibling :: siblings =>
      merkle_root_from note_id (S level)
        (if (Z.land (Z.shiftr note_id level) 1 =? 0)%Z
         then poseidon_hash [domain DOMAIN_NODE; current; sibling]
         else poseidon_hash [domain DOMAIN_NODE; sibling; current])
        siblings
  end.

Definition merkle_root (note_id : Z) (leaf : Fr) (siblings : vec Fr REQUEST_MERKLE_DEPTH) : Fr :=
  merkle_root_from note_id 0 leaf siblings.
End hashing.

(** ** Generators *)

Section generators.
Context {A : Ark} {KC : Keccak}.

(** One iteration of the hash-to-curve loop; [continue] is [None].  The range
    [0u32..u32::MAX] excludes its end. *)
Definition derive_attempt (label : list byte) (counter : Z) : option EdG :=
  if (counter <? 2 ^ 32 - 1)%Z then
    let x : Fr := fof (be_val (keccak256 (label ++ be_bytes 4 counter))) in
    let x_squared := fmul x x in
    let numerator := fsub fone x_squared in
    let denominator := fsub fone (fmul COEFF_D x_squared) in
    denominator_inverse ← Fr_inverse denominator;
    y ← Fr_sqrt (fmul numerator denominator_inverse);
    let y := if Z.odd (fint y) then fneg y else y in
    let point := into_affine (mul_bigint COFACTOR (into_group (x, y))) in
    if negb (bool_decide (point = (fzero, fone))) && is_in_correct_subgroup point
    then Some (into_group point) else None
  else None.

Definition derive_generator {E} (label : list byte) : result E EdG :=
  expect (search (derive_attempt label) 32 0).

Definition BLINDING_LABEL : list byte := str_bytes "zkapi.v2.balance.blinding.generator".
Definition BINDING_LABEL : list byte := str_bytes "zkapi.v2.note-binding.generator.v1".

(** The two [OnceLock] statics, after their initialiser returned. *)
Class Statics : Type := {
  balance_blinding_generator : EdG;
  note_binding_generator : EdG;
  blinding_init : derive_generator (E := string) BLINDING_LABEL = Ok balance_blinding_generator;
  binding_init : derive_generator (E := string) BINDING_LABEL = Ok note_binding_generator;
}.

Lemma derive_attempt_range label k g : derive_attempt label k = Some g → (k < 2 ^ 32 - 1)%Z.
Proof. unfold derive_attempt. by destruct (Z.ltb_spec k (2 ^ 32 - 1)). Qed.

Lemma derive_attempt_subgroup label k g :
  derive_attempt label k = Some g → in_subgroup g ∧ g ≠ gzero.
Proof.
  unfold derive_attempt. destruct (k <? 2 ^ 32 - 1)%Z; [|done]. intros H.
  apply bind_Some in H as (d & _ & H). apply bind_Some in H as (y & _ & H).
  set (Q := mul_bigint _ _) in H.
  destruct (negb _ && _) eqn:E in H; [|done]. injection H as <-.
  apply andb_true_iff in E as [Hz%negb_true_iff%bool_decide_eq_false Hs].
  rewrite into_group_affine. split; [by apply in_subgroup_affine|].
  intros H0. apply Hz. by rewrite H0, into_affine_zero.
Qed.

Lemma derive_generator_subgroup {E} label g :
  @derive_generator E label = Ok g → in_subgroup g ∧ g ≠ gzero.
Proof.
  intros (k & _ & Hk & _)%expect_Ok%search_Some. by eapply derive_attempt_subgroup.
Qed.
End generators.

(** ** Commitments and signatures *)

Section commitments.
Context {A : Ark} {KC : Keccak} {ST : Statics}.
Local Open Scope group_scope.

#[local] Abbreviation Gen := generator.
#[local] Abbreviation Bld := balance_blinding_generator.
#[local] Abbreviation Bnd := note_binding_generator.

Definition balance_commitment (balance : Z) (blinding : Sc) (note_leaf : Fr) : EdG :=
  mul_bigint (fint (fof balance : Sc)) Gen + mul_bigint (fint blinding) Bld
  + mul_bigint (fint note_leaf) Bnd.

Definition rerandomize_commitment (commitment : EdG) (rerandomization : Sc) : EdG :=
  commitment + mul_bigint (fint rerandomization) Bld.

Record StateSigningKey : Type := { secret : Sc; public : Fr * Fr }.
Record StateSignature : Type := { r : Fr * Fr; s : Sc }.

Definition from_secret (secret : Sc) : StateSigningKey :=
  let secret := if decide (secret = fzero) then fone else secret in
  {| secret := secret; public := into_affine (mul_bigint (fint secret) Gen) |}.

Definition signature_challenge (r : Fr * Fr) (message : Fr) : Sc :=
  let hash := poseidon_hash [domain DOMAIN_SIGNATURE; r.1; r.2; message] in
  fof (fint hash).

(** [nonce] is the scalar drawn from the random number generator. *)
Definition sign (key : StateSigningKey) (message : Fr) (nonce : Sc) : StateSignature :=
  let r := into_affine (mul_bigint (fint nonce) Gen) in
  let challenge := signature_challenge r message in
  {| r := r; s := fadd nonce (fmul challenge (secret key)) |}.

Definition verify_state_signature (public : Fr * Fr) (message : Fr) (signature : StateSignature) :
  bool :=
  let challenge := signature_challenge (r signature) message in
  let lhs := mul_bigint (fint (s signature)) Gen in
  let rhs := into_group (r signature) + mul_bigint (fint challenge) (into_group public) in
  bool_decide (lhs = rhs).

Lemma H_subgroup : in_subgroup Bld.
Proof. by apply (derive_generator_subgroup _ _ blinding_init). Qed.
Lemma J_subgroup : in_subgroup Bnd.
Proof. by apply (derive_generator_subgroup _ _ binding_init). Qed.

#[local] Hint Resolve H_subgroup J_subgroup : subgroup.

(** The commitment as integer multiples. *)
Lemma balance_commitment_zmul b x l :
  balance_commitment b x l = zmul b Gen + zmul (fint x) Bld + zmul (fint l) Bnd.
Proof.
  unfold balance_commitment. rewrite mul_fof by auto with subgroup nocore.
  by rewrite !mul_bigint_zmul by apply fint_bound.
Qed.

Lemma balance_commitment_subgroup b x l : in_subgroup (balance_commitment b x l).
Proof.
  rewrite balance_commitment_zmul. auto with subgroup nocore.
Qed.

Lemma zmul_fadd (x y : Sc) g : in_subgroup g → zmul (fint (fadd x y)) g = zmul (fint x) g + zmul (fint y) g.
Proof.
  intros Hg. unfold fadd. by rewrite fint_fof, Sc_modulus, zmul_order, zmul_add.
Qed.

Lemma zmul_fmul (x y : Sc) g : in_subgroup g → zmul (fint (fmul x y)) g = zmul (fint x) (zmul (fint y) g).
Proof.
  intros Hg. unfold fmul. by rewrite fint_fof, Sc_modulus, zmul_order, zmul_mul.
Qed.

Lemma rerandomize_commitment_blinding b x l rho :
  rerandomize_commitment (balance_commitment b x l) rho = balance_commitment b (fadd x rho) l.
Proof.
  unfold rerandomize_commitment. rewrite !balance_commitment_zmul, mul_scalar.
  rewrite zmul_fadd by apply H_subgroup. rewrite <- !gadd_assoc. f_equal. f_equal.
  apply gadd_comm.
Qed.

(** A charge moves value from the commitment and the server's blinding in. *)
Lemma charge_commitment b c x d l :
  balance_commitment b x l - zmul c Gen + zmul (fint d) Bld
  = balance_commitment (b - c) (fadd x d) l.
Proof.
  rewrite !balance_commitment_zmul, zmul_sub, zmul_fadd by apply H_subgroup.
  rewrite <- !gadd_assoc. f_equal.
  rewrite (gadd_comm (zmul (fint l) Bnd)), !gadd_assoc. rewrite (gadd_comm (zmul (fint x) Bld)).
  by rewrite <- !gadd_assoc.
Qed.

Lemma from_secret_public x : ∃ k : Sc,
  secret (from_secret x) = k ∧ k ≠ fzero ∧
  public (from_secret x) = into_affine (zmul (fint k) Gen).
Proof.
  unfold from_secret. cbn. rewrite mul_scalar. destruct (decide (x = fzero)) as [->|Hx]; eauto.
  exists fone. split_and!; [done| |done]. intros E%(f_equal fint). unfold fone, fzero in E.
  rewrite !fint_fof, Sc_modulus in E. discriminate E.
Qed.

Lemma verify_state_signature_spec P m sig :
  verify_state_signature P m sig = true ↔
  zmul (fint (s sig)) Gen
  = into_group (r sig) + zmul (fint (signature_challenge (r sig) m)) (into_group P).
Proof.
  unfold verify_state_signature. rewrite bool_decide_eq_true.
  by rewrite !mul_scalar.
Qed.

Lemma sign_verifies x m nonce :
  verify_state_signature (public (from_secret x)) m (sign (from_secret x) m nonce) = true.
Proof.
  apply verify_state_signature_spec. destruct (from_secret_public x) as (k & Hk & _ & HP).
  unfold sign. cbn [r s]. rewrite HP, Hk, !into_group_affine, mul_scalar.
  set (c := signature_challenge _ m).
  rewrite zmul_fadd by auto with subgroup nocore. by rewrite zmul_fmul by auto with subgroup nocore.
Qed.

Lemma sign_r_subgroup key m nonce :
  is_on_curve (r (sign key m nonce)) = true ∧
  is_in_correct_subgroup (r (sign key m nonce)) = true.
Proof.
  unfold sign. cbn [r]. split; [apply into_affine_on_curve|].
  apply in_subgroup_affine. rewrite mul_scalar. auto with subgroup nocore.
Qed.

(** Schnorr completeness: every signature made with a key verifies under
    its public point, whatever the nonce and the seed (a zero seed is replaced
    by one, so the public point is never derived from zero). *)
Theorem schnorr_complete seed message nonce :
  let key := from_secret seed in
  verify_state_signature (public key) message (sign key message nonce) = true ∧
  secret key ≠ fzero.
Proof.
  intros key. split; [apply sign_verifies|].
  destruct (from_secret_public seed) as (k & Hk & Hne & _). unfold key. by rewrite Hk.
Qed.

(** Two accepting signatures that share a nonce point reveal a relation on
    the key: the response difference is the challenge difference times the
    public point (the extractor of special soundness, and the reason a nonce is
    never reused). *)
Theorem schnorr_shared_nonce P m m' R s1 s2 :
  verify_state_signature P m {| r := R; s := s1 |} = true →
  verify_state_signature P m' {| r := R; s := s2 |} = true →
  zmul (fint s1 - fint s2) Gen
  = zmul (fint (signature_challenge R m) - fint (signature_challenge R m')) (into_group P).
Proof.
  intros H1%verify_state_signature_spec H2%verify_state_signature_spec.
  cbn [r s] in H1, H2. rewrite !zmul_sub, H1, H2, gneg_add.
  rewrite gadd_shuffle, gadd_neg_r. apply gadd_zero_l.
Qed.
End commitments.

(** Generator derivation: when the hash-to-curve search returns, its point
    is a non-zero element of the prime-order subgroup, and it is the point of
    the first counter below [2^32 - 1] that passes every test. *)
Theorem derive_generator_spec {A : Ark} {KC : Keccak} label g :
  derive_generator (E := string) label = Ok g →
  in_subgroup g ∧ g ≠ gzero ∧
  ∃ k, (0 ≤ k < 2 ^ 32 - 1)%Z ∧ derive_attempt label k = Some g ∧
       ∀ j, (0 ≤ j < k)%Z → derive_attempt label j = None.
Proof.
  intros Hg. pose proof (derive_generator_subgroup _ _ Hg) as [? ?]. split_and!; [done..|].
  apply expect_Ok, search_Some in Hg as (k & Hk & Hf & Hmin). exists k.
  split; [|done]. pose proof (derive_attempt_range _ _ _ Hf). lia.
Qed.

(** ** Agreement with the byte-level hashes *)

Section agreement.
Context {A : Ark}.

Lemma hash_domain_field label l :
  felt_to_field (hash_domain label l)
  = poseidon_hash (domain label :: (felt_to_field <$> l)).
Proof. unfold hash_domain. by rewrite felt_to_field_to_felt. Qed.

Lemma small_u64 w z : (0 ≤ w ≤ 64)%Z → fits w z → felt_to_field (from_u64 z) = fof z.
Proof. intros Hw Hz. apply felt_to_field_from_u64. by eapply fits_weaken. Qed.

Lemma bool_u64 b : felt_to_field (from_u64 (Z.b2z b)) = fof (Z.b2z b).
Proof. apply (small_u64 1); [lia|by destruct b]. Qed.

Lemma core_state_message v c a x y t :
  fits 16 v → fits 64 c →
  felt_to_field (CoreV2.state_message v c a x y t)
  = state_message v c (felt_to_field a) (felt_to_field x, felt_to_field y) (felt_to_field t).
Proof.
  intros Hv Hc. unfold CoreV2.state_message. rewrite hash_domain_field. cbn [fmap list_fmap].
  by rewrite (small_u64 16 v), (small_u64 64 c) by (lia || done).
Qed.

Lemma core_clearance_message v c a n :
  fits 16 v → fits 64 c →
  felt_to_field (CoreV2.clearance_message v c a n)
  = clearance_message v c (felt_to_field a) (felt_to_field n).
Proof.
  intros Hv Hc. unfold CoreV2.clearance_message. rewrite hash_domain_field. cbn [fmap list_fmap].
  by rewrite (small_u64 16 v), (small_u64 64 c) by (lia || done).
Qed.

Lemma core_registration x :
  felt_to_field (CoreV2.registration_commitment x) = registration_commitment (felt_to_field x).
Proof.
  unfold CoreV2.registration_commitment. rewrite hash_domain_field. cbn [fmap list_fmap].
  by rewrite felt_to_field_ZERO.
Qed.

Lemma core_note_leaf i reg d e :
  fits 32 i → fits 128 d → fits 64 e →
  felt_to_field (CoreV2.note_leaf i reg d e) = note_leaf i (felt_to_field reg) d e.
Proof.
  intros Hi Hd He. unfold CoreV2.note_leaf. rewrite hash_domain_field. cbn [fmap list_fmap].
  by rewrite (small_u64 32 i), (small_u64 64 e), felt_to_field_from_u128 by (lia || done).
Qed.

Lemma core_nullifier x t :
  felt_to_field (CoreV2.nullifier x t) = request_nullifier (felt_to_field x) (felt_to_field t).
Proof. unfold CoreV2.nullifier. by rewrite hash_domain_field. Qed.

Lemma core_authorization_tag n x :
  felt_to_field (CoreV2.authorization_tag n x)
  = authorization_tag (felt_to_field n) (felt_to_field x).
Proof. unfold CoreV2.authorization_tag. by rewrite hash_domain_field. Qed.

Lemma core_withdrawal_tag n d b h :
  fits 128 b →
  felt_to_field (CoreV2.withdrawal_tag n d b h)
  = withdrawal_tag (felt_to_field n) (felt_to_field d) b h.
Proof.
  intros Hb. unfold CoreV2.withdrawal_tag. rewrite hash_domain_field. cbn [fmap list_fmap].
  by rewrite felt_to_field_from_u128, bool_u64.
Qed.

Lemma core_merkle_root i l ss :
  felt_to_field (CoreV2.merkle_root i l ss)
  = merkle_root i (felt_to_field l) (vmap felt_to_field ss).
Proof.
  unfold CoreV2.merkle_root, merkle_root. rewrite vec_to_list_map.
  generalize (vec_to_list ss) as k. intros k. generalize 0%nat as n.
  revert l. induction k as [|x k IH]; intros l n; [done|].
  cbn [CoreV2.merkle_root_from merkle_root_from fmap list_fmap]. rewrite IH. f_equal.
  destruct (_ =? _)%Z; unfold merkle_node; by rewrite hash_domain_field.
Qed.
End agreement.

(** C39. The byte-level hashes of the protocol core and the field-level hashes of
    the proof system are the same functions: signing, nullifying, tagging and
    tree hashing agree across the two crates. *)
Theorem core_groth16_agree {A : Ark} :
  (∀ v c a x y t, fits 16 v → fits 64 c →
     felt_to_field (CoreV2.state_message v c a x y t)
     = state_message v c (felt_to_field a) (felt_to_field x, felt_to_field y) (felt_to_field t)) ∧
  (∀ v c a n, fits 16 v → fits 64 c →
     felt_to_field (CoreV2.clearance_message v c a n)
     = clearance_message v c (felt_to_field a) (felt_to_field n)) ∧
  (∀ s, felt_to_field (CoreV2.registration_commitment s)
     = registration_commitment (felt_to_field s)) ∧
  (∀ i reg d e, fits 32 i → fits 128 d → fits 64 e →
     felt_to_field (CoreV2.note_leaf i reg d e) = note_leaf i (felt_to_field reg) d e) ∧
  (∀ s t, felt_to_field (CoreV2.nullifier s t)
     = request_nullifier (felt_to_field s) (felt_to_field t)) ∧
  (∀ n x, felt_to_field (CoreV2.authorization_tag n x)
     = authorization_tag (felt_to_field n) (felt_to_field x)) ∧
  (∀ n d b h, fits 128 b →
     felt_to_field (CoreV2.withdrawal_tag n d b h)
     = withdrawal_tag (felt_to_field n) (felt_to_field d) b h) ∧
  (∀ i l ss, felt_to_field (CoreV2.merkle_root i l ss)
     = merkle_root i (felt_to_field l) (vmap felt_to_field ss)).
Proof.
  split_and!.
  - intros. by apply core_state_message.
  - intros. by apply core_clearance_message.
  - apply core_registration.
  - intros. by apply core_note_leaf.
  - apply core_nullifier.
  - apply core_authorization_tag.
  - intros. by apply core_withdrawal_tag.
  - apply core_merkle_root.
Qed.
End groth16.

(** ** Witnesses *)
#[local] Existing Instance Toy.
#[local] Existing Instance toy_keccak.

(** The statics of the concrete instance: run the search. *)
Definition toy_static (label : list byte) : @EdG Toy :=
  match groth16.derive_generator (E := string) label with Ok g => g | _ => gzero end.

Definition toy_statics : @groth16.Statics Toy toy_keccak.
Proof.
  refine {| groth16.balance_blinding_generator := toy_static groth16.BLINDING_LABEL;
            groth16.note_binding_generator := toy_static groth16.BINDING_LABEL |}.
  - abstract (vm_compute; reflexivity).
  - abstract (vm_compute; reflexivity).
Defined.

Lemma derive_generator_spec_witness :
  groth16.derive_generator (E := string) groth16.BINDING_LABEL
    = Ok (toy_static groth16.BINDING_LABEL) ∧
  toy_static groth16.BINDING_LABEL ≠ gzero.
Proof.
  assert (groth16.derive_generator (E := string) groth16.BINDING_LABEL
    = Ok (toy_static groth16.BINDING_LABEL)) as H by (vm_compute; reflexivity).
  split; [exact H|].
  exact (proj1 (proj2 (groth16.derive_generator_spec groth16.BINDING_LABEL _ H))).
Defined.

Lemma schnorr_shared_nonce_witness :
  let key := groth16.from_secret (A := Toy) (fof 5) in
  let s1 := groth16.sign key (fof 10) (fof 77) in
  let s2 := groth16.sign key (fof 11) (fof 77) in
  groth16.r s1 = groth16.r s2 ∧
  zmul (fint (groth16.s s1) - fint (groth16.s s2)) generator
  = zmul (fint (groth16.signature_challenge (groth16.r s1) (fof 10))
          - fint (groth16.signature_challenge (groth16.r s1) (fof 11)))
      (into_group (groth16.public key)).
Proof.
  intros key s1 s2. split; [reflexivity|].
  apply (groth16.schnorr_shared_nonce (groth16.public key) (fof 10) (fof 11) (groth16.r s1)
    (groth16.s s1) (groth16.s s2)); vm_compute; reflexivity.
Defined.

(** The embedded small integers of [core_groth16_agree] are the code's own
    widths; one of its equations on a concrete note. *)
Lemma core_groth16_agree_witness :
  felt_to_field (CoreV2.note_leaf 3 ONE 1000 50)
  = groth16.note_leaf 3 (felt_to_field ONE) 1000 50.
Proof.
  pose proof groth16.core_groth16_agree as (_ & _ & _ & H & _).
  apply H; by split.
Defined.
