(* ===== verification/Circuit.v ===== *)
(** * The request and withdrawal circuits ([zkapi-proof]: groth16.rs,
    [generate_constraints])

    A circuit is modelled as the conjunction of the constraints it enforces on
    an assignment: the public inputs in allocation order and one value per
    allocated witness variable.  An assignment is arbitrary (that is what a
    malicious prover chooses); [*_assign] is the honest one.  The gadgets of
    [ark-r1cs-std] denote the operation they constrain: a [Boolean] is a bit, a
    [UInt] its little-endian bits, [to_bits_le] of a field variable the bits of
    its canonical representative, a witness point is on the curve and in the
    prime subgroup, an input point is on the curve.

    The theorems relate the constraints to the native functions: every
    satisfying assignment is a valid state in the sense of the native hashes,
    commitment and signature check (soundness), and every valid state satisfies
    them (completeness). *)
From S2P Require Import Prelude Felt Types Group Ark CoreV2 Groth16.
Import groth16.

(** ** Gadgets *)

Section gadgets.
Context {A : Ark} {KC : Keccak} {ST : Statics}.
Local Open Scope group_scope.

(** [EdwardsScalarField::MODULUS_BIT_SIZE] and [CircuitField::MODULUS_BIT_SIZE]. *)
Definition SCALAR_BITS : nat := 251.
Definition FIELD_BITS : nat := 254.

Definition to_fp (bits : list bool) : Fr := fof (bits_val bits).
Definition is_ge (x y : list bool) : bool := (bits_val y <=? bits_val x)%Z.
Definition select {T} (bit : bool) (on_true on_false : T) : T := if bit then on_true else on_false.
Definition fp_to_bits_le (x : Fr) : vec bool FIELD_BITS := to_bits FIELD_BITS (fint x).
Definition scalar_mul_le (P : EdG) (bits : list bool) : EdG := mul_bigint (bits_val bits) P.
Definition enforce_equal {T} `{EqDecision T} (x y : T) : bool := bool_decide (x = y).
Definition conditional_enforce_equal {T} `{EqDecision T} (x y : T) (c : bool) : bool :=
  if c then bool_decide (x = y) else true.
Definition point_input (P : Fr * Fr) : bool := is_on_curve P.
Definition point_witness (P : Fr * Fr) : bool := is_on_curve P && is_in_correct_subgroup P.

(** The values [scalar_bits_witness] allocates. *)
Definition scalar_bits_witness (value : Sc) : vec bool SCALAR_BITS :=
  to_bits SCALAR_BITS (fint value).

Definition commitment_var (balance blinding_bits : list bool) (note_leaf : Fr) : EdG :=
  let note_bits := fp_to_bits_le note_leaf in
  scalar_mul_le generator balance + scalar_mul_le balance_blinding_generator blinding_bits
  + scalar_mul_le note_binding_generator note_bits.

Definition enforce_signature (public_key : Fr * Fr) (message : Fr) (r : Fr * Fr)
  (s_bits : list bool) (condition : bool) : bool :=
  point_witness r &&
  let challenge_hash := poseidon_hash [domain DOMAIN_SIGNATURE; r.1; r.2; message] in
  let challenge_bits := fp_to_bits_le challenge_hash in
  let lhs := scalar_mul_le generator s_bits in
  let rhs := into_group r + scalar_mul_le (into_group public_key) challenge_bits in
  conditional_enforce_equal lhs rhs condition.

(** The Merkle loop shared by both circuits. *)
Fixpoint merkle_var (note_bits : list bool) (level : nat) (current : Fr) (siblings : list Fr) : Fr :=
  match siblings with
  | [] => current
  | sibling :: siblings =>
      let bit := default false (note_bits !! level) in
      let left := select bit sibling current in
      let right := select bit current sibling in
      merkle_var note_bits (S level) (poseidon_hash [domain DOMAIN_NODE; left; right]) siblings
  end.

(** ** Request circuit *)

Record RequestPublic : Type := {
  q_protocol_version : Z;
  q_chain_id : Z;
  q_contract_address : Fr;
  q_active_root : Fr;
  q_state_signing_key : Fr * Fr;
  q_request_time : Z;
  q_solvency_bound : Z;
  q_request_nullifier : Fr;
  q_authorization_tag : Fr;
  q_anonymous_commitment : Fr * Fr;
}.

Definition request_to_field_elements (p : RequestPublic) : list Fr :=
  [ fof (q_protocol_version p); fof (q_chain_id p); q_contract_address p; q_active_root p;
    (q_state_signing_key p).1; (q_state_signing_key p).2;
    fof (q_request_time p); fof (q_solvency_bound p); q_request_nullifier p;
    q_authorization_tag p; (q_anonymous_commitment p).1; (q_anonymous_commitment p).2 ].

Record RequestWitness : Type := {
  qw_secret : Fr;
  qw_request_context : Fr;
  qw_note_id : Z;
  qw_deposit_amount : Z;
  qw_expiry : Z;
  qw_merkle_siblings : vec Fr REQUEST_MERKLE_DEPTH;
  qw_current_balance : Z;
  qw_current_blinding : Sc;
  qw_rerandomization : Sc;
  qw_current_anchor : Fr;
  qw_is_genesis : bool;
  qw_state_signature : StateSignature;
}.

Record RequestCircuit : Type := { q_public : RequestPublic; q_witness : RequestWitness }.

(** The allocated witness variables, in allocation order. *)
Record RequestVars : Type := {
  qv_secret : Fr;
  qv_request_context : Fr;
  qv_note_id : vec bool 32;
  qv_deposit_amount : vec bool 128;
  qv_expiry : vec bool 64;
  qv_balance : vec bool 128;
  qv_request_time : vec bool 64;
  qv_solvency_bound : vec bool 128;
  qv_siblings : vec Fr REQUEST_MERKLE_DEPTH;
  qv_is_genesis : bool;
  qv_anchor : Fr;
  qv_blinding_bits : vec bool SCALAR_BITS;
  qv_sig_r : Fr * Fr;
  qv_sig_s_bits : vec bool SCALAR_BITS;
  qv_rerandomization_bits : vec bool SCALAR_BITS;
}.

(** The constraints, in the order the code emits them.  The public inputs are
    the variables [new_input] allocated. *)
Definition request_satisfied (inputs : list Fr) (v : RequestVars) : bool :=
  match inputs with
  | [protocol_version; chain_id; contract_address; active_root; key_x; key_y;
     request_time_field; solvency_bound_field; request_nullifier; authorization_tag;
     anon_x; anon_y] =>
      point_input (key_x, key_y) && point_input (anon_x, anon_y) &&
      negb (bool_decide (qv_secret v = fzero)) &&
      enforce_equal (to_fp (qv_request_time v)) request_time_field &&
      is_ge (qv_expiry v) (qv_request_time v) &&
      enforce_equal (to_fp (qv_solvency_bound v)) solvency_bound_field &&
      is_ge (qv_balance v) (qv_solvency_bound v) &&
      let registration := poseidon_hash [domain DOMAIN_REG; qv_secret v; fzero] in
      let leaf := poseidon_hash
        [domain DOMAIN_LEAF; to_fp (qv_note_id v); registration;
         to_fp (qv_deposit_amount v); to_fp (qv_expiry v)] in
      let current := merkle_var (qv_note_id v) 0 leaf (qv_siblings v) in
      enforce_equal current active_root &&
      conditional_enforce_equal (qv_anchor v) fone (qv_is_genesis v) &&
      conditional_enforce_equal (to_fp (qv_balance v)) (to_fp (qv_deposit_amount v))
        (qv_is_genesis v) &&
      let current_commitment := commitment_var (qv_balance v) (qv_blinding_bits v) leaf in
      let state_message := poseidon_hash
        [domain DOMAIN_STATE; protocol_version; chain_id; contract_address;
         (into_affine current_commitment).1; (into_affine current_commitment).2; qv_anchor v] in
      enforce_signature (key_x, key_y) state_message (qv_sig_r v) (qv_sig_s_bits v)
        (negb (qv_is_genesis v)) &&
      let computed_anonymous := current_commitment
        + scalar_mul_le balance_blinding_generator (qv_rerandomization_bits v) in
      enforce_equal (into_affine computed_anonymous) (anon_x, anon_y) &&
      enforce_equal (poseidon_hash [domain DOMAIN_NULLIFIER; qv_secret v; qv_anchor v])
        request_nullifier &&
      enforce_equal
        (poseidon_hash [domain DOMAIN_AUTHORIZATION; request_nullifier; qv_request_context v])
        authorization_tag
  | _ => false
  end.

(** The honest assignment: what the closures given to [new_witness] return. *)
Definition request_assign (c : RequestCircuit) : RequestVars :=
  let p := q_public c in
  let w := q_witness c in
  {| qv_secret := qw_secret w;
     qv_request_context := qw_request_context w;
     qv_note_id := to_bits 32 (qw_note_id w);
     qv_deposit_amount := to_bits 128 (qw_deposit_amount w);
     qv_expiry := to_bits 64 (qw_expiry w);
     qv_balance := to_bits 128 (qw_current_balance w);
     qv_request_time := to_bits 64 (q_request_time p);
     qv_solvency_bound := to_bits 128 (q_solvency_bound p);
     qv_siblings := qw_merkle_siblings w;
     qv_is_genesis := qw_is_genesis w;
     qv_anchor := qw_current_anchor w;
     qv_blinding_bits := scalar_bits_witness (qw_current_blinding w);
     qv_sig_r := groth16.r (qw_state_signature w);
     qv_sig_s_bits := scalar_bits_witness (groth16.s (qw_state_signature w));
     qv_rerandomization_bits := scalar_bits_witness (qw_rerandomization w) |}.

(** [generate_constraints] followed by [is_satisfied]. *)
Definition request_circuit_satisfied (c : RequestCircuit) : bool :=
  request_satisfied (request_to_field_elements (q_public c)) (request_assign c).

(** ** Withdrawal circuit *)

Record WithdrawalPublic : Type := {
  x_protocol_version : Z;
  x_chain_id : Z;
  x_contract_address : Fr;
  x_active_root : Fr;
  x_state_signing_key : Fr * Fr;
  x_clearance_signing_key : Fr * Fr;
  x_note_id : Z;
  x_final_balance : Z;
  x_destination : Fr;
  x_withdrawal_nullifier : Fr;
  x_has_clearance : bool;
  x_withdrawal_tag : Fr;
}.

Definition withdrawal_to_field_elements (p : WithdrawalPublic) : list Fr :=
  [ fof (x_protocol_version p); fof (x_chain_id p); x_contract_address p; x_active_root p;
    (x_state_signing_key p).1; (x_state_signing_key p).2;
    (x_clearance_signing_key p).1; (x_clearance_signing_key p).2;
    fof (x_note_id p); fof (x_final_balance p); x_destination p; x_withdrawal_nullifier p;
    fof (Z.b2z (x_has_clearance p)); x_withdrawal_tag p ].

Record WithdrawalWitness : Type := {
  xw_secret : Fr;
  xw_deposit_amount : Z;
  xw_expiry : Z;
  xw_merkle_siblings : vec Fr REQUEST_MERKLE_DEPTH;
  xw_final_blinding : Sc;
  xw_current_anchor : Fr;
  xw_is_genesis : bool;
  xw_state_signature : StateSignature;
  xw_clearance_signature : StateSignature;
}.

Record WithdrawalCircuit : Type := { x_public : WithdrawalPublic; x_witness : WithdrawalWitness }.

Record WithdrawalVars : Type := {
  xv_secret : Fr;
  xv_note_id : vec bool 32;
  xv_deposit_amount : vec bool 128;
  xv_final_balance : vec bool 128;
  xv_expiry : vec bool 64;
  xv_siblings : vec Fr REQUEST_MERKLE_DEPTH;
  xv_is_genesis : bool;
  xv_anchor : Fr;
  xv_blinding_bits : vec bool SCALAR_BITS;
  xv_sig_r : Fr * Fr;
  xv_sig_s_bits : vec bool SCALAR_BITS;
  xv_clear_r : Fr * Fr;
  xv_clear_s_bits : vec bool SCALAR_BITS;
}.

(** A [Boolean] input variable: the field element is 0 or 1. *)
Definition boolean_input (x : Fr) : option bool :=
  if bool_decide (x = fone) then Some true
  else if bool_decide (x = fzero) then Some false else None.

Definition withdrawal_satisfied (inputs : list Fr) (v : WithdrawalVars) : bool :=
  match inputs with
  | [protocol_version; chain_id; contract_address; active_root; key_x; key_y; clear_x; clear_y;
     note_id_field; final_balance_field; destination; withdrawal_nullifier;
     has_clearance_field; withdrawal_tag] =>
      match boolean_input has_clearance_field with
      | None => false
      | Some has_clearance =>
      point_input (key_x, key_y) && point_input (clear_x, clear_y) &&
      negb (bool_decide (xv_secret v = fzero)) &&
      enforce_equal (to_fp (xv_note_id v)) note_id_field &&
      enforce_equal (to_fp (xv_final_balance v)) final_balance_field &&
      is_ge (xv_deposit_amount v) (xv_final_balance v) &&
      let registration := poseidon_hash [domain DOMAIN_REG; xv_secret v; fzero] in
      let leaf := poseidon_hash
        [domain DOMAIN_LEAF; to_fp (xv_note_id v); registration;
         to_fp (xv_deposit_amount v); to_fp (xv_expiry v)] in
      let current := merkle_var (xv_note_id v) 0 leaf (xv_siblings v) in
      enforce_equal current active_root &&
      conditional_enforce_equal (xv_anchor v) fone (xv_is_genesis v) &&
      conditional_enforce_equal (to_fp (xv_final_balance v)) (to_fp (xv_deposit_amount v))
        (xv_is_genesis v) &&
      let current_commitment := commitment_var (xv_final_balance v) (xv_blinding_bits v) leaf in
      let state_message := poseidon_hash
        [domain DOMAIN_STATE; protocol_version; chain_id; contract_address;
         (into_affine current_commitment).1; (into_affine current_commitment).2; xv_anchor v] in
      enforce_signature (key_x, key_y) state_message (xv_sig_r v) (xv_sig_s_bits v)
        (negb (xv_is_genesis v)) &&
      enforce_equal (poseidon_hash [domain DOMAIN_NULLIFIER; xv_secret v; xv_anchor v])
        withdrawal_nullifier &&
      enforce_equal
        (poseidon_hash [domain DOMAIN_WITHDRAWAL; withdrawal_nullifier; destination;
           final_balance_field; select has_clearance fone fzero])
        withdrawal_tag &&
      let clear_message := poseidon_hash
        [domain DOMAIN_CLEARANCE; protocol_version; chain_id; contract_address;
         withdrawal_nullifier] in
      enforce_signature (clear_x, clear_y) clear_message (xv_clear_r v) (xv_clear_s_bits v)
        has_clearance
      end
  | _ => false
  end.

Definition withdrawal_assign (c : WithdrawalCircuit) : WithdrawalVars :=
  let p := x_public c in
  let w := x_witness c in
  {| xv_secret := xw_secret w;
     xv_note_id := to_bits 32 (x_note_id p);
     xv_deposit_amount := to_bits 128 (xw_deposit_amount w);
     xv_final_balance := to_bits 128 (x_final_balance p);
     xv_expiry := to_bits 64 (xw_expiry w);
     xv_siblings := xw_merkle_siblings w;
     xv_is_genesis := xw_is_genesis w;
     xv_anchor := xw_current_anchor w;
     xv_blinding_bits := scalar_bits_witness (xw_final_blinding w);
     xv_sig_r := groth16.r (xw_state_signature w);
     xv_sig_s_bits := scalar_bits_witness (groth16.s (xw_state_signature w));
     xv_clear_r := groth16.r (xw_clearance_signature w);
     xv_clear_s_bits := scalar_bits_witness (groth16.s (xw_clearance_signature w)) |}.

Definition withdrawal_circuit_satisfied (c : WithdrawalCircuit) : bool :=
  withdrawal_satisfied (withdrawal_to_field_elements (x_public c)) (withdrawal_assign c).

(** ** Gadgets and native functions *)

Lemma bits_val_vec {n} (v : vec bool n) : (0 ≤ bits_val v < 2 ^ n)%Z.
Proof. pose proof (bits_val_bound v) as Hb. by rewrite length_vec_to_list in Hb. Qed.

Lemma small_in_field z w : (0 ≤ w ≤ 128)%Z → fits w z → (0 ≤ z < fmodulus Fr)%Z.
Proof.
  intros Hw Hz. apply (fits_weaken w 128) in Hz as [? ?]; [|done]. rewrite Fr_modulus.
  assert (2 ^ 128 < FIELD_MODULUS)%Z by (vm_compute; reflexivity). lia.
Qed.

Lemma to_fp_eq {n : nat} (v : vec bool n) z :
  (n ≤ 128)%nat → fits n z → enforce_equal (to_fp v) (fof z) = true ↔ bits_val v = z.
Proof.
  intros Hn Hz. unfold enforce_equal, to_fp. rewrite bool_decide_eq_true. split; [|by intros ->].
  apply (fof_inj_small (F := Fr)); eapply (small_in_field _ n); try lia; [apply bits_val_vec|done].
Qed.

Lemma to_fp_inj {n m : nat} (v : vec bool n) (w : vec bool m) :
  (n ≤ 128)%nat → (m ≤ 128)%nat → to_fp v = to_fp w ↔ bits_val v = bits_val w.
Proof.
  intros Hn Hm. unfold to_fp. split; [|by intros ->].
  apply (fof_inj_small (F := Fr)); [eapply (small_in_field _ n)|eapply (small_in_field _ m)];
    try lia; apply bits_val_vec.
Qed.

Lemma bits_val_fp x : bits_val (fp_to_bits_le x) = fint x.
Proof.
  apply bits_val_to_bits. pose proof (Fr_gt x) as Hx.
  assert (FIELD_MODULUS < 2 ^ FIELD_BITS)%Z by (vm_compute; reflexivity). lia.
Qed.

Lemma bits_val_scalar x : bits_val (scalar_bits_witness x) = fint x.
Proof.
  apply bits_val_to_bits. pose proof (Sc_gt x) as Hx.
  assert (ED_ORDER < 2 ^ SCALAR_BITS)%Z by (vm_compute; reflexivity). lia.
Qed.

Lemma scalar_mul_le_zmul P bits : scalar_mul_le P bits = zmul (bits_val bits) P.
Proof. apply mul_bigint_zmul, bits_val_bound. Qed.

(** Bits of a scalar need not be reduced: only the residue matters on the prime
    subgroup. *)
Lemma zmul_bits_scalar bits P :
  in_subgroup P → zmul (fint (fof (bits_val bits) : Sc)) P = zmul (bits_val bits) P.
Proof. intros HP. by rewrite fint_fof, Sc_modulus, zmul_order. Qed.

Lemma commitment_var_native balance blinding leaf :
  commitment_var balance blinding leaf
  = balance_commitment (bits_val balance) (fof (bits_val blinding)) leaf.
Proof.
  unfold commitment_var. rewrite !scalar_mul_le_zmul, bits_val_fp, balance_commitment_zmul.
  by rewrite zmul_bits_scalar by apply H_subgroup.
Qed.

Lemma rerandomize_native C bits :
  C + scalar_mul_le balance_blinding_generator bits
  = rerandomize_commitment C (fof (bits_val bits)).
Proof.
  unfold rerandomize_commitment. rewrite scalar_mul_le_zmul, mul_scalar.
  by rewrite zmul_bits_scalar by apply H_subgroup.
Qed.

(** Points the verifier accepts from the wire. *)
Definition valid_point (P : Fr * Fr) : Prop :=
  is_on_curve P = true ∧ is_in_correct_subgroup P = true.

Lemma valid_point_subgroup P : valid_point P → in_subgroup (into_group P).
Proof. intros [Hc Hs]. by apply correct_subgroup. Qed.

Lemma valid_point_affine g : in_subgroup g → valid_point (into_affine g).
Proof. intros Hg. split; [apply into_affine_on_curve|by apply in_subgroup_affine]. Qed.

Lemma point_witness_valid P : point_witness P = true ↔ valid_point P.
Proof. apply andb_true_iff. Qed.

Lemma enforce_signature_native key m R bits condition :
  valid_point key →
  enforce_signature key m R bits condition = true ↔
  valid_point R ∧
  (condition = true →
   verify_state_signature key m {| groth16.r := R; groth16.s := fof (bits_val bits) |} = true).
Proof.
  intros Hk%valid_point_subgroup. unfold enforce_signature.
  rewrite andb_true_iff, point_witness_valid. apply and_iff_compat_l.
  rewrite verify_state_signature_spec. cbn [groth16.r groth16.s].
  rewrite !scalar_mul_le_zmul, bits_val_fp, zmul_bits_scalar by apply in_subgroup_generator.
  unfold signature_challenge. rewrite fint_fof, Sc_modulus, zmul_order by exact Hk.
  unfold conditional_enforce_equal. destruct condition.
  - rewrite bool_decide_eq_true. split; [by intros|by intros H; apply H].
  - by split.
Qed.

Lemma land_shiftr_1 z (k : nat) : (Z.land (Z.shiftr z k) 1 =? 0)%Z = negb (Z.testbit z k).
Proof.
  rewrite <- (Z.add_0_l k) at 2. rewrite <- Z.shiftr_spec by lia.
  change 1%Z with (Z.ones 1). rewrite Z.land_ones by lia. change (2 ^ 1)%Z with 2%Z.
  rewrite Z.bit0_odd, Zodd_mod. by destruct (Z.mod_pos_bound (Z.shiftr z k) 2) as [? ?]; [lia|];
  assert ((Z.shiftr z k mod 2 = 0 ∨ Z.shiftr z k mod 2 = 1)%Z) as [->| ->] by lia.
Qed.

Lemma merkle_var_native bits level current siblings :
  merkle_var bits level current siblings
  = merkle_root_from (bits_val bits) level current siblings.
Proof.
  revert level current. induction siblings as [|s siblings IH]; intros level current; [done|].
  cbn [merkle_var merkle_root_from]. rewrite IH, land_shiftr_1, testbit_bits_val.
  by destruct (default false (bits !! level)).
Qed.

(** ** What the statements mean, in terms of the native functions *)

Record request_public_ok (p : RequestPublic) : Prop := {
  rpo_time : fits 64 (q_request_time p);
  rpo_bound : fits 128 (q_solvency_bound p);
  rpo_key : valid_point (q_state_signing_key p);
  rpo_anon : is_on_curve (q_anonymous_commitment p) = true;
}.

Record request_witness_ok (w : RequestWitness) : Prop := {
  rwo_note : fits 32 (qw_note_id w);
  rwo_deposit : fits 128 (qw_deposit_amount w);
  rwo_expiry : fits 64 (qw_expiry w);
  rwo_balance : fits 128 (qw_current_balance w);
  rwo_sig : valid_point (groth16.r (qw_state_signature w));
}.

Definition request_leaf (w : RequestWitness) : Fr :=
  note_leaf (qw_note_id w) (registration_commitment (qw_secret w)) (qw_deposit_amount w)
    (qw_expiry w).

Definition request_commitment (w : RequestWitness) : EdG :=
  balance_commitment (qw_current_balance w) (qw_current_blinding w) (request_leaf w).

(** The holder of an active, unexpired, solvent note state authorises a request. *)
Record request_valid (p : RequestPublic) (w : RequestWitness) : Prop := {
  rv_secret : qw_secret w ≠ fzero;
  rv_unexpired : (q_request_time p ≤ qw_expiry w)%Z;
  rv_solvent : (q_solvency_bound p ≤ qw_current_balance w)%Z;
  rv_active : merkle_root (qw_note_id w) (request_leaf w) (qw_merkle_siblings w)
              = q_active_root p;
  rv_genesis : qw_is_genesis w = true →
    qw_current_anchor w = fone ∧ qw_current_balance w = qw_deposit_amount w;
  rv_signed : qw_is_genesis w = false →
    verify_state_signature (q_state_signing_key p)
      (state_message (q_protocol_version p) (q_chain_id p) (q_contract_address p)
         (into_affine (request_commitment w)) (qw_current_anchor w))
      (qw_state_signature w) = true;
  rv_anonymous : into_affine
      (rerandomize_commitment (request_commitment w) (qw_rerandomization w))
    = q_anonymous_commitment p;
  rv_nullifier : request_nullifier (qw_secret w) (qw_current_anchor w) = q_request_nullifier p;
  rv_authorized : authorization_tag (q_request_nullifier p) (qw_request_context w)
                  = q_authorization_tag p;
}.

(** The state an assignment stands for. *)
Definition request_extract (v : RequestVars) : RequestWitness := {|
  qw_secret := qv_secret v;
  qw_request_context := qv_request_context v;
  qw_note_id := bits_val (qv_note_id v);
  qw_deposit_amount := bits_val (qv_deposit_amount v);
  qw_expiry := bits_val (qv_expiry v);
  qw_merkle_siblings := qv_siblings v;
  qw_current_balance := bits_val (qv_balance v);
  qw_current_blinding := fof (bits_val (qv_blinding_bits v));
  qw_rerandomization := fof (bits_val (qv_rerandomization_bits v));
  qw_current_anchor := qv_anchor v;
  qw_is_genesis := qv_is_genesis v;
  qw_state_signature :=
    {| groth16.r := qv_sig_r v; groth16.s := fof (bits_val (qv_sig_s_bits v)) |};
|}.

Lemma cond_equal_iff {T} `{EqDecision T} (x y : T) c :
  conditional_enforce_equal x y c = true ↔ (c = true → x = y).
Proof.
  unfold conditional_enforce_equal. destruct c; [rewrite bool_decide_eq_true|]; split; auto; done.
Qed.

Lemma negb_cond c (P : Prop) : (negb c = true → P) ↔ (c = false → P).
Proof. by rewrite negb_true_iff. Qed.

(** The constraints on an arbitrary assignment, read as the native statement. *)
Lemma request_satisfied_iff p v :
  request_public_ok p →
  request_satisfied (request_to_field_elements p) v = true ↔
  bits_val (qv_request_time v) = q_request_time p ∧
  bits_val (qv_solvency_bound v) = q_solvency_bound p ∧
  valid_point (qv_sig_r v) ∧ request_valid p (request_extract v).
Proof.
  intros [Ht Hb Hk Ha]. destruct p as [pv ci ca root [kx ky] t bnd nul auth [ax ay]]; cbn in *.
  unfold request_satisfied, request_to_field_elements, point_input. cbn -[domain enforce_signature].
  rewrite !andb_true_iff, !cond_equal_iff, (enforce_signature_native (kx, ky)) by done.
  rewrite (to_fp_eq (n := 64)), (to_fp_eq (n := 128)) by (lia || done).
  rewrite to_fp_inj by lia. rewrite negb_true_iff, bool_decide_eq_false.
  unfold is_ge, enforce_equal. rewrite !Z.leb_le, !bool_decide_eq_true, negb_cond.
  rewrite commitment_var_native, rerandomize_native, merkle_var_native.
  split.
  - intros H. destruct_and!. subst. split_and!; try done.
    split; cbn; try done; try lia. by split; auto.
  - intros (<- & <- & Hr & [? ? ? ? Hg ? ? ? ?]). cbn in *.
    split_and!; try done; try (by apply Hk); intros G; by apply Hg.
Qed.

Record withdrawal_public_ok (p : WithdrawalPublic) : Prop := {
  wpo_note : fits 32 (x_note_id p);
  wpo_balance : fits 128 (x_final_balance p);
  wpo_key : valid_point (x_state_signing_key p);
  wpo_clear : valid_point (x_clearance_signing_key p);
}.

Record withdrawal_witness_ok (w : WithdrawalWitness) : Prop := {
  wwo_deposit : fits 128 (xw_deposit_amount w);
  wwo_expiry : fits 64 (xw_expiry w);
  wwo_sig : valid_point (groth16.r (xw_state_signature w));
  wwo_clear : valid_point (groth16.r (xw_clearance_signature w));
}.

Definition withdrawal_leaf (p : WithdrawalPublic) (w : WithdrawalWitness) : Fr :=
  note_leaf (x_note_id p) (registration_commitment (xw_secret w)) (xw_deposit_amount w)
    (xw_expiry w).

Definition withdrawal_commitment (p : WithdrawalPublic) (w : WithdrawalWitness) : EdG :=
  balance_commitment (x_final_balance p) (xw_final_blinding w) (withdrawal_leaf p w).

(** The holder of an active note closes it at its committed balance. *)
Record withdrawal_valid (p : WithdrawalPublic) (w : WithdrawalWitness) : Prop := {
  wv_secret : xw_secret w ≠ fzero;
  wv_within_deposit : (x_final_balance p ≤ xw_deposit_amount w)%Z;
  wv_active : merkle_root (x_note_id p) (withdrawal_leaf p w) (xw_merkle_siblings w)
              = x_active_root p;
  wv_genesis : xw_is_genesis w = true →
    xw_current_anchor w = fone ∧ x_final_balance p = xw_deposit_amount w;
  wv_signed : xw_is_genesis w = false →
    verify_state_signature (x_state_signing_key p)
      (state_message (x_protocol_version p) (x_chain_id p) (x_contract_address p)
         (into_affine (withdrawal_commitment p w)) (xw_current_anchor w))
      (xw_state_signature w) = true;
  wv_nullifier : request_nullifier (xw_secret w) (xw_current_anchor w)
                 = x_withdrawal_nullifier p;
  wv_tag : withdrawal_tag (x_withdrawal_nullifier p) (x_destination p) (x_final_balance p)
             (x_has_clearance p) = x_withdrawal_tag p;
  wv_cleared : x_has_clearance p = true →
    verify_state_signature (x_clearance_signing_key p)
      (clearance_message (x_protocol_version p) (x_chain_id p) (x_contract_address p)
         (x_withdrawal_nullifier p))
      (xw_clearance_signature w) = true;
}.

Definition withdrawal_extract (v : WithdrawalVars) : WithdrawalWitness := {|
  xw_secret := xv_secret v;
  xw_deposit_amount := bits_val (xv_deposit_amount v);
  xw_expiry := bits_val (xv_expiry v);
  xw_merkle_siblings := xv_siblings v;
  xw_final_blinding := fof (bits_val (xv_blinding_bits v));
  xw_current_anchor := xv_anchor v;
  xw_is_genesis := xv_is_genesis v;
  xw_state_signature :=
    {| groth16.r := xv_sig_r v; groth16.s := fof (bits_val (xv_sig_s_bits v)) |};
  xw_clearance_signature :=
    {| groth16.r := xv_clear_r v; groth16.s := fof (bits_val (xv_clear_s_bits v)) |};
|}.

Lemma fone_ne_fzero : (fone : Fr) ≠ fzero.
Proof.
  intros E%(f_equal fint). unfold fone, fzero in E. rewrite !fint_fof, Fr_modulus in E.
  discriminate E.
Qed.

Lemma boolean_input_b2z b : boolean_input (fof (Z.b2z b)) = Some b.
Proof.
  unfold boolean_input. destruct b; cbn [Z.b2z].
  - by rewrite bool_decide_eq_true_2.
  - rewrite bool_decide_eq_false_2; [by rewrite bool_decide_eq_true_2|].
    intros E. by apply fone_ne_fzero.
Qed.

Lemma select_b2z b : select b fone fzero = fof (Z.b2z b) :> Fr.
Proof. by destruct b. Qed.

Lemma withdrawal_satisfied_iff p v :
  withdrawal_public_ok p →
  withdrawal_satisfied (withdrawal_to_field_elements p) v = true ↔
  bits_val (xv_note_id v) = x_note_id p ∧
  bits_val (xv_final_balance v) = x_final_balance p ∧
  valid_point (xv_sig_r v) ∧ valid_point (xv_clear_r v) ∧
  withdrawal_valid p (withdrawal_extract v).
Proof.
  intros [Hn Hb Hk Hc].
  destruct p as [pv ci ca root [kx ky] [cx cy] nid bal dest nul hc tag]; cbn in *.
  unfold withdrawal_satisfied, withdrawal_to_field_elements, point_input.
  cbn -[domain enforce_signature Z.b2z]. rewrite boolean_input_b2z, select_b2z.
  rewrite !andb_true_iff, !cond_equal_iff, (enforce_signature_native (kx, ky)),
    (enforce_signature_native (cx, cy)) by done.
  rewrite (to_fp_eq (n := 32)), (to_fp_eq (n := 128)) by (lia || done).
  rewrite to_fp_inj by lia. rewrite negb_true_iff, bool_decide_eq_false.
  unfold is_ge, enforce_equal. rewrite !Z.leb_le, !bool_decide_eq_true, negb_cond.
  rewrite commitment_var_native, merkle_var_native.
  split.
  - intros H. destruct_and!. subst. split_and!; try done.
    split; cbn; try done; try lia. by split; auto.
  - intros (<- & <- & Hr & Hr' & [? ? ? Hg ? ? ? ?]). cbn in *.
    split_and!; try done; try (by apply Hk); try (by apply Hc); intros G; by apply Hg.
Qed.

(** The honest assignment stands for the witness it was built from. *)
Lemma fof_scalar_bits x : fof (bits_val (scalar_bits_witness x)) = x.
Proof. by rewrite bits_val_scalar, fof_fint. Qed.

Lemma request_extract_assign p w :
  request_witness_ok w → request_extract (request_assign {| q_public := p; q_witness := w |}) = w.
Proof.
  intros [? ? ? ? _]. unfold request_extract, request_assign.
  cbn -[scalar_bits_witness to_bits bits_val].
  rewrite !fof_scalar_bits, !bits_val_to_bits by done. by destruct w as [? ? ? ? ? ? ? ? ? ? ? []].
Qed.

Lemma withdrawal_extract_assign p w :
  withdrawal_witness_ok w →
  withdrawal_extract (withdrawal_assign {| x_public := p; x_witness := w |}) = w.
Proof.
  intros [? ? _ _]. unfold withdrawal_extract, withdrawal_assign.
  cbn -[scalar_bits_witness to_bits bits_val].
  rewrite !fof_scalar_bits, !bits_val_to_bits by done.
  by destruct w as [? ? ? ? ? ? ? [] []].
Qed.

Lemma request_circuit_satisfied_iff p w :
  request_public_ok p → request_witness_ok w →
  request_circuit_satisfied {| q_public := p; q_witness := w |} = true ↔ request_valid p w.
Proof.
  intros Hp Hw. unfold request_circuit_satisfied. cbn [q_public].
  rewrite request_satisfied_iff, request_extract_assign by done.
  cbn [request_assign qv_request_time qv_solvency_bound qv_sig_r q_public q_witness].
  rewrite !bits_val_to_bits by (apply Hp). destruct Hw.
  split; [by intros (_ & _ & _ & ?)|by intros ?; split_and!].
Qed.

Lemma withdrawal_circuit_satisfied_iff p w :
  withdrawal_public_ok p → withdrawal_witness_ok w →
  withdrawal_circuit_satisfied {| x_public := p; x_witness := w |} = true ↔ withdrawal_valid p w.
Proof.
  intros Hp Hw. unfold withdrawal_circuit_satisfied. cbn [x_public].
  rewrite withdrawal_satisfied_iff, withdrawal_extract_assign by done.
  cbn [withdrawal_assign xv_note_id xv_final_balance xv_sig_r xv_clear_r x_public x_witness].
  rewrite !bits_val_to_bits by (apply Hp). destruct Hw.
  split; [by intros (_ & _ & _ & _ & ?)|by intros ?; split_and!].
Qed.

(** ** Properties *)

(** C7. Soundness of the request circuit: whatever a prover assigns to the
    private variables, if the constraints hold for the public statement then
    the assignment stands for a non-zero secret whose note leaf is in the tree
    with the public root, not expired, with a balance covering the solvency
    bound, that is either the genesis state (anchor 1, full balance) or carries
    a valid state signature on its commitment, and the public commitment,
    nullifier and authorization tag are the native ones of that state. *)
Theorem request_circuit_sound p v :
  request_public_ok p →
  request_satisfied (request_to_field_elements p) v = true →
  request_valid p (request_extract v).
Proof. intros Hp (_ & _ & _ & Hv)%request_satisfied_iff; done. Qed.

(** Completeness of the request circuit: the honest assignment satisfies the
    constraints exactly for valid states, so [validate_witness] accepts every
    valid witness and rejects every other one before proving. *)
Theorem request_circuit_complete p w :
  request_public_ok p → request_witness_ok w →
  request_circuit_satisfied {| q_public := p; q_witness := w |} = true ↔ request_valid p w.
Proof. exact (request_circuit_satisfied_iff p w). Qed.

(** C8. Soundness of the withdrawal circuit: a satisfying assignment stands for
    an active note closed at the balance of its signed (or genesis) state, never
    above the deposit, with the nullifier and destination-binding tag of that
    state, and with a valid clearance signature on the nullifier when the
    statement claims clearance. *)
Theorem withdrawal_circuit_sound p v :
  withdrawal_public_ok p →
  withdrawal_satisfied (withdrawal_to_field_elements p) v = true →
  withdrawal_valid p (withdrawal_extract v).
Proof. intros Hp (_ & _ & _ & _ & Hv)%withdrawal_satisfied_iff; done. Qed.

(** Completeness of the withdrawal circuit. *)
Theorem withdrawal_circuit_complete p w :
  withdrawal_public_ok p → withdrawal_witness_ok w →
  withdrawal_circuit_satisfied {| x_public := p; x_witness := w |} = true ↔ withdrawal_valid p w.
Proof. exact (withdrawal_circuit_satisfied_iff p w). Qed.
End gadgets.

(** ** Witnesses *)
#[local] Existing Instance Toy.
#[local] Existing Instance toy_keccak.
#[local] Existing Instance toy_statics.

(** A note with 1000 deposited, spent down to 400 under a server signature. *)
Definition sample_key : StateSigningKey := from_secret (fof 5).
Definition sample_clear_key : StateSigningKey := from_secret (fof 6).
Definition sample_leaf : Fr := note_leaf 3 (registration_commitment (fof 8)) 1000 50.
Definition sample_commitment : Fr * Fr := into_affine (balance_commitment 400 (fof 7) sample_leaf).
Definition sample_signature : StateSignature :=
  sign sample_key (state_message 2 1 (fof 99) sample_commitment (fof 12)) (fof 31).
Definition sample_siblings : vec Fr 32 := vreplicate 32 (fof 4).
Definition sample_nullifier : Fr := request_nullifier (fof 8) (fof 12).

Definition sample_request_witness : RequestWitness := {|
  qw_secret := fof 8; qw_request_context := fof 9; qw_note_id := 3; qw_deposit_amount := 1000;
  qw_expiry := 50; qw_merkle_siblings := sample_siblings; qw_current_balance := 400;
  qw_current_blinding := fof 7; qw_rerandomization := fof 13; qw_current_anchor := fof 12;
  qw_is_genesis := false; qw_state_signature := sample_signature |}.

Definition sample_request_public : RequestPublic := {|
  q_protocol_version := 2; q_chain_id := 1; q_contract_address := fof 99;
  q_active_root := merkle_root 3 sample_leaf sample_siblings;
  q_state_signing_key := public sample_key; q_request_time := 20; q_solvency_bound := 300;
  q_request_nullifier := sample_nullifier;
  q_authorization_tag := authorization_tag sample_nullifier (fof 9);
  q_anonymous_commitment := into_affine
    (rerandomize_commitment (balance_commitment 400 (fof 7) sample_leaf) (fof 13)) |}.

Definition sample_request_circuit : RequestCircuit :=
  {| q_public := sample_request_public; q_witness := sample_request_witness |}.

Lemma sample_request_public_ok : request_public_ok sample_request_public.
Proof. by repeat split; vm_compute. Qed.

Lemma sample_request_witness_ok : request_witness_ok sample_request_witness.
Proof. by repeat split; vm_compute. Qed.

Lemma request_circuit_sound_witness :
  request_valid sample_request_public (request_extract (request_assign sample_request_circuit)).
Proof.
  apply (request_circuit_sound sample_request_public (request_assign sample_request_circuit)).
  - exact sample_request_public_ok.
  - vm_compute. reflexivity.
Defined.

Lemma request_circuit_complete_witness :
  request_valid sample_request_public sample_request_witness.
Proof.
  apply (request_circuit_complete sample_request_public sample_request_witness).
  - exact sample_request_public_ok.
  - exact sample_request_witness_ok.
  - vm_compute. reflexivity.
Defined.

Definition sample_withdrawal_witness : WithdrawalWitness := {|
  xw_secret := fof 8; xw_deposit_amount := 1000; xw_expiry := 50;
  xw_merkle_siblings := sample_siblings; xw_final_blinding := fof 7;
  xw_current_anchor := fof 12; xw_is_genesis := false; xw_state_signature := sample_signature;
  xw_clearance_signature :=
    sign sample_clear_key (clearance_message 2 1 (fof 99) sample_nullifier) (fof 41) |}.

Definition sample_withdrawal_public : WithdrawalPublic := {|
  x_protocol_version := 2; x_chain_id := 1; x_contract_address := fof 99;
  x_active_root := merkle_root 3 sample_leaf sample_siblings;
  x_state_signing_key := public sample_key; x_clearance_signing_key := public sample_clear_key;
  x_note_id := 3; x_final_balance := 400; x_destination := fof 77;
  x_withdrawal_nullifier := sample_nullifier; x_has_clearance := true;
  x_withdrawal_tag := withdrawal_tag sample_nullifier (fof 77) 400 true |}.

Definition sample_withdrawal_circuit : WithdrawalCircuit :=
  {| x_public := sample_withdrawal_public; x_witness := sample_withdrawal_witness |}.

Lemma sample_withdrawal_public_ok : withdrawal_public_ok sample_withdrawal_public.
Proof. by repeat split; vm_compute. Qed.

Lemma sample_withdrawal_witness_ok : withdrawal_witness_ok sample_withdrawal_witness.
Proof. by repeat split; vm_compute. Qed.

Lemma withdrawal_circuit_sound_witness :
  withdrawal_valid sample_withdrawal_public
    (withdrawal_extract (withdrawal_assign sample_withdrawal_circuit)).
Proof.
  apply (withdrawal_circuit_sound sample_withdrawal_public
    (withdrawal_assign sample_withdrawal_circuit)).
  - exact sample_withdrawal_public_ok.
  - vm_compute. reflexivity.
Defined.

Lemma withdrawal_circuit_complete_witness :
  withdrawal_valid sample_withdrawal_public sample_withdrawal_witness.
Proof.
  apply (withdrawal_circuit_complete sample_withdrawal_public sample_withdrawal_witness).
  - exact sample_withdrawal_public_ok.
  - exact sample_withdrawal_witness_ok.
  - vm_compute. reflexivity.
Defined.
