(* ===== verification/Compact.v ===== *)
(** * The compact proof interface ([zkapi-proof]: compact.rs)

    The wire-level API the wallets and servers call: commitments and signatures
    on [Felt252] encodings, and Groth16 proving and verification behind checked
    conversions.  Groth16 itself, base64 and the key deserialiser are
    parameters. *)
From S2P Require Import Prelude Felt Types Group Ark CoreV2 Groth16 Circuit.
Import groth16.

Definition CIRCUIT_ID : string := "zkapi-v2-note-bound-v1".
Definition KEY_HEADER : list byte := str_bytes "zkapi-v2-note-bound-v1" ++ [x00].

(** BN254 base-field modulus, [ark_bn254::Fq::MODULUS]. *)
Definition BASE_MODULUS : Z :=
  21888242871839275222246405745257275088696311157297823662689037894645226208583.

(** Groth16 over BN254 ([ark-groth16], [ark-bn254]) and [base64]. *)
Class ProofSystem {A : Ark} : Type := {
  Fq : Type;
  Fq_field :: PrimeField Fq;
  Fq_modulus : fmodulus Fq = BASE_MODULUS;
  g1_on_curve : Fq * Fq → bool;
  g1_in_subgroup : Fq * Fq → bool;
  g2_on_curve : (Fq * Fq) * (Fq * Fq) → bool;
  g2_in_subgroup : (Fq * Fq) * (Fq * Fq) → bool;
  ProvingKey : Type;
  VerifyingKey : Type;
  (** [deserialize_compressed] advances the reader. *)
  deserialize_pk : list byte → result string (ProvingKey * list byte);
  deserialize_vk : list byte → result string (VerifyingKey * list byte);
  (** [Groth16::prove] on a synthesised circuit: the public inputs and whether
      the assignment satisfies the constraints; [N] indexes the randomness. *)
  groth16_prove : ProvingKey → list Fr → bool → N →
    result string ((Fq * Fq) * ((Fq * Fq) * (Fq * Fq)) * (Fq * Fq));
  groth16_verify : VerifyingKey → list Fr →
    ((Fq * Fq) * ((Fq * Fq) * (Fq * Fq)) * (Fq * Fq)) → result string bool;
  base64_encode : list byte → string;
  base64_decode : string → option (list byte);
  base64_roundtrip b : base64_decode (base64_encode b) = Some b;
}.

Section compact.
Context {A : Ark} {KC : Keccak} {ST : Statics} {PS : ProofSystem}.
Local Open Scope group_scope.

(** ** Conversions *)

Definition field (value : Felt252) : Fr := felt_to_field value.
Definition felt (value : Fr) : Felt252 := field_to_felt value.
Definition scalar (value : Felt252) : Sc := fof (be_val (felt_bytes value)).
Definition scalar_to_felt (value : Sc) : Felt252 := Felt (be_bytes 32 (fint value)).

Definition point_from_wire (point : CurvePointWire) : result string (Fr * Fr) :=
  let point := (field (cp_x point), field (cp_y point)) in
  if negb (is_on_curve point) || negb (is_in_correct_subgroup point)
  then Err "invalid Baby-JubJub point"
  else Ok point.

Definition point_to_wire (point : Fr * Fr) : CurvePointWire :=
  {| cp_x := felt point.1; cp_y := felt point.2 |}.

Definition signature_from_wire (signature : SchnorrSignature) : result string StateSignature :=
  r ← point_from_wire {| cp_x := sig_r_x signature; cp_y := sig_r_y signature |};
  Ok {| groth16.r := r; groth16.s := scalar (sig_s signature) |}.

Definition signature_to_wire (signature : StateSignature) : SchnorrSignature :=
  let point := point_to_wire (groth16.r signature) in
  {| sig_r_x := cp_x point; sig_r_y := cp_y point;
     sig_s := scalar_to_felt (groth16.s signature) |}.

(** ** Commitments *)

Definition balance_commitment (balance : Z) (blinding note_leaf : Felt252) : CurvePointWire :=
  point_to_wire
    (into_affine (groth16.balance_commitment balance (scalar blinding) (field note_leaf))).

Definition rerandomize (commitment : CurvePointWire) (rerandomization : Felt252) :
  result string CurvePointWire :=
  p ← point_from_wire commitment;
  Ok (point_to_wire
    (into_affine (rerandomize_commitment (into_group p) (scalar rerandomization)))).

Definition add_blindings (left right : Felt252) : Felt252 :=
  scalar_to_felt (fadd (scalar left) (scalar right)).

Definition server_update (anonymous : CurvePointWire) (charge : Z) (blind_delta : Felt252) :
  result string CurvePointWire :=
  p ← point_from_wire anonymous;
  let point :=
    into_group p - mul_bigint (fint (fof charge : Sc)) generator
    + mul_bigint (fint (scalar blind_delta)) balance_blinding_generator in
  Ok (point_to_wire (into_affine point)).

(** ** Signatures *)

Definition verify_signature (public_key : CurvePointWire) (message : Felt252)
  (signature : SchnorrSignature) : result string bool :=
  pk ← point_from_wire public_key;
  sig ← signature_from_wire signature;
  Ok (verify_state_signature pk (field message) sig).

Record CompactSigner : Type := { key : StateSigningKey }.

Definition from_seed (seed : Felt252) : CompactSigner := {| key := from_secret (scalar seed) |}.
Definition public_key (signer : CompactSigner) : CurvePointWire := point_to_wire (public (key signer)).
Definition signer_sign (signer : CompactSigner) (message : Felt252) (nonce : Sc) : SchnorrSignature :=
  signature_to_wire (sign (key signer) (field message) nonce).
Definition signer_verify (signer : CompactSigner) (message : Felt252)
  (signature : SchnorrSignature) : result string bool :=
  sig ← signature_from_wire signature;
  Ok (verify_state_signature (public (key signer)) (field message) sig).

(** ** Statements from the wire *)

Definition request_public_from_wire (p : RequestPublicInputsV2) : result string RequestPublic :=
  state_key ← point_from_wire
    {| cp_x := rp2_state_signing_key_x p; cp_y := rp2_state_signing_key_y p |};
  anonymous ← point_from_wire
    {| cp_x := rp2_anonymous_commitment_x p; cp_y := rp2_anonymous_commitment_y p |};
  Ok {| q_protocol_version := rp2_protocol_version p;
        q_chain_id := rp2_chain_id p;
        q_contract_address := field (rp2_contract_address p);
        q_active_root := field (rp2_active_root p);
        q_state_signing_key := state_key;
        q_request_time := rp2_request_time p;
        q_solvency_bound := rp2_solvency_bound p;
        q_request_nullifier := field (rp2_request_nullifier p);
        q_authorization_tag := field (rp2_authorization_tag p);
        q_anonymous_commitment := anonymous |}.

Definition withdrawal_public_from_wire (p : WithdrawalPublicInputsV2) :
  result string WithdrawalPublic :=
  state_key ← point_from_wire
    {| cp_x := wp2_state_signing_key_x p; cp_y := wp2_state_signing_key_y p |};
  clear_key ← point_from_wire
    {| cp_x := wp2_clearance_signing_key_x p; cp_y := wp2_clearance_signing_key_y p |};
  Ok {| x_protocol_version := wp2_protocol_version p;
        x_chain_id := wp2_chain_id p;
        x_contract_address := field (wp2_contract_address p);
        x_active_root := field (wp2_active_root p);
        x_state_signing_key := state_key;
        x_clearance_signing_key := clear_key;
        x_note_id := wp2_note_id p;
        x_final_balance := wp2_final_balance p;
        x_destination := field (destination_field p);
        x_withdrawal_nullifier := field (wp2_withdrawal_nullifier p);
        x_has_clearance := wp2_has_clearance p;
        x_withdrawal_tag := field (wp2_withdrawal_tag p) |}.

(** ** Proof bytes *)

Definition G1 : Type := Fq * Fq.
Definition G2 : Type := (Fq * Fq) * (Fq * Fq).
Definition Proof16 : Type := G1 * G2 * G1.

Definition prime_field_bytes {F} `{!PrimeField F} (value : F) : vec byte 32 := be_bytes 32 (fint value).

Definition canonical_fq (bytes : list byte) : result string Fq :=
  let value : Fq := fof (be_val bytes) in
  if negb (bool_decide (vec_to_list (prime_field_bytes value) = bytes))
  then Err "non-canonical BN254 base-field coordinate"
  else Ok value.

Definition proof_coordinates (proof : Proof16) : list Fq :=
  let '(a, b, c) := proof in
  [a.1; a.2; b.1.1; b.1.2; b.2.1; b.2.2; c.1; c.2].

Definition proof_to_wire (proof : Proof16) : result string Groth16ProofWire :=
  let bytes := proof_coordinates proof ≫= λ c, vec_to_list (prime_field_bytes c) in
  Ok {| gp_backend := Groth16Bn254; gp_proof := base64_encode bytes |}.

Definition ensure_backend (proof : Groth16ProofWire) : result string () :=
  if negb (bool_decide (gp_backend proof = Groth16Bn254))
  then Err "expected groth16_bn254 proof backend" else Ok tt.

(** [iter().map(canonical_fq).collect::<Result<Vec<_>>>()]. *)
Fixpoint collect {T U E} (f : T → result E U) (l : list T) : result E (list U) :=
  match l with
  | [] => Ok []
  | x :: l => y ← f x; ys ← collect f l; Ok (y :: ys)
  end.

(** [bytes.as_chunks::<32>().0]. *)
Fixpoint chunks32 (n : nat) (bytes : list byte) : list (list byte) :=
  match n with
  | O => []
  | S n => take 32 bytes :: chunks32 n (drop 32 bytes)
  end.

Definition proof_from_wire (proof : Groth16ProofWire) : result string Proof16 :=
  bytes ← ok_or (base64_decode (gp_proof proof)) "decode Groth16 proof base64"%string;
  if negb (bool_decide (length bytes = 256%nat))
  then Err "Groth16 proof must contain eight 32-byte coordinates"%string
  else
    coordinates ← collect canonical_fq (chunks32 (length bytes / 32) bytes);
    match coordinates with
    | [c0; c1; c2; c3; c4; c5; c6; c7] =>
        let a := (c0, c1) in
        let b := ((c2, c3), (c4, c5)) in
        let c := (c6, c7) in
        if negb (g1_on_curve a) || negb (g1_in_subgroup a)
           || negb (g2_on_curve b) || negb (g2_in_subgroup b)
           || negb (g1_on_curve c) || negb (g1_in_subgroup c)
        then Err "Groth16 proof contains an invalid curve point"%string
        else Ok (a, b, c)
    | _ => Panic
    end.

(** ** Keys *)

Definition decode_compressed {T} (deserialize : list byte → result string (T * list byte))
  (bytes : list byte) : result string T :=
  if negb (bool_decide (take (length KEY_HEADER) bytes = KEY_HEADER))
  then Err ("incompatible setup: expected " +:+ CIRCUIT_ID +:+
            "; legacy unbound keys must not be used")%string
  else
    match deserialize (drop (length KEY_HEADER) bytes) with
    | Ok (value, rest) =>
        if negb (bool_decide (rest = [])) then Err "trailing setup key bytes"%string else Ok value
    | Err error => Err ("deserialize compressed value: " +:+ error)%string
    | Panic => Panic
    end.

Definition request_prover_from_bytes (bytes : list byte) : result string ProvingKey :=
  map_err (λ _, "decode request proving key"%string) (decode_compressed deserialize_pk bytes).
Definition withdrawal_prover_from_bytes (bytes : list byte) : result string ProvingKey :=
  map_err (λ _, "decode withdrawal proving key"%string) (decode_compressed deserialize_pk bytes).

(** ** Proving and verifying *)

Record RequestWitnessData : Type := {
  rd_secret : Felt252;
  rd_request_context : Felt252;
  rd_note_id : Z;
  rd_deposit_amount : Z;
  rd_expiry : Z;
  rd_merkle_siblings : vec Felt252 MERKLE_DEPTH;
  rd_current_balance : Z;
  rd_current_blinding : Felt252;
  rd_rerandomization : Felt252;
  rd_current_anchor : Felt252;
  rd_is_genesis : bool;
  rd_state_signature : option SchnorrSignature;
}.

Record WithdrawalWitnessData : Type := {
  wd_secret : Felt252;
  wd_deposit_amount : Z;
  wd_expiry : Z;
  wd_merkle_siblings : vec Felt252 MERKLE_DEPTH;
  wd_final_blinding : Felt252;
  wd_current_anchor : Felt252;
  wd_is_genesis : bool;
  wd_state_signature : option SchnorrSignature;
  wd_clearance_signature : option SchnorrSignature;
}.

Definition validate_witness (satisfied : bool) : result string () :=
  if satisfied then Ok tt
  else Err "private state does not satisfy the note-bound circuit".

(** groth16.rs: the proof system on a circuit. *)
Definition prove_request (key : ProvingKey) (circuit : RequestCircuit) (rng : N) :=
  groth16_prove key (request_to_field_elements (q_public circuit)) (request_circuit_satisfied circuit) rng.
Definition verify_request (key : VerifyingKey) (public : RequestPublic) proof : result string bool :=
  groth16_verify key (request_to_field_elements public) proof.
Definition prove_withdrawal (key : ProvingKey) (circuit : WithdrawalCircuit) (rng : N) :=
  groth16_prove key (withdrawal_to_field_elements (x_public circuit))
    (withdrawal_circuit_satisfied circuit) rng.
Definition verify_withdrawal (key : VerifyingKey) (public : WithdrawalPublic) proof : result string bool :=
  groth16_verify key (withdrawal_to_field_elements public) proof.

Definition request_circuit_of (public : RequestPublicInputsV2) (w : RequestWitnessData) :
  result string RequestCircuit :=
  p ← request_public_from_wire public;
  sig ← signature_from_wire (default IDENTITY (rd_state_signature w));
  Ok {| q_public := p;
        q_witness := {|
          qw_secret := field (rd_secret w);
          qw_request_context := field (rd_request_context w);
          qw_note_id := rd_note_id w;
          qw_deposit_amount := rd_deposit_amount w;
          qw_expiry := rd_expiry w;
          qw_merkle_siblings := vmap field (rd_merkle_siblings w);
          qw_current_balance := rd_current_balance w;
          qw_current_blinding := scalar (rd_current_blinding w);
          qw_rerandomization := scalar (rd_rerandomization w);
          qw_current_anchor := field (rd_current_anchor w);
          qw_is_genesis := rd_is_genesis w;
          qw_state_signature := sig |} |}.

Definition request_prove (key : ProvingKey) (public : RequestPublicInputsV2)
  (witness : RequestWitnessData) (rng : N) : result string Groth16ProofWire :=
  circuit ← request_circuit_of public witness;
  _ ← validate_witness (request_circuit_satisfied circuit);
  proof ← map_err (λ e, "request proving failed: " +:+ e)%string
    (prove_request key circuit rng);
  proof_to_wire proof.

Definition request_verify (key : VerifyingKey) (public : RequestPublicInputsV2)
  (proof : Groth16ProofWire) : result string bool :=
  _ ← ensure_backend proof;
  proof ← proof_from_wire proof;
  p ← request_public_from_wire public;
  map_err (λ e, "request verification failed: " +:+ e)%string
    (verify_request key p proof).

Definition withdrawal_circuit_of (public : WithdrawalPublicInputsV2) (w : WithdrawalWitnessData) :
  result string WithdrawalCircuit :=
  p ← withdrawal_public_from_wire public;
  sig ← signature_from_wire (default IDENTITY (wd_state_signature w));
  clear ← signature_from_wire (default IDENTITY (wd_clearance_signature w));
  Ok {| x_public := p;
        x_witness := {|
          xw_secret := field (wd_secret w);
          xw_deposit_amount := wd_deposit_amount w;
          xw_expiry := wd_expiry w;
          xw_merkle_siblings := vmap field (wd_merkle_siblings w);
          xw_final_blinding := scalar (wd_final_blinding w);
          xw_current_anchor := field (wd_current_anchor w);
          xw_is_genesis := wd_is_genesis w;
          xw_state_signature := sig;
          xw_clearance_signature := clear |} |}.

Definition withdrawal_prove (key : ProvingKey) (public : WithdrawalPublicInputsV2)
  (witness : WithdrawalWitnessData) (rng : N) : result string Groth16ProofWire :=
  circuit ← withdrawal_circuit_of public witness;
  _ ← validate_witness (withdrawal_circuit_satisfied circuit);
  proof ← map_err (λ e, "withdrawal proving failed: " +:+ e)%string
    (prove_withdrawal key circuit rng);
  proof_to_wire proof.

Definition withdrawal_verify (key : VerifyingKey) (public : WithdrawalPublicInputsV2)
  (proof : Groth16ProofWire) : result string bool :=
  _ ← ensure_backend proof;
  proof ← proof_from_wire proof;
  p ← withdrawal_public_from_wire public;
  map_err (λ e, "withdrawal verification failed: " +:+ e)%string
    (verify_withdrawal key p proof).

(** ** Lemmas *)

Lemma scalar_val f : scalar f = fof (felt_val f).
Proof. reflexivity. Qed.

Lemma felt_val_scalar_to_felt x : felt_val (scalar_to_felt x) = fint x.
Proof.
  unfold felt_val, scalar_to_felt. cbn [felt_bytes]. rewrite be_val_be_bytes, Z.mod_small; [done|].
  pose proof (Sc_gt x). assert (ED_ORDER < 256 ^ 32%nat)%Z by (vm_compute; reflexivity). lia.
Qed.

Lemma scalar_scalar_to_felt x : scalar (scalar_to_felt x) = x.
Proof. rewrite scalar_val, felt_val_scalar_to_felt. apply fof_fint. Qed.

Lemma scalar_to_felt_canonical x : canonical (scalar_to_felt x).
Proof.
  unfold canonical. rewrite felt_val_scalar_to_felt. pose proof (Sc_gt x).
  assert (ED_ORDER < FIELD_MODULUS)%Z by (vm_compute; reflexivity). lia.
Qed.

Lemma field_felt x : field (felt x) = x.
Proof. apply felt_to_field_to_felt. Qed.

Lemma point_from_wire_Ok w P :
  point_from_wire w = Ok P ↔ P = (field (cp_x w), field (cp_y w)) ∧ valid_point P.
Proof.
  unfold point_from_wire, valid_point.
  set (Q := (field (cp_x w), field (cp_y w))).
  destruct (is_on_curve Q) eqn:E1, (is_in_correct_subgroup Q) eqn:E2; cbn [negb orb]; split;
    first [by intros [= <-]|intros [-> [? ?]]; congruence].
Qed.

Lemma point_wire_roundtrip P : valid_point P → point_from_wire (point_to_wire P) = Ok P.
Proof.
  intros HP. apply point_from_wire_Ok. unfold point_to_wire. cbn [cp_x cp_y].
  rewrite !field_felt. by destruct P.
Qed.

Lemma point_from_to_wire g : in_subgroup g → point_from_wire (point_to_wire (into_affine g)) = Ok (into_affine g).
Proof. intros. by apply point_wire_roundtrip, valid_point_affine. Qed.

Lemma point_to_wire_affine_inj g h :
  point_to_wire (into_affine g) = point_to_wire (into_affine h) → g = h.
Proof.
  intros E. apply into_affine_inj.
  pose proof (field_to_felt_inj _ _ (f_equal cp_x E)) as E1.
  pose proof (field_to_felt_inj _ _ (f_equal cp_y E)) as E2. by destruct (into_affine g), (into_affine h); cbn in *; subst.
Qed.

Lemma rerandomize_balance b x l rho :
  rerandomize (balance_commitment b x l) rho = Ok (balance_commitment b (add_blindings x rho) l).
Proof.
  unfold rerandomize, balance_commitment.
  rewrite point_from_to_wire by apply balance_commitment_subgroup. cbn.
  rewrite into_group_affine, rerandomize_commitment_blinding.
  unfold add_blindings. by rewrite scalar_scalar_to_felt.
Qed.

Lemma server_update_balance b x l c d :
  server_update (balance_commitment b x l) c d
  = Ok (balance_commitment (b - c) (add_blindings x d) l).
Proof.
  unfold server_update, balance_commitment.
  rewrite point_from_to_wire by apply balance_commitment_subgroup. cbn.
  rewrite into_group_affine, mul_fof, mul_scalar by apply in_subgroup_generator.
  rewrite charge_commitment. unfold add_blindings. by rewrite scalar_scalar_to_felt.
Qed.

Lemma signature_from_to_wire sig :
  valid_point (groth16.r sig) → signature_from_wire (signature_to_wire sig) = Ok sig.
Proof.
  intros Hr. unfold signature_from_wire, signature_to_wire. cbn [sig_r_x sig_r_y sig_s].
  change {| cp_x := cp_x (point_to_wire (groth16.r sig));
            cp_y := cp_y (point_to_wire (groth16.r sig)) |}
    with (point_to_wire (groth16.r sig)).
  rewrite point_wire_roundtrip by done. cbn. rewrite scalar_scalar_to_felt. by destruct sig.
Qed.

Lemma public_key_valid seed : valid_point (public (key (from_seed seed))).
Proof.
  unfold from_seed. cbn [key]. destruct (from_secret_public (scalar seed)) as (k & _ & _ & ->).
  apply valid_point_affine. auto with subgroup nocore.
Qed.

Lemma sign_valid signer m nonce : valid_point (groth16.r (sign (key signer) m nonce)).
Proof. apply sign_r_subgroup. Qed.

Lemma signer_sign_verifies seed m nonce :
  verify_signature (public_key (from_seed seed)) m (signer_sign (from_seed seed) m nonce) = Ok true.
Proof.
  unfold verify_signature, public_key, signer_sign.
  rewrite point_wire_roundtrip by apply public_key_valid. cbn.
  rewrite signature_from_to_wire by apply (sign_valid (from_seed seed)). cbn. f_equal.
  apply sign_verifies.
Qed.

(** ** Proof bytes *)

Lemma be_val_prime_field_bytes x : be_val (prime_field_bytes x) = fint x.
Proof.
  unfold prime_field_bytes. rewrite be_val_be_bytes. apply Z.mod_small.
  pose proof (fint_bound x) as Hx. rewrite Fq_modulus in Hx.
  assert (BASE_MODULUS < 256 ^ 32%nat)%Z by (vm_compute; reflexivity). lia.
Qed.

Lemma canonical_fq_Ok bytes x : canonical_fq bytes = Ok x ↔ bytes = prime_field_bytes x.
Proof.
  unfold canonical_fq. case_bool_decide as E; cbn.
  - split; [|intros ->]; [by intros [= <-]|]. by rewrite be_val_prime_field_bytes, fof_fint.
  - split; [done|]. intros ->. destruct E. by rewrite be_val_prime_field_bytes, fof_fint.
Qed.

Lemma collect_Ok {T U E} (f : T → result E U) l k :
  collect f l = Ok k ↔ Forall2 (λ x y, f x = Ok y) l k.
Proof.
  revert k. induction l as [|x l IH]; intros k; cbn [collect].
  - split; [by intros [= <-]|]. by inversion 1.
  - split.
    + intros H. res_inv. subst. constructor; [done|]. by apply IH.
    + inversion 1 as [|? y ? ys Hy Hys]; subst. rewrite Hy. cbn.
      by rewrite (proj2 (IH ys) Hys).
Qed.

Lemma chunks32_concat (l : list Fq) :
  chunks32 (length l) (l ≫= λ c, vec_to_list (prime_field_bytes c))
  = (λ c, vec_to_list (prime_field_bytes c)) <$> l.
Proof.
  induction l as [|c l IH]; [done|]. rewrite bind_cons. cbn [chunks32 length fmap list_fmap].
  rewrite take_app_length', drop_app_length' by by rewrite length_vec_to_list. by f_equal.
Qed.

Lemma chunks32_inv n bytes :
  length bytes = (n * 32)%nat → mjoin (chunks32 n bytes) = bytes.
Proof.
  revert bytes. induction n as [|n IH]; intros bytes Hl; cbn [chunks32 mjoin list_join].
  - symmetry. by apply length_zero_iff_nil.
  - rewrite IH by (rewrite length_drop; lia). apply take_drop.
Qed.

Lemma bytes_of_coords_length (l : list Fq) :
  length (l ≫= λ c, vec_to_list (prime_field_bytes c)) = (length l * 32)%nat.
Proof.
  induction l as [|c l IH]; [done|]. rewrite bind_cons, length_app, length_vec_to_list, IH.
  cbn. lia.
Qed.

Lemma coords_join k cs :
  Forall2 (λ x y, canonical_fq x = Ok y) k cs →
  mjoin k = cs ≫= λ c, vec_to_list (prime_field_bytes c).
Proof.
  induction 1 as [|x y k cs Hx _ IH]; [done|]. apply canonical_fq_Ok in Hx as ->.
  rewrite bind_cons, <- IH. done.
Qed.

(** A proof with valid points. *)
Definition proof_valid (p : Proof16) : Prop :=
  g1_on_curve p.1.1 = true ∧ g1_in_subgroup p.1.1 = true ∧
  g2_on_curve p.1.2 = true ∧ g2_in_subgroup p.1.2 = true ∧
  g1_on_curve p.2 = true ∧ g1_in_subgroup p.2 = true.

Lemma proof_from_wire_Ok w p :
  proof_from_wire w = Ok p ↔
  base64_decode (gp_proof w)
    = Some (proof_coordinates p ≫= λ c, vec_to_list (prime_field_bytes c)) ∧
  proof_valid p.
Proof.
  unfold proof_from_wire. destruct (base64_decode (gp_proof w)) as [bytes|]; cbn;
    [|split; [done|by intros [? _]]].
  case_bool_decide as Hlen; cbn.
  2:{ split; [done|]. intros [[= ->] _]. destruct Hlen. rewrite bytes_of_coords_length.
      by destruct p as [[[] [[] []]] []]. }
  split.
  - rewrite Hlen. intros H. apply result_bind_Ok in H as (cs & Hcs & H).
    apply collect_Ok in Hcs. do 9 (destruct cs as [|? cs]; try done).
    repeat split_if. injection H as <-.
    repeat match goal with E : _ || _ = false |- _ => apply orb_false_iff in E as [? ?] end.
    repeat match goal with E : negb _ = false |- _ => apply negb_false_iff in E end.
    split; [|by split_and!].
    f_equal. rewrite <- (chunks32_inv 8 bytes) by done.
    exact (coords_join _ _ Hcs).
  - intros [E (H1 & H2 & H3 & H4 & H5 & H6)].
    assert (bytes = proof_coordinates p ≫= λ c, vec_to_list (prime_field_bytes c)) as ->
      by congruence. clear E. rewrite bytes_of_coords_length.
    assert (length (proof_coordinates p) = 8%nat) as Hl8 by by destruct p as [[[] [[] []]] []].
    pose proof (chunks32_concat (proof_coordinates p)) as Hc. rewrite Hl8 in Hc |- *.
    change (Nat.divmod (8 * 32) 31 0 31).1 with 8%nat. rewrite Hc.
    assert (collect canonical_fq ((λ c, vec_to_list (prime_field_bytes c)) <$> proof_coordinates p)
      = Ok (proof_coordinates p)) as ->.
    { apply collect_Ok, Forall2_fmap_l, Forall_Forall2_diag, Forall_true.
      intros c. by apply canonical_fq_Ok. }
    destruct p as [[[] [[] []]] []]; cbn in *. by rewrite H1, H2, H3, H4, H5, H6.
Qed.

(** ** Statements *)

Lemma request_public_from_wire_ok p q :
  request_v2_fits p → request_public_from_wire p = Ok q → request_public_ok q.
Proof.
  intros (_ & _ & Ht & Hb) H. unfold request_public_from_wire in H. res_inv. subst.
  repeat match goal with H : point_from_wire _ = Ok _ |- _ => apply point_from_wire_Ok in H as [_ ?] end.
  split; cbn; [done|done|done|].
  by match goal with H : valid_point ?P |- is_on_curve ?P = true => apply H end.
Qed.

Lemma signature_from_wire_valid w sig :
  signature_from_wire w = Ok sig → valid_point (groth16.r sig).
Proof. unfold signature_from_wire. intros H. res_inv. subst. cbn.
  by match goal with H : point_from_wire _ = _ |- _ => apply point_from_wire_Ok in H as [_ ?] end.
Qed.

Record request_data_fits (w : RequestWitnessData) : Prop := {
  rdf_note : fits 32 (rd_note_id w);
  rdf_deposit : fits 128 (rd_deposit_amount w);
  rdf_expiry : fits 64 (rd_expiry w);
  rdf_balance : fits 128 (rd_current_balance w);
}.

Lemma request_circuit_of_ok p w c :
  request_v2_fits p → request_data_fits w → request_circuit_of p w = Ok c →
  request_public_ok (q_public c) ∧ request_witness_ok (q_witness c).
Proof.
  intros Hp [] H. unfold request_circuit_of in H. res_inv. subst. cbn.
  split; [by eapply request_public_from_wire_ok|].
  split; try done. by eapply signature_from_wire_valid.
Qed.

Lemma validate_witness_Ok b u : validate_witness b = Ok u ↔ b = true.
Proof. destruct b, u; cbn; split; done. Qed.

(** ** Properties *)

(** Wire-level commitment algebra: re-randomising a balance commitment adds
    to its blinding, a server update moves the charge out of the balance and the
    server's blinding in, and both succeed on every commitment the wallet can
    produce, so the two parties agree on the next commitment. *)
Theorem commitment_update b x l rho charge delta :
  rerandomize (balance_commitment b x l) rho = Ok (balance_commitment b (add_blindings x rho) l) ∧
  (anonymous ← rerandomize (balance_commitment b x l) rho;
   server_update anonymous charge delta)
  = Ok (balance_commitment (b - charge) (add_blindings (add_blindings x rho) delta) l).
Proof.
  split; [apply rerandomize_balance|]. rewrite rerandomize_balance. cbn.
  apply server_update_balance.
Qed.

(** Signatures over the wire: what a signer emits for a message verifies
    under the key it publishes, through the encoding and the point checks, for
    the wire-level and the signer's own verification. *)
Theorem wire_signature_complete seed message nonce :
  let signer := from_seed seed in
  verify_signature (public_key signer) message (signer_sign signer message nonce) = Ok true ∧
  signer_verify signer message (signer_sign signer message nonce) = Ok true.
Proof.
  intros signer. split; [apply signer_sign_verifies|].
  unfold signer_verify, signer_sign.
  rewrite signature_from_to_wire by apply (sign_valid signer). cbn. f_equal. apply sign_verifies.
Qed.

(** Proof encoding: decoding the wire form of a proof with valid points
    gives the proof back, and whatever decodes is exactly the eight canonical
    coordinates of a proof with all points valid (a second encoding of the same
    coordinates is rejected, and so are off-curve or small-subgroup points). *)
Theorem proof_wire_roundtrip (p : Proof16) :
  (proof_valid p → (proof_to_wire p ≫= proof_from_wire) = Ok p) ∧
  (∀ w bytes, base64_decode (gp_proof w) = Some bytes → proof_from_wire w = Ok p →
     proof_valid p ∧ bytes = proof_coordinates p ≫= λ c, vec_to_list (prime_field_bytes c)).
Proof.
  split.
  - intros Hp. cbn. apply proof_from_wire_Ok. cbn [gp_proof]. by rewrite base64_roundtrip.
  - intros w bytes Hb [Hd Hv]%proof_from_wire_Ok. split; [done|congruence].
Qed.

(** Native and on-chain statements agree: the field elements the proof
    system verifies are those of the wire statement's own flattening, element
    by element. *)
Theorem public_inputs_agree :
  (∀ p q, request_v2_fits p → request_public_from_wire p = Ok q →
     request_to_field_elements q
     = felt_to_field <$> vec_to_list (request_v2_to_field_elements p)) ∧
  (∀ p q, withdrawal_v2_fits p → withdrawal_public_from_wire p = Ok q →
     withdrawal_to_field_elements q
     = felt_to_field <$> vec_to_list (withdrawal_v2_to_field_elements p)).
Proof.
  assert (∀ w z, (0 ≤ w ≤ 64)%Z → fits w z → felt_to_field (from_u64 z) = fof z) as H64.
  { intros w z Hw Hz. apply felt_to_field_from_u64. by eapply fits_weaken. }
  split.
  - intros p q (Hv & Hc & Ht & Hb) H. unfold request_public_from_wire in H. res_inv. subst.
    repeat match goal with H : point_from_wire _ = Ok _ |- _ =>
      apply point_from_wire_Ok in H as [-> _] end.
    unfold request_v2_to_field_elements. cbn -[felt_to_field].
    by rewrite (H64 16), (H64 64), (H64 64), felt_to_field_from_u128 by (lia || done).
  - intros p q (Hv & Hc & Hn & Hb) H. unfold withdrawal_public_from_wire in H. res_inv. subst.
    repeat match goal with H : point_from_wire _ = Ok _ |- _ =>
      apply point_from_wire_Ok in H as [-> _] end.
    unfold withdrawal_v2_to_field_elements. cbn -[felt_to_field Z.b2z].
    rewrite (H64 16), (H64 64), (H64 32), felt_to_field_from_u128 by (lia || done).
    by rewrite (H64 1 (Z.b2z _)) by (lia || by destruct (wp2_has_clearance p)).
Qed.

(** The prover refuses invalid states: [RequestProver::prove] only calls
    Groth16 on a circuit whose private state is valid for the public statement
    in the native sense. *)
Theorem prover_only_valid_states key p w rng proof :
  request_v2_fits p → request_data_fits w →
  request_prove key p w rng = Ok proof →
  ∃ c, request_circuit_of p w = Ok c ∧ request_valid (q_public c) (q_witness c).
Proof.
  intros Hp Hw H. unfold request_prove in H. res_inv.
  match goal with Hc : request_circuit_of _ _ = Ok ?c |- _ =>
    exists c; split; [done|]; destruct (request_circuit_of_ok _ _ _ Hp Hw Hc) end.
  match goal with Hv : validate_witness _ = Ok _ |- _ => apply validate_witness_Ok in Hv end.
  apply request_circuit_satisfied_iff; [done..|]. by destruct x.
Qed.
End compact.

(** ** Witnesses *)

Definition BASE_MODULUS_pos : positive := Eval vm_compute in Z.to_pos BASE_MODULUS.

Section toy_system.
#[local] Existing Instance Toy.

(** A proof system for evaluation: a proof is issued for satisfied circuits and
    carries one coordinate that depends on the first public input. *)
Definition toy_system : ProofSystem (A := Toy).
Proof.
  refine {|
    Fq := modint (Z.pos BASE_MODULUS_pos);
    Fq_field := modint_field BASE_MODULUS_pos eq_refl; Fq_modulus := eq_refl;
    g1_on_curve := λ _, true; g1_in_subgroup := λ _, true;
    g2_on_curve := λ _, true; g2_in_subgroup := λ _, true;
    ProvingKey := (); VerifyingKey := ();
    deserialize_pk := λ l, match l with [] => Err "unexpected end of file" | _ :: l => Ok (tt, l) end;
    deserialize_vk := λ l, match l with [] => Err "unexpected end of file" | _ :: l => Ok (tt, l) end;
    groth16_prove := λ _ inputs sat _,
      let z := modint_of BASE_MODULUS_pos (length inputs) in
      if sat then Ok (((z, z), ((z, z), (z, z)), (z, z))) else Err "unsatisfied";
    groth16_verify := λ _ _ _, Ok true;
    base64_encode := str_of; base64_decode := λ s, Some (str_bytes s) |}.
  intros b. by rewrite str_bytes_of.
Defined.
End toy_system.

#[local] Existing Instance Toy.
#[local] Existing Instance toy_keccak.
#[local] Existing Instance toy_statics.
#[local] Existing Instance toy_system.

Definition sample_proof : Proof16 :=
  ((fof 1, fof 2), ((fof 3, fof 4), (fof 5, fof 6)), (fof 7, fof 8)).

Lemma proof_wire_roundtrip_witness :
  (proof_to_wire sample_proof ≫= proof_from_wire) = Ok sample_proof.
Proof. apply (proof_wire_roundtrip sample_proof). by repeat split. Defined.

Definition sample_request_wire : RequestPublicInputsV2 :=
  let p := sample_request_public in {|
  rp2_protocol_version := 2; rp2_chain_id := 1; rp2_contract_address := from_u64 99;
  rp2_active_root := felt (q_active_root p);
  rp2_state_signing_key_x := felt (q_state_signing_key p).1;
  rp2_state_signing_key_y := felt (q_state_signing_key p).2;
  rp2_request_time := 20; rp2_solvency_bound := 300;
  rp2_request_nullifier := felt (q_request_nullifier p);
  rp2_authorization_tag := felt (q_authorization_tag p);
  rp2_anonymous_commitment_x := felt (q_anonymous_commitment p).1;
  rp2_anonymous_commitment_y := felt (q_anonymous_commitment p).2 |}.

Definition sample_request_data : RequestWitnessData := {|
  rd_secret := from_u64 8; rd_request_context := from_u64 9; rd_note_id := 3;
  rd_deposit_amount := 1000; rd_expiry := 50; rd_merkle_siblings := vreplicate 32 (from_u64 4);
  rd_current_balance := 400; rd_current_blinding := from_u64 7;
  rd_rerandomization := from_u64 13; rd_current_anchor := from_u64 12; rd_is_genesis := false;
  rd_state_signature := Some (signature_to_wire sample_signature) |}.

Lemma sample_request_wire_fits : request_v2_fits sample_request_wire.
Proof. by repeat split; vm_compute. Qed.

Lemma sample_request_data_fits : request_data_fits sample_request_data.
Proof. by repeat split; vm_compute. Qed.

Lemma prover_only_valid_states_witness :
  ∃ c, request_circuit_of sample_request_wire sample_request_data = Ok c ∧
       request_valid (q_public c) (q_witness c).
Proof.
  assert (∃ proof, request_prove () sample_request_wire sample_request_data 0%N = Ok proof)
    as [proof Hproof] by (apply is_ok_value; vm_compute; reflexivity).
  exact (prover_only_valid_states () sample_request_wire sample_request_data 0%N proof
    sample_request_wire_fits sample_request_data_fits Hproof).
Defined.

Lemma public_inputs_agree_witness :
  ∃ q, request_public_from_wire sample_request_wire = Ok q ∧
  request_to_field_elements q
  = felt_to_field <$> vec_to_list (request_v2_to_field_elements sample_request_wire).
Proof.
  assert (∃ q, request_public_from_wire sample_request_wire = Ok q) as [q Hq]
    by (apply is_ok_value; vm_compute; reflexivity).
  exists q. split; [exact Hq|].
  exact (proj1 public_inputs_agree sample_request_wire q sample_request_wire_fits Hq).
Defined.
