(* ===== verification/Solidity.v ===== *)
(** * Generated Solidity ([zkapi-proof]: compact.rs, [poseidon_solidity_source],
    [groth16_solidity_source])

    The setup writes a Poseidon library and a Groth16 verifier: two templates
    whose markers are filled by a sequence of [str::replace].  [subst] is the
    reference: all markers filled at once.  The theorem shows the sequence never
    touches text it inserted before, and leaves no marker. *)
From S2P Require Import Prelude Felt Types Group Ark CoreV2 Groth16 Circuit Compact.
Import groth16.

(** ** Text *)

(** A double quote. *)
Definition dq : string := str_of [x22].
(** A line feed. *)
Definition nl : string := str_of [x0a].

Definition unlines (l : list string) : string :=
  foldr (λ line rest, line +:+ nl +:+ rest) EmptyString l.

(** [str::replace]: left to right, what is inserted is not read again.  [skip]
    counts the characters of a match still to drop. *)
Fixpoint replace_from (pat new : list byte) (skip : nat) (l : list byte) : list byte :=
  match l with
  | [] => []
  | c :: l' =>
      match skip with
      | S k => replace_from pat new k l'
      | O => if bool_decide (take (length pat) l = pat)
             then new ++ replace_from pat new (pred (length pat)) l'
             else c :: replace_from pat new 0 l'
      end
  end.

Definition replace (source pat new : string) : string :=
  str_of (replace_from (str_bytes pat) (str_bytes new) 0 (str_bytes source)).

Definition poseidon_template : string := unlines [
    "// SPDX-License-Identifier: MIT";
    "pragma solidity ^0.8.28;";
    EmptyString;
    "/// @title Bn254Poseidon";
    "/// @notice Poseidon over the BN254 scalar field, generated from zkAPI v2's arkworks parameters.";
    "/// @dev Width 3, rate 2, x^5 S-box, 8 full rounds, and 57 partial rounds.";
    "library Bn254Poseidon {";
    "    uint256 internal constant FIELD_MODULUS =";
    "        21888242871839275222246405745257275088548364400416034343698204186575808495617;";
    EmptyString;
    "    bytes internal constant ROUND_CONSTANTS = hex" +:+ dq +:+ "__ROUND_CONSTANTS__" +:+ dq +:+ ";";
    EmptyString;
    "    function hash3(uint256 a, uint256 b, uint256 c) public pure returns (uint256 result) {";
    "        uint256 freeMemoryPointer;";
    "        assembly (" +:+ dq +:+ "memory-safe" +:+ dq +:+ ") { freeMemoryPointer := mload(0x40) }";
    "        bytes memory constants = ROUND_CONSTANTS;";
    "        result = _hash3(a, b, c, constants);";
    "        assembly (" +:+ dq +:+ "memory-safe" +:+ dq +:+ ") { mstore(0x40, freeMemoryPointer) }";
    "    }";
    EmptyString;
    "    function hash5(uint256 a, uint256 b, uint256 c, uint256 d, uint256 e)";
    "        public pure returns (uint256 result)";
    "    {";
    "        uint256 freeMemoryPointer;";
    "        assembly (" +:+ dq +:+ "memory-safe" +:+ dq +:+ ") { freeMemoryPointer := mload(0x40) }";
    "        bytes memory constants = ROUND_CONSTANTS;";
    "        uint256[3] memory state;";
    "        state[1] = a;";
    "        state[2] = b;";
    "        _permute(state, constants);";
    "        state[1] = addmod(state[1], c, FIELD_MODULUS);";
    "        state[2] = addmod(state[2], d, FIELD_MODULUS);";
    "        _permute(state, constants);";
    "        state[1] = addmod(state[1], e, FIELD_MODULUS);";
    "        _permute(state, constants);";
    "        result = state[1];";
    "        assembly (" +:+ dq +:+ "memory-safe" +:+ dq +:+ ") { mstore(0x40, freeMemoryPointer) }";
    "    }";
    EmptyString;
    "    function hash3PairPath32(";
    "        uint256 domain,";
    "        uint32 index,";
    "        uint256 oldLeaf,";
    "        uint256 newLeaf,";
    "        uint256[32] calldata siblings";
    "    ) public pure returns (uint256 oldRoot, uint256 newRoot) {";
    "        uint256 freeMemoryPointer;";
    "        assembly (" +:+ dq +:+ "memory-safe" +:+ dq +:+ ") { freeMemoryPointer := mload(0x40) }";
    "        bytes memory constants = ROUND_CONSTANTS;";
    "        oldRoot = oldLeaf;";
    "        newRoot = newLeaf;";
    "        for (uint256 level = 0; level < 32;) {";
    "            uint256 sibling = siblings[level];";
    "            if (((index >> level) & 1) == 0) {";
    "                oldRoot = _hash3(domain, oldRoot, sibling, constants);";
    "                newRoot = _hash3(domain, newRoot, sibling, constants);";
    "            } else {";
    "                oldRoot = _hash3(domain, sibling, oldRoot, constants);";
    "                newRoot = _hash3(domain, sibling, newRoot, constants);";
    "            }";
    "            unchecked { ++level; }";
    "        }";
    "        assembly (" +:+ dq +:+ "memory-safe" +:+ dq +:+ ") { mstore(0x40, freeMemoryPointer) }";
    "    }";
    EmptyString;
    "    function _hash3(uint256 a, uint256 b, uint256 c, bytes memory constants)";
    "        private pure returns (uint256 result)";
    "    {";
    "        uint256[3] memory state;";
    "        state[1] = a;";
    "        state[2] = b;";
    "        _permute(state, constants);";
    "        state[1] = addmod(state[1], c, FIELD_MODULUS);";
    "        _permute(state, constants);";
    "        result = state[1];";
    "    }";
    EmptyString;
    "    function _permute(uint256[3] memory state, bytes memory constants) private pure {";
    "        uint256 round;";
    "        for (; round < 4;) {";
    "            _round(state, constants, round, true);";
    "            unchecked { ++round; }";
    "        }";
    "        for (; round < 61;) {";
    "            _round(state, constants, round, false);";
    "            unchecked { ++round; }";
    "        }";
    "        for (; round < 65;) {";
    "            _round(state, constants, round, true);";
    "            unchecked { ++round; }";
    "        }";
    "    }";
    EmptyString;
    "    function _round(uint256[3] memory state, bytes memory constants, uint256 round, bool full)";
    "        private pure";
    "    {";
    "        uint256 offset = round * 3;";
    "        state[0] = addmod(state[0], _constant(constants, offset), FIELD_MODULUS);";
    "        state[1] = addmod(state[1], _constant(constants, offset + 1), FIELD_MODULUS);";
    "        state[2] = addmod(state[2], _constant(constants, offset + 2), FIELD_MODULUS);";
    "        state[0] = _pow5(state[0]);";
    "        if (full) {";
    "            state[1] = _pow5(state[1]);";
    "            state[2] = _pow5(state[2]);";
    "        }";
    "        uint256 x = state[0];";
    "        uint256 y = state[1];";
    "        uint256 z = state[2];";
    "        state[0] = addmod(addmod(mulmod(x, __M0__, FIELD_MODULUS), mulmod(y, __M1__, FIELD_MODULUS), FIELD_MODULUS), mulmod(z, __M2__, FIELD_MODULUS), FIELD_MODULUS);";
    "        state[1] = addmod(addmod(mulmod(x, __M3__, FIELD_MODULUS), mulmod(y, __M4__, FIELD_MODULUS), FIELD_MODULUS), mulmod(z, __M5__, FIELD_MODULUS), FIELD_MODULUS);";
    "        state[2] = addmod(addmod(mulmod(x, __M6__, FIELD_MODULUS), mulmod(y, __M7__, FIELD_MODULUS), FIELD_MODULUS), mulmod(z, __M8__, FIELD_MODULUS), FIELD_MODULUS);";
    "    }";
    EmptyString;
    "    function _pow5(uint256 value) private pure returns (uint256) {";
    "        uint256 square = mulmod(value, value, FIELD_MODULUS);";
    "        return mulmod(mulmod(square, square, FIELD_MODULUS), value, FIELD_MODULUS);";
    "    }";
    EmptyString;
    "    function _constant(bytes memory constants, uint256 index) private pure returns (uint256 value) {";
    "        assembly (" +:+ dq +:+ "memory-safe" +:+ dq +:+ ") { value := mload(add(add(constants, 0x20), mul(index, 0x20))) }";
    "    }";
    "}"].

Definition groth16_template : string := unlines [
    "// SPDX-License-Identifier: MIT";
    "pragma solidity ^0.8.28;";
    EmptyString;
    "import {IZkApiProofAdapter} from " +:+ dq +:+ "../interfaces/IZkApiProofAdapter.sol" +:+ dq +:+ ";";
    "import {Types} from " +:+ dq +:+ "../libraries/Types.sol" +:+ dq +:+ ";";
    "import {Errors} from " +:+ dq +:+ "../libraries/Errors.sol" +:+ dq +:+ ";";
    EmptyString;
    "/// @title Groth16ProofAdapter";
    "/// @notice Circuit-specific zkAPI v2 verifier generated from the selected setup.";
    "contract Groth16ProofAdapter is IZkApiProofAdapter {";
    "    uint256 private constant SCALAR_MODULUS =";
    "        21888242871839275222246405745257275088548364400416034343698204186575808495617;";
    "    uint256 private constant BASE_MODULUS =";
    "        21888242871839275222246405745257275088696311157297823662689037894645226208583;";
    EmptyString;
    "    struct G1Point { uint256 x; uint256 y; }";
    "    // Coordinates use arkworks order: c0 (real), then c1 (imaginary).";
    "    struct G2Point { uint256[2] x; uint256[2] y; }";
    "    struct Proof { G1Point a; G2Point b; G1Point c; }";
    EmptyString;
    "    function assertValidRequest(Types.RequestPublicInputs calldata inputs, bytes calldata proof)";
    "        external view override";
    "    {";
    "        uint256[12] memory values = [";
    "            uint256(inputs.protocolVersion),";
    "            uint256(inputs.chainId),";
    "            uint256(uint160(inputs.contractAddress)),";
    "            inputs.activeRoot,";
    "            inputs.stateSigningKeyX,";
    "            inputs.stateSigningKeyY,";
    "            uint256(inputs.requestTime),";
    "            uint256(inputs.solvencyBound),";
    "            inputs.requestNullifier,";
    "            inputs.authorizationTag,";
    "            inputs.anonymousCommitmentX,";
    "            inputs.anonymousCommitmentY";
    "        ];";
    "        (Proof memory parsed, bool validEncoding) = _decodeProof(proof);";
    "        if (!validEncoding || !_verifyRequest(values, parsed)) revert Errors.InvalidProof();";
    "    }";
    EmptyString;
    "    function assertValidWithdrawal(Types.WithdrawalPublicInputs calldata inputs, bytes calldata proof)";
    "        external view override";
    "    {";
    "        uint256[14] memory values = [";
    "            uint256(inputs.protocolVersion),";
    "            uint256(inputs.chainId),";
    "            uint256(uint160(inputs.contractAddress)),";
    "            inputs.activeRoot,";
    "            inputs.stateSigningKeyX,";
    "            inputs.stateSigningKeyY,";
    "            inputs.clearanceSigningKeyX,";
    "            inputs.clearanceSigningKeyY,";
    "            uint256(inputs.noteId),";
    "            uint256(inputs.finalBalance),";
    "            uint256(uint160(inputs.destination)),";
    "            inputs.withdrawalNullifier,";
    "            inputs.hasClearance ? uint256(1) : uint256(0),";
    "            inputs.withdrawalTag";
    "        ];";
    "        (Proof memory parsed, bool validEncoding) = _decodeProof(proof);";
    "        if (!validEncoding || !_verifyWithdrawal(values, parsed)) revert Errors.InvalidProof();";
    "    }";
    EmptyString;
    "    function _verifyRequest(uint256[12] memory values, Proof memory proof) private view returns (bool) {";
    "        G1Point memory accumulator = _requestIc(0);";
    "        for (uint256 i = 0; i < 12; ++i) {";
    "            if (values[i] >= SCALAR_MODULUS) return false;";
    "            (G1Point memory term, bool mulOk) = _scalarMul(_requestIc(i + 1), values[i]);";
    "            if (!mulOk) return false;";
    "            bool addOk;";
    "            (accumulator, addOk) = _add(accumulator, term);";
    "            if (!addOk) return false;";
    "        }";
    "        return _pairing(";
    "            _negate(proof.a), proof.b,";
    "            _requestAlpha(), _requestBeta(),";
    "            accumulator, _requestGamma(),";
    "            proof.c, _requestDelta()";
    "        );";
    "    }";
    EmptyString;
    "    function _verifyWithdrawal(uint256[14] memory values, Proof memory proof) private view returns (bool) {";
    "        G1Point memory accumulator = _withdrawalIc(0);";
    "        for (uint256 i = 0; i < 14; ++i) {";
    "            if (values[i] >= SCALAR_MODULUS) return false;";
    "            (G1Point memory term, bool mulOk) = _scalarMul(_withdrawalIc(i + 1), values[i]);";
    "            if (!mulOk) return false;";
    "            bool addOk;";
    "            (accumulator, addOk) = _add(accumulator, term);";
    "            if (!addOk) return false;";
    "        }";
    "        return _pairing(";
    "            _negate(proof.a), proof.b,";
    "            _withdrawalAlpha(), _withdrawalBeta(),";
    "            accumulator, _withdrawalGamma(),";
    "            proof.c, _withdrawalDelta()";
    "        );";
    "    }";
    EmptyString;
    "    function _decodeProof(bytes calldata encoded) private pure returns (Proof memory proof, bool valid) {";
    "        if (encoded.length != 256) return (proof, false);";
    "        uint256[8] memory words;";
    "        assembly (" +:+ dq +:+ "memory-safe" +:+ dq +:+ ") {";
    "            let start := encoded.offset";
    "            mstore(words, calldataload(start))";
    "            mstore(add(words, 0x20), calldataload(add(start, 0x20)))";
    "            mstore(add(words, 0x40), calldataload(add(start, 0x40)))";
    "            mstore(add(words, 0x60), calldataload(add(start, 0x60)))";
    "            mstore(add(words, 0x80), calldataload(add(start, 0x80)))";
    "            mstore(add(words, 0xa0), calldataload(add(start, 0xa0)))";
    "            mstore(add(words, 0xc0), calldataload(add(start, 0xc0)))";
    "            mstore(add(words, 0xe0), calldataload(add(start, 0xe0)))";
    "        }";
    "        for (uint256 i = 0; i < 8; ++i) if (words[i] >= BASE_MODULUS) return (proof, false);";
    "        proof.a = G1Point(words[0], words[1]);";
    "        proof.b = G2Point([words[2], words[3]], [words[4], words[5]]);";
    "        proof.c = G1Point(words[6], words[7]);";
    "        return (proof, true);";
    "    }";
    EmptyString;
    "    function _negate(G1Point memory point) private pure returns (G1Point memory) {";
    "        if (point.x == 0 && point.y == 0) return G1Point(0, 0);";
    "        return G1Point(point.x, BASE_MODULUS - (point.y % BASE_MODULUS));";
    "    }";
    EmptyString;
    "    function _add(G1Point memory a, G1Point memory b) private view returns (G1Point memory result, bool ok) {";
    "        uint256[4] memory input = [a.x, a.y, b.x, b.y];";
    "        assembly (" +:+ dq +:+ "memory-safe" +:+ dq +:+ ") { ok := staticcall(gas(), 6, input, 0x80, result, 0x40) }";
    "    }";
    EmptyString;
    "    function _scalarMul(G1Point memory point, uint256 scalar)";
    "        private view returns (G1Point memory result, bool ok)";
    "    {";
    "        uint256[3] memory input = [point.x, point.y, scalar];";
    "        assembly (" +:+ dq +:+ "memory-safe" +:+ dq +:+ ") { ok := staticcall(gas(), 7, input, 0x60, result, 0x40) }";
    "    }";
    EmptyString;
    "    function _pairing(";
    "        G1Point memory a1, G2Point memory a2,";
    "        G1Point memory b1, G2Point memory b2,";
    "        G1Point memory c1, G2Point memory c2,";
    "        G1Point memory d1, G2Point memory d2";
    "    ) private view returns (bool) {";
    "        uint256[24] memory input;";
    "        _writePair(input, 0, a1, a2);";
    "        _writePair(input, 6, b1, b2);";
    "        _writePair(input, 12, c1, c2);";
    "        _writePair(input, 18, d1, d2);";
    "        uint256[1] memory output;";
    "        bool ok;";
    "        assembly (" +:+ dq +:+ "memory-safe" +:+ dq +:+ ") { ok := staticcall(gas(), 8, input, 0x300, output, 0x20) }";
    "        return ok && output[0] == 1;";
    "    }";
    EmptyString;
    "    function _writePair(uint256[24] memory input, uint256 offset, G1Point memory g1, G2Point memory g2)";
    "        private pure";
    "    {";
    "        input[offset] = g1.x;";
    "        input[offset + 1] = g1.y;";
    "        // EIP-197 expects the imaginary coefficient before the real coefficient.";
    "        input[offset + 2] = g2.x[1];";
    "        input[offset + 3] = g2.x[0];";
    "        input[offset + 4] = g2.y[1];";
    "        input[offset + 5] = g2.y[0];";
    "    }";
    EmptyString;
    "__REQUEST_VK__";
    EmptyString;
    "__WITHDRAWAL_VK__";
    "}"].

(** ** The sources *)

(** The parts of a verifying key ([ark_groth16::VerifyingKey]), its encoding and
    that of proving keys.  A reader consumes what a writer wrote and does not
    look past it. *)
Class KeyMaterial {A : Ark} {PS : ProofSystem} : Type := {
  vk_alpha_g1 : VerifyingKey → G1;
  vk_beta_g2 : VerifyingKey → G2;
  vk_gamma_g2 : VerifyingKey → G2;
  vk_delta_g2 : VerifyingKey → G2;
  vk_gamma_abc_g1 : VerifyingKey → list G1;
  serialize_pk : ProvingKey → result string (list byte);
  serialize_vk : VerifyingKey → result string (list byte);
  deserialize_serialize_pk k b : serialize_pk k = Ok b → deserialize_pk b = Ok (k, []);
  deserialize_serialize_vk k b : serialize_vk k = Ok b → deserialize_vk b = Ok (k, []);
  deserialize_pk_stream k b rest : deserialize_pk b = Ok (k, []) → deserialize_pk (b ++ rest) = Ok (k, rest);
  deserialize_vk_stream k b rest : deserialize_vk b = Ok (k, []) → deserialize_vk (b ++ rest) = Ok (k, rest);
}.

Definition field_hex {F} `{!PrimeField F} (value : F) : string :=
  "0x" +:+ str_of (hex_encode (prime_field_bytes value)).

Section sources.
Context {A : Ark} {PS : ProofSystem} {KM : KeyMaterial}.

Fixpoint fill_mds (index : nat) (mds : list string) (source : string) : string :=
  match mds with
  | [] => source
  | value :: mds => fill_mds (S index) mds (replace source ("__M" +:+ pretty index +:+ "__") value)
  end.

Definition round_constants : string :=
  str_of (concat (pc_ark _ poseidon_config) ≫= λ value, hex_encode (prime_field_bytes value)).

Definition poseidon_solidity_source : string :=
  fill_mds 0 (field_hex <$> concat (pc_mds _ poseidon_config))
    (replace poseidon_template "__ROUND_CONSTANTS__" round_constants).

Definition solidity_g1 (point : G1) : string :=
  "G1Point(" +:+ field_hex point.1 +:+ ", " +:+ field_hex point.2 +:+ ")".

Definition solidity_g2 (point : G2) : string :=
  "G2Point([" +:+ field_hex point.1.1 +:+ ", " +:+ field_hex point.1.2 +:+ "], [" +:+
  field_hex point.2.1 +:+ ", " +:+ field_hex point.2.2 +:+ "])".

Fixpoint ic_cases (index : nat) (points : list G1) : string :=
  match points with
  | [] => EmptyString
  | point :: points =>
      "        if (index == " +:+ pretty index +:+ ") return " +:+ solidity_g1 point +:+ ";" +:+ nl +:+
      ic_cases (S index) points
  end.

Definition vk_header (prefix name argument result_type : string) : string :=
  "    function _" +:+ prefix +:+ name +:+ "(" +:+ argument +:+ ") private pure returns (" +:+
  result_type +:+ " memory) {" +:+ nl.

Definition vk_function (prefix name argument result_type body : string) : string :=
  vk_header prefix name argument result_type +:+ body +:+ nl +:+ "    }".

Definition solidity_vk_functions (prefix : string) (key : VerifyingKey) : string :=
  vk_function prefix "Alpha" "" "G1Point"
    ("        return " +:+ solidity_g1 (vk_alpha_g1 key) +:+ ";") +:+ nl +:+ nl +:+
  vk_function prefix "Beta" "" "G2Point"
    ("        return " +:+ solidity_g2 (vk_beta_g2 key) +:+ ";") +:+ nl +:+ nl +:+
  vk_function prefix "Gamma" "" "G2Point"
    ("        return " +:+ solidity_g2 (vk_gamma_g2 key) +:+ ";") +:+ nl +:+ nl +:+
  vk_function prefix "Delta" "" "G2Point"
    ("        return " +:+ solidity_g2 (vk_delta_g2 key) +:+ ";") +:+ nl +:+ nl +:+
  vk_function prefix "Ic" "uint256 index" "G1Point"
    (ic_cases 0 (vk_gamma_abc_g1 key) +:+ "        revert Errors.InvalidProof();").

Definition groth16_solidity_source (request_key withdrawal_key : VerifyingKey) : string :=
  let source := replace groth16_template "__REQUEST_VK__"
    (solidity_vk_functions "request" request_key) in
  replace source "__WITHDRAWAL_VK__" (solidity_vk_functions "withdrawal" withdrawal_key).
End sources.

(** ** Markers, all at once *)

(** Split at every double underscore. *)
Fixpoint split_dunder (cur l : list byte) : list (list byte) :=
  match l with
  | x5f :: x5f :: l => reverse cur :: split_dunder [] l
  | c :: l => split_dunder (c :: cur) l
  | [] => [reverse cur]
  end.

(** The text before the first marker, then each marker with the text after it. *)
Fixpoint pair_up (pieces : list (list byte)) : list (list byte * list byte) :=
  match pieces with
  | name :: text :: pieces => (x5f :: x5f :: name ++ [x5f; x5f], text) :: pair_up pieces
  | _ => []
  end.

Definition markers_of (template : string) : list byte * list (list byte * list byte) :=
  match split_dunder [] (str_bytes template) with
  | [] => ([], [])
  | text :: pieces => (text, pair_up pieces)
  end.

Definition marker_names (template : string) : list string := str_of <$> (markers_of template).2.*1.

(** Each marker replaced by the value at its position. *)
Definition fill_text (start : list byte) (holes : list (list byte * list byte))
  (values : list (list byte)) : list byte :=
  start ++ concat (zip_with (λ v h, v ++ h.2) values holes).

Definition fill (template : string) (values : list string) : string :=
  let '(start, holes) := markers_of template in
  str_of (fill_text start holes (str_bytes <$> values)).

(** ** Lemmas *)

Section replacing.
Implicit Types (pat l new rest : list byte).

(** Text through which replacing passes, whatever follows it. *)
Definition inert pat l : Prop := ∀ new rest,
  replace_from pat new 0 (l ++ rest) = l ++ replace_from pat new 0 rest.

Lemma inert_nil pat : inert pat [].
Proof. done. Qed.

Lemma inert_app pat l1 l2 : inert pat l1 → inert pat l2 → inert pat (l1 ++ l2).
Proof. intros H1 H2 new rest. by rewrite <- !app_assoc, H1, H2. Qed.

(** A text none of whose suffixes agrees with the pattern as far as both go. *)
Fixpoint agree pat l : bool :=
  match pat, l with
  | p :: pat, c :: l => bool_decide (p = c) && agree pat l
  | _, _ => true
  end.

Fixpoint safe pat l : bool :=
  match l with
  | [] => true
  | c :: l' => negb (agree pat l) && safe pat l'
  end.

Lemma agree_take pat l rest : take (length pat) (l ++ rest) = pat → agree pat l = true.
Proof.
  revert l. induction pat as [|p pat IH]; intros [|c l]; cbn; try done. intros [= -> H].
  by rewrite bool_decide_true, (IH l).
Qed.

Lemma safe_inert pat l : safe pat l = true → inert pat l.
Proof.
  induction l as [|c l IH]; [intros; apply inert_nil|]. cbn [safe].
  intros [Ha%negb_true_iff Hs]%andb_true_iff new rest. cbn [app replace_from].
  rewrite bool_decide_false; [by rewrite IH|]. intros E.
  by rewrite (agree_take pat (c :: l) rest E) in Ha.
Qed.

(** Text without the pattern's first character. *)
Lemma inert_free p pat l : p ∉ l → inert (p :: pat) l.
Proof.
  intros Hp. apply safe_inert. induction l as [|c l IH]; [done|]. cbn.
  apply not_elem_of_cons in Hp as [Hne Hl]. rewrite bool_decide_false by done. by apply IH.
Qed.

Lemma replace_skip pat new k l : replace_from pat new k l = replace_from pat new 0 (drop k l).
Proof. revert l. induction k as [|k IH]; intros [|c l]; cbn; try done. Qed.

Lemma replace_hit pat new rest : pat ≠ [] →
  replace_from pat new 0 (pat ++ rest) = new ++ replace_from pat new 0 rest.
Proof.
  destruct pat as [|p pat]; [done|]. intros _. cbn [app replace_from].
  rewrite bool_decide_true.
  - cbn [length pred]. by rewrite replace_skip, drop_app_length.
  - cbn [length]. change (p :: pat ++ rest) with ((p :: pat) ++ rest). exact (take_app_length (p :: pat) rest).
Qed.

(** Pieces that later patterns pass through, as a computation. *)
Fixpoint passable pats (start : list byte) (holes : list (list byte * list byte)) : bool :=
  match pats with
  | [] => true
  | pat :: pats => safe pat start && forallb (λ h, safe pat h.2) holes && passable pats start holes
  end.

(** Each pattern is free of the markers after it. *)
Fixpoint apart (holes : list (list byte * list byte)) : bool :=
  match holes with
  | [] => true
  | (pat, text) :: holes =>
      negb (bool_decide (pat = [])) && forallb (λ h, safe pat (h.1 ++ h.2)) holes && apart holes
  end.

Definition steps_of (holes : list (list byte * list byte)) (values : list (list byte))
  (text : list byte) : list byte :=
  foldl (λ text h, replace_from h.1 h.2 0 text) text (zip holes.*1 values).

Lemma inert_holes pat (holes : list (list byte * list byte)) :
  forallb (λ h, safe pat (h.1 ++ h.2)) holes = true → inert pat (concat ((λ h, h.1 ++ h.2) <$> holes)).
Proof.
  induction holes as [|h holes IH]; [intros; apply inert_nil|]. cbn.
  intros [Hs Hh]%andb_true_iff. apply inert_app; [by apply safe_inert|by apply IH].
Qed.

(** The sequence of replacements fills every marker. *)
Lemma steps_fill holes : ∀ values start,
  length values = length holes → apart holes = true →
  (∀ pat, pat ∈ holes.*1 → inert pat start ∧ (∀ v, v ∈ values → inert pat v) ∧
                          ∀ h, h ∈ holes → inert pat h.2) →
  steps_of holes values (start ++ concat ((λ h, h.1 ++ h.2) <$> holes)) = fill_text start holes values.
Proof.
  induction holes as [|h0 holes IH]; intros [|v values] start; try done.
  destruct h0 as [pat text]. cbn -[replace_from].
  intros [= Hlen] [[Hne Hap]%andb_true_iff Hrest]%andb_true_iff Hin.
  apply negb_true_iff, bool_decide_eq_false in Hne.
  destruct (Hin pat ltac:(left)) as (H1 & H2 & H3).
  assert (replace_from pat v 0 (start ++ (pat ++ text) ++ concat ((λ h, h.1 ++ h.2) <$> holes))
    = (start ++ v ++ text) ++ concat ((λ h, h.1 ++ h.2) <$> holes)) as ->.
  { rewrite <- app_assoc, H1, replace_hit by done. rewrite (H3 (pat, text) ltac:(left)).
    pose proof (inert_holes pat holes Hap v []) as E. rewrite app_nil_r in E. rewrite E. cbn.
    by rewrite app_nil_r, <- !app_assoc. }
  fold (steps_of holes values ((start ++ v ++ text) ++ concat ((λ h, h.1 ++ h.2) <$> holes))).
  rewrite IH; [|done|done|].
  - unfold fill_text. cbn. by rewrite <- !app_assoc.
  - intros q Hq. destruct (Hin q ltac:(by right)) as (Q1 & Q2 & Q3). split; [|split].
    + apply inert_app; [done|]. apply inert_app; [apply Q2; left|]. apply (Q3 (pat, text)). left.
    + intros v' Hv'. apply Q2. by right.
    + intros h Hh. apply Q3. by right.
Qed.

Lemma passable_inert pats start holes pat : passable pats start holes = true → pat ∈ pats →
  inert pat start ∧ ∀ h, h ∈ holes → inert pat h.2.
Proof.
  induction pats as [|q pats IH]; [intros _ []%not_elem_of_nil|]. cbn.
  intros [[Hs Hh]%andb_true_iff Hr]%andb_true_iff [->|Hin]%elem_of_cons; [|by apply IH].
  split; [by apply safe_inert|]. intros h Hin. apply safe_inert.
  rewrite List.forallb_forall in Hh. apply Hh. by apply list_elem_of_In.
Qed.
End replacing.

(** A template whose markers can be filled one after the other. *)
Definition fillable (template : string) : bool :=
  let '(start, holes) := markers_of template in
  bool_decide (start ++ concat ((λ h, h.1 ++ h.2) <$> holes) = str_bytes template) &&
  apart holes && passable holes.*1 start holes.

Lemma replaces_fill template values :
  fillable template = true → length values = length (marker_names template) →
  (∀ pat v, pat ∈ (markers_of template).2.*1 → v ∈ values → inert pat (str_bytes v)) →
  foldl (λ source h, replace source h.1 h.2) template (zip (marker_names template) values)
  = fill template values.
Proof.
  unfold fillable, marker_names, fill. destruct (markers_of template) as [start holes]. cbn [snd].
  intros [[Ht%bool_decide_eq_true Ha]%andb_true_iff Hp]%andb_true_iff Hlen Hv.
  rewrite !length_fmap in Hlen.
  rewrite <- (steps_fill holes (str_bytes <$> values) start); [|by rewrite length_fmap|done|].
  - rewrite Ht. unfold steps_of. rewrite <- (str_of_bytes template) at 1. clear.
    generalize (str_bytes template). revert holes. induction values as [|v values IH]; intros [|h holes] l; try done.
    cbn. unfold replace at 2. rewrite !str_bytes_of. apply IH.
  - intros pat Hpat. destruct (passable_inert _ _ _ _ Hp Hpat) as [H1 H2]. split; [done|]. split; [|done].
    intros v (x & -> & Hx)%list_elem_of_fmap. by apply Hv.
Qed.

(** A concrete text without underscores. *)
#[local] Ltac no_underscore :=
  let Hin := fresh in vm_compute; intros Hin;
  repeat (apply elem_of_cons in Hin as [Hin|Hin]; [discriminate Hin|]);
  by apply not_elem_of_nil in Hin.

(** Digits hold no underscore, so no marker. *)
Lemma hex_encode_plain l : x5f ∉ hex_encode l.
Proof.
  intros (b & Hin & _)%list_elem_of_bind. revert Hin. destruct b; no_underscore.
Qed.

Lemma field_hex_plain {F} `{!PrimeField F} (v : F) : x5f ∉ str_bytes (field_hex v).
Proof.
  unfold field_hex. rewrite str_bytes_app, str_bytes_of. intros [H|H]%elem_of_app.
  - revert H. no_underscore.
  - by apply hex_encode_plain in H.
Qed.

Lemma poseidon_fillable : fillable poseidon_template = true.
Proof. vm_compute. reflexivity. Qed.

Lemma groth16_fillable : fillable groth16_template = true.
Proof. vm_compute. reflexivity. Qed.

Lemma pretty_N_go_plain x s : x5f ∉ str_bytes s → x5f ∉ str_bytes (pretty_N_go x s).
Proof.
  revert s. induction (N.lt_wf_0 x) as [x _ IH]; intros s Hs.
  destruct (decide (x = 0)%N) as [->|Hx]; [by rewrite pretty_N_go_0|].
  rewrite pretty_N_go_step by lia. apply IH; [by apply N.div_lt; lia|].
  change (str_bytes (String ?a s)) with (Ascii.byte_of_ascii a :: str_bytes s).
  apply not_elem_of_cons. split; [|done]. unfold pretty_N_char.
  repeat case_match; discriminate.
Qed.

Lemma pretty_nat_plain (n : nat) : x5f ∉ str_bytes (pretty n).
Proof.
  unfold pretty, pretty_nat, pretty, pretty_N. case_decide; [|apply pretty_N_go_plain]; no_underscore.
Qed.

Lemma inert_plain pat l : head pat = Some x5f → x5f ∉ l → inert pat l.
Proof. destruct pat as [|p pat]; [done|]. intros [= ->]. apply inert_free. Qed.

(** The values filled in: none holds a marker. *)
Section values.
Context {A : Ark} {PS : ProofSystem} {KM : KeyMaterial}.

#[local] Ltac pass := repeat (rewrite ?str_bytes_app, ?str_bytes_of; first
  [ apply inert_app | apply inert_plain; [reflexivity|apply field_hex_plain || apply pretty_nat_plain]
  | apply safe_inert; vm_compute; reflexivity ]).

Lemma ic_cases_inert pat index points :
  pat = str_bytes "__REQUEST_VK__" ∨ pat = str_bytes "__WITHDRAWAL_VK__" →
  inert pat (str_bytes (ic_cases index points)).
Proof.
  intros Hp. revert index. induction points as [|point points IH]; intros index.
  - apply inert_nil.
  - cbn [ic_cases]. unfold solidity_g1. rewrite !str_bytes_app.
    repeat apply inert_app; try apply IH; destruct Hp as [->| ->]; pass.
Qed.

Lemma vk_functions_inert pat prefix key :
  pat = str_bytes "__REQUEST_VK__" ∨ pat = str_bytes "__WITHDRAWAL_VK__" →
  prefix = "request" ∨ prefix = "withdrawal" →
  inert pat (str_bytes (solidity_vk_functions prefix key)).
Proof.
  intros Hp Hx. unfold solidity_vk_functions, vk_function.
  rewrite !str_bytes_app. repeat apply inert_app; try (by apply ic_cases_inert).
  all: unfold solidity_g1, solidity_g2; destruct Hp as [->| ->], Hx as [->| ->]; pass.
Qed.
End values.

(** ** Properties *)

Section properties.
Context {A : Ark} {PS : ProofSystem} {KM : KeyMaterial}.

Lemma fill_mds_foldl index mds source :
  fill_mds index mds source =
  foldl (λ source h, replace source h.1 h.2) source
    (zip ((λ i, "__M" +:+ pretty i +:+ "__") <$> seq index (length mds)) mds).
Proof.
  revert index source. induction mds as [|v mds IH]; intros index source; [done|].
  cbn [fill_mds length seq fmap list_fmap zip zip_with foldl]. apply IH.
Qed.

(** C10. The generated contracts: filling the markers one after the other, as the
    setup does, gives the templates with every marker replaced by its own value
    and nothing else changed: the round constants and the nine matrix entries in
    order, and the accessors of the two verifying keys. *)
Theorem generated_sources_filled request_key withdrawal_key :
  length (concat (pc_mds _ poseidon_config)) = 9%nat →
  poseidon_solidity_source =
    fill poseidon_template (round_constants :: (field_hex <$> concat (pc_mds _ poseidon_config))) ∧
  marker_names poseidon_template = ["__ROUND_CONSTANTS__"; "__M0__"; "__M1__"; "__M2__"; "__M3__";
    "__M4__"; "__M5__"; "__M6__"; "__M7__"; "__M8__"] ∧
  groth16_solidity_source request_key withdrawal_key =
    fill groth16_template [solidity_vk_functions "request" request_key;
                           solidity_vk_functions "withdrawal" withdrawal_key] ∧
  marker_names groth16_template = ["__REQUEST_VK__"; "__WITHDRAWAL_VK__"].
Proof.
  intros Hmds.
  assert (marker_names poseidon_template = "__ROUND_CONSTANTS__" ::
    ((λ i : nat, "__M" +:+ pretty i +:+ "__") <$> seq 0 9)) as Hp by (vm_compute; reflexivity).
  assert (marker_names groth16_template = ["__REQUEST_VK__"; "__WITHDRAWAL_VK__"]) as Hg
    by (vm_compute; reflexivity).
  assert ((markers_of groth16_template).2.*1 = [str_bytes "__REQUEST_VK__"; str_bytes "__WITHDRAWAL_VK__"])
    as Hgb by (vm_compute; reflexivity).
  assert (forallb (λ p, bool_decide (head p = Some x5f)) (markers_of poseidon_template).2.*1 = true)
    as Hpb by (vm_compute; reflexivity).
  split; [|split; [vm_compute; reflexivity|split; [|exact Hg]]].
  - rewrite <- (replaces_fill poseidon_template); [|exact poseidon_fillable| |].
    + rewrite Hp. unfold poseidon_solidity_source. by rewrite fill_mds_foldl, length_fmap, Hmds.
    + rewrite Hp. cbn [length]. by rewrite !length_fmap, Hmds, length_seq.
    + intros pat v Hpat Hv. rewrite List.forallb_forall in Hpb.
      apply list_elem_of_In, Hpb, bool_decide_eq_true in Hpat. apply inert_plain; [done|].
      apply elem_of_cons in Hv as [->|(x & -> & _)%list_elem_of_fmap]; [|apply field_hex_plain].
      unfold round_constants. rewrite str_bytes_of.
      intros (x & Hx & _)%list_elem_of_bind. by apply hex_encode_plain in Hx.
  - rewrite <- (replaces_fill groth16_template); [|exact groth16_fillable|by rewrite Hg|].
    + rewrite Hg. unfold groth16_solidity_source. cbn [zip zip_with foldl fst snd]. reflexivity.
    + intros pat v Hpat Hv. rewrite Hgb in Hpat.
      assert (pat = str_bytes "__REQUEST_VK__" ∨ pat = str_bytes "__WITHDRAWAL_VK__") as Hp'.
      { apply elem_of_cons in Hpat as [->|Hpat%list_elem_of_singleton]; [by left|by right]. }
      apply elem_of_cons in Hv as [Ev|Ev%list_elem_of_singleton]; rewrite Ev.
      * exact (vk_functions_inert _ _ _ Hp' (or_introl eq_refl)).
      * exact (vk_functions_inert _ _ _ Hp' (or_intror eq_refl)).
Qed.
End properties.

(** ** Witness *)

#[local] Existing Instance Toy.
#[local] Existing Instance toy_system.

Definition toy_keys : KeyMaterial.
Proof.
  refine {|
    vk_alpha_g1 := λ _, (fof 1, fof 2); vk_beta_g2 := λ _, ((fof 3, fof 4), (fof 5, fof 6));
    vk_gamma_g2 := λ _, ((fof 7, fof 8), (fof 9, fof 10));
    vk_delta_g2 := λ _, ((fof 11, fof 12), (fof 13, fof 14));
    vk_gamma_abc_g1 := λ _, [(fof 15, fof 16); (fof 17, fof 18)];
    serialize_pk := λ _, Ok [x00]; serialize_vk := λ _, Ok [x00] |}.
  - by intros [] b [= <-].
  - by intros [] b [= <-].
  - intros [] [|c [|c' b]] rest; cbn; by intros [=].
  - intros [] [|c [|c' b]] rest; cbn; by intros [=].
Defined.
#[local] Existing Instance toy_keys.

Lemma generated_sources_filled_witness :
  length (concat (pc_mds _ poseidon_config)) = 9%nat ∧
  groth16_solidity_source tt tt =
    fill groth16_template [solidity_vk_functions "request" tt; solidity_vk_functions "withdrawal" tt].
Proof.
  assert (length (concat (pc_mds _ poseidon_config)) = 9%nat) as H by reflexivity.
  split; [exact H|]. exact (proj1 (proj2 (proj2 (generated_sources_filled tt tt H)))).
Defined.
