(* ===== verification/Setup.v ===== *)
(** * Trusted setup ([zkapi-proof]: compact.rs, [setup] and the key files)

    [setup] generates the two key pairs and writes seven files; the provers and
    verifiers load the four key files back.  A directory is a map from paths to
    bytes.  [fs::write] truncates and then writes, so when it fails, or the
    process dies in it, the file may hold any prefix.  The key generation of
    Groth16 and serde's printer are arguments. *)
From S2P Require Import Prelude Felt Types Group Ark CoreV2 Groth16 Circuit Compact Solidity.
Import groth16.

(** ** Files *)

(** How a system call ends; a write that does not succeed may have created the
    file with this many bytes of the content. *)
Inductive FsEvent : Type :=
| FsOk
| FsFail (e : string) (written : option nat)
| FsDie (written : option nat).

Record Fs : Type := { fs_files : gmap string (list byte); fs_io : list FsEvent }.

Abbreviation FS := (M Fs string).

(** A call with an effect when it runs, another when it stops half-way. *)
Definition fs_call {X} (result : gmap string (list byte) → result string X)
  (effect : gmap string (list byte) → gmap string (list byte))
  (partial : nat → gmap string (list byte) → gmap string (list byte)) : FS X := λ s,
  let stop o := match o with None => fs_files s | Some n => partial n (fs_files s) end in
  match fs_io s with
  | FsFail e o :: io => (Err e, {| fs_files := stop o; fs_io := io |})
  | FsDie o :: io => (Panic, {| fs_files := stop o; fs_io := io |})
  | io => (result (fs_files s), {| fs_files := effect (fs_files s); fs_io := tail io |})
  end.

Definition create_dir_all : FS () := fs_call (λ _, Ok tt) id (λ _, id).

Definition fs_write (path : string) (bytes : list byte) : FS () :=
  fs_call (λ _, Ok tt) <[path := bytes]> (λ n, <[path := take n bytes]>).

Definition fs_read (path : string) : FS (list byte) :=
  fs_call (λ files, ok_or (files !! path) "No such file or directory (os error 2)") id (λ _, id).

(** [Path::join] with a relative name. *)
Definition join (directory name : string) : string :=
  match last (str_bytes directory) with
  | None => name
  | Some c => if bool_decide (c = x2f) then directory +:+ name else directory +:+ "/" +:+ name
  end.

Definition REQUEST_PROVING_KEY_FILE : string := "request.pk".
Definition REQUEST_VERIFYING_KEY_FILE : string := "request.vk".
Definition WITHDRAWAL_PROVING_KEY_FILE : string := "withdrawal.pk".
Definition WITHDRAWAL_VERIFYING_KEY_FILE : string := "withdrawal.vk".
Definition SETUP_MANIFEST_FILE : string := "manifest.json".
Definition SOLIDITY_POSEIDON_FILE : string := "Bn254Poseidon.sol".
Definition SOLIDITY_VERIFIER_FILE : string := "Groth16ProofAdapter.sol".

(** [anyhow]'s [with_context]: the context is what the error displays. *)
Definition with_context {A} (context : string) (m : FS A) : FS A := catch_err (λ _, context) m.

Section setup.
Context {A : Ark} {KC : Keccak} {ST : Statics} {PS : ProofSystem} {KM : KeyMaterial}.

(** ** Key files *)

Definition write_compressed {K} (serialize : K → result string (list byte)) (path : string) (value : K)
  : FS () :=
  bytes ← with_context ("encode " +:+ path) (lift (serialize value));
  with_context ("write " +:+ path) (fs_write path (KEY_HEADER ++ bytes)).

Definition read_compressed {K} (deserialize : list byte → result string (K * list byte)) (path : string)
  : FS K :=
  bytes ← with_context ("read " +:+ path) (fs_read path);
  with_context ("decode " +:+ path) (lift (decode_compressed deserialize bytes)).

Definition RequestProver_load (directory : string) : FS ProvingKey :=
  let path := join directory REQUEST_PROVING_KEY_FILE in
  bytes ← with_context ("read " +:+ path) (fs_read path);
  lift (request_prover_from_bytes bytes).

Definition WithdrawalProver_load (directory : string) : FS ProvingKey :=
  let path := join directory WITHDRAWAL_PROVING_KEY_FILE in
  bytes ← with_context ("read " +:+ path) (fs_read path);
  lift (withdrawal_prover_from_bytes bytes).

Definition RequestVerifier_load (directory : string) : FS VerifyingKey :=
  read_compressed deserialize_vk (join directory REQUEST_VERIFYING_KEY_FILE).

Definition WithdrawalVerifier_load (directory : string) : FS VerifyingKey :=
  read_compressed deserialize_vk (join directory WITHDRAWAL_VERIFYING_KEY_FILE).

(** ** Manifest *)

Record VerifyingKeyManifest : Type := {
  vm_alpha_g1 : string * string;
  vm_beta_g2 : (string * string) * (string * string);
  vm_gamma_g2 : (string * string) * (string * string);
  vm_delta_g2 : (string * string) * (string * string);
  vm_ic : list (string * string);
}.

Record PoseidonManifest : Type := {
  pm_field_modulus : string;
  pm_full_rounds : nat;
  pm_partial_rounds : nat;
  pm_alpha : Z;
  pm_rate : nat;
  pm_capacity : nat;
  pm_round_constants : list string;
  pm_mds : list string;
  pm_test_hash3 : string;
  pm_test_hash5 : string;
}.

Record SetupManifest : Type := {
  sm_circuit_id : string;
  sm_protocol_version : Z;
  sm_proof_backend : string;
  sm_request : VerifyingKeyManifest;
  sm_withdrawal : VerifyingKeyManifest;
  sm_poseidon : PoseidonManifest;
}.

Definition g1_manifest (point : G1) : string * string := (field_hex point.1, field_hex point.2).

Definition g2_manifest (point : G2) : (string * string) * (string * string) :=
  ((field_hex point.1.1, field_hex point.1.2), (field_hex point.2.1, field_hex point.2.2)).

Definition verifying_key_manifest (key : VerifyingKey) : VerifyingKeyManifest := {|
  vm_alpha_g1 := g1_manifest (vk_alpha_g1 key);
  vm_beta_g2 := g2_manifest (vk_beta_g2 key);
  vm_gamma_g2 := g2_manifest (vk_gamma_g2 key);
  vm_delta_g2 := g2_manifest (vk_delta_g2 key);
  vm_ic := g1_manifest <$> vk_gamma_abc_g1 key |}.

Definition poseidon_manifest : PoseidonManifest :=
  let config := poseidon_config in {|
  pm_field_modulus := FIELD_MODULUS_HEX;
  pm_full_rounds := pc_full_rounds _ config;
  pm_partial_rounds := pc_partial_rounds _ config;
  pm_alpha := pc_alpha _ config;
  pm_rate := pc_rate _ config;
  pm_capacity := pc_capacity _ config;
  pm_round_constants := field_hex <$> concat (pc_ark _ config);
  pm_mds := field_hex <$> concat (pc_mds _ config);
  pm_test_hash3 := field_hex (poseidon_hash [fof 1; fof 2; fof 3]);
  pm_test_hash5 := field_hex (poseidon_hash [fof 1; fof 2; fof 3; fof 4; fof 5]) |}.

(** ** The setup *)

Definition empty_signature : StateSignature := {| groth16.r := into_affine gzero; groth16.s := fof 0 |}.

Definition request_template (state_key : Fr * Fr) : RequestCircuit := {|
  q_public := {|
    q_protocol_version := 2; q_chain_id := 1; q_contract_address := fof 1; q_active_root := fof 1;
    q_state_signing_key := state_key; q_request_time := 1; q_solvency_bound := 0;
    q_request_nullifier := fof 1; q_authorization_tag := fof 1;
    q_anonymous_commitment := into_affine generator |};
  q_witness := {|
    qw_secret := fof 1; qw_request_context := fof 1; qw_note_id := 0; qw_deposit_amount := 0;
    qw_expiry := 1; qw_merkle_siblings := vreplicate _ (fof 0); qw_current_balance := 0;
    qw_current_blinding := fof 0; qw_rerandomization := fof 0; qw_current_anchor := fof 1;
    qw_is_genesis := true; qw_state_signature := empty_signature |} |}.

Definition withdrawal_template (state_key : Fr * Fr) : WithdrawalCircuit := {|
  x_public := {|
    x_protocol_version := 2; x_chain_id := 1; x_contract_address := fof 1; x_active_root := fof 1;
    x_state_signing_key := state_key; x_clearance_signing_key := state_key; x_note_id := 0;
    x_final_balance := 0; x_destination := fof 1; x_withdrawal_nullifier := fof 1;
    x_has_clearance := false; x_withdrawal_tag := fof 1 |};
  x_witness := {|
    xw_secret := fof 1; xw_deposit_amount := 0; xw_expiry := 1;
    xw_merkle_siblings := vreplicate _ (fof 0); xw_final_blinding := fof 0;
    xw_current_anchor := fof 1; xw_is_genesis := true; xw_state_signature := empty_signature;
    xw_clearance_signature := empty_signature |} |}.

(** [Groth16::setup] on each circuit, with its randomness; [serde_json]'s
    printer. *)
Context (request_setup : RequestCircuit → N → result string (ProvingKey * VerifyingKey))
        (withdrawal_setup : WithdrawalCircuit → N → result string (ProvingKey * VerifyingKey))
        (to_vec_pretty : SetupManifest → result string (list byte)).

Definition setup_manifest (request_vk withdrawal_vk : VerifyingKey) : SetupManifest := {|
  sm_circuit_id := CIRCUIT_ID;
  sm_protocol_version := 2;
  sm_proof_backend := "groth16_bn254";
  sm_request := verifying_key_manifest request_vk;
  sm_withdrawal := verifying_key_manifest withdrawal_vk;
  sm_poseidon := poseidon_manifest |}.

Definition setup (directory : string) (request_rng withdrawal_rng : N) : FS () :=
  _ ← with_context ("create setup directory " +:+ directory) create_dir_all;
  let template_signer := from_seed ONE in
  state_key ← lift (point_from_wire (public_key template_signer));
  '(request_pk, request_vk) ← lift (map_err (λ e, "request setup failed: " +:+ e)
     (request_setup (request_template state_key) request_rng));
  _ ← write_compressed serialize_pk (join directory REQUEST_PROVING_KEY_FILE) request_pk;
  _ ← write_compressed serialize_vk (join directory REQUEST_VERIFYING_KEY_FILE) request_vk;
  '(withdrawal_pk, withdrawal_vk) ← lift (map_err (λ e, "withdrawal setup failed: " +:+ e)
     (withdrawal_setup (withdrawal_template state_key) withdrawal_rng));
  _ ← write_compressed serialize_pk (join directory WITHDRAWAL_PROVING_KEY_FILE) withdrawal_pk;
  _ ← write_compressed serialize_vk (join directory WITHDRAWAL_VERIFYING_KEY_FILE) withdrawal_vk;
  manifest ← with_context "encode setup manifest"
     (lift (to_vec_pretty (setup_manifest request_vk withdrawal_vk)));
  _ ← with_context "write setup manifest" (fs_write (join directory SETUP_MANIFEST_FILE) manifest);
  _ ← with_context "write Solidity Poseidon library"
     (fs_write (join directory SOLIDITY_POSEIDON_FILE) (str_bytes poseidon_solidity_source));
  with_context "write Solidity Groth16 verifier"
    (fs_write (join directory SOLIDITY_VERIFIER_FILE)
       (str_bytes (groth16_solidity_source request_vk withdrawal_vk))).
End setup.

(** ** Lemmas *)

Lemma join_prefix directory : ∃ p, ∀ name, join directory name = p +:+ name.
Proof.
  unfold join. destruct (last (str_bytes directory)) as [c|]; [|by exists EmptyString].
  case_bool_decide; [by exists directory|]. exists (directory +:+ "/"). intros name.
  apply (inj str_bytes). by rewrite !str_bytes_app, <- app_assoc.
Qed.

#[export] Instance join_inj directory : Inj (=) (=) (join directory).
Proof. destruct (join_prefix directory) as [p Hp]. intros a b. rewrite !Hp. apply (inj _). Qed.

(** Whatever happens, a write leaves the file alone or holding a prefix. *)
Lemma fs_write_cases path bytes s r s' : fs_write path bytes s = (r, s') →
  (r = Ok tt ∧ fs_files s' = <[path := bytes]> (fs_files s)) ∨
  (r ≠ Ok tt ∧ (fs_files s' = fs_files s ∨ ∃ n, fs_files s' = <[path := take n bytes]> (fs_files s))).
Proof.
  unfold fs_write, fs_call. intros H.
  destruct (fs_io s) as [|[|e [n|]|[n|]] io]; injection H as <- <-; cbn; eauto.
Qed.

Lemma fs_read_quiet path files bytes : files !! path = Some bytes →
  fs_read path {| fs_files := files; fs_io := [] |} = (Ok bytes, {| fs_files := files; fs_io := [] |}).
Proof. intros H. unfold fs_read, fs_call. cbn. by rewrite H. Qed.

Lemma fs_read_inv path s bytes s' : fs_read path s = (Ok bytes, s') → fs_files s !! path = Some bytes.
Proof.
  unfold fs_read, fs_call. intros H.
  destruct (fs_io s) as [|[|e o|o] io]; injection H as H _; try done; by apply ok_or_Ok in H.
Qed.

Section keys.
Context {K : Type} (serialize : K → result string (list byte))
        (deserialize : list byte → result string (K * list byte)).
Hypothesis deserialize_serialize : ∀ k b, serialize k = Ok b → deserialize b = Ok (k, []).
Hypothesis deserialize_stream : ∀ k b rest,
  deserialize b = Ok (k, []) → deserialize (b ++ rest) = Ok (k, rest).

Lemma decode_encoded k b : serialize k = Ok b → decode_compressed deserialize (KEY_HEADER ++ b) = Ok k.
Proof.
  intros Hk. unfold decode_compressed. rewrite take_app_length, drop_app_length, bool_decide_true by done.
  cbn [negb]. by rewrite (deserialize_serialize _ _ Hk), bool_decide_true.
Qed.

(** A key file cut short is rejected, or it is not cut at all. *)
Lemma decode_prefix k b n k' : serialize k = Ok b →
  decode_compressed deserialize (take n (KEY_HEADER ++ b)) = Ok k' → k' = k.
Proof.
  intros Hk%deserialize_serialize. unfold decode_compressed. case_bool_decide as Hh; [|done]. cbn [negb].
  assert (length KEY_HEADER ≤ n)%nat as Hn.
  { apply (f_equal length) in Hh. rewrite !length_take in Hh. lia. }
  rewrite take_app_ge, drop_app_length by done.
  destruct (deserialize (take _ b)) as [[k1 rest]|e|] eqn:E; [|done..]. case_bool_decide as Hr; [|done].
  cbn [negb]. intros [= ->]. subst rest.
  apply (deserialize_stream _ _ (drop (n - length KEY_HEADER) b)) in E. rewrite take_drop, Hk in E.
  by injection E as ->.
Qed.
End keys.

Section properties.
Context {A : Ark} {KC : Keccak} {ST : Statics} {PS : ProofSystem} {KM : KeyMaterial}.
Context (request_setup : RequestCircuit → N → result string (ProvingKey * VerifyingKey))
        (withdrawal_setup : WithdrawalCircuit → N → result string (ProvingKey * VerifyingKey))
        (to_vec_pretty : SetupManifest → result string (list byte)).

(** The key pairs of a setup run. *)
Definition request_keys (rng : N) (pk : ProvingKey) (vk : VerifyingKey) : Prop :=
  ∃ state_key, point_from_wire (public_key (from_seed ONE)) = Ok state_key ∧
    request_setup (request_template state_key) rng = Ok (pk, vk).
Definition withdrawal_keys (rng : N) (pk : ProvingKey) (vk : VerifyingKey) : Prop :=
  ∃ state_key, point_from_wire (public_key (from_seed ONE)) = Ok state_key ∧
    withdrawal_setup (withdrawal_template state_key) rng = Ok (pk, vk).

(** The file holds a prefix of the encoding of a key in [P], if anything. *)
Definition holds {K} (serialize : K → result string (list byte)) (P : K → Prop) (path : string)
  (files : gmap string (list byte)) : Prop :=
  ∀ content, files !! path = Some content →
    ∃ k b n, P k ∧ serialize k = Ok b ∧ content = take n (KEY_HEADER ++ b).

Definition key_files (directory : string) (rng1 rng2 : N) (files : gmap string (list byte)) : Prop :=
  holds serialize_pk (λ k, ∃ vk, request_keys rng1 k vk) (join directory REQUEST_PROVING_KEY_FILE) files ∧
  holds serialize_vk (λ k, ∃ pk, request_keys rng1 pk k) (join directory REQUEST_VERIFYING_KEY_FILE) files ∧
  holds serialize_pk (λ k, ∃ vk, withdrawal_keys rng2 k vk)
    (join directory WITHDRAWAL_PROVING_KEY_FILE) files ∧
  holds serialize_vk (λ k, ∃ pk, withdrawal_keys rng2 pk k)
    (join directory WITHDRAWAL_VERIFYING_KEY_FILE) files.

Lemma holds_other {K} serialize (P : K → Prop) path path' content files :
  path' ≠ path → holds serialize P path files → holds serialize P path (<[path' := content]> files).
Proof. intros Hne H c. rewrite lookup_insert_ne by done. apply H. Qed.

Lemma holds_write {K} serialize (P : K → Prop) path files k b n :
  P k → serialize k = Ok b → holds serialize P path (<[path := take n (KEY_HEADER ++ b)]> files).
Proof. intros HP Hk c. rewrite lookup_insert_eq. intros [= <-]. eauto 6. Qed.

(** A computation that preserves a property of the files, however it ends. *)
Definition preserves {X} (Inv : gmap string (list byte) → Prop) (m : FS X) : Prop :=
  ∀ s, Inv (fs_files s) → Inv (fs_files (m s).2).

Lemma preserves_bind {X Y} Inv (m : FS X) (f : X → FS Y) :
  preserves Inv m → (∀ x, preserves Inv (f x)) → preserves Inv (m ≫= f).
Proof.
  intros Hm Hf s Hs. specialize (Hm s Hs). unfold mbind, M_mbind.
  destruct (m s) as [[x|e|] s1]; cbn in *; [by apply Hf|done|done].
Qed.

Lemma preserves_lift_bind {X Y} Inv (r : result string X) (f : X → FS Y) :
  (∀ x, r = Ok x → preserves Inv (f x)) → preserves Inv (lift r ≫= f).
Proof. intros Hf s Hs. rewrite lift_bind. destruct r as [x|e|]; [by apply (Hf x)|done|done]. Qed.

Lemma preserves_context {X} Inv context (m : FS X) : preserves Inv m → preserves Inv (with_context context m).
Proof. intros Hm s Hs. specialize (Hm s Hs). unfold with_context, catch_err. by destruct (m s). Qed.

Lemma preserves_write (Inv : gmap string (list byte) → Prop) path bytes :
  (∀ n files, Inv files → Inv (<[path := take n bytes]> files)) → preserves Inv (fs_write path bytes).
Proof.
  intros Hw s Hs. destruct (fs_write path bytes s) as [r s'] eqn:E.
  destruct (fs_write_cases _ _ _ _ _ E) as [[_ H]|[_ [H|[n H]]]]; cbn; rewrite H; [|done|by apply Hw].
  rewrite <- (take_ge bytes (length bytes)) by done. by apply Hw.
Qed.

Lemma preserves_compressed {K} (Inv : gmap string (list byte) → Prop) (serialize : K → result string (list byte))
  path k : (∀ b n files, serialize k = Ok b → Inv files → Inv (<[path := take n (KEY_HEADER ++ b)]> files)) →
  preserves Inv (write_compressed serialize path k).
Proof.
  intros Hw. unfold write_compressed.
  assert (with_context ("encode " +:+ path) (lift (serialize k)) =
    lift (S := Fs) (map_err (λ _, "encode " +:+ path) (serialize k))) as -> by done.
  apply preserves_lift_bind. intros b Hb%map_err_Ok. apply preserves_context, preserves_write. eauto.
Qed.

Lemma setup_preserves directory rng1 rng2 :
  preserves (key_files directory rng1 rng2)
    (setup request_setup withdrawal_setup to_vec_pretty directory rng1 rng2).
Proof.
  assert (∀ a b, a ≠ b → join directory a ≠ join directory b) as Hne.
  { intros a b H E. by apply H, (inj (join directory)). }
  assert (∀ name bytes, bool_decide (name ∈ [REQUEST_PROVING_KEY_FILE; REQUEST_VERIFYING_KEY_FILE;
      WITHDRAWAL_PROVING_KEY_FILE; WITHDRAWAL_VERIFYING_KEY_FILE]) = false →
    preserves (key_files directory rng1 rng2) (fs_write (join directory name) bytes)) as Hother.
  { intros name bytes Hn%bool_decide_eq_false. apply preserves_write. intros n files (H1 & H2 & H3 & H4).
    rewrite !not_elem_of_cons in Hn. destruct Hn as (N1 & N2 & N3 & N4 & _).
    split; [|split; [|split]]; apply holds_other; try done; by apply Hne. }
  unfold setup. apply preserves_bind.
  { apply preserves_context. intros s Hs. unfold create_dir_all, fs_call.
    by destruct (fs_io s) as [|[|e [n|]|[n|]] io]. }
  intros _. apply preserves_lift_bind. intros state_key Hkey.
  apply preserves_lift_bind. intros [rpk rvk] Hr%map_err_Ok.
  assert (request_keys rng1 rpk rvk) as Hrk by by exists state_key.
  apply preserves_bind; [|intros _; apply preserves_bind; [|intros _]].
  1,2: apply preserves_compressed; intros b n files Hb (H1 & H2 & H3 & H4);
    split; [|split; [|split]]; (eapply holds_write; [|exact Hb]; eauto) ||
      (apply holds_other; [by apply Hne|done]).
  apply preserves_lift_bind. intros [wpk wvk] Hw%map_err_Ok.
  assert (withdrawal_keys rng2 wpk wvk) as Hwk by by exists state_key.
  apply preserves_bind; [|intros _; apply preserves_bind; [|intros _]].
  1,2: apply preserves_compressed; intros b n files Hb (H1 & H2 & H3 & H4);
    split; [|split; [|split]]; (eapply holds_write; [|exact Hb]; eauto) ||
      (apply holds_other; [by apply Hne|done]).
  apply preserves_bind; [intros s Hs; exact Hs|]. intros json.
  do 2 (apply preserves_bind; [apply preserves_context, Hother; by vm_compute|intros _]).
  apply preserves_context, Hother. by vm_compute.
Qed.

Lemma write_compressed_inv {K} (serialize : K → result string (list byte)) path k s s' :
  write_compressed serialize path k s = (Ok tt, s') →
  ∃ b, serialize k = Ok b ∧ fs_files s' = <[path := KEY_HEADER ++ b]> (fs_files s).
Proof.
  unfold write_compressed. intros H. apply M_bind_inv in H as (b & s1 & H1%catch_err_inv & H).
  apply lift_inv in H1 as [Hb ->]. apply catch_err_inv in H. exists b. split; [done|].
  by apply fs_write_cases in H as [[_ H]|[[] _]].
Qed.

Lemma write_inv context path bytes s s' :
  with_context context (fs_write path bytes) s = (Ok tt, s') →
  fs_files s' = <[path := bytes]> (fs_files s).
Proof. intros H%catch_err_inv. by apply fs_write_cases in H as [[_ H]|[[] _]]. Qed.

(** A finished setup. *)
Lemma setup_done directory rng1 rng2 s0 s1 :
  setup request_setup withdrawal_setup to_vec_pretty directory rng1 rng2 s0 = (Ok tt, s1) →
  ∃ rpk rvk wpk wvk b1 b2 b3 b4 json,
    request_keys rng1 rpk rvk ∧ withdrawal_keys rng2 wpk wvk ∧
    serialize_pk rpk = Ok b1 ∧ serialize_vk rvk = Ok b2 ∧
    serialize_pk wpk = Ok b3 ∧ serialize_vk wvk = Ok b4 ∧
    to_vec_pretty (setup_manifest rvk wvk) = Ok json ∧
    fs_files s1 =
      <[join directory SOLIDITY_VERIFIER_FILE := str_bytes (groth16_solidity_source rvk wvk)]>
      (<[join directory SOLIDITY_POSEIDON_FILE := str_bytes poseidon_solidity_source]>
      (<[join directory SETUP_MANIFEST_FILE := json]>
      (<[join directory WITHDRAWAL_VERIFYING_KEY_FILE := KEY_HEADER ++ b4]>
      (<[join directory WITHDRAWAL_PROVING_KEY_FILE := KEY_HEADER ++ b3]>
      (<[join directory REQUEST_VERIFYING_KEY_FILE := KEY_HEADER ++ b2]>
      (<[join directory REQUEST_PROVING_KEY_FILE := KEY_HEADER ++ b1]> (fs_files s0))))))).
Proof.
  unfold setup. intros H. apply M_bind_inv in H as ([] & sa & H0%catch_err_inv & H).
  assert (fs_files sa = fs_files s0) as Ea.
  { unfold create_dir_all, fs_call in H0. by destruct (fs_io s0) as [|[|e o|o] io]; simplify_eq. }
  run_inv H. rename x into state_key. run_inv H. destruct x as [rpk rvk]. apply map_err_Ok in R0.
  apply M_bind_inv in H as ([] & sb & H1 & H). apply write_compressed_inv in H1 as (b1 & B1 & E1).
  apply M_bind_inv in H as ([] & sc & H1 & H). apply write_compressed_inv in H1 as (b2 & B2 & E2).
  run_inv H. destruct x as [wpk wvk]. apply map_err_Ok in R1.
  apply M_bind_inv in H as ([] & sd & H1 & H). apply write_compressed_inv in H1 as (b3 & B3 & E3).
  apply M_bind_inv in H as ([] & se & H1 & H). apply write_compressed_inv in H1 as (b4 & B4 & E4).
  apply M_bind_inv in H as (json & sf & H1%catch_err_inv & H). apply lift_inv in H1 as [Hj ->].
  apply M_bind_inv in H as ([] & sg & E5%write_inv & H).
  apply M_bind_inv in H as ([] & sh & E6%write_inv & E7%write_inv).
  exists rpk, rvk, wpk, wvk, b1, b2, b3, b4, json.
  split; [by exists state_key|]. split; [by exists state_key|].
  repeat (split; [assumption|]). by rewrite E7, E6, E5, E4, E3, E2, E1, Ea.
Qed.

(** Loading, as the four loaders do. *)
Definition load_key {K} (deserialize : list byte → result string (K * list byte)) (c1 c2 path : string)
  : FS K :=
  bytes ← with_context c1 (fs_read path);
  lift (map_err (λ _, c2) (decode_compressed deserialize bytes)).

Section load.
Context {K : Type} (serialize : K → result string (list byte))
        (deserialize : list byte → result string (K * list byte)).
Hypothesis deserialize_serialize : ∀ k b, serialize k = Ok b → deserialize b = Ok (k, []).
Hypothesis deserialize_stream : ∀ k b rest,
  deserialize b = Ok (k, []) → deserialize (b ++ rest) = Ok (k, rest).

Lemma load_key_holds (P : K → Prop) c1 c2 path files io k s : holds serialize P path files →
  load_key deserialize c1 c2 path {| fs_files := files; fs_io := io |} = (Ok k, s) → P k.
Proof.
  intros Hh H. apply M_bind_inv in H as (bytes & s1 & H1%catch_err_inv%fs_read_inv & H).
  apply lift_inv in H as [H%map_err_Ok _]. destruct (Hh _ H1) as (k0 & b & n & HP & Hb & ->).
  by rewrite (decode_prefix serialize deserialize deserialize_serialize deserialize_stream _ _ _ _ Hb H).
Qed.

Lemma load_key_quiet c1 c2 path files k b : serialize k = Ok b → files !! path = Some (KEY_HEADER ++ b) →
  load_key deserialize c1 c2 path {| fs_files := files; fs_io := [] |}
    = (Ok k, {| fs_files := files; fs_io := [] |}).
Proof.
  intros Hb Hf. unfold load_key, with_context, catch_err, mbind, M_mbind.
  rewrite (fs_read_quiet _ _ _ Hf). cbn -[decode_compressed KEY_HEADER]. unfold lift.
  by rewrite (decode_encoded serialize deserialize deserialize_serialize _ _ Hb).
Qed.
End load.

(** Look one of the written files up. *)
#[local] Ltac pick := repeat first
  [ rewrite lookup_insert_eq; reflexivity
  | rewrite lookup_insert_ne by (intros E; apply (inj (join _)) in E; discriminate E) ].

(** C9. Key files: however a setup in a directory without key files ends - done,
    failed or killed in any system call, with any file cut short - each loader
    later returns an error or exactly the key this setup generated for its
    circuit; and a setup that finished leaves all four keys loadable, with the
    manifest of the two verifying keys and the contract generated from them. *)
Theorem setup_keys directory rng1 rng2 s0 res s1 :
  fs_files s0 !! join directory REQUEST_PROVING_KEY_FILE = None →
  fs_files s0 !! join directory REQUEST_VERIFYING_KEY_FILE = None →
  fs_files s0 !! join directory WITHDRAWAL_PROVING_KEY_FILE = None →
  fs_files s0 !! join directory WITHDRAWAL_VERIFYING_KEY_FILE = None →
  setup request_setup withdrawal_setup to_vec_pretty directory rng1 rng2 s0 = (res, s1) →
  (∀ io, let later := {| fs_files := fs_files s1; fs_io := io |} in
    (∀ k s, RequestProver_load directory later = (Ok k, s) → ∃ vk, request_keys rng1 k vk) ∧
    (∀ k s, RequestVerifier_load directory later = (Ok k, s) → ∃ pk, request_keys rng1 pk k) ∧
    (∀ k s, WithdrawalProver_load directory later = (Ok k, s) → ∃ vk, withdrawal_keys rng2 k vk) ∧
    (∀ k s, WithdrawalVerifier_load directory later = (Ok k, s) → ∃ pk, withdrawal_keys rng2 pk k)) ∧
  (res = Ok tt → let later := {| fs_files := fs_files s1; fs_io := [] |} in
    ∃ rpk rvk wpk wvk json, request_keys rng1 rpk rvk ∧ withdrawal_keys rng2 wpk wvk ∧
      RequestProver_load directory later = (Ok rpk, later) ∧
      RequestVerifier_load directory later = (Ok rvk, later) ∧
      WithdrawalProver_load directory later = (Ok wpk, later) ∧
      WithdrawalVerifier_load directory later = (Ok wvk, later) ∧
      to_vec_pretty (setup_manifest rvk wvk) = Ok json ∧
      fs_files s1 !! join directory SETUP_MANIFEST_FILE = Some json ∧
      fs_files s1 !! join directory SOLIDITY_VERIFIER_FILE =
        Some (str_bytes (groth16_solidity_source rvk wvk))).
Proof.
  intros N1 N2 N3 N4 H. split.
  - pose proof (setup_preserves directory rng1 rng2 s0) as Hk. rewrite H in Hk.
    destruct Hk as (K1 & K2 & K3 & K4).
    { split; [|split; [|split]]; intros c Hc; congruence. }
    cbn [snd] in K1, K2, K3, K4. intros io later. split; [|split; [|split]]; intros k s.
    + exact (load_key_holds _ _ deserialize_serialize_pk deserialize_pk_stream _ _ _ _ _ io k s K1).
    + exact (load_key_holds _ _ deserialize_serialize_vk deserialize_vk_stream _ _ _ _ _ io k s K2).
    + exact (load_key_holds _ _ deserialize_serialize_pk deserialize_pk_stream _ _ _ _ _ io k s K3).
    + exact (load_key_holds _ _ deserialize_serialize_vk deserialize_vk_stream _ _ _ _ _ io k s K4).
  - intros -> later. destruct (setup_done _ _ _ _ _ H) as (rpk & rvk & wpk & wvk & b1 & b2 & b3 & b4 &
      json & R & W & B1 & B2 & B3 & B4 & J & Hf).
    exists rpk, rvk, wpk, wvk, json. split; [exact R|]. split; [exact W|].
    assert (∀ name content, fs_files s1 !! join directory name = Some content →
      fs_files later !! join directory name = Some content) as Hlater by done.
    split; [|split; [|split; [|split; [|split; [exact J|split]]]]].
    + apply (load_key_quiet _ _ deserialize_serialize_pk _ _ _ _ _ _ B1), Hlater.
      rewrite Hf. pick.
    + apply (load_key_quiet _ _ deserialize_serialize_vk _ _ _ _ _ _ B2), Hlater.
      rewrite Hf. pick.
    + apply (load_key_quiet _ _ deserialize_serialize_pk _ _ _ _ _ _ B3), Hlater.
      rewrite Hf. pick.
    + apply (load_key_quiet _ _ deserialize_serialize_vk _ _ _ _ _ _ B4), Hlater.
      rewrite Hf. pick.
    + rewrite Hf. pick.
    + rewrite Hf. pick.
Qed.
End properties.

(** ** Witness *)

#[local] Existing Instance Toy.
#[local] Existing Instance toy_keccak.
#[local] Existing Instance toy_statics.
#[local] Existing Instance toy_system.
#[local] Existing Instance toy_keys.

Lemma toy_setup : ∃ s, setup (λ _ _, Ok (tt, tt)) (λ _ _, Ok (tt, tt)) (λ _, Ok [x7b; x7d]) "keys" 1 2
  {| fs_files := ∅; fs_io := [] |} = (Ok tt, s).
Proof.
  destruct (point_from_wire (public_key (from_seed ONE))) as [state_key|e|] eqn:E.
  - unfold setup, mbind, M_mbind, with_context, catch_err, lift, create_dir_all, fs_call.
    cbn -[point_from_wire public_key from_seed poseidon_solidity_source groth16_solidity_source
          write_compressed fs_write setup_manifest]. rewrite E. eexists. reflexivity.
  - exfalso. revert E. vm_compute. discriminate.
  - exfalso. revert E. vm_compute. discriminate.
Qed.

Lemma setup_keys_witness : ∃ s,
  setup (λ _ _, Ok (tt, tt)) (λ _ _, Ok (tt, tt)) (λ _, Ok [x7b; x7d]) "keys" 1 2
    {| fs_files := ∅; fs_io := [] |} = (Ok tt, s) ∧
  fs_files s !! "keys/manifest.json" = Some [x7b; x7d].
Proof.
  destruct toy_setup as [s Hs]. exists s. split; [exact Hs|].
  destruct (setup_keys _ _ _ "keys" 1 2 _ _ s (lookup_empty _) (lookup_empty _) (lookup_empty _)
    (lookup_empty _) Hs) as [_ H].
  destruct (H eq_refl) as (rpk & rvk & wpk & wvk & json & _ & _ & _ & _ & _ & _ & Hj & Hm & _).
  injection Hj as <-. exact Hm.
Defined.
