(* ===== verification/Client.v ===== *)
(** * Client persistence ([zkapi-client]: config.rs, error.rs, journal.rs,
    note_state.rs)

    The wallet's durable state is two files: the note state and the write-ahead
    journal.  The file system is modelled with a schedule of outcomes: every
    system call succeeds, fails with an I/O error, or the process dies there.
    JSON printing and parsing is the identity except for field elements, which
    go through [to_hex] and the checked [from_hex]. *)
From S2P Require Import Prelude Felt Types.

(** ** error.rs and config.rs *)

Inductive ClientError : Type :=
| NoActiveNote
| NoteAlreadyExists
| InsufficientBalance (needed available : Z)
| StaleRoot
| ServerError (e : string)
| InvalidResponse (e : string)
| PendingRequest
| Io (e : string)
| Serialization (e : string)
| ProofGeneration (e : string)
| VerificationFailed (e : string).

Record ClientConfig : Type := {
  cfg_protocol_version : Z;
  cfg_chain_id : Z;
  cfg_contract_address : Felt252;
  cfg_request_charge_cap : Z;
  cfg_policy_charge_cap : Z;
  cfg_policy_enabled : bool;
  cfg_server_url : string;
  cfg_state_dir : string;
  cfg_trusted_epoch_roots : list EpochRoots;
  cfg_setup_dir : string;
  cfg_state_signing_key : CurvePointWire;
  cfg_clearance_signing_key : CurvePointWire;
}.

(** ** note_state.rs *)

Record NoteState : Type := {
  ns_protocol_version : Z;
  ns_chain_id : Z;
  ns_contract_address : Felt252;
  ns_note_id : Z;
  ns_secret_s : Felt252;
  ns_deposit_amount : Z;
  ns_expiry_ts : Z;
  ns_current_balance : Z;
  ns_balance_blinding : string;
  ns_current_commitment_x : Felt252;
  ns_current_commitment_y : Felt252;
  ns_current_anchor : Felt252;
  ns_is_genesis : bool;
  ns_state_signature : option SchnorrSignature;
}.
#[export] Instance NoteState_eq_dec : EqDecision NoteState.
Proof. solve_decision. Defined.

Definition new_from_deposit (protocol_version chain_id : Z) (contract_address : Felt252)
  (note_id : Z) (secret_s : Felt252) (deposit_amount expiry_ts : Z) (balance_blinding : string)
  (commitment_x commitment_y : Felt252) : NoteState := {|
  ns_protocol_version := protocol_version;
  ns_chain_id := chain_id;
  ns_contract_address := contract_address;
  ns_note_id := note_id;
  ns_secret_s := secret_s;
  ns_deposit_amount := deposit_amount;
  ns_expiry_ts := expiry_ts;
  ns_current_balance := deposit_amount;
  ns_balance_blinding := balance_blinding;
  ns_current_commitment_x := commitment_x;
  ns_current_commitment_y := commitment_y;
  ns_current_anchor := ONE;
  ns_is_genesis := true;
  ns_state_signature := None;
|}.

Definition solvency_bound (policy_enabled : bool) (charge_cap policy_cap : Z) : Z :=
  if policy_enabled then policy_cap else charge_cap.

(** ** journal.rs *)

Record PendingRequestJournal : Type := {
  pj_exists : bool;
  pj_client_request_id : string;
  pj_nullifier : Felt252;
  pj_payload_hash : Felt252;
  pj_user_rerandomization : Felt252;
  pj_created_at_ms : Z;
  pj_prepared_request : option ApiRequestV2;
}.

(** ** Reading JSON back *)

Definition reload_felt (f : Felt252) : result ClientError Felt252 :=
  map_err Serialization (from_hex (to_hex f)).

Definition reload_option {T} (f : T → result ClientError T) (o : option T) :
  result ClientError (option T) :=
  match o with None => Ok None | Some x => y ← f x; Ok (Some y) end.

Definition reload_signature (s : SchnorrSignature) : result ClientError SchnorrSignature :=
  x ← reload_felt (sig_r_x s); y ← reload_felt (sig_r_y s); z ← reload_felt (sig_s s);
  Ok {| sig_r_x := x; sig_r_y := y; sig_s := z |}.

Definition reload_state (s : NoteState) : result ClientError NoteState :=
  contract_address ← reload_felt (ns_contract_address s);
  secret_s ← reload_felt (ns_secret_s s);
  commitment_x ← reload_felt (ns_current_commitment_x s);
  commitment_y ← reload_felt (ns_current_commitment_y s);
  anchor ← reload_felt (ns_current_anchor s);
  sig ← reload_option reload_signature (ns_state_signature s);
  Ok {| ns_protocol_version := ns_protocol_version s;
        ns_chain_id := ns_chain_id s;
        ns_contract_address := contract_address;
        ns_note_id := ns_note_id s;
        ns_secret_s := secret_s;
        ns_deposit_amount := ns_deposit_amount s;
        ns_expiry_ts := ns_expiry_ts s;
        ns_current_balance := ns_current_balance s;
        ns_balance_blinding := ns_balance_blinding s;
        ns_current_commitment_x := commitment_x;
        ns_current_commitment_y := commitment_y;
        ns_current_anchor := anchor;
        ns_is_genesis := ns_is_genesis s;
        ns_state_signature := sig |}.

Definition reload_public (p : RequestPublicInputsV2) : result ClientError RequestPublicInputsV2 :=
  contract_address ← reload_felt (rp2_contract_address p);
  root ← reload_felt (rp2_active_root p);
  kx ← reload_felt (rp2_state_signing_key_x p);
  ky ← reload_felt (rp2_state_signing_key_y p);
  nul ← reload_felt (rp2_request_nullifier p);
  tag ← reload_felt (rp2_authorization_tag p);
  ax ← reload_felt (rp2_anonymous_commitment_x p);
  ay ← reload_felt (rp2_anonymous_commitment_y p);
  Ok {| rp2_protocol_version := rp2_protocol_version p; rp2_chain_id := rp2_chain_id p;
        rp2_contract_address := contract_address; rp2_active_root := root;
        rp2_state_signing_key_x := kx; rp2_state_signing_key_y := ky;
        rp2_request_time := rp2_request_time p; rp2_solvency_bound := rp2_solvency_bound p;
        rp2_request_nullifier := nul; rp2_authorization_tag := tag;
        rp2_anonymous_commitment_x := ax; rp2_anonymous_commitment_y := ay |}.

Definition reload_request (r : ApiRequestV2) : result ClientError ApiRequestV2 :=
  ph ← reload_felt (ar2_payload_hash r);
  p ← reload_public (ar2_public_inputs r);
  Ok {| ar2_client_request_id := ar2_client_request_id r; ar2_payload := ar2_payload r;
        ar2_payload_hash := ph; ar2_public_inputs := p; ar2_proof := ar2_proof r |}.

Definition reload_journal (j : PendingRequestJournal) : result ClientError PendingRequestJournal :=
  nul ← reload_felt (pj_nullifier j);
  ph ← reload_felt (pj_payload_hash j);
  rho ← reload_felt (pj_user_rerandomization j);
  req ← reload_option reload_request (pj_prepared_request j);
  Ok {| pj_exists := pj_exists j; pj_client_request_id := pj_client_request_id j;
        pj_nullifier := nul; pj_payload_hash := ph; pj_user_rerandomization := rho;
        pj_created_at_ms := pj_created_at_ms j; pj_prepared_request := req |}.

(** ** Files *)

Inductive IoEvent : Type := IoOk | IoFail (e : string) | IoCrash.

(** [NS] is the type of the note state: the two versions of the wallet persist
    different ones in the same way. *)
Record DiskOf (NS : Type) : Type := {
  d_state : option NS;                      (** note_state.json *)
  d_journal : option PendingRequestJournal; (** pending_journal.json *)
  d_archive : gmap string NS;               (** archive/ *)
}.
Arguments d_state {NS} d.
Arguments d_journal {NS} d.
Arguments d_archive {NS} d.

(** The wallet process: its files, its in-memory note state, and the outcomes
    of the system calls to come.  A process that dies ends in [Panic]. *)
Record WorldOf (NS : Type) : Type := {
  w_disk : DiskOf NS;
  w_mem : option NS;
  w_io : list IoEvent;
}.
Arguments w_disk {NS} w.
Arguments w_mem {NS} w.
Arguments w_io {NS} w.

Abbreviation Disk := (DiskOf NoteState).
Abbreviation World := (WorldOf NoteState).
Abbreviation IO := (M World ClientError).

Section files.
Context {NS : Type}.
Abbreviation FileIO := (M (WorldOf NS) ClientError).

Definition set_mem (m : option NS) : FileIO () := λ w,
  (Ok tt, {| w_disk := w_disk w; w_mem := m; w_io := w_io w |}).

(** One system call with effect [f] on the files. *)
Definition syscall (f : DiskOf NS → DiskOf NS) : FileIO () := λ w,
  let w' io d := {| w_disk := d; w_mem := w_mem w; w_io := io |} in
  match w_io w with
  | [] => (Ok tt, w' [] (f (w_disk w)))
  | IoOk :: io => (Ok tt, w' io (f (w_disk w)))
  | IoFail e :: io => (Err (Io e), w' io (w_disk w))
  | IoCrash :: io => (Panic, w' io (w_disk w))
  end.

Definition put_state (s : option NS) (d : DiskOf NS) : DiskOf NS :=
  {| d_state := s; d_journal := d_journal d; d_archive := d_archive d |}.
Definition put_journal (j : option PendingRequestJournal) (d : DiskOf NS) : DiskOf NS :=
  {| d_state := d_state d; d_journal := j; d_archive := d_archive d |}.
Definition put_archive (name : string) (s : NS) (d : DiskOf NS) : DiskOf NS :=
  {| d_state := d_state d; d_journal := d_journal d; d_archive := <[name := s]> (d_archive d) |}.

(** [create_dir_all], write a temporary sibling, [rename] over the target: the
    target changes at the rename only. *)
Definition atomic_write (install : DiskOf NS → DiskOf NS) : FileIO () :=
  _ ← syscall id; _ ← syscall id; syscall install.

Definition save_file (s : NS) : FileIO () := atomic_write (put_state (Some s)).

Definition load_file (reload : NS → result ClientError NS) : FileIO NS :=
  w ← get;
  _ ← syscall id;
  match d_state (w_disk w) with
  | Some s => lift (reload s)
  | None => fail (Io "No such file or directory")
  end.

Definition archive_name (note_id : Z) : string := "note_" +:+ pretty note_id +:+ "_closed.json".

(** The active file is removed only if it exists. *)
Definition archive_file (note_id : NS → Z) (s : NS) : FileIO () :=
  _ ← syscall id;
  _ ← atomic_write (put_archive (archive_name (note_id s)) s);
  w ← get;
  match d_state (w_disk w) with
  | Some _ => syscall (put_state None)
  | None => mret tt
  end.

Definition Journal_write (j : PendingRequestJournal) : FileIO () := atomic_write (put_journal (Some j)).

Definition Journal_read : FileIO (option PendingRequestJournal) :=
  w ← get;
  match d_journal (w_disk w) with
  | None => mret None
  | Some j =>
      _ ← syscall id;
      j ← lift (reload_journal j);
      mret (if pj_exists j then Some j else None)
  end.

Definition Journal_clear : FileIO () :=
  w ← get;
  match d_journal (w_disk w) with
  | Some _ => syscall (put_journal None)
  | None => mret tt
  end.
End files.

Definition NoteState_save : NoteState → IO () := save_file.
Definition NoteState_load : IO NoteState := load_file reload_state.
Definition NoteState_archive : NoteState → IO () := archive_file ns_note_id.

(** ** HTTP answers

    What a call to the server produced; the parsed body has type [R]. *)
Inductive PostOutcome (R : Type) : Type :=
| PostSendError (e : string)
| PostBodyError (e : string)
| PostFailure (status : string) (body : string) (parsed : option ErrorResponse)
| PostSuccess (parsed : result string R).
Arguments PostSendError {R} e.
Arguments PostBodyError {R} e.
Arguments PostFailure {R} status body parsed.
Arguments PostSuccess {R} parsed.

Inductive ClearanceOutcome (R : Type) : Type :=
| ClearSendError (e : string)
| ClearBodyError (e : string)
| ClearFailure (status : string) (body : string)
| ClearSuccess (parsed : result string R).
Arguments ClearSendError {R} e.
Arguments ClearBodyError {R} e.
Arguments ClearFailure {R} status body.
Arguments ClearSuccess {R} parsed.

(** ** Lemmas *)

Lemma reload_felt_canonical f : canonical f → reload_felt f = Ok f.
Proof.
  intros Hc. unfold reload_felt. rewrite from_hex_to_hex, canonical_try_from_bytes_be by done. done.
Qed.

Lemma reload_felt_id f g : reload_felt f = Ok g → g = f ∧ canonical f.
Proof.
  unfold reload_felt. rewrite from_hex_to_hex. intros H%map_err_Ok.
  apply try_from_bytes_be_canonical in H as [Hc Hb].
  assert (g = f) as -> by (destruct f, g; cbn in *; congruence). done.
Qed.

(** Parsing never changes a value: a file reads back as written or not at all. *)
Ltac reload_inv :=
  res_inv; repeat match goal with
  | H : reload_felt _ = Ok _ |- _ => apply reload_felt_id in H as [-> ?]
  end.

Lemma reload_signature_id s t : reload_signature s = Ok t → t = s.
Proof. unfold reload_signature. intros H. reload_inv. by destruct s. Qed.

Lemma reload_state_id s t : reload_state s = Ok t → t = s.
Proof.
  unfold reload_state. intros H. reload_inv. subst.
  assert (x4 = ns_state_signature s) as ->; [|by destruct s].
  destruct (ns_state_signature s); cbn in *; res_inv; [|congruence].
  apply reload_signature_id in H. by subst.
Qed.

Lemma reload_public_id p q : reload_public p = Ok q → q = p.
Proof. unfold reload_public. intros H. reload_inv. by destruct p. Qed.

Lemma reload_request_id r q : reload_request r = Ok q → q = r.
Proof.
  unfold reload_request. intros H. reload_inv.
  match goal with E : reload_public _ = Ok _ |- _ => apply reload_public_id in E as -> end.
  by destruct r.
Qed.

Lemma reload_journal_id j k : reload_journal j = Ok k → k = j.
Proof.
  unfold reload_journal. intros H. reload_inv. subst.
  assert (x2 = pj_prepared_request j) as ->; [|by destruct j].
  destruct (pj_prepared_request j); cbn in *; res_inv; [|congruence].
  apply reload_request_id in H. by subst.
Qed.

Section file_lemmas.
Context {NS : Type}.

(** One system call either took effect or changed nothing. *)
Lemma syscall_cases f (w : WorldOf NS) :
  ∃ io r d, syscall f w = (r, {| w_disk := d; w_mem := w_mem w; w_io := io |}) ∧
    ((r = Ok tt ∧ d = f (w_disk w)) ∨ ((∀ u, r ≠ Ok u) ∧ d = w_disk w)).
Proof.
  unfold syscall. destruct (w_io w) as [|[| |] io]; do 3 eexists; (split; [reflexivity|]);
    first [left; split; reflexivity|right; split; [intros ? ?; discriminate|reflexivity]].
Qed.

(** A failed atomic write leaves the files as they were; a completed one
    installed its effect. *)
Lemma atomic_write_cases f (w : WorldOf NS) :
  ∃ io r d, atomic_write f w = (r, {| w_disk := d; w_mem := w_mem w; w_io := io |}) ∧
    ((r = Ok tt ∧ d = f (w_disk w)) ∨ ((∀ u, r ≠ Ok u) ∧ d = w_disk w)).
Proof.
  unfold atomic_write, mbind, M_mbind, syscall. destruct w as [d m io]. cbn [w_disk w_mem w_io].
  destruct io as [|[| |] [|[| |] [|[| |] io]]]; cbn; do 3 eexists; (split; [reflexivity|]);
    first [left; split; reflexivity|right; split; [intros ? ?; discriminate|reflexivity]].
Qed.

Lemma journal_read_cases (w : WorldOf NS) :
  ∃ io r, Journal_read w = (r, {| w_disk := w_disk w; w_mem := w_mem w; w_io := io |}) ∧
    ∀ j, r = Ok (Some j) → d_journal (w_disk w) = Some j.
Proof.
  destruct w as [d m io]. unfold Journal_read, get, mbind, M_mbind. cbn.
  destruct (d_journal d) as [j|] eqn:Ej; [|by do 2 eexists].
  destruct (syscall_cases id {| w_disk := d; w_mem := m; w_io := io |})
    as (io1 & r1 & d1 & -> & [[-> ->]|[Hr ->]]).
  2:{ destruct r1 as [u|e|]; [by destruct (Hr u)|..]; by do 2 eexists. }
  cbn. destruct (reload_journal j) as [k|e|] eqn:Er; [|by do 2 eexists..].
  apply reload_journal_id in Er as ->. do 2 eexists. split; [reflexivity|].
  intros j'. by destruct (pj_exists j); [intros [= <-]|].
Qed.

(** A journal the wallet wrote: its field elements print and parse back. *)
Definition journal_readable (j : PendingRequestJournal) : Prop :=
  pj_exists j = true ∧ reload_journal j = Ok j.

Lemma journal_read_ok (w : WorldOf NS) j :
  d_journal (w_disk w) = Some j → journal_readable j → w_io w = [] →
  Journal_read w = (Ok (Some j), w).
Proof.
  intros Hj [He Hr] Hio. destruct w as [d m io]. cbn in *. subst io.
  unfold Journal_read, get, mbind, M_mbind. cbn. rewrite Hj. cbn. rewrite Hr. cbn. by rewrite He.
Qed.
End file_lemmas.
