(* ===== verification/ClientFiles.v ===== *)
(** * What the wallets guarantee of their files ([zkapi-client])

    Both versions of the wallet persist a note state and a journal through the
    operations of [Client].  This file has what their safety proofs share: a
    computation [keeps] the files when the state file is valid however it ends,
    and, unless the process dies, the memory image still matches the file; and
    the machine of a wallet process that starts, runs operations, and is killed
    at any system call. *)
From S2P Require Import Prelude Felt Types Client.

(** [Wallet::new] and [has_pending_request], which differ between the versions in
    the type of the state only. *)
Section open.
Context {NS : Type}.

Definition open_wallet (reload : NS → result ClientError NS) : M (WorldOf NS) ClientError () :=
  _ ← syscall id;
  _ ← syscall id;
  w ← get;
  match d_state (w_disk w) with
  | Some _ => s ← load_file reload; set_mem (Some s)
  | None => set_mem None
  end.

(** [PendingRequestJournal::read(..).ok().flatten().is_some()]: an error reads
    as no pending request.  A process death is not caught. *)
Definition journal_pending : M (WorldOf NS) ClientError bool := λ w,
  match Journal_read w with
  | (Ok j, w') => (Ok (bool_decide (is_Some (pj_exists <$> j))), w')
  | (Err _, w') => (Ok false, w')
  | (Panic, w') => (Panic, w')
  end.
End open.

(** ** Computations that keep the files *)

Section keeps.
Context {NS : Type} (ok : NS → Prop) (in_step : relation (option NS)) `{!Reflexive in_step}.
Abbreviation FileIO := (M (WorldOf NS) ClientError).
Implicit Types (w : WorldOf NS) (d : DiskOf NS).

Definition files_ok d : Prop := ∀ s, d_state d = Some s → ok s.

(** [in_step]: what the memory image has to do with the file. *)
Definition files_inv w : Prop := in_step (w_mem w) (d_state (w_disk w)) ∧ files_ok (w_disk w).

(** [m] keeps the files valid whatever happens, and memory in step with them
    unless the process dies. *)
Definition keeps_at {X} (m : FileIO X) w : Prop :=
  files_inv w → files_ok (w_disk (m w).2) ∧ ((m w).1 ≠ Panic → files_inv (m w).2).
Definition keeps {X} (m : FileIO X) : Prop := ∀ w, keeps_at m w.

Lemma keeps_at_bind {X Y} (m : FileIO X) (f : X → FileIO Y) w :
  keeps_at m w → (∀ x, keeps (f x)) → keeps_at (m ≫= f) w.
Proof.
  intros Hm Hf Hw. destruct (Hm Hw) as [H1 H2]. unfold mbind, M_mbind.
  destruct (m w) as [[x|e|] w']; cbn in *.
  - apply Hf, H2. done.
  - split; [done|]. intros _. by apply H2.
  - split; done.
Qed.

Lemma keeps_bind {X Y} (m : FileIO X) (f : X → FileIO Y) : keeps m → (∀ x, keeps (f x)) → keeps (m ≫= f).
Proof. intros Hm Hf w. by apply keeps_at_bind. Qed.

Lemma keeps_at_lift {X Y} (r : result ClientError X) (f : X → FileIO Y) w :
  (∀ x, r = Ok x → keeps_at (f x) w) → keeps_at (lift r ≫= f) w.
Proof.
  intros Hf Hw. unfold mbind, M_mbind, lift. destruct r as [x|e|]; cbn.
  - by apply Hf.
  - split; [apply Hw|done].
  - split; [apply Hw|done].
Qed.

Lemma keeps_at_get {Y} (f : WorldOf NS → FileIO Y) w : keeps_at (f w) w → keeps_at (get ≫= f) w.
Proof. done. Qed.

Lemma keeps_ret {X} (x : X) : keeps (mret x).
Proof. intros w Hw. split; [apply Hw|done]. Qed.

Lemma keeps_fail {X} e : keeps (fail e : FileIO X).
Proof. intros w Hw. split; [apply Hw|done]. Qed.

Lemma keeps_lift {X} (r : result ClientError X) : keeps (lift r).
Proof. intros w Hw. split; [apply Hw|done]. Qed.

(** System calls that do not touch the state file. *)
Lemma keeps_syscall f : (∀ d, d_state (f d) = d_state d) → keeps (syscall f).
Proof.
  intros Hf w [Hm Hd].
  assert (files_ok (f (w_disk w))) as Hd' by (intros s; rewrite Hf; apply Hd).
  unfold syscall. destruct (w_io w) as [|[| |] io]; cbn; split; try done;
    intros _; split; cbn; rewrite ?Hf; done.
Qed.

Lemma keeps_atomic_write f : (∀ d, d_state (f d) = d_state d) → keeps (atomic_write f).
Proof. intros Hf. unfold atomic_write. repeat (apply keeps_bind; [by apply keeps_syscall|intros _]). by apply keeps_syscall. Qed.

Lemma keeps_journal_write j : keeps (Journal_write j).
Proof. by apply keeps_atomic_write. Qed.

(** Writing the journal leaves the memory and the state file. *)
Lemma keeps_at_journal_write {Y} j (f : () → FileIO Y) w :
  (∀ d io, d_state d = d_state (w_disk w) →
     keeps_at (f tt) {| w_disk := d; w_mem := w_mem w; w_io := io |}) →
  keeps_at (Journal_write j ≫= f) w.
Proof.
  intros Hf [Hm Hd]. unfold Journal_write, mbind, M_mbind.
  destruct (atomic_write_cases (put_journal (Some j)) w) as (io & r & d & -> & [[-> ->]|[Hr ->]]).
  - cbn. apply Hf; [done|]. by split.
  - destruct r as [u|e|]; [by destruct (Hr u)|..]; cbn; by split.
Qed.

Lemma keeps_journal_read : keeps Journal_read.
Proof.
  intros w. apply keeps_at_get. destruct (d_journal (w_disk w)); [|apply keeps_ret].
  apply keeps_at_bind; [by apply keeps_syscall|]. intros _ w'. apply keeps_at_lift.
  intros. apply keeps_ret.
Qed.

Lemma keeps_journal_clear : keeps Journal_clear.
Proof.
  intros w. apply keeps_at_get. destruct (d_journal (w_disk w)); [by apply keeps_syscall|apply keeps_ret].
Qed.

(** Saving a valid state and installing it in memory. *)
Lemma keeps_save_install s : ok s → keeps (save_file s ≫= λ _, set_mem (Some s)).
Proof.
  intros Hs w [Hm Hd]. unfold save_file, mbind, M_mbind.
  destruct (atomic_write_cases (put_state (Some s)) w) as (io & r & d & -> & [[-> ->]|[Hr ->]]).
  - cbn. assert (files_ok (put_state (Some s) (w_disk w))) as H by (intros t [= <-]; done).
    split; [exact H|intros _; split; [done|exact H]].
  - destruct r as [u|e|]; [by destruct (Hr u)|..]; cbn; split; done.
Qed.

Lemma keeps_journal_pending : keeps journal_pending.
Proof.
  intros w Hw. destruct (keeps_journal_read w Hw) as [H1 H2]. unfold journal_pending.
  destruct (Journal_read w) as [[j|e|] w']; cbn in *; split; try done; intros _; by apply H2.
Qed.

Lemma archive_cases (note_id : NS → Z) s w :
  ∃ io r d, archive_file note_id s w = (r, {| w_disk := d; w_mem := w_mem w; w_io := io |}) ∧
    ((r = Ok tt ∧ d_state d = None) ∨
     ((∀ u, r ≠ Ok u) ∧ d_state d = d_state (w_disk w))).
Proof.
  unfold archive_file, mbind at 1, M_mbind at 1.
  destruct (syscall_cases id w) as (io & r & d & -> & [[-> ->]|[Hr ->]]).
  2:{ destruct r as [u|e|]; [by destruct (Hr u)|..]; do 3 eexists; (split; [reflexivity|]);
      right; (split; [intros ? ?; discriminate|reflexivity]). }
  set (w1 := {| w_disk := id (w_disk w); w_mem := w_mem w; w_io := io |}).
  unfold mbind at 1, M_mbind at 1.
  destruct (atomic_write_cases (put_archive (archive_name (note_id s)) s) w1)
    as (io' & r & d & -> & [[-> ->]|[Hr ->]]).
  2:{ destruct r as [u|e|]; [by destruct (Hr u)|..]; do 3 eexists; (split; [reflexivity|]);
      right; (split; [intros ? ?; discriminate|reflexivity]). }
  unfold get, mbind, M_mbind. cbn. destruct (d_state (w_disk w)) as [t|] eqn:Et.
  2:{ do 3 eexists. split; [reflexivity|]. left. split; [done|]. exact Et. }
  destruct (syscall_cases (put_state None)
    {| w_disk := put_archive (archive_name (note_id s)) s (id (w_disk w));
       w_mem := w_mem w; w_io := io' |}) as (io2 & r2 & d2 & E & [[-> ->]|[Hr2 ->]]).
  - do 3 eexists. split; [exact E|]. by left.
  - do 3 eexists. split; [exact E|]. right. split; [done|]. exact Et.
Qed.


(** ** The wallet process *)

(** The wallet process is down, or up with a memory image. *)
Inductive process : Type := Down (d : DiskOf NS) | Up (d : DiskOf NS) (mem : option NS).

Definition after {X} (r : result ClientError X) w : process :=
  match r with Panic => Down (w_disk w) | _ => Up (w_disk w) (w_mem w) end.

Section machine.
Context {Op : Type} (new : FileIO ()) (run : Op → FileIO ()) (op_ok : Op → Prop).

(** Start, run an operation to its end or its death, be killed while idle. *)
Inductive file_step : process → process → Prop :=
| step_start d io r w :
    new {| w_disk := d; w_mem := None; w_io := io |} = (r, w) →
    file_step (Down d) (match r with Ok _ => Up (w_disk w) (w_mem w) | _ => Down (w_disk w) end)
| step_op op d m io r w :
    op_ok op → run op {| w_disk := d; w_mem := m; w_io := io |} = (r, w) →
    file_step (Up d m) (after r w)
| step_kill d m : file_step (Up d m) (Down d).

Definition process_ok (p : process) : Prop :=
  match p with Down d => files_ok d | Up d m => in_step m (d_state d) ∧ files_ok d end.

Hypothesis new_ok : ∀ d io r w, files_ok d →
  new {| w_disk := d; w_mem := None; w_io := io |} = (r, w) →
  w_disk w = d ∧ (r = Ok tt → w_mem w = d_state d).
Hypothesis run_ok : ∀ op, op_ok op → keeps (run op).

Lemma file_step_ok p q : file_step p q → process_ok p → process_ok q.
Proof.
  intros Hs Hp. destruct Hs as [d io r w E|op d m io r w Hop E|d m].
  - destruct (new_ok _ _ _ _ Hp E) as [Hd Hm]. destruct r as [[]|e|]; cbn; rewrite ?Hd; try done.
    by rewrite Hm.
  - destruct (run_ok op Hop {| w_disk := d; w_mem := m; w_io := io |} Hp) as [H1 H2].
    rewrite E in H1, H2. destruct r as [u|e|]; cbn in *; [by apply H2..|done].
  - apply Hp.
Qed.

Lemma file_steps_ok p q : rtc file_step p q → process_ok p → process_ok q.
Proof. induction 1; [done|]. intros Hp. eauto using file_step_ok. Qed.
End machine.

(** Opening finds the state the file holds. *)
Lemma open_wallet_disk reload d io r w :
  (∀ s, ok s → reload s = Ok s) → files_ok d →
  open_wallet reload {| w_disk := d; w_mem := None; w_io := io |} = (r, w) →
  w_disk w = d ∧ (r = Ok tt → w_mem w = d_state d).
Proof.
  intros Hre Hd. unfold open_wallet, mbind, M_mbind.
  destruct (syscall_cases id {| w_disk := d; w_mem := None; w_io := io |})
    as (io1 & r1 & d1 & -> & [[-> ->]|[Hr ->]]).
  2:{ destruct r1 as [u|e|]; [by destruct (Hr u)|..]; by intros [= <- <-]. }
  cbn. destruct (syscall_cases id {| w_disk := d; w_mem := None; w_io := io1 |})
    as (io2 & r2 & d2 & -> & [[-> ->]|[Hr ->]]).
  2:{ destruct r2 as [u|e|]; [by destruct (Hr u)|..]; by intros [= <- <-]. }
  cbn. destruct (d_state d) as [s|] eqn:Es; [|by intros [= <- <-]].
  unfold load_file, mbind, M_mbind. cbn.
  destruct (syscall_cases id {| w_disk := d; w_mem := None; w_io := io2 |})
    as (io3 & r3 & d3 & -> & [[-> ->]|[Hr ->]]).
  2:{ destruct r3 as [u|e|]; [by destruct (Hr u)|..]; by intros [= <- <-]. }
  cbn. rewrite Es. rewrite (Hre s) by (by apply Hd). by intros [= <- <-].
Qed.
End keeps.
