(* ===== verification/Wallet.v ===== *)
(** * The version-2 wallet ([zkapi-client]: wallet_v2.rs)

    Every method of [Wallet] as a computation on the process ([Client.World]).
    Randomness (blindings, request ids), the clock, the proving key read from
    the setup directory, and the server's HTTP answers are arguments. *)
From S2P Require Import Prelude Felt Types Group Ark CoreV2 Groth16 Circuit Compact Client ClientFiles.

(** What [GET /v2/requests/{id}] produced. *)
Inductive RecoveryOutcome : Type :=
| GetSendError (e : string)
| GetNotFound
| GetStatusError (e : string)
| GetSuccess (parsed : result string RecoveryResponseV2).

Section wallet.
Context {A : Ark} {KC : Keccak} {ST : groth16.Statics} {PS : ProofSystem}.
Context (cfg : ClientConfig).

(** ** Helpers *)

Definition ensure_stored_commitment (state : NoteState) (commitment : CurvePointWire) :
  result ClientError () :=
  if negb (bool_decide (cp_x commitment = ns_current_commitment_x state))
     || negb (bool_decide (cp_y commitment = ns_current_commitment_y state))
  then Err (VerificationFailed "persisted balance commitment is inconsistent")
  else Ok tt.

Definition parse_scalar (value : string) : result ClientError Felt252 :=
  map_err Serialization (from_hex value).

Definition siblings_array (values : list Felt252) :
  result ClientError (vec Felt252 MERKLE_DEPTH) :=
  ok_or (vec_of_list MERKLE_DEPTH values)
    (ProofGeneration ("expected " +:+ pretty MERKLE_DEPTH +:+ " Merkle siblings, got "
                      +:+ pretty (length values))).

(** [now_seconds().saturating_mul(1_000)]. *)
Definition now_ms (now_seconds : Z) : Z := Z.min (now_seconds * 1000) (2 ^ 64 - 1).

Definition state_note_leaf (state : NoteState) : Felt252 :=
  note_leaf (ns_note_id state) (registration_commitment (ns_secret_s state))
    (ns_deposit_amount state) (ns_expiry_ts state).

(** ** Construction and deposit *)

(** [Wallet::new]: create the directory, set its mode, load the state file if it
    exists.  The process starts with nothing in memory. *)
Definition wallet_new : IO () := open_wallet reload_state.

Definition has_pending_request : IO bool := journal_pending.

Definition get_pending_journal : IO (option PendingRequestJournal) := Journal_read.

Definition pending_api_request : IO (option ApiRequestV2) :=
  j ← Journal_read; mret (j ≫= pj_prepared_request).

(** The loop draws field elements until one is non-zero; the draws are given. *)
Fixpoint generate_deposit_params (draws : list Fr) : option (Felt252 * Felt252) :=
  match draws with
  | [] => None
  | x :: draws =>
      let secret := felt x in
      if negb (is_zero secret) then Some (secret, registration_commitment secret)
      else generate_deposit_params draws
  end.

Definition confirm_deposit (secret : Felt252) (note_id deposit_amount expiry : Z)
  (random_scalar : Sc) : IO () :=
  w ← get;
  _ ← lift (guard_err (bool_decide (is_Some (w_mem w))) NoteAlreadyExists);
  let blinding := scalar_to_felt random_scalar in
  let commitment := balance_commitment deposit_amount blinding
    (note_leaf note_id (registration_commitment secret) deposit_amount expiry) in
  let state := new_from_deposit (cfg_protocol_version cfg) (cfg_chain_id cfg)
    (cfg_contract_address cfg) note_id secret deposit_amount expiry (to_hex blinding)
    (cp_x commitment) (cp_y commitment) in
  _ ← NoteState_save state;
  set_mem (Some state).

(** ** Requests *)

(** The random values, clock and key one preparation uses. *)
Record PrepareEnv : Type := {
  pe_rerandomization : Sc;
  pe_uuid : string;
  pe_now_seconds : Z;
  pe_now_seconds_journal : Z;
  pe_request_key : result string ProvingKey;
  pe_rng : N;
}.

Definition prepare_public (state : NoteState) (env : PrepareEnv) (active_root : Felt252)
  (nullifier request_context : Felt252) (anonymous : CurvePointWire) : RequestPublicInputsV2 := {|
  rp2_protocol_version := ns_protocol_version state;
  rp2_chain_id := ns_chain_id state;
  rp2_contract_address := ns_contract_address state;
  rp2_active_root := active_root;
  rp2_state_signing_key_x := cp_x (cfg_state_signing_key cfg);
  rp2_state_signing_key_y := cp_y (cfg_state_signing_key cfg);
  rp2_request_time := pe_now_seconds env;
  rp2_solvency_bound := solvency_bound (cfg_policy_enabled cfg) (cfg_request_charge_cap cfg)
    (cfg_policy_charge_cap cfg);
  rp2_request_nullifier := nullifier;
  rp2_authorization_tag := authorization_tag nullifier request_context;
  rp2_anonymous_commitment_x := cp_x anonymous;
  rp2_anonymous_commitment_y := cp_y anonymous;
|}.

Definition prepare_witness (state : NoteState) (request_context : Felt252)
  (siblings : vec Felt252 MERKLE_DEPTH) (current_blinding rerandomization : Felt252) :
  RequestWitnessData := {|
  rd_secret := ns_secret_s state;
  rd_request_context := request_context;
  rd_note_id := ns_note_id state;
  rd_deposit_amount := ns_deposit_amount state;
  rd_expiry := ns_expiry_ts state;
  rd_merkle_siblings := siblings;
  rd_current_balance := ns_current_balance state;
  rd_current_blinding := current_blinding;
  rd_rerandomization := rerandomization;
  rd_current_anchor := ns_current_anchor state;
  rd_is_genesis := ns_is_genesis state;
  rd_state_signature := ns_state_signature state;
|}.

(** The part of [prepare_request] between the pending check and the journal. *)
Definition build_request (state : NoteState) (env : PrepareEnv) (payload : string)
  (payload_hash active_root : Felt252) (merkle_siblings : list Felt252) :
  result ClientError (ApiRequestV2 * PendingRequestJournal) :=
  let bound := solvency_bound (cfg_policy_enabled cfg) (cfg_request_charge_cap cfg)
    (cfg_policy_charge_cap cfg) in
  _ ← guard_err (ns_current_balance state <? bound)%Z
        (InsufficientBalance bound (ns_current_balance state));
  siblings ← siblings_array merkle_siblings;
  current_blinding ← parse_scalar (ns_balance_blinding state);
  let expected_current := balance_commitment (ns_current_balance state) current_blinding
    (state_note_leaf state) in
  _ ← ensure_stored_commitment state expected_current;
  let rerandomization := scalar_to_felt (pe_rerandomization env) in
  anonymous ← map_err ProofGeneration (rerandomize expected_current rerandomization);
  let nullifier := nullifier (ns_secret_s state) (ns_current_anchor state) in
  let client_request_id := pe_uuid env in
  request_context ← canonical_request_context client_request_id payload_hash;
  let public_inputs := prepare_public state env active_root nullifier request_context anonymous in
  prover ← map_err ProofGeneration (pe_request_key env);
  proof ← map_err ProofGeneration
    (request_prove prover public_inputs
       (prepare_witness state request_context siblings current_blinding rerandomization)
       (pe_rng env));
  let request := {|
    ar2_client_request_id := client_request_id;
    ar2_payload := payload;
    ar2_payload_hash := payload_hash;
    ar2_public_inputs := public_inputs;
    ar2_proof := proof |} in
  Ok (request,
      {| pj_exists := true;
         pj_client_request_id := client_request_id;
         pj_nullifier := nullifier;
         pj_payload_hash := payload_hash;
         pj_user_rerandomization := rerandomization;
         pj_created_at_ms := now_ms (pe_now_seconds_journal env);
         pj_prepared_request := Some request |}).

Definition prepare_request (env : PrepareEnv) (payload : string) (payload_hash : Felt252)
  (active_root : Felt252) (merkle_siblings : list Felt252) : IO ApiRequestV2 :=
  pending ← has_pending_request;
  _ ← lift (guard_err pending PendingRequest);
  computed ← lift (canonical_payload_hash (str_bytes payload));
  _ ← lift (guard_err (negb (bool_decide (computed = payload_hash)))
        (InvalidResponse "payload_hash does not match payload bytes"));
  w ← get;
  state ← lift (ok_or (w_mem w) NoActiveNote);
  rj ← lift (build_request state env payload payload_hash active_root merkle_siblings);
  _ ← Journal_write rj.2;
  mret rj.1.

(** The checks of [apply_response], and the state it will persist. *)
Definition next_state (mem : option NoteState) (response : RequestResponseV2) (request_id : string)
  (nullifier : Felt252) (anonymous : CurvePointWire) (rerandomization : Felt252) :
  result ClientError NoteState :=
  _ ← guard_err
        (negb (bool_decide (rr2_client_request_id response = request_id))
         || negb (bool_decide (rr2_request_nullifier response = nullifier)))
        (VerificationFailed "response request identity mismatch");
  computed ← canonical_response_hash (str_bytes (rr2_response_payload response));
  _ ← guard_err (negb (bool_decide (computed = rr2_response_hash response)))
        (VerificationFailed "response payload hash mismatch");
  let cap := if cfg_policy_enabled cfg then cfg_policy_charge_cap cfg
             else cfg_request_charge_cap cfg in
  _ ← guard_err ((cap <? rr2_charge_applied response)%Z || is_zero (rr2_next_anchor response))
        (VerificationFailed "invalid charge or next anchor");
  expected ← map_err VerificationFailed
    (server_update anonymous (rr2_charge_applied response) (rr2_blind_delta_srv response));
  _ ← guard_err (negb (bool_decide (expected = rr2_next_commitment response)))
        (VerificationFailed "next commitment algebra mismatch");
  state ← ok_or mem NoActiveNote;
  let message := state_message (ns_protocol_version state) (ns_chain_id state)
    (ns_contract_address state) (cp_x (rr2_next_commitment response))
    (cp_y (rr2_next_commitment response)) (rr2_next_anchor response) in
  ok ← map_err VerificationFailed
    (verify_signature (cfg_state_signing_key cfg) message (rr2_next_state_signature response));
  _ ← guard_err (negb ok) (VerificationFailed "invalid next-state signature");
  current_blinding ← parse_scalar (ns_balance_blinding state);
  let next_blinding := add_blindings (add_blindings current_blinding rerandomization)
    (rr2_blind_delta_srv response) in
  _ ← guard_err (ns_current_balance state <? rr2_charge_applied response)%Z
        (VerificationFailed "charge exceeds balance");
  Ok {| ns_protocol_version := ns_protocol_version state;
        ns_chain_id := ns_chain_id state;
        ns_contract_address := ns_contract_address state;
        ns_note_id := ns_note_id state;
        ns_secret_s := ns_secret_s state;
        ns_deposit_amount := ns_deposit_amount state;
        ns_expiry_ts := ns_expiry_ts state;
        ns_current_balance := ns_current_balance state - rr2_charge_applied response;
        ns_balance_blinding := to_hex next_blinding;
        ns_current_commitment_x := cp_x (rr2_next_commitment response);
        ns_current_commitment_y := cp_y (rr2_next_commitment response);
        ns_current_anchor := rr2_next_anchor response;
        ns_is_genesis := false;
        ns_state_signature := Some (rr2_next_state_signature response) |}.

Definition apply_response (response : RequestResponseV2) (request_id : string)
  (nullifier : Felt252) (anonymous : CurvePointWire) (rerandomization : Felt252) : IO () :=
  w ← get;
  next ← lift (next_state (w_mem w) response request_id nullifier anonymous rerandomization);
  _ ← NoteState_save next;
  set_mem (Some next).

Definition complete_pending_response (response : RequestResponseV2) : IO () :=
  journal ← Journal_read;
  journal ← lift (ok_or journal PendingRequest);
  w ← get;
  state ← lift (ok_or (w_mem w) NoActiveNote);
  blinding ← lift (parse_scalar (ns_balance_blinding state));
  let current := balance_commitment (ns_current_balance state) blinding (state_note_leaf state) in
  _ ← lift (ensure_stored_commitment state current);
  anonymous ← lift (map_err VerificationFailed
    (rerandomize current (pj_user_rerandomization journal)));
  _ ← apply_response response (pj_client_request_id journal) (pj_nullifier journal) anonymous
        (pj_user_rerandomization journal);
  Journal_clear.

Definition clear_pending_request : IO () := Journal_clear.

Definition request_flow (env : PrepareEnv) (post : ApiRequestV2 → PostOutcome RequestResponseV2) (payload : string)
  (payload_hash active_root : Felt252) (merkle_siblings : list Felt252) : IO RequestResponseV2 :=
  request ← prepare_request env payload payload_hash active_root merkle_siblings;
  match post request with
  | PostSendError e => fail (ServerError e)
  | PostBodyError e => fail (ServerError e)
  | PostFailure status body parsed =>
      match parsed with
      | Some error =>
          if bool_decide (er_error_code error = "stale_root"%string)
          then _ ← clear_pending_request; fail StaleRoot
          else fail (ServerError (er_error_code error +:+ ": " +:+ er_error_message error))
      | None => fail (ServerError ("HTTP " +:+ status +:+ ": " +:+ body))
      end
  | PostSuccess parsed =>
      response ← lift (map_err InvalidResponse parsed);
      _ ← complete_pending_response response;
      mret response
  end.

Definition recover (fetch : string → RecoveryOutcome) : IO (option RequestResponseV2) :=
  journal ← Journal_read;
  match journal with
  | None => mret None
  | Some journal =>
      match fetch (pj_client_request_id journal) with
      | GetSendError e => fail (ServerError e)
      | GetNotFound => mret None
      | GetStatusError e => fail (ServerError e)
      | GetSuccess parsed =>
          recovery ← lift (map_err InvalidResponse parsed);
          match rc2_request_response recovery with
          | None => mret None
          | Some response => _ ← complete_pending_response response; mret (Some response)
          end
      end
  end.

(** ** Withdrawal *)

Definition withdrawal_public (state : NoteState) (destination : vec byte 20)
  (active_root : Felt252) (has_clearance : bool) : WithdrawalPublicInputsV2 :=
  let nullifier := nullifier (ns_secret_s state) (ns_current_anchor state) in
  let destination_field := Felt (vreplicate 12 x00 +++ destination) in {|
  wp2_protocol_version := ns_protocol_version state;
  wp2_chain_id := ns_chain_id state;
  wp2_contract_address := ns_contract_address state;
  wp2_active_root := active_root;
  wp2_state_signing_key_x := cp_x (cfg_state_signing_key cfg);
  wp2_state_signing_key_y := cp_y (cfg_state_signing_key cfg);
  wp2_clearance_signing_key_x := cp_x (cfg_clearance_signing_key cfg);
  wp2_clearance_signing_key_y := cp_y (cfg_clearance_signing_key cfg);
  wp2_note_id := ns_note_id state;
  wp2_final_balance := ns_current_balance state;
  wp2_destination := destination;
  wp2_withdrawal_nullifier := nullifier;
  wp2_has_clearance := has_clearance;
  wp2_withdrawal_tag :=
    withdrawal_tag nullifier destination_field (ns_current_balance state) has_clearance |}.

(** The struct fields are evaluated in order: a bad sibling list is reported
    before a bad blinding. *)
Definition build_withdrawal (mem : option NoteState) (key : result string ProvingKey) (rng : N)
  (destination : vec byte 20) (active_root : Felt252) (merkle_siblings : list Felt252)
  (has_clearance : bool) (clearance_signature : option SchnorrSignature) :
  result ClientError (WithdrawalPublicInputsV2 * Groth16ProofWire) :=
  state ← ok_or mem NoActiveNote;
  let public := withdrawal_public state destination active_root has_clearance in
  prover ← map_err ProofGeneration key;
  siblings ← siblings_array merkle_siblings;
  blinding ← parse_scalar (ns_balance_blinding state);
  proof ← map_err ProofGeneration
    (withdrawal_prove prover public
       {| wd_secret := ns_secret_s state;
          wd_deposit_amount := ns_deposit_amount state;
          wd_expiry := ns_expiry_ts state;
          wd_merkle_siblings := siblings;
          wd_final_blinding := blinding;
          wd_current_anchor := ns_current_anchor state;
          wd_is_genesis := ns_is_genesis state;
          wd_state_signature := ns_state_signature state;
          wd_clearance_signature := clearance_signature |} rng);
  Ok (public, proof).

Definition request_clearance (outcome : ClearanceOutcome ClearanceResponseV2) : result ClientError ClearanceResponseV2 :=
  match outcome with
  | ClearSendError e => Err (ServerError e)
  | ClearBodyError e => Err (ServerError e)
  | ClearFailure status body => Err (ServerError ("HTTP " +:+ status +:+ ": " +:+ body))
  | ClearSuccess parsed => map_err InvalidResponse parsed
  end.

Definition withdrawal_mutual_close (mem : option NoteState) (key : result string ProvingKey)
  (rng : N) (post : Felt252 → ClearanceOutcome ClearanceResponseV2) (destination : vec byte 20)
  (active_root : Felt252) (merkle_siblings : list Felt252) :
  result ClientError (WithdrawalPublicInputsV2 * Groth16ProofWire) :=
  state ← ok_or mem NoActiveNote;
  let nullifier := nullifier (ns_secret_s state) (ns_current_anchor state) in
  clearance ← request_clearance (post nullifier);
  let message := clearance_message (ns_protocol_version state) (ns_chain_id state)
    (ns_contract_address state) nullifier in
  ok ← map_err VerificationFailed
    (verify_signature (cfg_clearance_signing_key cfg) message (cr2_signature clearance));
  _ ← guard_err (negb ok) (VerificationFailed "invalid clearance signature");
  build_withdrawal mem key rng destination active_root merkle_siblings true
    (Some (cr2_signature clearance)).

Definition withdrawal_escape_hatch (mem : option NoteState) (key : result string ProvingKey)
  (rng : N) (destination : vec byte 20) (active_root : Felt252) (merkle_siblings : list Felt252) :
  result ClientError (WithdrawalPublicInputsV2 * Groth16ProofWire) :=
  build_withdrawal mem key rng destination active_root merkle_siblings false None.

Definition archive_note : IO () :=
  w ← get;
  _ ← match w_mem w with Some s => NoteState_archive s | None => mret tt end;
  _ ← set_mem None;
  Journal_clear.

(** ** Valid note states *)

Definition signature_canonical (s : SchnorrSignature) : Prop :=
  canonical (sig_r_x s) ∧ canonical (sig_r_y s) ∧ canonical (sig_s s).

(** The persisted state opens its commitment at the recorded balance, and is the
    genesis state of its deposit or carries a state signature of the pinned key. *)
Record state_ok (s : NoteState) : Prop := {
  so_version : fits 16 (ns_protocol_version s);
  so_chain : fits 64 (ns_chain_id s);
  so_note : fits 32 (ns_note_id s);
  so_deposit : fits 128 (ns_deposit_amount s);
  so_expiry : fits 64 (ns_expiry_ts s);
  so_balance : (0 ≤ ns_current_balance s ≤ ns_deposit_amount s)%Z;
  so_contract : canonical (ns_contract_address s);
  so_secret : canonical (ns_secret_s s);
  so_anchor : canonical (ns_current_anchor s);
  so_commitment : ∃ x, from_hex (ns_balance_blinding s) = Ok x ∧
    {| cp_x := ns_current_commitment_x s; cp_y := ns_current_commitment_y s |}
    = balance_commitment (ns_current_balance s) x (state_note_leaf s);
  so_genesis : ns_is_genesis s = true →
    ns_current_anchor s = ONE ∧ ns_current_balance s = ns_deposit_amount s ∧
    ns_state_signature s = None;
  so_signed : ns_is_genesis s = false →
    ∃ sig, ns_state_signature s = Some sig ∧ signature_canonical sig ∧
      verify_signature (cfg_state_signing_key cfg)
        (state_message (ns_protocol_version s) (ns_chain_id s) (ns_contract_address s)
           (ns_current_commitment_x s) (ns_current_commitment_y s) (ns_current_anchor s)) sig
      = Ok true;
}.

(** What JSON parsing guarantees of a response: field elements are canonical and
    the charge is a [u128]. *)
Record response_ok (r : RequestResponseV2) : Prop := {
  ro_charge : fits 128 (rr2_charge_applied r);
  ro_anchor : canonical (rr2_next_anchor r);
  ro_signature : signature_canonical (rr2_next_state_signature r);
}.

Definition charge_cap : Z :=
  if cfg_policy_enabled cfg then cfg_policy_charge_cap cfg else cfg_request_charge_cap cfg.

Lemma parse_scalar_Ok v x : parse_scalar v = Ok x ↔ from_hex v = Ok x.
Proof. apply map_err_Ok. Qed.

Lemma parse_to_hex_scalar x : parse_scalar (to_hex (scalar_to_felt x)) = Ok (scalar_to_felt x).
Proof.
  apply parse_scalar_Ok. rewrite from_hex_to_hex. apply canonical_try_from_bytes_be.
  apply scalar_to_felt_canonical.
Qed.

Lemma ensure_stored_commitment_Ok s c u :
  ensure_stored_commitment s c = Ok u ↔
  c = {| cp_x := ns_current_commitment_x s; cp_y := ns_current_commitment_y s |}.
Proof.
  unfold ensure_stored_commitment. destruct u, c as [x y]. cbn [cp_x cp_y].
  destruct (bool_decide_reflect (x = ns_current_commitment_x s)) as [->|Hx],
    (bool_decide_reflect (y = ns_current_commitment_y s)) as [->|Hy]; cbn [negb orb]; split;
    try done; intros E; congruence.
Qed.

Lemma canonical_ONE : canonical ONE.
Proof. vm_compute. reflexivity. Qed.

Lemma point_felts_canonical b x l :
  canonical (cp_x (balance_commitment b x l)) ∧ canonical (cp_y (balance_commitment b x l)).
Proof. split; apply field_to_felt_canonical. Qed.

Lemma state_ok_reload s : state_ok s → reload_state s = Ok s.
Proof.
  intros Hs. destruct (so_commitment s Hs) as (x & _ & Hc).
  pose proof (point_felts_canonical (ns_current_balance s) x (state_note_leaf s)) as Hp.
  rewrite <- Hc in Hp. cbn [cp_x cp_y] in Hp. destruct Hp as [Hx Hy].
  assert (reload_option reload_signature (ns_state_signature s) = Ok (ns_state_signature s)) as Hsig.
  { destruct (ns_is_genesis s) eqn:Hg.
    - destruct (so_genesis s Hs Hg) as (_ & _ & ->). done.
    - destruct (so_signed s Hs Hg) as (sig & -> & (H1 & H2 & H3) & _). cbn.
      unfold reload_signature. rewrite !reload_felt_canonical by done. cbn. by destruct sig. }
  unfold reload_state. rewrite !reload_felt_canonical by (done || apply Hs).
  cbn. rewrite Hsig. cbn. by destruct s.
Qed.

(** ** Deposits *)

Lemma new_from_deposit_ok secret note_id amount expiry rs :
  fits 16 (cfg_protocol_version cfg) → fits 64 (cfg_chain_id cfg) →
  canonical (cfg_contract_address cfg) → canonical secret →
  fits 32 note_id → fits 128 amount → fits 64 expiry →
  let blinding := scalar_to_felt rs in
  let c := balance_commitment amount blinding
    (note_leaf note_id (registration_commitment secret) amount expiry) in
  state_ok (new_from_deposit (cfg_protocol_version cfg) (cfg_chain_id cfg)
    (cfg_contract_address cfg) note_id secret amount expiry (to_hex blinding) (cp_x c) (cp_y c)).
Proof.
  intros Hv Hch Hca Hsec Hn Ha He blinding c. split; cbn; try done.
  - split; [apply Ha|done].
  - exists blinding. split; [|done]. apply parse_scalar_Ok, parse_to_hex_scalar.
Qed.

(** ** Applying a response *)

(** The state a response leads to. *)
Record next_of (s : NoteState) (r : RequestResponseV2) (n : NoteState) : Prop := {
  nx_balance : ns_current_balance n = (ns_current_balance s - rr2_charge_applied r)%Z;
  nx_charge : (rr2_charge_applied r ≤ charge_cap)%Z ∧
              (rr2_charge_applied r ≤ ns_current_balance s)%Z;
  nx_anchor : ns_current_anchor n = rr2_next_anchor r ∧ is_zero (rr2_next_anchor r) = false;
  nx_commitment : {| cp_x := ns_current_commitment_x n; cp_y := ns_current_commitment_y n |}
                  = rr2_next_commitment r;
  nx_identity : ns_note_id n = ns_note_id s ∧ ns_secret_s n = ns_secret_s s ∧
                ns_deposit_amount n = ns_deposit_amount s ∧ ns_expiry_ts n = ns_expiry_ts s;
  nx_signed : ns_is_genesis n = false ∧
              ns_state_signature n = Some (rr2_next_state_signature r);
}.

Lemma next_state_sound s r id nul rho x n :
  state_ok s → response_ok r →
  from_hex (ns_balance_blinding s) = Ok x →
  next_state (Some s) r id nul
    (balance_commitment (ns_current_balance s) (add_blindings x rho) (state_note_leaf s)) rho = Ok n →
  state_ok n ∧ next_of s r n ∧ rr2_client_request_id r = id ∧ rr2_request_nullifier r = nul.
Proof.
  intros Hs Hr Hx H. unfold next_state in H.
  apply result_bind_Ok in H as ([] & Hid & H). apply guard_err_Ok, orb_false_iff in Hid as [Hid Hnul].
  apply negb_false_iff, bool_decide_eq_true in Hid, Hnul.
  apply result_bind_Ok in H as (h & _ & H). apply result_bind_Ok in H as ([] & _ & H).
  apply result_bind_Ok in H as ([] & Hcap & H).
  apply guard_err_Ok, orb_false_iff in Hcap as [Hcap%Z.ltb_ge Hz].
  rewrite server_update_balance in H. cbn [map_err] in H.
  apply result_bind_Ok in H as (? & [= <-] & H).
  apply result_bind_Ok in H as ([] & Hnc & H).
  apply guard_err_Ok, negb_false_iff, bool_decide_eq_true in Hnc.
  apply result_bind_Ok in H as (? & [= <-] & H).
  apply result_bind_Ok in H as (ok & Hsig%map_err_Ok & H).
  apply result_bind_Ok in H as ([] & Hok & H).
  apply guard_err_Ok, negb_false_iff in Hok as ->.
  apply result_bind_Ok in H as (x' & Hx'%parse_scalar_Ok & H).
  assert (x' = x) as -> by congruence. clear Hx'.
  apply result_bind_Ok in H as ([] & Hle & H). apply guard_err_Ok, Z.ltb_ge in Hle.
  assert (n = ltac:(match type of H with Ok ?m = _ => exact m end)) as -> by congruence. clear H.
  pose proof (ro_charge r Hr) as [Hc0 _]. pose proof (so_balance s Hs) as Hb.
  split; [|split; [split; cbn; try done|done]].
  - split; cbn; try apply Hs; try apply Hr; try done; try lia.
    + eexists. split; [apply parse_scalar_Ok; unfold add_blindings at 1; apply parse_to_hex_scalar|].
      transitivity (rr2_next_commitment r); [by destruct (rr2_next_commitment r)|].
      by rewrite <- Hnc.
    + intros _. eexists. split; [done|]. split; [apply Hr|]. exact Hsig.
  - by destruct (rr2_next_commitment r).
Qed.

(** ** Invariant of the process and its files *)

Abbreviation disk_ok := (files_ok state_ok).
Abbreviation keeps := (ClientFiles.keeps state_ok (=)).

(** Memory is the file, and the file is valid. *)
Definition world_inv : World → Prop := files_inv state_ok (=).

Lemma keeps_prepare env payload ph root sibs : keeps (prepare_request env payload ph root sibs).
Proof.
  apply keeps_bind; [apply keeps_journal_pending|]. intros pending w.
  apply keeps_at_lift. intros _ _. apply keeps_at_lift. intros h _. apply keeps_at_lift. intros _ _.
  apply keeps_at_get. apply keeps_at_lift. intros state _. apply keeps_at_lift. intros rj _.
  apply keeps_at_bind; [apply keeps_journal_write|]. intros _. apply keeps_ret.
Qed.

Lemma keeps_confirm_deposit secret note_id amount expiry rs :
  fits 16 (cfg_protocol_version cfg) → fits 64 (cfg_chain_id cfg) →
  canonical (cfg_contract_address cfg) → canonical secret →
  fits 32 note_id → fits 128 amount → fits 64 expiry →
  keeps (confirm_deposit secret note_id amount expiry rs).
Proof.
  intros ? ? ? ? ? ? ? w. apply keeps_at_get. apply keeps_at_lift. intros _ _.
  by apply keeps_save_install, new_from_deposit_ok.
Qed.

(** What the wallet computes before applying a response. *)
Lemma complete_inputs s x c j :
  state_ok s → parse_scalar (ns_balance_blinding s) = Ok x →
  rerandomize (balance_commitment (ns_current_balance s) x (state_note_leaf s))
    (pj_user_rerandomization j) = Ok c →
  from_hex (ns_balance_blinding s) = Ok x ∧
  c = balance_commitment (ns_current_balance s) (add_blindings x (pj_user_rerandomization j))
        (state_note_leaf s).
Proof.
  intros Hs Hx%parse_scalar_Ok Hc. rewrite rerandomize_balance in Hc. split; [done|congruence].
Qed.

Lemma keeps_complete r : response_ok r → keeps (complete_pending_response r).
Proof.
  intros Hr. apply keeps_bind; [apply keeps_journal_read|]. intros journal w.
  apply keeps_at_lift. intros j _. apply keeps_at_get. apply keeps_at_lift. intros s Hmem%ok_or_Ok.
  apply keeps_at_lift. intros x Hx. apply keeps_at_lift. intros u _.
  apply keeps_at_lift. intros c Hc%map_err_Ok.
  apply keeps_at_bind; [|intros _; apply keeps_journal_clear]. intros Hw.
  assert (state_ok s) as Hs by (apply Hw; rewrite <- (proj1 Hw); done).
  destruct (complete_inputs s x c j Hs Hx Hc) as [Hx' ->]. revert Hw.
  apply keeps_at_get. rewrite Hmem. apply keeps_at_lift. intros n Hn.
  apply keeps_save_install; [done|]. by eapply next_state_sound.
Qed.

Lemma keeps_flow env post payload ph root sibs :
  (∀ req r, post req = PostSuccess (Ok r) → response_ok r) →
  keeps (request_flow env post payload ph root sibs).
Proof.
  intros Hpost. apply keeps_bind; [apply keeps_prepare|]. intros req.
  destruct (post req) as [e|e|status body [err|]|parsed] eqn:E; try apply keeps_fail.
  - case_bool_decide; [|apply keeps_fail].
    apply keeps_bind; [apply keeps_journal_clear|intros _; apply keeps_fail].
  - intros w. apply keeps_at_lift. intros r Hr%map_err_Ok. subst parsed.
    apply keeps_at_bind; [by eapply keeps_complete, Hpost|intros _; apply keeps_ret].
Qed.

Lemma keeps_recover fetch :
  (∀ id rc r, fetch id = GetSuccess (Ok rc) → rc2_request_response rc = Some r → response_ok r) →
  keeps (recover fetch).
Proof.
  intros Hf. apply keeps_bind; [apply keeps_journal_read|]. intros [j|]; [|apply keeps_ret].
  destruct (fetch (pj_client_request_id j)) as [e| |e|parsed] eqn:E;
    try apply keeps_fail; try apply keeps_ret.
  intros w. apply keeps_at_lift. intros rc Hrc%map_err_Ok. subst parsed.
  destruct (rc2_request_response rc) as [r|] eqn:Er; [|apply keeps_ret].
  apply keeps_at_bind; [by eapply keeps_complete, Hf|intros _; apply keeps_ret].
Qed.

Lemma keeps_archive : keeps archive_note.
Proof.
  intros w. apply keeps_at_get. destruct (w_mem w) as [s|] eqn:Em.
  - intros [Hm Hd].
    destruct (archive_cases ns_note_id s w) as (io & r & d & E & [[-> Hnone]|[Hr Hsame]]).
    + rewrite (M_bind_Ok _ _ _ _ _ E).
      assert (world_inv {| w_disk := d; w_mem := None; w_io := io |}) as Hi.
      { split; [done|]. intros t. cbn. by rewrite Hnone. }
      exact (keeps_journal_clear _ _ _ Hi).
    + rewrite (M_bind_stop _ _ _ _ _ E Hr).
      assert (disk_ok d) as Hd' by (intros t; rewrite Hsame; apply Hd).
      split; [done|]. intros _. split; [|done]. cbn. congruence.
  - intros [Hm Hd].
    assert (world_inv {| w_disk := w_disk w; w_mem := None; w_io := w_io w |}) as Hi.
    { split; [|done]. cbn. congruence. }
    exact (keeps_journal_clear _ _ _ Hi).
Qed.

(** ** Histories of operations, failures and restarts *)

Inductive wallet_op : Type :=
| OpDeposit (secret : Felt252) (note_id amount expiry : Z) (random_scalar : Sc)
| OpPrepare (env : PrepareEnv) (payload : string) (ph root : Felt252) (sibs : list Felt252)
| OpComplete (r : RequestResponseV2)
| OpClear
| OpFlow (env : PrepareEnv) (post : ApiRequestV2 → PostOutcome RequestResponseV2) (payload : string)
    (ph root : Felt252) (sibs : list Felt252)
| OpRecover (fetch : string → RecoveryOutcome)
| OpArchive.

Definition run_op (op : wallet_op) : IO () :=
  match op with
  | OpDeposit secret note_id amount expiry rs => confirm_deposit secret note_id amount expiry rs
  | OpPrepare env payload ph root sibs =>
      _ ← prepare_request env payload ph root sibs; mret tt
  | OpComplete r => complete_pending_response r
  | OpClear => clear_pending_request
  | OpFlow env post payload ph root sibs =>
      _ ← request_flow env post payload ph root sibs; mret tt
  | OpRecover fetch => _ ← recover fetch; mret tt
  | OpArchive => archive_note
  end.

(** Typed arguments: integers of their width, parsed JSON. *)
Definition op_ok (op : wallet_op) : Prop :=
  match op with
  | OpDeposit secret note_id amount expiry _ =>
      canonical secret ∧ fits 32 note_id ∧ fits 128 amount ∧ fits 64 expiry
  | OpComplete r => response_ok r
  | OpFlow _ post _ _ _ _ => ∀ req r, post req = PostSuccess (Ok r) → response_ok r
  | OpRecover fetch =>
      ∀ id rc r, fetch id = GetSuccess (Ok rc) → rc2_request_response rc = Some r → response_ok r
  | _ => True
  end.

Record config_ok : Prop := {
  co_version : fits 16 (cfg_protocol_version cfg);
  co_chain : fits 64 (cfg_chain_id cfg);
  co_contract : canonical (cfg_contract_address cfg);
}.

(** The wallet process: started, run one operation at a time, killed anywhere. *)
Definition wallet_step : process → process → Prop := file_step wallet_new run_op op_ok.

Lemma keeps_run_op op : config_ok → op_ok op → keeps (run_op op).
Proof.
  intros [Hv Hc Ha] Hop. destruct op; cbn in *.
  - destruct Hop as (? & ? & ? & ?). by apply keeps_confirm_deposit.
  - apply keeps_bind; [apply keeps_prepare|intros; apply keeps_ret].
  - by apply keeps_complete.
  - apply keeps_journal_clear.
  - apply keeps_bind; [by apply keeps_flow|intros; apply keeps_ret].
  - apply keeps_bind; [by apply keeps_recover|intros; apply keeps_ret].
  - apply keeps_archive.
Qed.

(** ** One completion, system call by system call *)

(** The pure decision inside [complete_pending_response]. *)
Definition complete_decide (s : NoteState) (j : PendingRequestJournal) (r : RequestResponseV2) :
  result ClientError NoteState :=
  blinding ← parse_scalar (ns_balance_blinding s);
  let current := balance_commitment (ns_current_balance s) blinding (state_note_leaf s) in
  _ ← ensure_stored_commitment s current;
  anonymous ← map_err VerificationFailed (rerandomize current (pj_user_rerandomization j));
  next_state (Some s) r (pj_client_request_id j) (pj_nullifier j) anonymous
    (pj_user_rerandomization j).

Definition install (n : NoteState) : IO () :=
  _ ← NoteState_save n; _ ← set_mem (Some n); Journal_clear.

Lemma complete_run w io s j r :
  Journal_read w = (Ok (Some j), {| w_disk := w_disk w; w_mem := w_mem w; w_io := io |}) →
  w_mem w = Some s →
  complete_pending_response r w =
  let w1 := {| w_disk := w_disk w; w_mem := w_mem w; w_io := io |} in
  match complete_decide s j r with
  | Ok n => install n w1
  | Err e => (Err e, w1)
  | Panic => (Panic, w1)
  end.
Proof.
  intros Hj Hm. unfold complete_pending_response. rewrite (M_bind_Ok _ _ _ _ _ Hj). cbn zeta.
  set (w1 := {| w_disk := w_disk w; w_mem := w_mem w; w_io := io |}).
  rewrite lift_bind. cbn [ok_or].
  assert (∀ Y (f : World → IO Y), (get ≫= f) w1 = f w1 w1) as Hget by done.
  rewrite Hget, lift_bind. cbn [w1 w_mem]. rewrite Hm. cbn [ok_or].
  unfold complete_decide. rewrite lift_bind.
  destruct (parse_scalar (ns_balance_blinding s)) as [x|e|]; [|done..].
  rewrite result_Ok_bind. cbn zeta. rewrite lift_bind.
  destruct (ensure_stored_commitment s _) as [u|e|]; [|done..].
  rewrite result_Ok_bind, lift_bind. destruct (map_err _ _) as [c|e|]; [|done..].
  rewrite result_Ok_bind.
  unfold apply_response. rewrite M_bind_assoc, Hget. cbn [w1 w_mem].
  rewrite Hm, M_bind_assoc, lift_bind.
  destruct (next_state _ _ _ _ _ _) as [n|e|]; [|done..].
  unfold install. rewrite M_bind_assoc. done.
Qed.

Lemma complete_decide_sound s j r n :
  state_ok s → response_ok r → complete_decide s j r = Ok n →
  state_ok n ∧ next_of s r n ∧ rr2_client_request_id r = pj_client_request_id j ∧
  rr2_request_nullifier r = pj_nullifier j.
Proof.
  intros Hs Hr H. unfold complete_decide in H.
  apply result_bind_Ok in H as (x & Hx & H). apply result_bind_Ok in H as (u & _ & H).
  apply result_bind_Ok in H as (c & Hc%map_err_Ok & H).
  destruct (complete_inputs s x c j Hs Hx Hc) as [Hx' ->]. by eapply next_state_sound.
Qed.

(** The three places an installation can stop at. *)
Lemma install_cases n w :
  let '(res, w') := install n w in
  ((∀ u, res ≠ Ok u) ∧ w_disk w' = w_disk w) ∨
  (d_state (w_disk w') = Some n ∧
   (((∀ u, res ≠ Ok u) ∧ d_journal (w_disk w') = d_journal (w_disk w)) ∨
    (res = Ok tt ∧ d_journal (w_disk w') = None ∧ w_mem w' = Some n))).
Proof.
  unfold install. unfold NoteState_save, save_file.
  destruct (atomic_write_cases (put_state (Some n)) w) as (io & r & d & E & [[-> ->]|[Hr ->]]).
  2:{ rewrite (M_bind_stop _ _ _ _ _ E Hr).
      destruct r as [u|e|]; [by destruct (Hr u)|..]; left; (split; [intros ? ?; discriminate|done]). }
  rewrite (M_bind_Ok _ _ _ _ _ E).
  unfold Journal_clear, set_mem, get, mbind, M_mbind. cbn.
  destruct (d_journal (w_disk w)) as [j|] eqn:Ej.
  - destruct (syscall_cases (put_journal None)
      {| w_disk := put_state (Some n) (w_disk w); w_mem := Some n; w_io := io |})
      as (io2 & r2 & d2 & -> & [[-> ->]|[Hr2 ->]]); right; (split; [done|]); [by right|by left].
  - right. split; [done|]. by right.
Qed.

(** ** The state a wallet can prove from *)

Lemma guard_false {E} (e : E) : guard_err false e = Ok tt.
Proof. done. Qed.

(** What an honest server answers to the journaled request. *)
Record honest_response (s : NoteState) (j : PendingRequestJournal) (x : Felt252)
  (signer : CompactSigner) (r : RequestResponseV2) : Prop := {
  hr_identity : rr2_client_request_id r = pj_client_request_id j ∧
                rr2_request_nullifier r = pj_nullifier j;
  hr_hash : canonical_response_hash (E := ClientError) (str_bytes (rr2_response_payload r))
            = Ok (rr2_response_hash r);
  hr_charge : (rr2_charge_applied r ≤ charge_cap)%Z ∧
              (rr2_charge_applied r ≤ ns_current_balance s)%Z;
  hr_anchor : is_zero (rr2_next_anchor r) = false;
  hr_commitment : ∃ anonymous,
    rerandomize (balance_commitment (ns_current_balance s) x (state_note_leaf s))
      (pj_user_rerandomization j) = Ok anonymous ∧
    server_update anonymous (rr2_charge_applied r) (rr2_blind_delta_srv r)
      = Ok (rr2_next_commitment r);
  hr_signature : ∃ nonce, rr2_next_state_signature r
    = signer_sign signer
        (state_message (ns_protocol_version s) (ns_chain_id s) (ns_contract_address s)
           (cp_x (rr2_next_commitment r)) (cp_y (rr2_next_commitment r)) (rr2_next_anchor r)) nonce;
}.

Lemma honest_response_decides s j x seed r :
  state_ok s → from_hex (ns_balance_blinding s) = Ok x →
  cfg_state_signing_key cfg = public_key (from_seed seed) →
  honest_response s j x (from_seed seed) r →
  ∃ n, complete_decide s j r = Ok n.
Proof.
  intros Hs Hx Hkey [[Hid Hnul] Hh [Hcap Hbal] Hanc (c & Hc & Hup) (nonce & Hsig)].
  unfold complete_decide. rewrite (proj2 (parse_scalar_Ok _ _) Hx). ok_step.
  destruct (so_commitment s Hs) as (x' & Hx' & Hcom). assert (x' = x) as -> by congruence.
  rewrite (proj2 (ensure_stored_commitment_Ok s _ tt)) by done. ok_step.
  rewrite Hc. ok_step. unfold next_state.
  rewrite Hid, Hnul, !(bool_decide_eq_true_2 (_ = _)) by done. ok_step.
  rewrite Hh. ok_step. rewrite bool_decide_eq_true_2 by done. ok_step.
  change (if cfg_policy_enabled cfg then cfg_policy_charge_cap cfg
          else cfg_request_charge_cap cfg) with charge_cap.
  rewrite Hanc, (proj2 (Z.ltb_ge _ _) Hcap). ok_step. rewrite Hup. ok_step.
  rewrite bool_decide_eq_true_2 by done. ok_step. ok_step.
  rewrite Hkey, Hsig, signer_sign_verifies. ok_step. ok_step.
  rewrite (proj2 (parse_scalar_Ok _ _) Hx). ok_step.
  rewrite (proj2 (Z.ltb_ge _ _) Hbal). ok_step. by eexists.
Qed.
End wallet.
