(* ===== verification/WalletSpec.v ===== *)
(** * What the wallet guarantees

    The theorems about wallet_v2.rs: its files stay valid through failures,
    crashes and restarts; a response moves the state exactly by its charge; an
    honest answer is accepted; and a valid state can always be proved, for a
    request and for an escape withdrawal. *)
From S2P Require Import Prelude Felt Types Group Ark CoreV2 Groth16 Circuit Compact Client ClientFiles Wallet.

Section provable.
Context {A : Ark} {KC : Keccak} {ST : groth16.Statics} {PS : ProofSystem}.
Context (cfg : ClientConfig).

(** ** From a wallet state to a satisfied circuit *)

(** The circuit's view of a persisted state. *)
Definition field_leaf (s : NoteState) : Fr :=
  groth16.note_leaf (ns_note_id s) (groth16.registration_commitment (field (ns_secret_s s)))
    (ns_deposit_amount s) (ns_expiry_ts s).

Lemma state_leaf_field s : state_ok cfg s → field (state_note_leaf s) = field_leaf s.
Proof.
  intros Hs. unfold state_note_leaf, field, field_leaf.
  rewrite groth16.core_note_leaf by apply Hs. by rewrite groth16.core_registration.
Qed.

(** The commitment point of the state, in the curve group. *)
Definition state_point (s : NoteState) (x : Felt252) : EdG :=
  groth16.balance_commitment (ns_current_balance s) (scalar x) (field_leaf s).

Lemma state_commitment s x :
  state_ok cfg s → from_hex (ns_balance_blinding s) = Ok x →
  (field (ns_current_commitment_x s), field (ns_current_commitment_y s))
  = into_affine (state_point s x).
Proof.
  intros Hs Hx. destruct (so_commitment cfg s Hs) as (x' & Hx' & Hc).
  assert (x' = x) as -> by congruence.
  pose proof (f_equal cp_x Hc) as H1. pose proof (f_equal cp_y Hc) as H2.
  cbn [cp_x cp_y] in H1, H2. rewrite H1, H2. unfold balance_commitment.
  rewrite state_leaf_field by done. unfold point_to_wire. cbn [cp_x cp_y].
  rewrite !field_felt. by destruct (into_affine _).
Qed.

Lemma state_balance_fits s : state_ok cfg s → fits 128 (ns_current_balance s).
Proof.
  intros Hs. pose proof (so_balance cfg s Hs). pose proof (so_deposit cfg s Hs) as [? ?].
  split; lia.
Qed.

(** The signature the circuits receive: the stored one, or the neutral
    placeholder of a genesis state. *)
Lemma signature_from_identity : signature_from_wire IDENTITY
  = Ok {| groth16.r := into_affine gzero; groth16.s := fof 0 |}.
Proof.
  assert (point_from_wire {| cp_x := ZERO; cp_y := ONE |} = Ok (into_affine gzero)) as Hp.
  { apply point_from_wire_Ok. cbn [cp_x cp_y]. split.
    - unfold field. by rewrite felt_to_field_ZERO, felt_to_field_ONE, into_affine_zero.
    - apply valid_point_affine. apply zmul_gzero. }
  unfold signature_from_wire, IDENTITY. cbn [sig_r_x sig_r_y sig_s]. rewrite Hp.
  rewrite result_Ok_bind. do 2 f_equal.
Qed.

Lemma verify_signature_inv pk m sig :
  verify_signature pk m sig = Ok true →
  ∃ P σ, point_from_wire pk = Ok P ∧ signature_from_wire sig = Ok σ ∧
    groth16.verify_state_signature P (field m) σ = true.
Proof. unfold verify_signature. intros H. res_inv. eauto 10. Qed.

Lemma state_signature_field s pk :
  state_ok cfg s → point_from_wire (cfg_state_signing_key cfg) = Ok pk →
  ∃ σ, signature_from_wire (default IDENTITY (ns_state_signature s)) = Ok σ ∧
    (ns_is_genesis s = false → ∀ x, from_hex (ns_balance_blinding s) = Ok x →
      groth16.verify_state_signature pk
        (groth16.state_message (ns_protocol_version s) (ns_chain_id s)
           (field (ns_contract_address s)) (into_affine (state_point s x))
           (field (ns_current_anchor s))) σ = true).
Proof.
  intros Hs Hpk. destruct (ns_is_genesis s) eqn:Hg.
  - destruct (so_genesis cfg s Hs Hg) as (_ & _ & ->). cbn [default from_option].
    eexists. split; [apply signature_from_identity|done].
  - destruct (so_signed cfg s Hs Hg) as (sig & -> & _ & Hv).
    apply verify_signature_inv in Hv as (P & σ & HP & Hσ & Hv). exists σ. split; [done|].
    intros _ x Hx. assert (P = pk) as -> by congruence.
    unfold field in Hv at 1. rewrite groth16.core_state_message in Hv by apply Hs.
    change (felt_to_field (ns_current_commitment_x s), felt_to_field (ns_current_commitment_y s))
      with (field (ns_current_commitment_x s), field (ns_current_commitment_y s)) in Hv.
    by rewrite (state_commitment s x) in Hv.
Qed.

Lemma secret_field_nonzero s :
  state_ok cfg s → is_zero (ns_secret_s s) = false → field (ns_secret_s s) ≠ fzero.
Proof.
  intros Hs Hz E. apply (f_equal fint) in E. unfold field in E.
  rewrite fint_felt_to_field, Z.mod_small in E.
  2:{ split; [apply felt_val_bound|apply (so_secret cfg s Hs)]. }
  unfold fzero in E. rewrite fint_small in E by (rewrite Fr_modulus; done).
  assert (ns_secret_s s = ZERO) as HZ.
  { apply felt_val_inj. rewrite E. vm_compute. reflexivity. }
  rewrite HZ in Hz. discriminate Hz.
Qed.

Definition state_wire (s : NoteState) : CurvePointWire :=
  {| cp_x := ns_current_commitment_x s; cp_y := ns_current_commitment_y s |}.

(** The request statement built from a valid state, and its honest witness. *)
Lemma request_from_state s x pk env root ctx sibs anonymous :
  state_ok cfg s → is_zero (ns_secret_s s) = false →
  from_hex (ns_balance_blinding s) = Ok x →
  point_from_wire (cfg_state_signing_key cfg) = Ok pk →
  let rho := scalar_to_felt (pe_rerandomization env) in
  rerandomize (state_wire s) rho = Ok anonymous →
  CoreV2.merkle_root (ns_note_id s) (state_note_leaf s) sibs = root →
  fits 64 (pe_now_seconds env) → (pe_now_seconds env ≤ ns_expiry_ts s)%Z →
  let bound := solvency_bound (cfg_policy_enabled cfg) (cfg_request_charge_cap cfg)
    (cfg_policy_charge_cap cfg) in
  (0 ≤ bound ≤ ns_current_balance s)%Z →
  let nul := nullifier (ns_secret_s s) (ns_current_anchor s) in
  ∃ c, request_circuit_of (prepare_public cfg s env root nul ctx anonymous)
         (prepare_witness s ctx sibs x rho) = Ok c ∧
       request_circuit_satisfied c = true.
Proof.
  intros Hs Hsec Hx Hpk rho Hanon Hroot Hnow Hexp bound Hbound nul.
  destruct (so_commitment cfg s Hs) as (x' & Hx' & Hc). assert (x' = x) as -> by congruence.
  unfold state_wire in Hanon. rewrite Hc, rerandomize_balance in Hanon. injection Hanon as <-.
  destruct (state_signature_field s pk Hs Hpk) as (σ & Hσ & Hver).
  pose proof (proj2 (proj1 (point_from_wire_Ok _ _) Hpk)) as Hvalid.
  set (C := groth16.balance_commitment (ns_current_balance s) (fadd (scalar x) (scalar rho))
              (field_leaf s)).
  assert (balance_commitment (ns_current_balance s) (add_blindings x rho) (state_note_leaf s)
    = point_to_wire (into_affine C)) as HC.
  { unfold balance_commitment, add_blindings. by rewrite scalar_scalar_to_felt, state_leaf_field. }
  set (pub := prepare_public cfg s env root nul ctx _).
  assert (∃ q, request_public_from_wire pub = Ok q ∧
    q = {| q_protocol_version := ns_protocol_version s; q_chain_id := ns_chain_id s;
           q_contract_address := field (ns_contract_address s); q_active_root := field root;
           q_state_signing_key := pk; q_request_time := pe_now_seconds env;
           q_solvency_bound := bound; q_request_nullifier := field nul;
           q_authorization_tag := field (authorization_tag nul ctx);
           q_anonymous_commitment := into_affine C |}) as (q & Hq & Eq).
  { eexists. split; [|reflexivity]. unfold request_public_from_wire.
    change {| cp_x := rp2_state_signing_key_x pub; cp_y := rp2_state_signing_key_y pub |}
      with {| cp_x := cp_x (cfg_state_signing_key cfg); cp_y := cp_y (cfg_state_signing_key cfg) |}.
    replace {| cp_x := cp_x (cfg_state_signing_key cfg); cp_y := cp_y (cfg_state_signing_key cfg) |}
      with (cfg_state_signing_key cfg) by by destruct (cfg_state_signing_key cfg).
    rewrite Hpk, result_Ok_bind. unfold pub. rewrite HC.
    cbn [prepare_public rp2_anonymous_commitment_x rp2_anonymous_commitment_y].
    replace {| cp_x := cp_x (point_to_wire (into_affine C));
               cp_y := cp_y (point_to_wire (into_affine C)) |}
      with (point_to_wire (into_affine C)) by done.
    rewrite point_from_to_wire by apply groth16.balance_commitment_subgroup.
    done. }
  eexists. split.
  { unfold request_circuit_of. rewrite Hq, result_Ok_bind.
    cbn [prepare_witness rd_state_signature]. rewrite Hσ, result_Ok_bind. reflexivity. }
  apply request_circuit_satisfied_iff.
  - subst q. split; cbn; [done| |done|apply into_affine_on_curve].
    pose proof (state_balance_fits s Hs) as [? ?]. split; lia.
  - split; cbn; try apply Hs; [by apply state_balance_fits|].
    by apply signature_from_wire_valid in Hσ.
  - subst q. split; cbn.
    + by apply secret_field_nonzero.
    + done.
    + apply Hbound.
    + change (field_leaf s) with (field_leaf s). unfold request_leaf. cbn.
      fold (field_leaf s). rewrite <- state_leaf_field by done.
      etrans; [symmetry; apply groth16.core_merkle_root|by rewrite Hroot].
    + intros Hg. destruct (so_genesis cfg s Hs Hg) as (-> & -> & _).
      split; [apply felt_to_field_ONE|done].
    + intros Hg. by apply Hver.
    + unfold C. by rewrite <- groth16.rerandomize_commitment_blinding.
    + unfold nul, field. by rewrite groth16.core_nullifier.
    + unfold field. by rewrite groth16.core_authorization_tag.
Qed.

(** The withdrawal statement of a valid state. *)
Lemma withdrawal_from_state s x pk ck root sibs dest (hc : bool)
  (clear : option SchnorrSignature) :
  state_ok cfg s → is_zero (ns_secret_s s) = false →
  from_hex (ns_balance_blinding s) = Ok x →
  point_from_wire (cfg_state_signing_key cfg) = Ok pk →
  point_from_wire (cfg_clearance_signing_key cfg) = Ok ck →
  CoreV2.merkle_root (ns_note_id s) (state_note_leaf s) sibs = root →
  let nul := nullifier (ns_secret_s s) (ns_current_anchor s) in
  (if hc then ∃ sig, clear = Some sig ∧
     verify_signature (cfg_clearance_signing_key cfg)
       (clearance_message (ns_protocol_version s) (ns_chain_id s) (ns_contract_address s) nul) sig
     = Ok true
   else clear = None) →
  ∃ c, withdrawal_circuit_of (withdrawal_public cfg s dest root hc)
         {| wd_secret := ns_secret_s s; wd_deposit_amount := ns_deposit_amount s;
            wd_expiry := ns_expiry_ts s; wd_merkle_siblings := sibs; wd_final_blinding := x;
            wd_current_anchor := ns_current_anchor s; wd_is_genesis := ns_is_genesis s;
            wd_state_signature := ns_state_signature s; wd_clearance_signature := clear |} = Ok c ∧
       withdrawal_circuit_satisfied c = true.
Proof.
  intros Hs Hsec Hx Hpk Hck Hroot nul Hclear.
  destruct (state_signature_field s pk Hs Hpk) as (σ & Hσ & Hver).
  assert (∃ σ', signature_from_wire (default IDENTITY clear) = Ok σ' ∧
    (hc = true → groth16.verify_state_signature ck
       (groth16.clearance_message (ns_protocol_version s) (ns_chain_id s)
          (field (ns_contract_address s)) (field nul)) σ' = true)) as (σ' & Hσ' & Hver').
  { destruct hc.
    - destruct Hclear as (sig & -> & Hv).
      apply verify_signature_inv in Hv as (P & σ' & HP & Hσ' & Hv). exists σ'.
      split; [done|]. intros _. assert (P = ck) as -> by congruence.
      unfold field in Hv at 1. by rewrite groth16.core_clearance_message in Hv by apply Hs.
    - rewrite Hclear. eexists. split; [apply signature_from_identity|done]. }
  pose proof (proj2 (proj1 (point_from_wire_Ok _ _) Hpk)) as Hvalid.
  pose proof (proj2 (proj1 (point_from_wire_Ok _ _) Hck)) as Hcvalid.
  pose proof (state_balance_fits s Hs) as Hbal.
  set (pub := withdrawal_public cfg s dest root hc).
  assert (∃ q, withdrawal_public_from_wire pub = Ok q ∧
    q = {| x_protocol_version := ns_protocol_version s; x_chain_id := ns_chain_id s;
           x_contract_address := field (ns_contract_address s); x_active_root := field root;
           x_state_signing_key := pk; x_clearance_signing_key := ck; x_note_id := ns_note_id s;
           x_final_balance := ns_current_balance s; x_destination := field (destination_field pub);
           x_withdrawal_nullifier := field nul; x_has_clearance := hc;
           x_withdrawal_tag := field (withdrawal_tag nul (destination_field pub)
             (ns_current_balance s) hc) |}) as (q & Hq & Eq).
  { eexists. split; [|reflexivity]. unfold withdrawal_public_from_wire, pub.
    cbn [withdrawal_public wp2_state_signing_key_x wp2_state_signing_key_y
      wp2_clearance_signing_key_x wp2_clearance_signing_key_y].
    replace {| cp_x := cp_x (cfg_state_signing_key cfg); cp_y := cp_y (cfg_state_signing_key cfg) |}
      with (cfg_state_signing_key cfg) by by destruct (cfg_state_signing_key cfg).
    replace {| cp_x := cp_x (cfg_clearance_signing_key cfg);
               cp_y := cp_y (cfg_clearance_signing_key cfg) |}
      with (cfg_clearance_signing_key cfg) by by destruct (cfg_clearance_signing_key cfg).
    rewrite Hpk, result_Ok_bind, Hck, result_Ok_bind. done. }
  eexists. split.
  { unfold withdrawal_circuit_of. rewrite Hq, result_Ok_bind.
    cbn [wd_state_signature wd_clearance_signature].
    rewrite Hσ, result_Ok_bind, Hσ', result_Ok_bind. reflexivity. }
  apply withdrawal_circuit_satisfied_iff.
  - subst q. split; cbn; [apply Hs|done|done|done].
  - split; cbn; [apply Hs|apply Hs|by apply signature_from_wire_valid in Hσ|].
    by apply signature_from_wire_valid in Hσ'.
  - subst q. split; cbn.
    + by apply secret_field_nonzero.
    + apply Hs.
    + unfold withdrawal_leaf. cbn. fold (field_leaf s). rewrite <- state_leaf_field by done.
      etrans; [symmetry; apply groth16.core_merkle_root|by rewrite Hroot].
    + intros Hg. destruct (so_genesis cfg s Hs Hg) as (-> & -> & _).
      split; [apply felt_to_field_ONE|done].
    + intros Hg. by apply Hver.
    + unfold nul, field. by rewrite groth16.core_nullifier.
    + unfold field. by rewrite groth16.core_withdrawal_tag.
    + done.
Qed.

(** ** One completion *)

Lemma complete_outcomes w s j r :
  world_inv cfg w → w_mem w = Some s → d_journal (w_disk w) = Some j → response_ok r →
  let '(res, w') := complete_pending_response cfg r w in
  ((∀ u, res ≠ Ok u) ∧ w_disk w' = w_disk w) ∨
  (∃ n, complete_decide cfg s j r = Ok n ∧ d_state (w_disk w') = Some n ∧
     (((∀ u, res ≠ Ok u) ∧ d_journal (w_disk w') = Some j) ∨
      (res = Ok tt ∧ d_journal (w_disk w') = None ∧ w_mem w' = Some n))).
Proof.
  intros Hw Hm Hj Hr. destruct (journal_read_cases w) as (io & r0 & E & Hread).
  set (w1 := {| w_disk := w_disk w; w_mem := w_mem w; w_io := io |}) in E.
  destruct r0 as [[j'|]|e|].
  - specialize (Hread j' eq_refl). assert (j' = j) as -> by congruence.
    rewrite (complete_run cfg w io s j r E Hm). cbn zeta. fold w1.
    destruct (complete_decide cfg s j r) as [n|e|] eqn:En; [|by left..].
    pose proof (install_cases n w1) as Hi. destruct (install n w1) as [res w'].
    destruct Hi as [Hi|[Hs Hi]]; [by left|]. right. exists n. split; [done|]. split; [done|].
    destruct Hi as [[? Hjr]|Hi]; [left|by right]. split; [done|]. by rewrite Hjr.
  - unfold complete_pending_response. rewrite (M_bind_Ok _ _ _ _ _ E), lift_bind. by left.
  - unfold complete_pending_response. rewrite (M_bind_stop _ _ _ _ _ E) by done. by left.
  - unfold complete_pending_response. rewrite (M_bind_stop _ _ _ _ _ E) by done. by left.
Qed.

(** Re-applying a response to the state it led to needs this relation between
    the blinding generator and the base point. *)
Definition charge_relation (j : PendingRequestJournal) (r : RequestResponseV2) : Prop :=
  zmul (rr2_charge_applied r) generator
  = (zmul (fint (scalar (pj_user_rerandomization j))) groth16.balance_blinding_generator
     + zmul (fint (scalar (rr2_blind_delta_srv r))) groth16.balance_blinding_generator)%G.

Lemma balance_commitment_shift b c x rho delta l :
  balance_commitment (b - c) (add_blindings (add_blindings x rho) delta) l
  = balance_commitment b x l →
  zmul c generator
  = (zmul (fint (scalar rho)) groth16.balance_blinding_generator
     + zmul (fint (scalar delta)) groth16.balance_blinding_generator)%G.
Proof.
  intros E. unfold balance_commitment in E. apply point_to_wire_affine_inj in E.
  unfold add_blindings in E. rewrite !scalar_scalar_to_felt in E.
  rewrite !groth16.balance_commitment_zmul, zmul_sub in E.
  rewrite !groth16.zmul_fadd in E by apply groth16.H_subgroup.
  apply gadd_cancel_r in E. rewrite <- !gadd_assoc in E. apply gadd_cancel_l in E.
  apply (gadd_cancel_l (- zmul c generator)%G). rewrite gadd_neg_l.
  set (X := zmul (fint (scalar x)) groth16.balance_blinding_generator) in *.
  apply (gadd_cancel_r X). rewrite gadd_zero_l. rewrite <- E at 1.
  rewrite <- !gadd_assoc. f_equal. rewrite (gadd_comm X). by rewrite <- gadd_assoc.
Qed.

Lemma reapply_relation s j r n n' :
  state_ok cfg s → response_ok r →
  complete_decide cfg s j r = Ok n → complete_decide cfg n j r = Ok n' → charge_relation j r.
Proof.
  intros Hs Hr Hn Hn'.
  destruct (complete_decide_sound cfg s j r n Hs Hr Hn) as (Hok & Hnx & _).
  unfold complete_decide in Hn'.
  apply result_bind_Ok in Hn' as (x & Hx & H). apply result_bind_Ok in H as (u & Hu & H).
  apply result_bind_Ok in H as (c & Hc%map_err_Ok & H).
  destruct (complete_inputs cfg n x c j Hok Hx Hc) as [_ ->].
  apply ensure_stored_commitment_Ok in Hu.
  unfold next_state in H. apply result_bind_Ok in H as (? & _ & H).
  apply result_bind_Ok in H as (? & _ & H). apply result_bind_Ok in H as (? & _ & H).
  apply result_bind_Ok in H as (? & _ & H). rewrite server_update_balance in H.
  cbn [map_err] in H. apply result_bind_Ok in H as (? & [= <-] & H).
  apply result_bind_Ok in H as ([] & Heq & _).
  apply guard_err_Ok, negb_false_iff, bool_decide_eq_true in Heq.
  apply (balance_commitment_shift (ns_current_balance n) _ x _ _ (state_note_leaf n)).
  rewrite Heq, Hu. symmetry. apply (nx_commitment cfg s r n Hnx).
Qed.

(** ** Properties *)

(** C1. Wallet safety through failures, crashes and restarts: along any history
    of deposits, preparations, completions, recoveries, archivals, I/O errors,
    deaths at any system call and restarts, with any answers of the server, the
    state file always holds a valid note state: it opens the stored commitment
    at the stored balance, the balance is within the deposit, and it is the
    genesis state or carries a signature of the pinned key.  A running process
    has exactly the file's state in memory. *)
Theorem wallet_history_safe p :
  config_ok cfg →
  rtc (wallet_step cfg) (Down {| d_state := None; d_journal := None; d_archive := ∅ |}) p →
  match p with
  | Down d => ∀ s, d_state d = Some s → state_ok cfg s
  | Up d m => m = d_state d ∧ ∀ s, d_state d = Some s → state_ok cfg s
  end.
Proof.
  intros Hcfg Hsteps. assert (process_ok (state_ok cfg) (=) p) as Hp; [|by destruct p].
  apply (file_steps_ok (state_ok cfg) (=) wallet_new (run_op cfg) op_ok) in Hsteps; [done| | |done].
  - intros d io r w. apply open_wallet_disk, state_ok_reload.
  - intros op. by apply keeps_run_op.
Qed.

(** C2. A completion is atomic on the state file: whatever system call fails or
    kills the process, either nothing changed and the journal is kept, or the
    new state is on disk, it is exactly the old one moved by the response's
    charge (within the cap and the balance) and carries the pinned key's
    signature; the journal is cleared only after that. *)
Theorem complete_response_atomic w s j r :
  world_inv cfg w → w_mem w = Some s → d_journal (w_disk w) = Some j → response_ok r →
  let '(res, w') := complete_pending_response cfg r w in
  ((∀ u, res ≠ Ok u) ∧ w_disk w' = w_disk w) ∨
  (∃ n, state_ok cfg n ∧ next_of cfg s r n ∧
     rr2_client_request_id r = pj_client_request_id j ∧
     rr2_request_nullifier r = pj_nullifier j ∧
     d_state (w_disk w') = Some n ∧
     (d_journal (w_disk w') = Some j ∨ (res = Ok tt ∧ d_journal (w_disk w') = None))).
Proof.
  intros Hw Hm Hj Hr. pose proof (complete_outcomes w s j r Hw Hm Hj Hr) as H.
  assert (state_ok cfg s) as Hs by (apply Hw; rewrite <- (proj1 Hw); done).
  destruct (complete_pending_response cfg r w) as [res w'].
  destruct H as [H|(n & Hn & Hd & H)]; [by left|right]. exists n.
  destruct (complete_decide_sound cfg s j r n Hs Hr Hn) as (? & ? & ? & ?).
  split_and!; try done. destruct H as [[_ ?]|(? & ? & _)]; [by left|by right].
Qed.

(** C3. An honest answer is accepted: if the server updates the journaled
    anonymous commitment, charges within the cap and the balance, and signs the
    next state with the pinned key, then (with no I/O failure) the completion
    succeeds, installs the next state in memory and on disk, and clears the
    journal. *)
Theorem honest_response_accepted w s j x seed r :
  world_inv cfg w → w_mem w = Some s → d_journal (w_disk w) = Some j →
  journal_readable j → w_io w = [] →
  from_hex (ns_balance_blinding s) = Ok x →
  cfg_state_signing_key cfg = public_key (from_seed seed) →
  honest_response cfg s j x (from_seed seed) r → response_ok r →
  ∃ n w', complete_pending_response cfg r w = (Ok tt, w') ∧ next_of cfg s r n ∧
    w_mem w' = Some n ∧ d_state (w_disk w') = Some n ∧ d_journal (w_disk w') = None.
Proof.
  intros Hw Hm Hj Hread Hio Hx Hkey Hhon Hr.
  assert (state_ok cfg s) as Hs by (apply Hw; rewrite <- (proj1 Hw); done).
  destruct (honest_response_decides cfg s j x seed r Hs Hx Hkey Hhon) as [n Hn].
  destruct (complete_decide_sound cfg s j r n Hs Hr Hn) as (_ & Hnx & _).
  pose proof (journal_read_ok w j Hj Hread Hio) as E. destruct w as [d m io]. cbn in *. subst m io.
  exists n. rewrite (complete_run cfg _ [] s j r E eq_refl), Hn. cbn zeta.
  unfold install, NoteState_save, save_file, atomic_write, Journal_clear, get, mbind, M_mbind. cbn.
  rewrite Hj. cbn. by eexists.
Qed.

(** C4. The crash window between saving the next state and clearing the journal:
    a process that restarts there holds the new state with the old journal, and
    then every recovery with the server's answer fails and changes nothing
    (unless the charge happens to cancel the blindings on the curve), while
    every new request is refused as long as the journal is there. *)
Theorem recovery_after_crash_stuck s j r n w :
  state_ok cfg s → response_ok r → complete_decide cfg s j r = Ok n →
  ¬ charge_relation j r →
  world_inv cfg w → w_mem w = Some n → d_journal (w_disk w) = Some j →
  (let '(res, w') := complete_pending_response cfg r w in
   (∀ u, res ≠ Ok u) ∧ w_disk w' = w_disk w) ∧
  (journal_readable j → w_io w = [] → ∀ env payload ph root sibs,
     prepare_request cfg env payload ph root sibs w = (Err PendingRequest, w)).
Proof.
  intros Hs Hr Hn Hrel Hw Hm Hj. split.
  - pose proof (complete_outcomes w n j r Hw Hm Hj Hr) as H.
    destruct (complete_pending_response cfg r w) as [res w'].
    destruct H as [H|(n' & Hn' & _)]; [done|]. destruct Hrel. by eapply reapply_relation.
  - intros Hread Hio env payload ph root sibs. unfold prepare_request.
    assert (has_pending_request w = (Ok true, w)) as E.
    { unfold has_pending_request, journal_pending. by rewrite (journal_read_ok w j Hj Hread Hio). }
    by rewrite (M_bind_Ok _ _ _ _ _ E), lift_bind.
Qed.

(** C5. A valid state can always be spent: when the note is in the tree, not
    expired and covers the solvency bound, the wallet's own checks pass, its
    statement and witness satisfy the circuit, and a request is built for the
    state's nullifier. *)
Theorem request_provable s x pk k env payload ph root sibs ctx :
  state_ok cfg s → is_zero (ns_secret_s s) = false →
  from_hex (ns_balance_blinding s) = Ok x →
  point_from_wire (cfg_state_signing_key cfg) = Ok pk →
  pe_request_key env = Ok k →
  (∀ inputs rng, ∃ proof, groth16_prove k inputs true rng = Ok proof) →
  canonical_request_context (E := ClientError) (pe_uuid env) ph = Ok ctx →
  CoreV2.merkle_root (ns_note_id s) (state_note_leaf s) sibs = root →
  fits 64 (pe_now_seconds env) → (pe_now_seconds env ≤ ns_expiry_ts s)%Z →
  (0 ≤ solvency_bound (cfg_policy_enabled cfg) (cfg_request_charge_cap cfg)
         (cfg_policy_charge_cap cfg) ≤ ns_current_balance s)%Z →
  ∃ req j, build_request cfg s env payload ph root (vec_to_list sibs) = Ok (req, j) ∧
    pj_nullifier j = nullifier (ns_secret_s s) (ns_current_anchor s) ∧
    pj_prepared_request j = Some req.
Proof.
  intros Hs Hsec Hx Hpk Hk Hprove Hctx Hroot Hnow Hexp Hbound.
  destruct (so_commitment cfg s Hs) as (x' & Hx' & Hc). assert (x' = x) as -> by congruence.
  set (rho := scalar_to_felt (pe_rerandomization env)).
  set (anonymous := balance_commitment (ns_current_balance s) (add_blindings x rho)
                      (state_note_leaf s)).
  assert (rerandomize (state_wire s) rho = Ok anonymous) as Hanon.
  { unfold state_wire. rewrite Hc. apply rerandomize_balance. }
  destruct (request_from_state s x pk env root ctx sibs anonymous Hs Hsec Hx Hpk Hanon Hroot
    Hnow Hexp Hbound) as (c & Hcirc & Hsat). fold rho in Hcirc.
  destruct (Hprove (request_to_field_elements (q_public c)) (pe_rng env)) as [proof Hproof].
  assert (∃ wire, proof_to_wire proof = Ok wire) as [wire Hwire] by by eexists.
  eexists _, _. split.
  { unfold build_request.
  rewrite (proj2 (Z.ltb_ge _ _) (proj2 Hbound)). ok_step.
  unfold siblings_array. rewrite vec_of_list_to_list. ok_step.
  rewrite (proj2 (parse_scalar_Ok _ _) Hx). ok_step.
  rewrite (proj2 (ensure_stored_commitment_Ok s _ tt)) by done. ok_step.
  fold rho. rewrite rerandomize_balance. fold anonymous. ok_step.
  rewrite Hctx. ok_step. rewrite Hk. ok_step.
  unfold request_prove. rewrite Hcirc. ok_step. rewrite Hsat. cbn [validate_witness]. ok_step.
  unfold prove_request. rewrite Hsat, Hproof. ok_step. rewrite Hwire. ok_step. reflexivity. }
  done.
Qed.

(** C6. Unilateral exit: from every valid state whose note is in the tree the
    wallet can build an escape withdrawal for its full current balance, to any
    destination, with no cooperation of the server. *)
Theorem escape_provable s x pk ck k rng dest root sibs :
  state_ok cfg s → is_zero (ns_secret_s s) = false →
  from_hex (ns_balance_blinding s) = Ok x →
  point_from_wire (cfg_state_signing_key cfg) = Ok pk →
  point_from_wire (cfg_clearance_signing_key cfg) = Ok ck →
  (∀ inputs rng, ∃ proof, groth16_prove k inputs true rng = Ok proof) →
  CoreV2.merkle_root (ns_note_id s) (state_note_leaf s) sibs = root →
  ∃ public wire,
    withdrawal_escape_hatch cfg (Some s) (Ok k) rng dest root (vec_to_list sibs)
      = Ok (public, wire) ∧
    wp2_final_balance public = ns_current_balance s ∧ wp2_destination public = dest ∧
    wp2_has_clearance public = false ∧
    wp2_withdrawal_nullifier public = nullifier (ns_secret_s s) (ns_current_anchor s).
Proof.
  intros Hs Hsec Hx Hpk Hck Hprove Hroot.
  destruct (withdrawal_from_state s x pk ck root sibs dest false None Hs Hsec Hx Hpk Hck Hroot
    eq_refl) as (c & Hcirc & Hsat).
  destruct (Hprove (withdrawal_to_field_elements (x_public c)) rng) as [proof Hproof].
  assert (∃ wire, proof_to_wire proof = Ok wire) as [wire Hwire] by by eexists.
  eexists _, _. split.
  - unfold withdrawal_escape_hatch, build_withdrawal. ok_step. ok_step.
    unfold siblings_array. rewrite vec_of_list_to_list. ok_step.
    rewrite (proj2 (parse_scalar_Ok _ _) Hx). ok_step.
    unfold withdrawal_prove. rewrite Hcirc. ok_step. rewrite Hsat. cbn [validate_witness]. ok_step.
    unfold prove_withdrawal. rewrite Hsat, Hproof. ok_step. rewrite Hwire. ok_step. reflexivity.
  - done.
Qed.
End provable.

(** ** Witnesses *)
#[local] Existing Instance Toy.
#[local] Existing Instance toy_keccak.
#[local] Existing Instance toy_statics.
#[local] Existing Instance toy_system.

Definition sample_cfg : ClientConfig := {|
  cfg_protocol_version := 2; cfg_chain_id := 1; cfg_contract_address := from_u64 99;
  cfg_request_charge_cap := 300; cfg_policy_charge_cap := 0; cfg_policy_enabled := false;
  cfg_server_url := "http://localhost"; cfg_state_dir := "state"; cfg_trusted_epoch_roots := [];
  cfg_setup_dir := "setup"; cfg_state_signing_key := public_key (from_seed (from_u64 5));
  cfg_clearance_signing_key := public_key (from_seed (from_u64 6)) |}.

Lemma sample_config_ok : config_ok sample_cfg.
Proof. by repeat split; vm_compute. Qed.

Definition sample_secret : Felt252 := from_u64 8.
Definition sample_blinding : Felt252 := scalar_to_felt (fof 7).

Definition sample_deposit : wallet_op := OpDeposit sample_secret 3 1000 50 (fof 7).

Definition empty_disk : Disk := {| d_state := None; d_journal := None; d_archive := ∅ |}.
Definition fresh (d : Disk) (m : option NoteState) : World :=
  {| w_disk := d; w_mem := m; w_io := [] |}.

(** The world after the deposit, and the state in it. *)
Definition sample_world : World := (run_op sample_cfg sample_deposit (fresh empty_disk None)).2.

Definition sample_state : NoteState :=
  let c := balance_commitment 1000 sample_blinding
    (note_leaf 3 (registration_commitment sample_secret) 1000 50) in
  new_from_deposit 2 1 (from_u64 99) 3 sample_secret 1000 50 (to_hex sample_blinding)
    (cp_x c) (cp_y c).

Lemma sample_deposit_run :
  run_op sample_cfg sample_deposit (fresh empty_disk None) = (Ok tt, sample_world) ∧
  sample_world = fresh (put_state (Some sample_state) empty_disk) (Some sample_state).
Proof. split; vm_compute; reflexivity. Qed.

Lemma wallet_history_safe_witness :
  d_state (w_disk sample_world) = Some sample_state ∧
  ∀ s, d_state (w_disk sample_world) = Some s → state_ok sample_cfg s.
Proof.
  split; [vm_compute; reflexivity|].
  assert (rtc (wallet_step sample_cfg) (Down empty_disk)
    (Up (w_disk sample_world) (w_mem sample_world))) as H.
  { eapply rtc_l; [exact (step_start wallet_new (run_op sample_cfg) op_ok empty_disk [] (Ok tt) (fresh empty_disk None) eq_refl)|].
    eapply rtc_l; [|apply rtc_refl].
    change (Up (w_disk sample_world) (w_mem sample_world))
      with (after (@Ok ClientError () tt) sample_world). unfold wallet_step.
    apply (step_op wallet_new (run_op sample_cfg) op_ok sample_deposit empty_disk None [] (Ok tt) sample_world).
    - by repeat split; vm_compute.
    - exact (proj1 sample_deposit_run). }
  exact (proj2 (wallet_history_safe sample_cfg _ sample_config_ok H)).
Defined.

Lemma sample_state_ok : state_ok sample_cfg sample_state.
Proof. by apply new_from_deposit_ok; repeat split; vm_compute. Qed.

Definition sample_rho : Felt252 := scalar_to_felt (fof 13).
Definition sample_nullifier : Felt252 := nullifier sample_secret ONE.

Definition sample_journal : PendingRequestJournal := {|
  pj_exists := true; pj_client_request_id := "req-1"; pj_nullifier := sample_nullifier;
  pj_payload_hash := from_u64 1; pj_user_rerandomization := sample_rho;
  pj_created_at_ms := 20000; pj_prepared_request := None |}.

Definition sample_disk : Disk :=
  {| d_state := Some sample_state; d_journal := Some sample_journal; d_archive := ∅ |}.

Definition ok_value {E X} (d : X) (r : result E X) : X := match r with Ok x => x | _ => d end.
Definition no_point : CurvePointWire := {| cp_x := ZERO; cp_y := ZERO |}.

(** The honest server's answer: charge 100. *)
Definition sample_anonymous : CurvePointWire :=
  ok_value no_point
    (rerandomize (balance_commitment 1000 sample_blinding (state_note_leaf sample_state)) sample_rho).
Definition sample_next_commitment : CurvePointWire :=
  ok_value no_point (server_update sample_anonymous 100 (from_u64 21)).

Definition sample_response : RequestResponseV2 := {|
  rr2_status := "ok"; rr2_client_request_id := "req-1";
  rr2_request_nullifier := sample_nullifier; rr2_response_code := 200;
  rr2_response_payload := "hello";
  rr2_response_hash := ok_value ZERO (canonical_response_hash (E := string) (str_bytes "hello"));
  rr2_charge_applied := 100; rr2_next_commitment := sample_next_commitment;
  rr2_next_anchor := from_u64 12; rr2_blind_delta_srv := from_u64 21;
  rr2_next_state_signature :=
    signer_sign (from_seed (from_u64 5))
      (state_message 2 1 (from_u64 99) (cp_x sample_next_commitment)
         (cp_y sample_next_commitment) (from_u64 12)) (fof 31);
  rr2_policy_reason_code := None; rr2_policy_evidence_hash := None |}.

Lemma sample_response_ok : response_ok sample_response.
Proof. by repeat split; vm_compute. Qed.

Lemma fresh_inv cfg s j a :
  state_ok cfg s →
  world_inv cfg (fresh {| d_state := Some s; d_journal := j; d_archive := a |} (Some s)).
Proof. intros Hs. split; [done|]. by intros ? [= <-]. Qed.

Lemma sample_world_inv : world_inv sample_cfg (fresh sample_disk (Some sample_state)).
Proof. exact (fresh_inv _ _ _ _ sample_state_ok). Qed.

Lemma sample_journal_readable : journal_readable sample_journal.
Proof. split; vm_compute; reflexivity. Qed.

Lemma sample_honest :
  honest_response sample_cfg sample_state sample_journal sample_blinding
    (from_seed (from_u64 5)) sample_response.
Proof.
  split; [done|vm_compute; reflexivity|by split; vm_compute|vm_compute; reflexivity| |].
  - exists sample_anonymous. split; vm_compute; reflexivity.
  - exists (fof 31). vm_compute; reflexivity.
Qed.

Lemma honest_response_accepted_witness :
  ∃ n w', complete_pending_response sample_cfg sample_response
            (fresh sample_disk (Some sample_state)) = (Ok tt, w') ∧
    next_of sample_cfg sample_state sample_response n ∧ d_state (w_disk w') = Some n.
Proof.
  destruct (honest_response_accepted sample_cfg (fresh sample_disk (Some sample_state))
    sample_state sample_journal sample_blinding (from_u64 5) sample_response
    sample_world_inv eq_refl eq_refl sample_journal_readable eq_refl
    ltac:(vm_compute; reflexivity) eq_refl sample_honest sample_response_ok)
    as (n & w' & H1 & H2 & _ & H3 & _).
  exists n, w'. split; [exact H1|split; [exact H2|exact H3]].
Defined.

Lemma complete_response_atomic_witness :
  let '(res, w') := complete_pending_response sample_cfg sample_response
    {| w_disk := sample_disk; w_mem := Some sample_state; w_io := [IoOk; IoOk; IoCrash] |} in
  ((∀ u, res ≠ Ok u) ∧ w_disk w' = sample_disk) ∨
  (∃ n, state_ok sample_cfg n ∧ next_of sample_cfg sample_state sample_response n ∧
     rr2_client_request_id sample_response = pj_client_request_id sample_journal ∧
     rr2_request_nullifier sample_response = pj_nullifier sample_journal ∧
     d_state (w_disk w') = Some n ∧
     (d_journal (w_disk w') = Some sample_journal ∨ (res = Ok tt ∧ d_journal (w_disk w') = None))).
Proof.
  exact (complete_response_atomic sample_cfg
    {| w_disk := sample_disk; w_mem := Some sample_state; w_io := [IoOk; IoOk; IoCrash] |}
    sample_state sample_journal sample_response sample_world_inv eq_refl eq_refl sample_response_ok).
Defined.

(** The state the sample response leads to. *)
Definition sample_next : NoteState :=
  ok_value sample_state (complete_decide sample_cfg sample_state sample_journal sample_response).

Definition crashed_disk : Disk :=
  {| d_state := Some sample_next; d_journal := Some sample_journal; d_archive := ∅ |}.

Lemma recovery_after_crash_stuck_witness :
  (complete_pending_response sample_cfg sample_response
     {| w_disk := sample_disk; w_mem := Some sample_state;
        w_io := [IoOk; IoOk; IoOk; IoOk; IoCrash] |}).2
    = {| w_disk := crashed_disk; w_mem := Some sample_next; w_io := [] |} ∧
  let '(res, w') := complete_pending_response sample_cfg sample_response
    (fresh crashed_disk (Some sample_next)) in
  (∀ u, res ≠ Ok u) ∧ w_disk w' = w_disk (fresh crashed_disk (Some sample_next)).
Proof.
  split; [vm_compute; reflexivity|].
  assert (complete_decide sample_cfg sample_state sample_journal sample_response = Ok sample_next)
    as Hdec by (vm_compute; reflexivity).
  assert (¬ charge_relation sample_journal sample_response) as Hrel.
  { unfold charge_relation. intros E. rewrite !toy_zmul in E.
    apply (f_equal mval) in E. revert E. vm_compute. discriminate. }
  assert (world_inv sample_cfg (fresh crashed_disk (Some sample_next))) as Hinv.
  { apply fresh_inv.
    exact (proj1 (complete_decide_sound sample_cfg sample_state sample_journal sample_response _
      sample_state_ok sample_response_ok Hdec)). }
  pose proof (recovery_after_crash_stuck sample_cfg sample_state sample_journal sample_response
    sample_next (fresh crashed_disk (Some sample_next)) sample_state_ok sample_response_ok Hdec
    Hrel Hinv eq_refl eq_refl) as [H _].
  exact H.
Defined.

Definition sample_key : ProvingKey := tt.

Definition sample_env : PrepareEnv := {|
  pe_rerandomization := fof 13; pe_uuid := "req-1"; pe_now_seconds := 20;
  pe_now_seconds_journal := 20; pe_request_key := Ok sample_key; pe_rng := 0%N |}.
Definition sample_path : vec Felt252 MERKLE_DEPTH := vreplicate 32 (from_u64 4).
Definition sample_root : Felt252 := CoreV2.merkle_root 3 (state_note_leaf sample_state) sample_path.

Lemma toy_proves (k : @ProvingKey _ toy_system) inputs rng :
  ∃ proof, groth16_prove k inputs true rng = Ok proof.
Proof. by eexists. Qed.

Lemma request_provable_witness :
  ∃ req j, build_request sample_cfg sample_state sample_env "hi" (from_u64 1) sample_root
             (vec_to_list sample_path) = Ok (req, j) ∧ pj_nullifier j = sample_nullifier.
Proof.
  assert (∃ ctx, canonical_request_context (E := ClientError) "req-1" (from_u64 1) = Ok ctx)
    as [ctx Hctx] by (apply is_ok_value; vm_compute; reflexivity).
  assert (∃ pk, point_from_wire (cfg_state_signing_key sample_cfg) = Ok pk)
    as [pk Hpk] by (apply is_ok_value; vm_compute; reflexivity).
  destruct (request_provable sample_cfg sample_state sample_blinding pk sample_key sample_env "hi"
    (from_u64 1) sample_root sample_path ctx sample_state_ok) as (req & j & H1 & H2 & _).
  - vm_compute; reflexivity.
  - vm_compute; reflexivity.
  - exact Hpk.
  - vm_compute; reflexivity.
  - exact (toy_proves sample_key).
  - exact Hctx.
  - vm_compute; reflexivity.
  - by split.
  - discriminate.
  - by split.
  - exists req, j. split; [exact H1|exact H2].
Defined.

Lemma escape_provable_witness :
  ∃ public wire,
    withdrawal_escape_hatch sample_cfg (Some sample_state) (Ok sample_key) 0%N (vreplicate 20 x01)
      sample_root (vec_to_list sample_path) = Ok (public, wire) ∧
    wp2_final_balance public = 1000%Z.
Proof.
  assert (∃ pk, point_from_wire (cfg_state_signing_key sample_cfg) = Ok pk)
    as [pk Hpk] by (apply is_ok_value; vm_compute; reflexivity).
  assert (∃ ck, point_from_wire (cfg_clearance_signing_key sample_cfg) = Ok ck)
    as [ck Hck] by (apply is_ok_value; vm_compute; reflexivity).
  destruct (escape_provable sample_cfg sample_state sample_blinding pk ck sample_key 0%N
    (vreplicate 20 x01) sample_root sample_path sample_state_ok) as (public & wire & H1 & H2 & _).
  - vm_compute; reflexivity.
  - vm_compute; reflexivity.
  - exact Hpk.
  - exact Hck.
  - exact (toy_proves sample_key).
  - vm_compute; reflexivity.
  - exists public, wire. split; [exact H1|exact H2].
Defined.
