(* ===== verification/Browser.v ===== *)
(** * The browser wallet ([zkapi-browser]: lib.rs)

    The storage-free wallet: every operation takes a state snapshot and returns
    the next one, and errors are [anyhow] messages.  [Module browser] keeps the
    crate's names apart from the native wallet's.  The proofs show that the two
    wallets accept the same responses and build the same requests and
    withdrawals, so the guarantees of the native wallet carry over. *)
From S2P Require Import Prelude Felt Types Group Ark CoreV2 Merkle Groth16 Circuit Compact.
From S2P Require Import Client Wallet WalletSpec.

Module browser.

(** ** Data *)

Record BrowserWalletConfig : Type := {
  bc_protocol_version : Z;
  bc_chain_id : Z;
  bc_contract_address : Felt252;
  bc_request_charge_cap : Z;
  bc_policy_charge_cap : Z;
  bc_policy_enabled : bool;
  bc_state_signing_key : CurvePointWire;
  bc_clearance_signing_key : CurvePointWire;
}.

(** Field for field the [NoteState] of the native wallet. *)
Definition BrowserNoteState : Type := NoteState.

(** Unlike the native journal, the prepared request is not optional. *)
Record PendingRequestJournal : Type := {
  bj_exists : bool;
  bj_client_request_id : string;
  bj_nullifier : Felt252;
  bj_payload_hash : Felt252;
  bj_user_rerandomization : Felt252;
  bj_created_at_ms : Z;
  bj_prepared_request : ApiRequestV2;
}.

Record DepositParams : Type := { dp_secret : Felt252; dp_registration_commitment : Felt252 }.

Record ConfirmDepositArgs : Type := {
  ca_secret : Felt252; ca_note_id : Z; ca_amount : Z; ca_expiry_ts : Z;
}.

Record PrepareRequestArgs : Type := {
  pa_payload : string;
  pa_active_root : Felt252;
  pa_merkle_siblings : list Felt252;
  pa_client_request_id : string;
  pa_request_time : Z;
  pa_created_at_ms : Z;
}.

Record PreparedRequest : Type := { pr_request : ApiRequestV2; pr_journal : PendingRequestJournal }.

Record CompleteResponseArgs : Type := {
  cr_state : BrowserNoteState;
  cr_journal : PendingRequestJournal;
  cr_response : RequestResponseV2;
}.

Record PrepareWithdrawalArgs : Type := {
  wa_mode : string;
  wa_destination : string;
  wa_active_root : Felt252;
  wa_merkle_siblings : list Felt252;
  wa_clearance : option ClearanceResponseV2;
}.

Record WithdrawalPlan : Type := {
  pl_mode : string;
  pl_public_inputs : WithdrawalPublicInputsV2;
  pl_siblings : list Felt252;
  pl_proof : Groth16ProofWire;
}.

Record BrowserNoteStatus : Type := {
  st_note_id : Z;
  st_deposit_amount : Z;
  st_current_balance : Z;
  st_expiry_ts : Z;
  st_is_genesis : bool;
  st_current_anchor : Felt252;
  st_current_commitment_x : Felt252;
  st_current_commitment_y : Felt252;
}.

Record BrowserWalletStatus : Type := {
  bs_has_note : bool; bs_pending_request : bool; bs_note : option BrowserNoteStatus;
}.

Record TreeSnapshot : Type := {
  ts_root : Felt252; ts_next_note_id : Z; ts_leaves : list Felt252;
}.

Record BrowserTreePath : Type := {
  tp_active_root : Felt252; tp_note_id : Z; tp_siblings : list Felt252;
}.

(** ** Strings *)

(** [s.trim().is_empty()]: every character is [White_Space], on UTF-8 bytes. *)
Fixpoint blank (l : list byte) : bool :=
  match l with
  | [] => true
  | (x09 | x0a | x0b | x0c | x0d | x20) :: l => blank l
  | xc2 :: (x85 | xa0) :: l => blank l
  | xe1 :: x9a :: x80 :: l => blank l
  | xe2 :: x80 :: (x80 | x81 | x82 | x83 | x84 | x85 | x86 | x87 | x88 | x89 | x8a | xa8 | xa9
                   | xaf) :: l => blank l
  | xe2 :: x81 :: x9f :: l => blank l
  | xe3 :: x80 :: x80 :: l => blank l
  | _ => false
  end.

(** [std::str::from_utf8] on two bytes. *)
Definition utf8_pair (b c : byte) : bool :=
  ((byte_val b <? 128) && (byte_val c <? 128))%Z
  || ((194 <=? byte_val b) && (byte_val b <? 224))%Z && is_cont c.

(** The loop over [raw.as_bytes().as_chunks::<2>()]. *)
Fixpoint parse_chunks (l : list byte) (n : nat) : result string (vec byte n) :=
  match n, l with
  | O, _ => Ok [#]
  | S m, b :: c :: l =>
      _ ← guard_err (negb (utf8_pair b c)) "address is not UTF-8";
      v ← map_err (λ _, "address contains non-hex characters") (u8_from_str_radix16 [b; c]);
      vs ← parse_chunks l m;
      Ok (v ::: vs)
  | _, _ => Panic
  end.

Definition parse_address (value : string) : result string (vec byte 20) :=
  let raw := strip_prefix_or (str_bytes "0x") (str_bytes value) in
  _ ← guard_err (negb (bool_decide (length raw = 40))) "destination must be a 20-byte hex address";
  parse_chunks raw 20.

Section ops.
Context {A : Ark} {KC : Keccak} {ST : groth16.Statics} {PS : ProofSystem}.

(** ** Checks *)

Definition validate_state_identity (config : BrowserWalletConfig) (secret : Felt252) (amount : Z) :
  result string () :=
  _ ← guard_err (negb (bc_protocol_version config =? 2)%Z)
        ("unsupported protocol version " +:+ pretty (bc_protocol_version config));
  _ ← guard_err (is_zero (bc_contract_address config) || is_zero secret || (amount =? 0)%Z)
        "deposit identity contains a zero value";
  Ok tt.

Definition validate_state (config : BrowserWalletConfig) (state : BrowserNoteState) :
  result string () :=
  _ ← guard_err
        (negb (ns_protocol_version state =? bc_protocol_version config)%Z
         || negb (ns_chain_id state =? bc_chain_id config)%Z
         || negb (bool_decide (ns_contract_address state = bc_contract_address config)))
        "wallet state belongs to a different zkAPI deployment";
  validate_state_identity config (ns_secret_s state) (ns_deposit_amount state).

Definition ensure_stored_commitment (state : BrowserNoteState) (commitment : CurvePointWire) :
  result string () :=
  guard_err (negb (bool_decide (cp_x commitment = ns_current_commitment_x state))
             || negb (bool_decide (cp_y commitment = ns_current_commitment_y state)))
    "persisted balance commitment is inconsistent".

Definition parse_scalar (value : string) : result string Felt252 :=
  map_err (λ error, "invalid balance blinding: " +:+ error) (from_hex value).

Definition siblings_array (values : list Felt252) : result string (vec Felt252 MERKLE_DEPTH) :=
  ok_or (vec_of_list MERKLE_DEPTH values)
    ("expected " +:+ pretty MERKLE_DEPTH +:+ " Merkle siblings, got " +:+ pretty (length values)).

Definition state_note_leaf (state : BrowserNoteState) : Felt252 :=
  note_leaf (ns_note_id state) (registration_commitment (ns_secret_s state))
    (ns_deposit_amount state) (ns_expiry_ts state).

(** ** Tree paths *)

(** The loop [for (index, leaf) in leaves.enumerate() { tree.set_leaf(..) }]. *)
Fixpoint set_leaves (t : MerkleTree) (index : Z) (leaves : list Felt252) : MerkleTree :=
  match leaves with
  | [] => t
  | leaf :: leaves => set_leaves (set_leaf t (wrap 32 index) leaf) (index + 1) leaves
  end.

Definition tree_path (snapshot : TreeSnapshot) (note_id : Z) (require_existing : bool) :
  result string BrowserTreePath :=
  _ ← guard_err (negb (Z.of_nat (length (ts_leaves snapshot)) =? ts_next_note_id snapshot)%Z)
        "tree snapshot leaf count does not match next_note_id";
  _ ← guard_err
        ((require_existing && (ts_next_note_id snapshot <=? note_id)%Z)
         || (negb require_existing && negb (note_id =? ts_next_note_id snapshot)%Z))
        "requested note index is inconsistent with the tree snapshot";
  let tree := set_leaves Merkle.new 0 (ts_leaves snapshot) in
  _ ← guard_err (negb (bool_decide (Merkle.root tree = ts_root snapshot)))
        "tree snapshot root verification failed";
  Ok {| tp_active_root := ts_root snapshot; tp_note_id := note_id;
        tp_siblings := vec_to_list (get_siblings tree note_id) |}.

(** ** Deposits *)

(** The loop draws field elements until one is non-zero; the draws are given. *)
Fixpoint generate_deposit_params (draws : list Fr) : option DepositParams :=
  match draws with
  | [] => None
  | x :: draws =>
      let secret := felt x in
      if negb (is_zero secret)
      then Some {| dp_secret := secret;
                   dp_registration_commitment := registration_commitment secret |}
      else generate_deposit_params draws
  end.

Definition confirm_deposit (config : BrowserWalletConfig) (args : ConfirmDepositArgs)
  (random_scalar : Sc) : result string BrowserNoteState :=
  _ ← validate_state_identity config (ca_secret args) (ca_amount args);
  let blinding := scalar_to_felt random_scalar in
  let commitment := balance_commitment (ca_amount args) blinding
    (note_leaf (ca_note_id args) (registration_commitment (ca_secret args)) (ca_amount args)
       (ca_expiry_ts args)) in
  Ok {| ns_protocol_version := bc_protocol_version config;
        ns_chain_id := bc_chain_id config;
        ns_contract_address := bc_contract_address config;
        ns_note_id := ca_note_id args;
        ns_secret_s := ca_secret args;
        ns_deposit_amount := ca_amount args;
        ns_expiry_ts := ca_expiry_ts args;
        ns_current_balance := ca_amount args;
        ns_balance_blinding := to_hex blinding;
        ns_current_commitment_x := cp_x commitment;
        ns_current_commitment_y := cp_y commitment;
        ns_current_anchor := ONE;
        ns_is_genesis := true;
        ns_state_signature := None |}.

Definition wallet_status (state : option BrowserNoteState)
  (journal : option PendingRequestJournal) : BrowserWalletStatus := {|
  bs_has_note := bool_decide (is_Some state);
  bs_pending_request := match journal with Some entry => bj_exists entry | None => false end;
  bs_note := (λ state, {|
    st_note_id := ns_note_id state;
    st_deposit_amount := ns_deposit_amount state;
    st_current_balance := ns_current_balance state;
    st_expiry_ts := ns_expiry_ts state;
    st_is_genesis := ns_is_genesis state;
    st_current_anchor := ns_current_anchor state;
    st_current_commitment_x := ns_current_commitment_x state;
    st_current_commitment_y := ns_current_commitment_y state |}) <$> state;
|}.

(** ** Requests *)

Definition prepare_request_with_prover (config : BrowserWalletConfig) (state : BrowserNoteState)
  (args : PrepareRequestArgs) (prover : ProvingKey) (random_scalar : Sc) (rng : N) :
  result string PreparedRequest :=
  _ ← validate_state config state;
  _ ← guard_err (blank (str_bytes (pa_client_request_id args))) "client_request_id is required";
  siblings ← siblings_array (pa_merkle_siblings args);
  payload_hash ← canonical_payload_hash (str_bytes (pa_payload args));
  let solvency_bound := if bc_policy_enabled config then bc_policy_charge_cap config
                        else bc_request_charge_cap config in
  _ ← guard_err (ns_current_balance state <? solvency_bound)%Z
        ("insufficient balance: need " +:+ pretty solvency_bound +:+ ", have "
         +:+ pretty (ns_current_balance state));
  current_blinding ← parse_scalar (ns_balance_blinding state);
  let current := balance_commitment (ns_current_balance state) current_blinding
    (state_note_leaf state) in
  _ ← ensure_stored_commitment state current;
  let rerandomization := scalar_to_felt random_scalar in
  anonymous ← rerandomize current rerandomization;
  let nullifier := nullifier (ns_secret_s state) (ns_current_anchor state) in
  request_context ← canonical_request_context (pa_client_request_id args) payload_hash;
  let public_inputs := {|
    rp2_protocol_version := ns_protocol_version state;
    rp2_chain_id := ns_chain_id state;
    rp2_contract_address := ns_contract_address state;
    rp2_active_root := pa_active_root args;
    rp2_state_signing_key_x := cp_x (bc_state_signing_key config);
    rp2_state_signing_key_y := cp_y (bc_state_signing_key config);
    rp2_request_time := pa_request_time args;
    rp2_solvency_bound := solvency_bound;
    rp2_request_nullifier := nullifier;
    rp2_authorization_tag := authorization_tag nullifier request_context;
    rp2_anonymous_commitment_x := cp_x anonymous;
    rp2_anonymous_commitment_y := cp_y anonymous |} in
  proof ← map_err (λ _, "generate request proof")
    (request_prove prover public_inputs {|
       rd_secret := ns_secret_s state;
       rd_request_context := request_context;
       rd_note_id := ns_note_id state;
       rd_deposit_amount := ns_deposit_amount state;
       rd_expiry := ns_expiry_ts state;
       rd_merkle_siblings := siblings;
       rd_current_balance := ns_current_balance state;
       rd_current_blinding := current_blinding;
       rd_rerandomization := rerandomization;
       rd_current_anchor := ns_current_anchor state;
       rd_is_genesis := ns_is_genesis state;
       rd_state_signature := ns_state_signature state |} rng);
  let request := {|
    ar2_client_request_id := pa_client_request_id args;
    ar2_payload := pa_payload args;
    ar2_payload_hash := payload_hash;
    ar2_public_inputs := public_inputs;
    ar2_proof := proof |} in
  Ok {| pr_request := request;
        pr_journal := {|
          bj_exists := true;
          bj_client_request_id := pa_client_request_id args;
          bj_nullifier := nullifier;
          bj_payload_hash := payload_hash;
          bj_user_rerandomization := rerandomization;
          bj_created_at_ms := pa_created_at_ms args;
          bj_prepared_request := request |} |}.

Definition prepare_request (config : BrowserWalletConfig) (state : BrowserNoteState)
  (args : PrepareRequestArgs) (proving_key : list byte) (random_scalar : Sc) (rng : N) :
  result string PreparedRequest :=
  prover ← request_prover_from_bytes proving_key;
  prepare_request_with_prover config state args prover random_scalar rng.

(** ** Responses *)

Definition complete_response (config : BrowserWalletConfig) (args : CompleteResponseArgs) :
  result string BrowserNoteState :=
  let state := cr_state args in
  _ ← validate_state config state;
  let response := cr_response args in
  let journal := cr_journal args in
  _ ← guard_err
        (negb (bj_exists journal)
         || negb (bool_decide (rr2_client_request_id response = bj_client_request_id journal))
         || negb (bool_decide (rr2_request_nullifier response = bj_nullifier journal)))
        "response request identity mismatch";
  computed ← canonical_response_hash (str_bytes (rr2_response_payload response));
  _ ← guard_err (negb (bool_decide (computed = rr2_response_hash response)))
        "response payload hash mismatch";
  let cap := rp2_solvency_bound (ar2_public_inputs (bj_prepared_request journal)) in
  _ ← guard_err ((cap <? rr2_charge_applied response)%Z || is_zero (rr2_next_anchor response))
        "invalid charge or next anchor";
  current_blinding ← parse_scalar (ns_balance_blinding state);
  let current := balance_commitment (ns_current_balance state) current_blinding
    (state_note_leaf state) in
  _ ← ensure_stored_commitment state current;
  anonymous ← rerandomize current (bj_user_rerandomization journal);
  expected ← server_update anonymous (rr2_charge_applied response) (rr2_blind_delta_srv response);
  _ ← guard_err (negb (bool_decide (expected = rr2_next_commitment response)))
        "next commitment algebra mismatch";
  let message := state_message (ns_protocol_version state) (ns_chain_id state)
    (ns_contract_address state) (cp_x (rr2_next_commitment response))
    (cp_y (rr2_next_commitment response)) (rr2_next_anchor response) in
  ok ← verify_signature (bc_state_signing_key config) message
         (rr2_next_state_signature response);
  _ ← guard_err (negb ok) "invalid next-state signature";
  let next_blinding := add_blindings (add_blindings current_blinding
    (bj_user_rerandomization journal)) (rr2_blind_delta_srv response) in
  _ ← guard_err (ns_current_balance state <? rr2_charge_applied response)%Z
        "charge exceeds balance";
  Ok {| ns_protocol_version := ns_protocol_version state;
        ns_chain_id := ns_chain_id state;
        ns_contract_address := ns_contract_address state;
        ns_note_id := ns_note_id state;
        ns_secret_s := ns_secret_s state;
        ns_deposit_amount := ns_deposit_amount state;
        ns_expiry_ts := ns_expiry_ts state;
        ns_current_balance := ns_current_balance state - rr2_charge_applied response;
        ns_balance_blinding := to_hex next_blinding;
        ns_current_commitment_x := cp_x (rr2_next_commitment response);
        ns_current_commitment_y := cp_y (rr2_next_commitment response);
        ns_current_anchor := rr2_next_anchor response;
        ns_is_genesis := false;
        ns_state_signature := Some (rr2_next_state_signature response) |}.

(** ** Withdrawals *)

Definition withdrawal_nullifier (state : BrowserNoteState) : Felt252 :=
  nullifier (ns_secret_s state) (ns_current_anchor state).

(** The clearance the two modes need: a checked signature, or none. *)
Definition check_clearance (config : BrowserWalletConfig) (state : BrowserNoteState)
  (nullifier : Felt252) (has_clearance : bool) (clearance : option ClearanceResponseV2) :
  result string (option SchnorrSignature) :=
  if has_clearance then
    clearance ← ok_or clearance "mutual withdrawal requires server clearance";
    _ ← guard_err (negb (bool_decide (cr2_withdrawal_nullifier clearance = nullifier)))
          "clearance nullifier mismatch";
    let message := clearance_message (ns_protocol_version state) (ns_chain_id state)
      (ns_contract_address state) nullifier in
    ok ← verify_signature (bc_clearance_signing_key config) message (cr2_signature clearance);
    _ ← guard_err (negb ok) "invalid clearance signature";
    Ok (Some (cr2_signature clearance))
  else
    _ ← guard_err (bool_decide (is_Some clearance)) "escape withdrawal must not include clearance";
    Ok None.

Definition parse_mode (mode : string) : result string bool :=
  if bool_decide (mode = "mutual") then Ok true
  else if bool_decide (mode = "escape") then Ok false
  else Err "withdrawal mode must be mutual or escape".

Definition prepare_withdrawal (config : BrowserWalletConfig) (state : BrowserNoteState)
  (args : PrepareWithdrawalArgs) (proving_key : list byte) (rng : N) :
  result string WithdrawalPlan :=
  _ ← validate_state config state;
  has_clearance ← parse_mode (wa_mode args);
  destination ← parse_address (wa_destination args);
  siblings ← siblings_array (wa_merkle_siblings args);
  let nullifier := withdrawal_nullifier state in
  clearance_signature ← check_clearance config state nullifier has_clearance (wa_clearance args);
  let destination_field := Felt (vreplicate 12 x00 +++ destination) in
  let public_inputs := {|
    wp2_protocol_version := ns_protocol_version state;
    wp2_chain_id := ns_chain_id state;
    wp2_contract_address := ns_contract_address state;
    wp2_active_root := wa_active_root args;
    wp2_state_signing_key_x := cp_x (bc_state_signing_key config);
    wp2_state_signing_key_y := cp_y (bc_state_signing_key config);
    wp2_clearance_signing_key_x := cp_x (bc_clearance_signing_key config);
    wp2_clearance_signing_key_y := cp_y (bc_clearance_signing_key config);
    wp2_note_id := ns_note_id state;
    wp2_final_balance := ns_current_balance state;
    wp2_destination := destination;
    wp2_withdrawal_nullifier := nullifier;
    wp2_has_clearance := has_clearance;
    wp2_withdrawal_tag :=
      withdrawal_tag nullifier destination_field (ns_current_balance state) has_clearance |} in
  prover ← withdrawal_prover_from_bytes proving_key;
  final_blinding ← parse_scalar (ns_balance_blinding state);
  proof ← map_err (λ _, "generate withdrawal proof")
    (withdrawal_prove prover public_inputs {|
       wd_secret := ns_secret_s state;
       wd_deposit_amount := ns_deposit_amount state;
       wd_expiry := ns_expiry_ts state;
       wd_merkle_siblings := siblings;
       wd_final_blinding := final_blinding;
       wd_current_anchor := ns_current_anchor state;
       wd_is_genesis := ns_is_genesis state;
       wd_state_signature := ns_state_signature state;
       wd_clearance_signature := clearance_signature |} rng);
  Ok {| pl_mode := wa_mode args; pl_public_inputs := public_inputs;
        pl_siblings := wa_merkle_siblings args; pl_proof := proof |}.
End ops.

(** ** The browser wallet and the native wallet *)

Section refinement.
Context {A : Ark} {KC : Keccak} {ST : groth16.Statics} {PS : ProofSystem}.

(** The native configuration a browser configuration stands for, with [bound]
    as the charge cap. *)
Definition wallet_config (c : BrowserWalletConfig) (bound : Z) : ClientConfig := {|
  cfg_protocol_version := bc_protocol_version c; cfg_chain_id := bc_chain_id c;
  cfg_contract_address := bc_contract_address c; cfg_request_charge_cap := bound;
  cfg_policy_charge_cap := 0; cfg_policy_enabled := false; cfg_server_url := "";
  cfg_state_dir := ""; cfg_trusted_epoch_roots := []; cfg_setup_dir := "";
  cfg_state_signing_key := bc_state_signing_key c;
  cfg_clearance_signing_key := bc_clearance_signing_key c |}.

Definition config_bound (c : BrowserWalletConfig) : Z :=
  if bc_policy_enabled c then bc_policy_charge_cap c else bc_request_charge_cap c.

Definition wallet_journal (j : PendingRequestJournal) : Client.PendingRequestJournal := {|
  pj_exists := bj_exists j; pj_client_request_id := bj_client_request_id j;
  pj_nullifier := bj_nullifier j; pj_payload_hash := bj_payload_hash j;
  pj_user_rerandomization := bj_user_rerandomization j;
  pj_created_at_ms := bj_created_at_ms j;
  pj_prepared_request := Some (bj_prepared_request j) |}.

(** The bound the pending request proved its balance against. *)
Definition proved_bound (j : PendingRequestJournal) : Z :=
  rp2_solvency_bound (ar2_public_inputs (bj_prepared_request j)).

Lemma browser_parse_scalar_Ok v x : parse_scalar v = Ok x ↔ from_hex v = Ok x.
Proof. apply map_err_Ok. Qed.

Lemma native_parse_scalar v x : Wallet.parse_scalar v = Ok x ↔ parse_scalar v = Ok x.
Proof. by rewrite browser_parse_scalar_Ok, Wallet.parse_scalar_Ok. Qed.

Lemma native_ensure s c u :
  Wallet.ensure_stored_commitment s c = Ok u ↔ ensure_stored_commitment s c = Ok u.
Proof. unfold Wallet.ensure_stored_commitment, ensure_stored_commitment, guard_err. by destruct (_ || _), u. Qed.

Lemma native_siblings l v : Wallet.siblings_array l = Ok v ↔ siblings_array l = Ok v.
Proof. unfold Wallet.siblings_array, siblings_array. by rewrite !ok_or_Ok. Qed.

Lemma Ok_any {E E' X} (x y : X) : @Ok E X x = Ok y → @Ok E' X x = Ok y.
Proof. by intros [= ->]. Qed.

(** The hash-to-field functions never return an error value. *)
Lemma hash_any_error {E E'} d p h :
  hash_bytes_to_felt (E := E) d p = Ok h → hash_bytes_to_felt (E := E') d p = Ok h.
Proof. unfold hash_bytes_to_felt. by rewrite !expect_Ok. Qed.

Lemma complete_agrees c s j r n :
  complete_response c {| cr_state := s; cr_journal := j; cr_response := r |} = Ok n ↔
  validate_state c s = Ok tt ∧ bj_exists j = true ∧
  complete_decide (wallet_config c (proved_bound j)) s (wallet_journal j) r = Ok n.
Proof.
  unfold complete_response, complete_decide, next_state, canonical_response_hash.
  cbn [cr_state cr_journal cr_response]. split.
  - intros H. apply result_bind_Ok in H as ([] & Hv & H). split; [done|].
    apply result_bind_Ok in H as ([] & Hid & H).
    apply guard_err_Ok, orb_false_iff in Hid as [[Hex Hid]%orb_false_iff Hnul].
    split; [by apply negb_false_iff|].
    apply result_bind_Ok in H as (h & Hh%(hash_any_error (E' := ClientError)) & H).
    apply result_bind_Ok in H as ([] & Hheq%guard_err_Ok & H).
    apply result_bind_Ok in H as ([] & Hcap%guard_err_Ok & H).
    apply result_bind_Ok in H as (x & Hx%native_parse_scalar & H).
    apply result_bind_Ok in H as ([] & Hst%native_ensure & H).
    apply result_bind_Ok in H as (an & Han & H).
    apply result_bind_Ok in H as (ex & Hex' & H).
    apply result_bind_Ok in H as ([] & Hexeq%guard_err_Ok & H).
    apply result_bind_Ok in H as (ok & Hok & H).
    apply result_bind_Ok in H as ([] & Hokt%guard_err_Ok & H).
    apply result_bind_Ok in H as ([] & Hle%guard_err_Ok & H).
    rewrite Hx. ok_step. unfold Wallet.state_note_leaf, state_note_leaf in *. rewrite Hst. ok_step.
    cbn [wallet_journal pj_user_rerandomization pj_client_request_id pj_nullifier].
    rewrite Han. ok_step. rewrite Hid, Hnul. ok_step. rewrite Hh. ok_step. rewrite Hheq. ok_step.
    cbn [wallet_config cfg_policy_enabled cfg_request_charge_cap cfg_state_signing_key].
    unfold proved_bound. rewrite Hcap. ok_step. rewrite Hex'. ok_step. rewrite Hexeq. ok_step.
    ok_step. rewrite Hok. ok_step. rewrite Hokt. ok_step. rewrite Hx. ok_step. rewrite Hle. ok_step.
    exact (Ok_any _ _ H).
  - intros (Hv & Hex & H).
    apply result_bind_Ok in H as (x & Hx%native_parse_scalar & H).
    apply result_bind_Ok in H as ([] & Hst%native_ensure & H).
    apply result_bind_Ok in H as (an & Han%map_err_Ok & H).
    apply result_bind_Ok in H as ([] & Hid%guard_err_Ok & H).
    apply result_bind_Ok in H as (h & Hh%(hash_any_error (E' := string)) & H).
    apply result_bind_Ok in H as ([] & Hheq%guard_err_Ok & H).
    apply result_bind_Ok in H as ([] & Hcap%guard_err_Ok & H).
    apply result_bind_Ok in H as (ex & Hex'%map_err_Ok & H).
    apply result_bind_Ok in H as ([] & Hexeq%guard_err_Ok & H). cbn [ok_or] in H. rewrite result_Ok_bind in H.
    apply result_bind_Ok in H as (ok & Hok%map_err_Ok & H).
    apply result_bind_Ok in H as ([] & Hokt%guard_err_Ok & H).
    apply result_bind_Ok in H as (x' & Hx'%native_parse_scalar & H).
    assert (x' = x) as -> by congruence.
    apply result_bind_Ok in H as ([] & Hle%guard_err_Ok & H).
    rewrite Hv. ok_step. rewrite Hex. cbn [negb orb]. cbn [wallet_journal pj_client_request_id pj_nullifier] in Hid.
    rewrite Hid. ok_step. rewrite Hh. ok_step. rewrite Hheq. ok_step.
    cbn [wallet_config cfg_policy_enabled cfg_request_charge_cap] in Hcap. unfold proved_bound in Hcap.
    rewrite Hcap. ok_step. rewrite Hx. ok_step.
    unfold Wallet.state_note_leaf, state_note_leaf in *. rewrite Hst. ok_step.
    cbn [wallet_journal pj_user_rerandomization] in Han.
    cbn [wallet_config cfg_state_signing_key] in Hok.
    rewrite Han. ok_step. rewrite Hex'. ok_step. rewrite Hexeq. ok_step. rewrite Hok. ok_step.
    rewrite Hokt. ok_step. rewrite Hle. ok_step.
    exact (Ok_any _ _ H).
Qed.

(** The wallet's view of one browser preparation. *)
Definition prepare_env (a : PrepareRequestArgs) (prover : ProvingKey) (x : Sc) (rng : N) :
  PrepareEnv := {|
  pe_rerandomization := x; pe_uuid := pa_client_request_id a;
  pe_now_seconds := pa_request_time a; pe_now_seconds_journal := 0;
  pe_request_key := Ok prover; pe_rng := rng |}.

Lemma prepare_agrees c s a prover x rng p :
  prepare_request_with_prover c s a prover x rng = Ok p →
  validate_state c s = Ok tt ∧ blank (str_bytes (pa_client_request_id a)) = false ∧
  canonical_payload_hash (E := string) (str_bytes (pa_payload a))
    = Ok (ar2_payload_hash (pr_request p)) ∧
  bj_prepared_request (pr_journal p) = pr_request p ∧
  ∃ j', build_request (wallet_config c (config_bound c)) s (prepare_env a prover x rng)
          (pa_payload a) (ar2_payload_hash (pr_request p)) (pa_active_root a)
          (pa_merkle_siblings a) = Ok (pr_request p, j') ∧
    pj_client_request_id j' = bj_client_request_id (pr_journal p) ∧
    pj_nullifier j' = bj_nullifier (pr_journal p) ∧
    pj_user_rerandomization j' = bj_user_rerandomization (pr_journal p).
Proof.
  intros H. unfold prepare_request_with_prover, canonical_payload_hash, canonical_request_context in H.
  apply result_bind_Ok in H as ([] & Hv & H).
  apply result_bind_Ok in H as ([] & Hb%guard_err_Ok & H).
  apply result_bind_Ok in H as (sb & Hs%native_siblings & H).
  apply result_bind_Ok in H as (ph & Hph & H).
  apply result_bind_Ok in H as ([] & Hbal%guard_err_Ok & H).
  apply result_bind_Ok in H as (b & Hx%native_parse_scalar & H).
  apply result_bind_Ok in H as ([] & Hst%native_ensure & H).
  apply result_bind_Ok in H as (an & Han & H).
  apply result_bind_Ok in H as (ctx & Hctx%(hash_any_error (E' := ClientError)) & H).
  apply result_bind_Ok in H as (proof & Hproof%map_err_Ok & H).
  assert (p = ltac:(match type of H with Ok ?m = _ => exact m end)) as -> by congruence. clear H.
  cbn [pr_request pr_journal bj_prepared_request ar2_payload_hash bj_client_request_id
       bj_nullifier bj_user_rerandomization].
  split; [done|]. split; [done|]. split; [exact Hph|]. split; [done|].
  eexists. split.
  - unfold build_request, prepare_public, prepare_witness, canonical_request_context, solvency_bound.
    cbn [wallet_config cfg_policy_enabled cfg_request_charge_cap cfg_state_signing_key prepare_env
         pe_rerandomization pe_uuid pe_now_seconds pe_request_key pe_rng pe_now_seconds_journal].
    unfold config_bound. rewrite Hbal. ok_step. rewrite Hs. ok_step. rewrite Hx. ok_step.
    unfold Wallet.state_note_leaf, state_note_leaf in *. rewrite Hst. ok_step.
    rewrite Han. ok_step. rewrite Hctx. ok_step. ok_step. rewrite Hproof. ok_step. reflexivity.
  - done.
Qed.

Lemma withdrawal_agrees c s a key rng pl :
  prepare_withdrawal c s a key rng = Ok pl →
  validate_state c s = Ok tt ∧ pl_siblings pl = wa_merkle_siblings a ∧
  ∃ hc dest prover sig,
    parse_mode (wa_mode a) = Ok hc ∧ parse_address (wa_destination a) = Ok dest ∧
    withdrawal_prover_from_bytes key = Ok prover ∧
    check_clearance c s (withdrawal_nullifier s) hc (wa_clearance a) = Ok sig ∧
    build_withdrawal (wallet_config c (config_bound c)) (Some s) (Ok prover) rng dest
      (wa_active_root a) (wa_merkle_siblings a) hc sig
    = Ok (pl_public_inputs pl, pl_proof pl).
Proof.
  intros H. unfold prepare_withdrawal in H.
  apply result_bind_Ok in H as ([] & Hv & H).
  apply result_bind_Ok in H as (hc & Hhc & H).
  apply result_bind_Ok in H as (dest & Hdest & H).
  apply result_bind_Ok in H as (sb & Hs%native_siblings & H).
  apply result_bind_Ok in H as (sig & Hsig & H).
  apply result_bind_Ok in H as (prover & Hp & H).
  apply result_bind_Ok in H as (x & Hx%native_parse_scalar & H).
  apply result_bind_Ok in H as (proof & Hproof%map_err_Ok & H).
  assert (pl = ltac:(match type of H with Ok ?m = _ => exact m end)) as -> by congruence. clear H.
  cbn [pl_siblings pl_public_inputs pl_proof].
  split; [done|]. split; [done|]. exists hc, dest, prover, sig. repeat (split; [done|]).
  unfold build_withdrawal. ok_step. ok_step. rewrite Hs. ok_step. rewrite Hx. ok_step.
  unfold withdrawal_public. cbn [wallet_config cfg_state_signing_key cfg_clearance_signing_key].
  unfold withdrawal_nullifier in Hproof. rewrite Hproof. ok_step. reflexivity.
Qed.
End refinement.

(** ** Snapshots of the tree *)

Section trees.
Context {A : Ark}.

(** The leaf vector of a snapshot as the tree's leaves. *)
Definition leaf_at (leaves : list Felt252) (i : Z) : Felt252 :=
  if decide (0 ≤ i)%Z then default ZERO (leaves !! Z.to_nat i) else ZERO.

Lemma set_leaves_reach t i leaves :
  tree_reach t → (0 ≤ i)%Z → tree_reach (set_leaves t i leaves).
Proof.
  revert t i. induction leaves as [|leaf leaves IH]; intros t i Ht Hi; [done|].
  cbn [set_leaves]. apply IH; [|lia]. apply reach_set; [done|]. by apply wrap_fits.
Qed.

Lemma set_leaves_get t i leaves k :
  tree_reach t → (0 ≤ i)%Z → (i + length leaves ≤ 2 ^ 32)%Z →
  get_leaf (set_leaves t i leaves) k =
    if decide (i ≤ k < i + length leaves)%Z then leaf_at leaves (k - i) else get_leaf t k.
Proof.
  revert t i. induction leaves as [|leaf leaves IH]; intros t i Ht Hi Hlen; cbn [set_leaves].
  - rewrite decide_False; [done|]. cbn. lia.
  - cbn [length] in Hlen |- *. rewrite Nat2Z.inj_succ in *.
    assert (wrap 32 i = i) as Hw by (unfold wrap; rewrite Z.mod_small; lia).
    rewrite Hw. assert (tree_reach (set_leaf t i leaf)) as Ht'.
    { apply reach_set; [done|]. split; lia. }
    rewrite IH by (done || lia). destruct (tree_reach_wf t Ht) as (Hwf & _).
    rewrite get_leaf_set by done. unfold leaf_at.
    destruct (decide (k = i)) as [->|Hne].
    + rewrite decide_False by lia. rewrite !decide_True by lia. by rewrite Z.sub_diag.
    + destruct (decide (i + 1 ≤ k < i + 1 + length leaves)%Z).
      * rewrite !decide_True by lia.
        replace (Z.to_nat (k - i)) with (S (Z.to_nat (k - (i + 1)))) by lia. done.
      * rewrite decide_False by lia. done.
Qed.

Lemma set_leaves_root leaves :
  (length leaves ≤ 2 ^ 32)%Z →
  Merkle.root (set_leaves Merkle.new 0 leaves) = ref_root (leaf_at leaves).
Proof.
  intros Hl. pose proof (set_leaves_reach Merkle.new 0 leaves reach_new (Z.le_refl 0)) as Hr.
  rewrite root_ref by (apply tree_reach_wf; exact Hr). apply ref_root_ext. intros i [Hi _].
  rewrite set_leaves_get by (apply reach_new || lia). rewrite Z.sub_0_r, get_leaf_new.
  destruct (decide _) as [H|H]; [done|]. unfold leaf_at. rewrite decide_True by done.
  by rewrite lookup_ge_None_2 by lia.
Qed.
End trees.

(** ** Properties *)

Section properties.
Context {A : Ark} {KC : Keccak} {ST : groth16.Statics} {PS : ProofSystem}.

(** C20. The browser completes a response exactly when the state passes its own
    validation, the snapshot has a pending journal, and the native wallet, with
    the bound proved by the pending request as its cap, decides to install it,
    and with the same next state; so a valid state stays valid, moves by the
    charge alone, and an honest answer to the pending request is accepted. *)
Theorem browser_complete_refines c s j r :
  let cfg := wallet_config c (proved_bound j) in
  let result := complete_response c {| cr_state := s; cr_journal := j; cr_response := r |} in
  (∀ n, result = Ok n ↔ validate_state c s = Ok tt ∧ bj_exists j = true ∧
     complete_decide cfg s (wallet_journal j) r = Ok n) ∧
  (state_ok cfg s → response_ok r → ∀ n, result = Ok n → state_ok cfg n ∧ next_of cfg s r n) ∧
  (∀ x seed, state_ok cfg s → validate_state c s = Ok tt → bj_exists j = true →
     from_hex (ns_balance_blinding s) = Ok x →
     bc_state_signing_key c = public_key (from_seed seed) →
     honest_response cfg s (wallet_journal j) x (from_seed seed) r → ∃ n, result = Ok n).
Proof.
  intros cfg result. split; [|split].
  - intros n. apply complete_agrees.
  - intros Hs Hr n (_ & _ & Hd)%complete_agrees.
    destruct (complete_decide_sound cfg s _ r n Hs Hr Hd) as (H1 & H2 & _). by split.
  - intros x seed Hs Hv He Hx Hkey Hhon.
    destruct (honest_response_decides cfg s (wallet_journal j) x seed r Hs Hx Hkey Hhon) as [n Hn].
    exists n. by apply complete_agrees.
Qed.

(** C18. A request the browser prepares is one the native wallet would build from
    the same inputs, with the same journalled identifier, nullifier and
    rerandomization, and carries the canonical hash of the payload; the state it
    is made from is valid; the journal remembers exactly that request, its proof
    commits to the configured bound, and the balance covers it: whatever charge
    a completion later accepts against this journal can be paid. *)
Theorem browser_request_refines c s a prover x rng p :
  prepare_request_with_prover c s a prover x rng = Ok p →
  validate_state c s = Ok tt ∧
  bj_prepared_request (pr_journal p) = pr_request p ∧
  proved_bound (pr_journal p) = config_bound c ∧ (config_bound c ≤ ns_current_balance s)%Z ∧
  canonical_payload_hash (E := string) (str_bytes (pa_payload a))
    = Ok (ar2_payload_hash (pr_request p)) ∧
  (∃ j', build_request (wallet_config c (config_bound c)) s (prepare_env a prover x rng)
           (pa_payload a) (ar2_payload_hash (pr_request p)) (pa_active_root a)
           (pa_merkle_siblings a) = Ok (pr_request p, j') ∧
     pj_client_request_id j' = bj_client_request_id (pr_journal p) ∧
     pj_nullifier j' = bj_nullifier (pr_journal p) ∧
     pj_user_rerandomization j' = bj_user_rerandomization (pr_journal p)) ∧
  (∀ r n, complete_response c {| cr_state := s; cr_journal := pr_journal p; cr_response := r |}
            = Ok n → (rr2_charge_applied r ≤ config_bound c)%Z).
Proof.
  intros H. destruct (prepare_agrees _ _ _ _ _ _ _ H) as (Hv & _ & Hph & Hreq & j' & Hb & Hj).
  assert (proved_bound (pr_journal p) = config_bound c ∧
          (config_bound c ≤ ns_current_balance s)%Z) as [Hbound Hcov].
  { unfold proved_bound. rewrite Hreq. clear H Hj. unfold build_request in Hb. res_inv.
    split; [by rewrite <- Hb|]. match goal with H : (_ <? _)%Z = false |- _ => apply Z.ltb_ge in H; exact H end. }
  split_and!; try done; [by exists j'|].
  intros r n (_ & _ & Hd)%complete_agrees. rewrite Hbound in Hd.
  unfold complete_decide, next_state in Hd. res_inv.
  match goal with H : (_ <? rr2_charge_applied r)%Z || _ = false |- _ =>
    apply orb_false_iff in H as [H%Z.ltb_ge _]; exact H end.
Qed.

(** A withdrawal plan of the browser is the native wallet's withdrawal for
    the parsed destination; a mutual plan carries a clearance signature that
    verifies for this nullifier, an escape plan carries none. *)
Theorem browser_withdrawal_refines c s a key rng pl :
  prepare_withdrawal c s a key rng = Ok pl →
  ∃ hc dest prover sig,
    parse_mode (wa_mode a) = Ok hc ∧ parse_address (wa_destination a) = Ok dest ∧
    build_withdrawal (wallet_config c (config_bound c)) (Some s) (Ok prover) rng dest
      (wa_active_root a) (wa_merkle_siblings a) hc sig
    = Ok (pl_public_inputs pl, pl_proof pl) ∧
    wp2_withdrawal_nullifier (pl_public_inputs pl) = withdrawal_nullifier s ∧
    wp2_final_balance (pl_public_inputs pl) = ns_current_balance s ∧
    (if hc then ∃ σ, sig = Some σ ∧
       verify_signature (bc_clearance_signing_key c)
         (clearance_message (ns_protocol_version s) (ns_chain_id s) (ns_contract_address s)
            (withdrawal_nullifier s)) σ = Ok true
     else sig = None).
Proof.
  intros H. destruct (withdrawal_agrees _ _ _ _ _ _ H)
    as (_ & _ & hc & dest & prover & sig & Hm & Ha & _ & Hc & Hb).
  exists hc, dest, prover, sig. split; [done|]. split; [done|]. split; [exact Hb|].
  assert (pl_public_inputs pl = withdrawal_public (wallet_config c (config_bound c)) s dest
            (wa_active_root a) hc) as Hpub.
  { unfold build_withdrawal in Hb. res_inv. congruence. }
  rewrite Hpub. split; [done|]. split; [done|].
  unfold check_clearance in Hc. destruct hc.
  - res_inv. exists (cr2_signature x). split; [congruence|].
    match goal with H : negb ?b = false |- _ => apply negb_false_iff in H as -> end. done.
  - res_inv. congruence.
Qed.

(** C21. Tree snapshots: a path is served exactly for snapshots whose leaves hash
    to the advertised root and for an index in range, and then it verifies the
    leaf of that index (the empty leaf of the next deposit) against the root. *)
Theorem tree_path_spec sn n req :
  fits 32 (ts_next_note_id sn) → fits 32 n →
  ((∃ p, tree_path sn n req = Ok p) ↔
     Z.of_nat (length (ts_leaves sn)) = ts_next_note_id sn ∧
     (if req then n < ts_next_note_id sn else n = ts_next_note_id sn)%Z ∧
     ref_root (leaf_at (ts_leaves sn)) = ts_root sn) ∧
  (∀ p, tree_path sn n req = Ok p →
     tp_active_root p = ts_root sn ∧ tp_note_id p = n ∧
     ∃ sibs : vec Felt252 MERKLE_DEPTH, tp_siblings p = vec_to_list sibs ∧
       verify_membership (ts_root sn) n (leaf_at (ts_leaves sn) n) sibs = true).
Proof.
  intros [Hnx0 Hnx] Hn. unfold tree_path.
  destruct (Z.eqb_spec (Z.of_nat (length (ts_leaves sn))) (ts_next_note_id sn)) as [Hl|Hl];
    cbn [negb guard_err].
  2:{ split; [split; [by intros [p Hp]|by intros [? _]]|by intros p Hp]. }
  rewrite result_Ok_bind, set_leaves_root by lia.
  destruct (bool_decide_reflect (ref_root (leaf_at (ts_leaves sn)) = ts_root sn)) as [Hr|Hr];
    cbn [negb guard_err].
  2:{ split.
      - split; [intros [p Hp]; by destruct (guard_err _ _)|by intros (_ & _ & ?)].
      - intros p Hp. by destruct (guard_err _ _). }
  assert ((req && (ts_next_note_id sn <=? n)%Z)
          || (negb req && negb (n =? ts_next_note_id sn)%Z) = false ↔
          (if req then n < ts_next_note_id sn else n = ts_next_note_id sn)%Z) as Hin.
  { destruct req; cbn [andb orb negb]; [rewrite orb_false_r; apply Z.leb_gt|].
    rewrite negb_false_iff. apply Z.eqb_eq. }
  destruct ((req && _) || _) eqn:Eg; cbn [guard_err].
  { split; [split; [by intros [p Hp]|intros (_ & H & _); by apply Hin in H]|by intros p Hp]. }
  rewrite !result_Ok_bind. split; [split; [intros _; split_and!; [done|by apply Hin|done]|by eexists]|].
  intros p Hp.
  assert (p = ltac:(match type of Hp with Ok ?m = _ => exact m end)) as -> by congruence.
  cbn [tp_active_root tp_note_id tp_siblings]. split; [done|]. split; [done|].
  exists (get_siblings (set_leaves Merkle.new 0 (ts_leaves sn)) n). split; [done|].
  apply verify_membership_true.
  pose proof (set_leaves_reach Merkle.new 0 (ts_leaves sn) reach_new (Z.le_refl 0)) as Hreach.
  destruct (tree_reach_wf _ Hreach) as (Hwf & _).
  assert (get_leaf (set_leaves Merkle.new 0 (ts_leaves sn)) n = leaf_at (ts_leaves sn) n) as <-.
  { rewrite set_leaves_get by (apply reach_new || lia). rewrite Z.sub_0_r, get_leaf_new.
    destruct Hn as [Hn0 Hn]. destruct (decide _) as [H|H]; [done|].
    unfold leaf_at. rewrite decide_True by done. by rewrite lookup_ge_None_2 by lia. }
  rewrite compute_root_get by done. by rewrite set_leaves_root by lia.
Qed.
End properties.

(** ** Witnesses *)

#[local] Existing Instance Toy.
#[local] Existing Instance toy_keccak.
#[local] Existing Instance toy_statics.
#[local] Existing Instance toy_system.

Definition sample_config : BrowserWalletConfig := {|
  bc_protocol_version := 2; bc_chain_id := 1; bc_contract_address := from_u64 99;
  bc_request_charge_cap := 300; bc_policy_charge_cap := 0; bc_policy_enabled := false;
  bc_state_signing_key := public_key (from_seed (from_u64 5));
  bc_clearance_signing_key := public_key (from_seed (from_u64 6)) |}.

Definition sample_pending : PendingRequestJournal := {|
  bj_exists := true; bj_client_request_id := "req-1"; bj_nullifier := sample_nullifier;
  bj_payload_hash := from_u64 1; bj_user_rerandomization := sample_rho;
  bj_created_at_ms := 20000;
  bj_prepared_request := {|
    ar2_client_request_id := "req-1"; ar2_payload := "hi"; ar2_payload_hash := from_u64 1;
    ar2_public_inputs := sample_request_wire;
    ar2_proof := {| gp_backend := Groth16Bn254; gp_proof := "" |} |} |}.

Lemma sample_browser_state_ok :
  state_ok (wallet_config sample_config (proved_bound sample_pending)) sample_state.
Proof. by apply new_from_deposit_ok; repeat split; vm_compute. Qed.

Lemma browser_complete_refines_witness :
  ∃ n, complete_response sample_config {| cr_state := sample_state; cr_journal := sample_pending;
         cr_response := sample_response |} = Ok n ∧
    state_ok (wallet_config sample_config (proved_bound sample_pending)) n ∧
    next_of (wallet_config sample_config (proved_bound sample_pending)) sample_state
      sample_response n.
Proof.
  destruct (browser_complete_refines sample_config sample_state sample_pending sample_response)
    as (_ & Hsafe & _).
  assert (∃ n, complete_response sample_config {| cr_state := sample_state;
      cr_journal := sample_pending; cr_response := sample_response |} = Ok n) as [n Hn]
    by (apply is_ok_value; vm_compute; reflexivity).
  exists n. split; [exact Hn|].
  exact (Hsafe sample_browser_state_ok sample_response_ok n Hn).
Defined.

Definition sample_prepare : PrepareRequestArgs := {|
  pa_payload := "hi"; pa_active_root := sample_root;
  pa_merkle_siblings := vec_to_list sample_path; pa_client_request_id := "req-1";
  pa_request_time := 20; pa_created_at_ms := 20000 |}.

Lemma browser_request_refines_witness :
  ∃ p, prepare_request_with_prover sample_config sample_state sample_prepare sample_key
         (fof 13) 0%N = Ok p ∧
    bj_prepared_request (pr_journal p) = pr_request p ∧ (300 ≤ ns_current_balance sample_state)%Z.
Proof.
  assert (∃ p, prepare_request_with_prover sample_config sample_state sample_prepare sample_key
         (fof 13) 0%N = Ok p) as [p Hp] by (apply is_ok_value; vm_compute; reflexivity).
  destruct (browser_request_refines _ _ _ _ _ _ _ Hp) as (_ & H1 & _ & H2 & _).
  exists p. split; [exact Hp|split; [exact H1|exact H2]].
Defined.

Definition sample_withdrawal : PrepareWithdrawalArgs := {|
  wa_mode := "escape"; wa_destination := "0x1111111111111111111111111111111111111111";
  wa_active_root := sample_root; wa_merkle_siblings := vec_to_list sample_path;
  wa_clearance := None |}.

Lemma browser_withdrawal_refines_witness :
  ∃ pl, prepare_withdrawal sample_config sample_state sample_withdrawal (KEY_HEADER ++ [x00]) 0%N
          = Ok pl ∧
    wp2_withdrawal_nullifier (pl_public_inputs pl) = withdrawal_nullifier sample_state.
Proof.
  assert (∃ pl, prepare_withdrawal sample_config sample_state sample_withdrawal
            (KEY_HEADER ++ [x00]) 0%N = Ok pl) as [pl Hpl]
    by (apply is_ok_value; vm_compute; reflexivity).
  destruct (browser_withdrawal_refines _ _ _ _ _ _ Hpl) as (hc & d & pr & sg & _ & _ & _ & H & _).
  exists pl. split; [exact Hpl|exact H].
Defined.

Definition sample_snapshot : TreeSnapshot := {|
  ts_root := Merkle.root (set_leaves Merkle.new 0 [ONE; from_u64 7]);
  ts_next_note_id := 2; ts_leaves := [ONE; from_u64 7] |}.

Lemma tree_path_spec_witness :
  ∃ p, tree_path sample_snapshot 1 true = Ok p ∧
    ∃ sibs : vec Felt252 MERKLE_DEPTH, tp_siblings p = vec_to_list sibs ∧
      verify_membership (ts_root sample_snapshot) 1 (from_u64 7) sibs = true.
Proof.
  assert (∃ p, tree_path sample_snapshot 1 true = Ok p) as [p Hp]
    by (apply is_ok_value; vm_compute; reflexivity).
  exists p. split; [exact Hp|].
  assert (fits 32 (ts_next_note_id sample_snapshot) ∧ fits 32 1) as [H1 H2] by by repeat split.
  destruct (proj2 (tree_path_spec sample_snapshot 1 true H1 H2) p Hp) as (_ & _ & H).
  exact H.
Defined.

(** The address reader takes a sign as a digit, as [from_str_radix] does. *)
Lemma parse_address_plus :
  parse_address "0x+1111111111111111111111111111111111111+f"
  = parse_address "0x011111111111111111111111111111111111110f".
Proof. vm_compute. reflexivity. Qed.

End browser.
