(* ===== verification/Wasm.v ===== *)
(** * The WebAssembly bindings ([zkapi-browser]: lib.rs, module wasm)

    The exported functions take and return JSON text.  The host page keeps the
    texts; what it can reach with the bindings is a state machine on stored
    texts.  serde_json is an argument: a type has an encoder and a decoder. *)
From S2P Require Import Prelude Felt Types Group Ark CoreV2 Merkle Groth16 Circuit Compact.
From S2P Require Import Client Wallet WalletSpec Browser.
Import browser.

(** [Serialize] and [Deserialize] of one type; [Text] is the JSON document. *)
Class JsonType (Text T : Type) : Type := {
  json_encode : T → result string Text;
  json_decode : Text → result string T;
}.

Section wasm.
Context {A : Ark} {KC : Keccak} {ST : groth16.Statics} {PS : ProofSystem}.
Context {Text : Type} {J1 : JsonType Text BrowserWalletConfig} {J2 : JsonType Text BrowserNoteState}
  {J3 : JsonType Text PendingRequestJournal} {J4 : JsonType Text DepositParams}
  {J5 : JsonType Text ConfirmDepositArgs} {J6 : JsonType Text PrepareRequestArgs}
  {J7 : JsonType Text PreparedRequest} {J8 : JsonType Text CompleteResponseArgs}
  {J9 : JsonType Text PrepareWithdrawalArgs} {J10 : JsonType Text WithdrawalPlan}
  {J11 : JsonType Text BrowserWalletStatus} {J12 : JsonType Text TreeSnapshot}
  {J13 : JsonType Text BrowserTreePath} {J14 : JsonType Text Felt252}.

Definition browser_circuit_id : string := CIRCUIT_ID.

Definition browser_generate_deposit (params : DepositParams) : result string Text := json_encode params.

Definition browser_confirm_deposit (config_json args_json : Text) (random_scalar : Sc)
  : result string Text :=
  config ← json_decode config_json;
  args ← json_decode args_json;
  state ← confirm_deposit config args random_scalar;
  json_encode state.

(** [opt.as_deref().map(decode).transpose()]. *)
Definition decode_option {T} `{JsonType Text T} (o : option Text) : result string (option T) :=
  match o with
  | None => Ok None
  | Some text => v ← json_decode text; Ok (Some v)
  end.

Definition browser_wallet_status (state_json journal_json : option Text) : result string Text :=
  state ← decode_option state_json;
  journal ← decode_option journal_json;
  json_encode (wallet_status state journal).

Definition browser_prepare_request (config_json state_json args_json : Text) (proving_key : list byte)
  (random_scalar : Sc) (rng : N) : result string Text :=
  config ← json_decode config_json;
  state ← json_decode state_json;
  args ← json_decode args_json;
  prepared ← prepare_request config state args proving_key random_scalar rng;
  json_encode prepared.

(** [BrowserRequestProver]: the decoded key. *)
Definition BrowserRequestProver : Type := ProvingKey.
Definition BrowserRequestProver_new (proving_key : list byte) : result string BrowserRequestProver :=
  request_prover_from_bytes proving_key.

Definition BrowserRequestProver_prepare_request (prover : BrowserRequestProver)
  (config_json state_json args_json : Text) (random_scalar : Sc) (rng : N) : result string Text :=
  config ← json_decode config_json;
  state ← json_decode state_json;
  args ← json_decode args_json;
  prepared ← prepare_request_with_prover config state args prover random_scalar rng;
  json_encode prepared.

Definition browser_complete_response (config_json args_json : Text) : result string Text :=
  config ← json_decode config_json;
  args ← json_decode args_json;
  state ← complete_response config args;
  json_encode state.

Definition browser_withdrawal_nullifier (state_json : Text) : result string Text :=
  state ← json_decode state_json;
  json_encode (withdrawal_nullifier state).

Definition browser_tree_path (snapshot_json : Text) (note_id : Z) (require_existing : bool)
  : result string Text :=
  snapshot ← json_decode snapshot_json;
  path ← tree_path snapshot note_id require_existing;
  json_encode path.

Definition browser_prepare_withdrawal (config_json state_json args_json : Text)
  (proving_key : list byte) (rng : N) : result string Text :=
  config ← json_decode config_json;
  state ← json_decode state_json;
  args ← json_decode args_json;
  plan ← prepare_withdrawal config state args proving_key rng;
  json_encode plan.

(** ** The page *)

(** What the page stores: the state's text, and the pending journal's. *)
Record Page : Type := { pg_state : option Text; pg_journal : option Text }.

(** One call of a binding by the page, and what the page stores of it.  The
    arguments of a completion are the stored state, the stored journal and the
    server's answer.  Failed calls and read-only ones store nothing. *)
Inductive page_step (config_json : Text) : Page → Page → Prop :=
| page_deposit page args_json random_scalar state_json :
    pg_state page = None →
    browser_confirm_deposit config_json args_json random_scalar = Ok state_json →
    page_step config_json page {| pg_state := Some state_json; pg_journal := None |}
| page_prepare page state_json args_json proving_key random_scalar rng prepared_json prepared journal_json :
    pg_state page = Some state_json → pg_journal page = None →
    browser_prepare_request config_json state_json args_json proving_key random_scalar rng
      = Ok prepared_json →
    json_decode prepared_json = Ok prepared → json_encode (pr_journal prepared) = Ok journal_json →
    page_step config_json page {| pg_state := Some state_json; pg_journal := Some journal_json |}
| page_complete page state_json journal_json args_json args next_json :
    pg_state page = Some state_json → pg_journal page = Some journal_json →
    json_decode args_json = Ok args → json_decode state_json = Ok (cr_state args) →
    json_decode journal_json = Ok (cr_journal args) →
    browser_complete_response config_json args_json = Ok next_json →
    page_step config_json page {| pg_state := Some next_json; pg_journal := None |}
| page_forget page : page_step config_json page {| pg_state := pg_state page; pg_journal := None |}
| page_archive page : page_step config_json page {| pg_state := None; pg_journal := None |}.

(** The bindings on documents that decode. *)
Lemma prepare_binding cj sj aj key rnd rng c s a p text :
  json_decode cj = Ok c → json_decode sj = Ok s → json_decode aj = Ok a →
  prepare_request c s a key rnd rng = Ok p → json_encode p = Ok text →
  browser_prepare_request cj sj aj key rnd rng = Ok text.
Proof.
  intros Hc Hs Ha Hp He. unfold browser_prepare_request.
  by rewrite Hc, result_Ok_bind, Hs, result_Ok_bind, Ha, result_Ok_bind, Hp.
Qed.

Lemma complete_binding cj aj c a n text :
  json_decode cj = Ok c → json_decode aj = Ok a → complete_response c a = Ok n →
  json_encode n = Ok text → browser_complete_response cj aj = Ok text.
Proof.
  intros Hc Ha Hn He. unfold browser_complete_response.
  by rewrite Hc, result_Ok_bind, Ha, result_Ok_bind, Hn.
Qed.

(** What serde promises: a state reads back as its hexadecimal fields do, and
    decoded arguments have integers of their width and canonical field elements. *)
Hypothesis state_reads_back : ∀ (s s' : BrowserNoteState) text,
  json_encode s = Ok text → reload_state s = Ok s' → json_decode text = Ok s'.
Hypothesis deposit_args_typed : ∀ text (a : ConfirmDepositArgs), json_decode text = Ok a →
  canonical (ca_secret a) ∧ fits 32 (ca_note_id a) ∧ fits 128 (ca_amount a) ∧ fits 64 (ca_expiry_ts a).
Hypothesis response_typed : ∀ text (a : CompleteResponseArgs), json_decode text = Ok a →
  response_ok (cr_response a).

Lemma state_ok_bound c b b' s : state_ok (wallet_config c b) s → state_ok (wallet_config c b') s.
Proof. intros []. by split. Qed.

Lemma validate_state_identity_of c s : validate_state c s = Ok tt ↔
  ns_protocol_version s = bc_protocol_version c ∧ ns_chain_id s = bc_chain_id c ∧
  ns_contract_address s = bc_contract_address c ∧
  validate_state_identity c (ns_secret_s s) (ns_deposit_amount s) = Ok tt.
Proof.
  unfold validate_state. split.
  - intros H. res_inv. bool_facts. done.
  - intros (-> & -> & -> & Hv). rewrite !Z.eqb_refl, bool_decide_true by done. exact Hv.
Qed.

(** The stored state decodes to a valid state of the configuration. *)
Definition page_ok (c : BrowserWalletConfig) (page : Page) : Prop :=
  ∀ text, pg_state page = Some text →
    ∃ s : BrowserNoteState, json_decode text = Ok s ∧ state_ok (wallet_config c 0) s ∧ validate_state c s = Ok tt.

Lemma stored_ok c b (s : BrowserNoteState) text page :
  json_encode s = Ok text → pg_state page = Some text → state_ok (wallet_config c b) s →
  validate_state c s = Ok tt → page_ok c page.
Proof.
  intros He Hp Hs Hv text' Ht. rewrite Hp in Ht. injection Ht as <-. exists s.
  split; [eapply state_reads_back; [exact He|by eapply state_ok_reload]|].
  split; [by eapply state_ok_bound|exact Hv].
Qed.

Lemma deposit_ok c a rnd s : config_ok (wallet_config c 0) → confirm_deposit c a rnd = Ok s →
  canonical (ca_secret a) → fits 32 (ca_note_id a) → fits 128 (ca_amount a) → fits 64 (ca_expiry_ts a) →
  state_ok (wallet_config c 0) s ∧ validate_state c s = Ok tt.
Proof.
  intros [C1 C2 C3] Hd T1 T2 T3 T4. unfold confirm_deposit in Hd.
  apply result_bind_Ok in Hd as ([] & Hid & Hd). injection Hd as <-. split.
  - by apply (new_from_deposit_ok (wallet_config c 0)).
  - by apply validate_state_identity_of.
Qed.

Lemma completion_deployment c a n : complete_response c a = Ok n →
  ns_protocol_version n = ns_protocol_version (cr_state a) ∧
  ns_chain_id n = ns_chain_id (cr_state a) ∧ ns_contract_address n = ns_contract_address (cr_state a).
Proof. unfold complete_response. intros Hd. res_inv. by subst n. Qed.

Lemma completion_ok c a n : complete_response c a = Ok n → response_ok (cr_response a) →
  state_ok (wallet_config c 0) (cr_state a) → validate_state c (cr_state a) = Ok tt →
  state_ok (wallet_config c 0) n ∧ validate_state c n = Ok tt.
Proof.
  intros Hd Hr Hs Hv. destruct (completion_deployment c a n Hd) as (E1 & E2 & E3).
  destruct a as [s j r]. cbn [cr_state cr_response] in *.
  apply complete_agrees in Hd as (_ & _ & Hd).
  apply complete_decide_sound in Hd as (Hn & Hnext & _); [|by eapply state_ok_bound|done].
  split; [by eapply state_ok_bound|]. apply validate_state_identity_of in Hv as (V1 & V2 & V3 & V4).
  destruct (nx_identity _ _ _ _ Hnext) as (_ & E4 & E5 & _).
  apply validate_state_identity_of. rewrite E1, E2, E3, E4, E5. by split_and!.
Qed.

Lemma page_step_ok c config_json page page' :
  json_decode config_json = Ok c → config_ok (wallet_config c 0) →
  page_step config_json page page' → page_ok c page → page_ok c page'.
Proof.
  intros Hc Hcfg Hstep Hp. destruct Hstep as
    [page aj rnd sj _ Hd|page sj aj key rnd rng pj p jj Hs _ _ _ _|page sj jj aj a nj Hs _ Ha Hst _ Hd|page|page].
  - unfold browser_confirm_deposit in Hd. rewrite Hc, result_Ok_bind in Hd.
    apply result_bind_Ok in Hd as (a & Ha & Hd). apply result_bind_Ok in Hd as (s & Hd & He).
    destruct (deposit_args_typed _ _ Ha) as (T1 & T2 & T3 & T4).
    destruct (deposit_ok c a rnd s Hcfg Hd T1 T2 T3 T4) as [Hok Hv].
    by eapply stored_ok.
  - intros text Ht. apply Hp. by rewrite Hs.
  - unfold browser_complete_response in Hd. rewrite Hc, Ha, !result_Ok_bind in Hd.
    apply result_bind_Ok in Hd as (n & Hd & He). destruct (Hp _ Hs) as (s & Hs' & Hok & Hv).
    assert (s = cr_state a) as -> by congruence.
    destruct (completion_ok c a n Hd (response_typed _ _ Ha) Hok Hv) as [Hok' Hv'].
    by eapply stored_ok.
  - exact Hp.
  - by intros text.
Qed.

(** C19. Whatever a page does with the bindings - deposits, preparations,
    completions with any answers and any journals, forgotten journals, archived
    states, failed calls - the state text it stores always decodes, and decodes
    to a valid state of its configuration: integers of their width, the
    commitment opening at the balance, the balance within the deposit, genesis
    or signed by the pinned key, and accepted by the module's own check. *)
Theorem wasm_page_valid c config_json page :
  json_decode config_json = Ok c → config_ok (wallet_config c 0) →
  rtc (page_step config_json) {| pg_state := None; pg_journal := None |} page → page_ok c page.
Proof.
  intros Hc Hcfg Hsteps.
  assert (page_ok c {| pg_state := None; pg_journal := None |}) as H0 by done.
  revert H0. generalize ({| pg_state := None; pg_journal := None |} : Page) Hsteps. clear Hsteps.
  induction 1 as [|p1 p2 p3 Hstep _ IH]; [done|]. intros Hp. apply IH. by eapply page_step_ok.
Qed.
End wasm.

(** ** Witness: a page that deposits, prepares and completes *)
#[local] Existing Instance Toy.
#[local] Existing Instance toy_keccak.
#[local] Existing Instance toy_statics.
#[local] Existing Instance toy_system.

(** Documents by what they hold. *)
Inductive Doc : Type :=
| DocConfig | DocState (s : BrowserNoteState) | DocJournal (j : PendingRequestJournal)
| DocDepositArgs | DocPrepareArgs | DocPrepared (p : PreparedRequest)
| DocCompleteArgs (j : PendingRequestJournal) | DocOther.

Definition toy_json {T} (encode : T → Doc) (decode : Doc → option T) : JsonType Doc T :=
  {| json_encode := λ v, Ok (encode v); json_decode := λ d, ok_or (decode d) "expected value" |}.

#[local] Instance doc_config : JsonType Doc BrowserWalletConfig :=
  toy_json (λ _, DocConfig) (λ d, match d with DocConfig => Some sample_config | _ => None end).
#[local] Instance doc_state : JsonType Doc BrowserNoteState :=
  toy_json DocState (λ d, match d with DocState s => result_ok (reload_state s) | _ => None end).
#[local] Instance doc_journal : JsonType Doc PendingRequestJournal :=
  toy_json DocJournal (λ d, match d with DocJournal j => Some j | _ => None end).
#[local] Instance doc_deposit_args : JsonType Doc ConfirmDepositArgs :=
  toy_json (λ _, DocDepositArgs) (λ d, match d with
    | DocDepositArgs => Some {| ca_secret := sample_secret; ca_note_id := 3; ca_amount := 1000;
                                ca_expiry_ts := 50 |}
    | _ => None end).
#[local] Instance doc_prepare_args : JsonType Doc PrepareRequestArgs :=
  toy_json (λ _, DocPrepareArgs)
    (λ d, match d with DocPrepareArgs => Some sample_prepare | _ => None end).
#[local] Instance doc_prepared : JsonType Doc PreparedRequest :=
  toy_json DocPrepared (λ d, match d with DocPrepared p => Some p | _ => None end).
#[local] Instance doc_complete_args : JsonType Doc CompleteResponseArgs :=
  toy_json (λ a, DocCompleteArgs (cr_journal a)) (λ d, match d with
    | DocCompleteArgs j => Some {| cr_state := sample_state; cr_journal := j; cr_response := sample_response |}
    | _ => None end).

Lemma state_decodes (s s' : BrowserNoteState) : reload_state s = Ok s' → json_decode (DocState s) = Ok s'.
Proof. intros H. cbn. by rewrite H. Qed.

Definition empty_page : Page (Text := Doc) := {| pg_state := None; pg_journal := None |}.

Lemma toy_page_run : ∃ p n,
  browser_prepare_request DocConfig (DocState sample_state) DocPrepareArgs (KEY_HEADER ++ [x00]) (fof 13) 0%N
    = Ok (DocPrepared p) ∧
  browser_complete_response DocConfig (DocCompleteArgs (pr_journal p)) = Ok (DocState n).
Proof.
  assert (∃ x, (p ← prepare_request sample_config sample_state sample_prepare (KEY_HEADER ++ [x00]) (fof 13) 0%N;
    n ← complete_response sample_config {| cr_state := sample_state; cr_journal := pr_journal p;
          cr_response := sample_response |}; Ok (p, n)) = Ok x) as [x Hx]
    by (apply is_ok_value; vm_compute; reflexivity).
  apply result_bind_Ok in Hx as (p & Hp & Hx). apply result_bind_Ok in Hx as (n & Hn & _).
  exists p, n. split.
  - refine (prepare_binding DocConfig (DocState sample_state) DocPrepareArgs _ _ _ sample_config
      sample_state sample_prepare p (DocPrepared p) eq_refl _ eq_refl Hp eq_refl).
    exact (state_decodes sample_state sample_state (state_ok_reload _ _ sample_browser_state_ok)).
  - exact (complete_binding DocConfig (DocCompleteArgs (pr_journal p)) sample_config _ n (DocState n)
      eq_refl eq_refl Hn eq_refl).
Qed.

Definition page_of (s : BrowserNoteState) (j : option Doc) : Page (Text := Doc) :=
  {| pg_state := Some (DocState s); pg_journal := j |}.

Lemma toy_page_reached : ∃ n, rtc (page_step DocConfig) empty_page (page_of n None).
Proof.
  destruct toy_page_run as (p & n & Hp & Hn). exists n.
  assert (browser_confirm_deposit DocConfig DocDepositArgs (fof 7) = Ok (DocState sample_state)) as Hd
    by (vm_compute; reflexivity).
  eapply rtc_l; [exact (page_deposit DocConfig empty_page _ _ _ eq_refl Hd)|].
  eapply rtc_l; [exact (page_prepare DocConfig (page_of sample_state None) (DocState sample_state) _ _ _ _
    (DocPrepared p) p (DocJournal (pr_journal p)) eq_refl eq_refl Hp eq_refl eq_refl)|].
  eapply rtc_l; [|apply rtc_refl].
  exact (page_complete DocConfig (page_of sample_state (Some (DocJournal (pr_journal p))))
    (DocState sample_state) (DocJournal (pr_journal p)) (DocCompleteArgs (pr_journal p))
    {| cr_state := sample_state; cr_journal := pr_journal p; cr_response := sample_response |}
    (DocState n) eq_refl eq_refl eq_refl
    (state_decodes _ _ (state_ok_reload _ _ sample_browser_state_ok)) eq_refl Hn).
Qed.

Lemma doc_state_reads_back (s s' : BrowserNoteState) text :
  json_encode s = Ok text → reload_state s = Ok s' → json_decode text = Ok s'.
Proof. intros [= <-] Hr. by apply state_decodes. Qed.

Lemma doc_deposit_typed (text : Doc) (a : ConfirmDepositArgs) : json_decode text = Ok a →
  canonical (ca_secret a) ∧ fits 32 (ca_note_id a) ∧ fits 128 (ca_amount a) ∧ fits 64 (ca_expiry_ts a).
Proof. destruct text; try done. intros [= <-]. by repeat split; vm_compute. Qed.

Lemma doc_response_typed (text : Doc) (a : CompleteResponseArgs) :
  json_decode text = Ok a → response_ok (cr_response a).
Proof. destruct text; try done. intros [= <-]. exact sample_response_ok. Qed.

Lemma wasm_page_valid_witness : ∃ n s,
  rtc (page_step DocConfig) empty_page (page_of n None) ∧ reload_state n = Ok s ∧
  state_ok (wallet_config sample_config 0) s.
Proof.
  destruct toy_page_reached as [n H].
  assert (config_ok (wallet_config sample_config 0)) as Hc by by repeat split; vm_compute.
  assert (json_decode DocConfig = Ok sample_config) as Hdec by reflexivity.
  destruct (wasm_page_valid doc_state_reads_back doc_deposit_typed doc_response_typed sample_config DocConfig
    (page_of n None) Hdec Hc H (DocState n) eq_refl) as (s & Hs & Hok & _).
  exists n, s. split; [exact H|]. split; [|exact Hok].
  cbn in Hs. apply ok_or_Ok in Hs. by destruct (reload_state n) as [s'|e|]; [injection Hs as ->|..].
Defined.
