(* ===== verification/Starknet.v ===== *)
(** * The Stark curve libraries, as an interface

    Version 1 of the protocol computes with [starknet-types-core] (the Stark
    field and curve) and [starknet-crypto] (Poseidon).  [Stark] lists what the
    program uses of them and the documented facts it relies on; [ToyStark] is a
    concrete instance for evaluation. *)
From S2P Require Import Prelude Felt Group Ark.

(** The Stark prime [2^251 + 17 * 2^192 + 1] and the order of the curve group. *)
Definition STARK_PRIME : Z := (2 ^ 251 + 17 * 2 ^ 192 + 1)%Z.
Definition STARK_ORDER : Z :=
  3618502788666131213697322783095070105526743751716087489154079457884512865583.

Class Stark : Type := {
  (** [starknet_types_core::felt::Felt]. *)
  SF : Type;
  SF_field :: PrimeField SF;
  SF_modulus : fmodulus SF = STARK_PRIME;
  poseidon_hash_many : list SF → SF;
  stark_poseidon : SF → SF → SF;
  (** [ProjectivePoint], compared as points of the curve. *)
  StarkG : Type;
  StarkG_group :: AbelianGroup StarkG;
  StarkG_eq_dec :: EqDecision StarkG;
  StarkG_order (P : StarkG) : zmul STARK_ORDER P = gzero;
  from_affine : SF → SF → option StarkG;
  point_to_affine : StarkG → option (SF * SF);
  point_to_affine_None P : point_to_affine P = None ↔ P = gzero;
  from_affine_to P x y : point_to_affine P = Some (x, y) → from_affine x y = Some P;
}.

(** ** A concrete instance *)

Definition STARK_PRIME_pos : positive := Eval vm_compute in Z.to_pos STARK_PRIME.
Definition STARK_ORDER_pos : positive := Eval vm_compute in Z.to_pos STARK_ORDER.

Definition toy_SF : PrimeField (modint (Z.pos STARK_PRIME_pos)) :=
  modint_field STARK_PRIME_pos eq_refl.

Definition toy_stark_hash (l : list (modint (Z.pos STARK_PRIME_pos))) :
  modint (Z.pos STARK_PRIME_pos) :=
  modint_of STARK_PRIME_pos
    (foldl (λ acc x, (acc * 33 + mval x + 7) mod Z.pos STARK_PRIME_pos)%Z 5%Z l
     mod (Z.pos STARK_PRIME_pos - 1) + 1)%Z.

Definition ToyStark : Stark.
Proof.
  refine {|
    SF := modint (Z.pos STARK_PRIME_pos); SF_field := toy_SF; SF_modulus := eq_refl;
    poseidon_hash_many := toy_stark_hash;
    stark_poseidon := λ x y, toy_stark_hash [x; y];
    StarkG := modint (Z.pos STARK_ORDER_pos);
    StarkG_group := modint_group STARK_ORDER_pos;
    StarkG_eq_dec := modint_eq_dec (Z.pos STARK_ORDER_pos);
    from_affine := λ x _, Some (modint_of STARK_ORDER_pos (mval x));
    point_to_affine := λ P, if (mval P =? 0)%Z then None
      else Some (modint_of STARK_PRIME_pos (mval P), modint_of STARK_PRIME_pos 1) |}.
  - intros P. rewrite modint_zmul. apply modint_eq. rewrite !mval_of, Z.mul_comm. apply Z_mod_mult.
  - intros P. cbv beta. destruct (Z.eqb_spec (mval P) 0) as [E|E].
    + split; [intros _|done]. apply modint_eq. exact E.
    + split; [done|]. intros ->. by destruct E.
  - intros P x y. cbv beta. destruct (mval P =? 0)%Z; [done|]. intros E. injection E as <- <-.
    f_equal. apply modint_eq. rewrite !mval_of. pose proof (mval_bound P).
    rewrite (Z.mod_small (mval P) (Z.pos STARK_PRIME_pos))
      by (unfold STARK_PRIME_pos, STARK_ORDER_pos in *; lia).
    by apply Z.mod_small.
Defined.

(** The toy hash is never zero. *)
Lemma toy_stark_hash_nonzero l : mval (toy_stark_hash l) ≠ 0%Z.
Proof.
  unfold toy_stark_hash. rewrite mval_of.
  set (x := foldl _ _ _). pose proof (Z.mod_pos_bound x (Z.pos STARK_PRIME_pos - 1) eq_refl).
  rewrite Z.mod_small; lia.
Qed.
