(* ===== verification/CoreV1.v ===== *)
(** * Version 1 messages ([zkapi-core]: poseidon.rs, commitment.rs)

    Conversions between the 32-byte felt and the Stark field, domain-separated
    Poseidon hashes, and the messages the version 1 server signs. *)
From S2P Require Import Prelude Felt Types Group Ark Starknet.

Section v1.
Context {SK : Stark}.

(** ** poseidon.rs *)

Definition felt_to_field (f : Felt252) : SF := fof (be_val (felt_bytes f)).
Definition field_to_felt (f : SF) : Felt252 := Felt (be_bytes 32 (fint f)).

Definition poseidon_hash (domain a b : Felt252) : Felt252 :=
  field_to_felt (poseidon_hash_many [felt_to_field domain; felt_to_field a; felt_to_field b]).

Definition poseidon_hash_chain (domain : Felt252) (inputs : list Felt252) : Felt252 :=
  field_to_felt (poseidon_hash_many (felt_to_field domain :: (felt_to_field <$> inputs))).

Definition poseidon_hash_pair (a b : SF) : SF := stark_poseidon a b.

(** ** commitment.rs *)

Definition compute_state_message (protocol_version chain_id : Z)
  (contract_address commitment_x commitment_y anchor : Felt252) : Felt252 :=
  poseidon_hash_chain DOMAIN_STATE
    [from_u64 protocol_version; from_u64 chain_id; contract_address; commitment_x; commitment_y;
     anchor].

Definition compute_clearance_message (protocol_version chain_id : Z)
  (contract_address withdrawal_nullifier : Felt252) : Felt252 :=
  poseidon_hash_chain DOMAIN_CLEAR
    [from_u64 protocol_version; from_u64 chain_id; contract_address; withdrawal_nullifier].

Definition compute_next_anchor (server_rng request_nullifier next_commitment_x next_commitment_y
  : Felt252) (state_sig_leaf_index : Z) : Felt252 :=
  poseidon_hash_chain DOMAIN_ANCHOR
    [server_rng; request_nullifier; next_commitment_x; next_commitment_y;
     from_u64 state_sig_leaf_index].

Definition compute_blind_delta (server_rng request_nullifier : Felt252)
  (state_sig_leaf_index : Z) : Felt252 :=
  poseidon_hash_chain DOMAIN_BLIND
    [server_rng; request_nullifier; from_u64 state_sig_leaf_index].

(** ** Lemmas *)

Lemma SF_bound (x : SF) : (0 ≤ fint x < STARK_PRIME)%Z.
Proof. rewrite <- SF_modulus. apply fint_bound. Qed.

Lemma v1_felt_val_field_to_felt x : felt_val (field_to_felt x) = fint x.
Proof.
  unfold felt_val, field_to_felt. cbn [felt_bytes]. rewrite be_val_be_bytes, Z.mod_small; [done|].
  pose proof (SF_bound x). assert (STARK_PRIME < 256 ^ 32%nat)%Z by (vm_compute; reflexivity). lia.
Qed.

Lemma v1_felt_to_field_val f : felt_to_field f = fof (felt_val f).
Proof. reflexivity. Qed.

Lemma v1_felt_to_field_to_felt x : felt_to_field (field_to_felt x) = x.
Proof. rewrite v1_felt_to_field_val, v1_felt_val_field_to_felt. apply fof_fint. Qed.

Lemma v1_fields_roundtrip (l : list SF) : felt_to_field <$> (field_to_felt <$> l) = l.
Proof.
  induction l as [|x l IH]; [done|]. by rewrite !fmap_cons, IH, v1_felt_to_field_to_felt.
Qed.

(** Stark field elements are below the BN254 modulus the readers check. *)
Lemma v1_field_to_felt_canonical x : canonical (field_to_felt x).
Proof.
  unfold canonical. rewrite v1_felt_val_field_to_felt. pose proof (SF_bound x).
  assert (STARK_PRIME < FIELD_MODULUS)%Z by (vm_compute; reflexivity). lia.
Qed.

#[export] Instance field_to_felt_inj : Inj (=) (=) field_to_felt.
Proof.
  intros x y E. by rewrite <- (v1_felt_to_field_to_felt x), <- (v1_felt_to_field_to_felt y), E.
Qed.

Lemma poseidon_hash_chain_canonical d l : canonical (poseidon_hash_chain d l).
Proof. apply v1_field_to_felt_canonical. Qed.
End v1.
