(* ===== verification/Pedersen.v ===== *)
(** * Version 1 Pedersen commitments ([zkapi-crypto]: pedersen.rs)

    Balance commitments on the Stark curve, with the double-and-add loop and
    the blinding arithmetic modulo the curve order as the code has them. *)
From S2P Require Import Prelude Felt Types Group Ark Starknet.

Definition CURVE_ORDER_HEX : string :=
  "0800000000000010ffffffffffffffffb781126dcae7b2321e66a241adc64d2f".

(** [BigUint::parse_bytes(.., 16)] on a string of hexadecimal digits. *)
Definition parse_biguint (s : string) : option Z :=
  foldl (λ acc b, a ← acc; d ← hex_digit b; Some (a * 16 + d)%Z) (Some 0%Z) (str_bytes s).

Definition curve_order : Z := default 0%Z (parse_biguint CURVE_ORDER_HEX).

Definition G_BALANCE_X_HEX : string :=
  "02e60e3230fe061dbebac8fd2cfa503e4eb92783aeb5fd6fb931a66ee277e4d3".
Definition G_BALANCE_Y_HEX : string :=
  "039289536a4fb4c04778f51eed313db47730cf86d342fd3f80f27bed1c2febac".
Definition H_BLIND_X_HEX : string :=
  "009ed31288dc3e29f8759144b455aa05f39eee1a947e92fc1a9d71d15ed49faa".
Definition H_BLIND_Y_HEX : string :=
  "073853a56a47d4dbeaf5c18ca78fbf64f414d5fccefaac0227d5c2654d2ca9b4".

(** [Felt::from_hex_unchecked] on a constant. *)
Definition from_hex_unchecked `{SK : Stark} (s : string) : SF :=
  fof (default 0%Z (parse_biguint s)).

(** The [lazy_static] generators, once their constants were accepted as points:
    the first use panics otherwise. *)
Class Generators {SK : Stark} : Type := {
  G_BALANCE : StarkG;
  H_BLIND : StarkG;
  G_BALANCE_point : from_affine (from_hex_unchecked G_BALANCE_X_HEX)
                      (from_hex_unchecked G_BALANCE_Y_HEX) = Some G_BALANCE;
  H_BLIND_point : from_affine (from_hex_unchecked H_BLIND_X_HEX)
                    (from_hex_unchecked H_BLIND_Y_HEX) = Some H_BLIND;
}.

Section pedersen.
Context {SK : Stark} {GN : Generators}.
Local Open Scope group_scope.

(** ** Blinding arithmetic *)

Definition biguint_to_felt (value : Z) : SF := fof (be_val (be_bytes 32 value)).

Definition reduce_blinding (value : SF) : SF := biguint_to_felt (fint value mod curve_order).

Definition add_blinding (a b : SF) : SF := biguint_to_felt ((fint a + fint b) mod curve_order).

(** ** Double and add *)

(** The loop over [scalar.to_bits_le()]. *)
Fixpoint scalar_mul_loop (bits : list bool) (result temp : StarkG) : StarkG :=
  match bits with
  | [] => result
  | bit :: bits => scalar_mul_loop bits (if bit then result + temp else result) (temp + temp)
  end.

Definition scalar_mul (point : StarkG) (scalar : SF) : StarkG :=
  scalar_mul_loop (to_bits 256 (fint scalar)) gzero point.

(** ** Commitments *)

Definition commit (balance : Z) (blinding : SF) : StarkG :=
  scalar_mul G_BALANCE (fof balance) + scalar_mul H_BLIND blinding.

Definition rerandomize (point : StarkG) (rho : SF) : StarkG := point + scalar_mul H_BLIND rho.

Definition server_update (anon_commitment : StarkG) (charge : Z) (blind_delta : SF) : StarkG :=
  anon_commitment - scalar_mul G_BALANCE (fof charge) + scalar_mul H_BLIND blind_delta.

Definition verify_opening (point : StarkG) (balance : Z) (blinding : SF) : bool :=
  bool_decide (point = commit balance blinding).

(** [self.point.to_affine().unwrap()]. *)
Definition to_affine {E} (point : StarkG) : result E (SF * SF) := expect (point_to_affine point).

(** ** Lemmas *)

Lemma scalar_mul_loop_spec bits r t :
  scalar_mul_loop bits r t = r + zmul (bits_val bits) t.
Proof.
  revert r t. induction bits as [|b bits IH]; intros r t; cbn [scalar_mul_loop bits_val].
  - by rewrite zmul_0, gadd_zero_r.
  - rewrite IH, zmul_add, zmul_mul. replace (zmul 2 (zmul (bits_val bits) t))
      with (zmul (bits_val bits) (t + t)).
    2:{ rewrite zmul_distr. change 2%Z with (1 + 1)%Z. by rewrite zmul_add, zmul_1. }
    destruct b; cbn [Z.b2z]; [by rewrite zmul_1, gadd_assoc|].
    by rewrite zmul_0, gadd_zero_l.
Qed.

Lemma SF_fits_256 (x : SF) : (0 ≤ fint x < 2 ^ 256%nat)%Z.
Proof.
  pose proof (fint_bound x) as H. rewrite SF_modulus in H.
  assert (STARK_PRIME < 2 ^ 256%nat)%Z by (vm_compute; reflexivity). lia.
Qed.

Lemma curve_order_value : curve_order = STARK_ORDER.
Proof. vm_compute. reflexivity. Qed.

Lemma fint_biguint v : (0 ≤ v < STARK_ORDER)%Z → fint (biguint_to_felt v) = v.
Proof.
  intros Hv. unfold biguint_to_felt. rewrite be_val_be_bytes.
  assert (STARK_ORDER < STARK_PRIME ∧ STARK_PRIME < 256 ^ 32%nat)%Z as [H1 H2]
    by (split; vm_compute; reflexivity).
  rewrite (Z.mod_small v (256 ^ 32%nat)) by lia. apply fint_small. rewrite SF_modulus. lia.
Qed.

Lemma mod_order_bound z : (0 ≤ z mod STARK_ORDER < STARK_ORDER)%Z.
Proof. apply Z.mod_pos_bound. reflexivity. Qed.

Lemma fint_add_blinding a b : fint (add_blinding a b) = ((fint a + fint b) mod STARK_ORDER)%Z.
Proof. unfold add_blinding. rewrite curve_order_value. apply fint_biguint, mod_order_bound. Qed.

Lemma fint_reduce_blinding a : fint (reduce_blinding a) = (fint a mod STARK_ORDER)%Z.
Proof. unfold reduce_blinding. rewrite curve_order_value. apply fint_biguint, mod_order_bound. Qed.

Lemma scalar_mul_zmul P s : scalar_mul P s = zmul (fint s) P.
Proof.
  unfold scalar_mul. rewrite scalar_mul_loop_spec, gadd_zero_l.
  f_equal. apply bits_val_to_bits, SF_fits_256.
Qed.

Lemma zmul_order_mod z (P : StarkG) : zmul (z mod STARK_ORDER) P = zmul z P.
Proof. apply zmul_mod, StarkG_order. Qed.

(** A [u128] fits the field. *)
Lemma fint_u128 z : fits 128 z → fint (fof z : SF) = z.
Proof.
  intros [H1 H2]. apply fint_small. rewrite SF_modulus.
  assert (2 ^ 128 < STARK_PRIME)%Z by (vm_compute; reflexivity). lia.
Qed.

Lemma commit_zmul b r : fits 128 b → commit b r = zmul b G_BALANCE + zmul (fint r) H_BLIND.
Proof. intros Hb. unfold commit. by rewrite !scalar_mul_zmul, fint_u128. Qed.

Lemma zmul_add_blinding a b (P : StarkG) :
  zmul (fint (add_blinding a b)) P = zmul (fint a) P + zmul (fint b) P.
Proof. rewrite fint_add_blinding, zmul_order_mod. apply zmul_add. Qed.

Lemma rerandomize_commit b r rho :
  fits 128 b → rerandomize (commit b r) rho = commit b (add_blinding r rho).
Proof.
  intros Hb. unfold rerandomize.
  by rewrite !commit_zmul, scalar_mul_zmul, zmul_add_blinding, gadd_assoc by done.
Qed.

Lemma server_update_commit b r charge delta :
  fits 128 b → fits 128 charge → (charge ≤ b)%Z →
  server_update (commit b r) charge delta = commit (b - charge) (add_blinding r delta).
Proof.
  intros Hb Hc Hle. assert (fits 128 (b - charge)) as Hd by (destruct Hb, Hc; split; lia).
  unfold server_update. rewrite !commit_zmul, !scalar_mul_zmul, zmul_add_blinding, fint_u128 by done.
  rewrite zmul_sub. rewrite <- !gadd_assoc. f_equal. rewrite !gadd_assoc. f_equal. apply gadd_comm.
Qed.

(** Version 1 commitments: the double-and-add loop multiplies by the scalar,
    and re-randomisation and the server's update move the opening as the two
    parties compute it: adding blindings modulo the curve order (not the field
    prime) opens the re-randomised and the updated commitment, for every
    balance and charge. *)
Theorem pedersen_update b r rho charge delta :
  fits 128 b → fits 128 charge → (charge ≤ b)%Z →
  (∀ P s, scalar_mul P s = zmul (fint s) P) ∧
  rerandomize (commit b r) rho = commit b (add_blinding r rho) ∧
  (let updated := server_update (rerandomize (commit b r) rho) charge delta in
   let blinding := add_blinding (add_blinding r rho) delta in
   updated = commit (b - charge) blinding ∧
   verify_opening updated (b - charge) blinding = true) ∧
  commit b (reduce_blinding r) = commit b r.
Proof.
  intros Hb Hc Hle. split; [apply scalar_mul_zmul|]. split; [by apply rerandomize_commit|]. split.
  - cbv zeta. rewrite rerandomize_commit, server_update_commit by done. split; [done|].
    unfold verify_opening. by apply bool_decide_eq_true.
  - rewrite !commit_zmul by done. by rewrite fint_reduce_blinding, zmul_order_mod.
Qed.
End pedersen.

(** ** Witness *)
#[local] Existing Instance ToyStark.

Definition toy_generators : Generators.
Proof.
  refine {|
    G_BALANCE := default gzero (from_affine (from_hex_unchecked G_BALANCE_X_HEX)
                                  (from_hex_unchecked G_BALANCE_Y_HEX));
    H_BLIND := default gzero (from_affine (from_hex_unchecked H_BLIND_X_HEX)
                                (from_hex_unchecked H_BLIND_Y_HEX)) |};
  abstract reflexivity.
Defined.
#[local] Existing Instance toy_generators.

Lemma pedersen_update_witness :
  rerandomize (commit 1000 (fof 7)) (fof (STARK_ORDER - 1)) = commit 1000 (fof 6) ∧
  rerandomize (commit 1000 (fof 7)) (fof (STARK_ORDER - 1))
  = commit 1000 (add_blinding (fof 7) (fof (STARK_ORDER - 1))).
Proof.
  split; [apply (modint_eq (p := Z.pos STARK_ORDER_pos)); vm_compute; reflexivity|].
  assert (fits 128 1000 ∧ fits 128 100 ∧ (100 ≤ 1000)%Z) as (H1 & H2 & H3) by by repeat split.
  exact (proj1 (proj2 (pedersen_update 1000 (fof 7) (fof (STARK_ORDER - 1)) 100 (fof 9) H1 H2 H3))).
Defined.
