(* ===== verification/Wots.v ===== *)
(** * WOTS+ one-time signatures ([zkapi-crypto]: wots.rs)

    The hash chains, the base-16 digits with their checksum, signing and the
    recovery of the public key.  Arrays of the source are lists here; their
    lengths are hypotheses of the lemmas. *)
From S2P Require Import Prelude Felt Types Group Ark Starknet CoreV1.

(** ** Digits *)

(** One digit of the message: four bits from bit [8 + 4 i] on. *)
Definition msg_digit (bytes : list byte) (i : nat) : Z :=
  let bit_offset := (8 + i * 4)%nat in
  let byte_idx := (bit_offset / 8)%nat in
  let bit_in_byte := (bit_offset mod 8)%nat in
  let byte_at k := byte_val (default x00 (bytes !! k)) in
  if (bit_in_byte <=? 4)%nat
  then Z.land (Z.shiftr (byte_at byte_idx) (4 - bit_in_byte)%nat) 15
  else Z.lor (Z.land (wrap 8 (Z.shiftl (byte_at byte_idx) (bit_in_byte - 4)%nat)) 15)
             (Z.shiftr (byte_at (S byte_idx)) (12 - bit_in_byte)%nat).

(** The sum of what the digits leave to [w - 1]. *)
Definition checksum (msg_digits : list Z) : Z :=
  foldl (λ cs d, cs + (Z.of_nat WOTS_W - 1 - d))%Z 0%Z msg_digits.

(** The loop [for i in (0..n).rev()], which fills the digits from the last. *)
Fixpoint checksum_digits (n : nat) (cs : Z) (acc : list Z) : list Z :=
  match n with
  | O => acc
  | S n => checksum_digits n (cs / Z.of_nat WOTS_W) (cs mod Z.of_nat WOTS_W :: acc)%Z
  end.

Section wots.
Context {SK : Stark}.

Definition message_to_base_w (message : SF) : list Z * list Z :=
  let bytes := vec_to_list (felt_bytes (field_to_felt message)) in
  let msg_digits := msg_digit bytes <$> seq 0 WOTS_LEN1 in
  (msg_digits, checksum_digits WOTS_LEN2 (checksum msg_digits) []).

(** ** Chains *)

Definition chain_step (value : SF) (step : Z) : SF :=
  poseidon_hash_many [felt_to_field DOMAIN_XMSS_CHAIN; value; fof step].

Fixpoint chain_from (current : SF) (i : Z) (n : nat) : SF :=
  match n with O => current | S n => chain_from (chain_step current i) (i + 1) n end.

Definition chain (value : SF) (start steps : Z) : SF := chain_from value start (Z.to_nat steps).

(** ** Keys and signatures *)

Definition wots_keygen (secret_key : list SF) : list SF :=
  (λ sk, chain sk 0 (Z.of_nat WOTS_W - 1)) <$> secret_key.

Definition wots_pk_to_leaf (public_key : list SF) : SF :=
  poseidon_hash_many (felt_to_field DOMAIN_XMSS_LEAF :: public_key).

(** The two loops: message chains, then checksum chains. *)
Definition wots_sign (secret_key : list SF) (message : SF) : list SF :=
  let '(msg_digits, cs_digits) := message_to_base_w message in
  zip_with (λ sk d, chain sk 0 d) (take WOTS_LEN1 secret_key) msg_digits
  ++ zip_with (λ sk d, chain sk 0 d) (drop WOTS_LEN1 secret_key) cs_digits.

Definition wots_verify (signature : list SF) (message : SF) : list SF :=
  let '(msg_digits, cs_digits) := message_to_base_w message in
  let recover s d := chain s d (Z.of_nat WOTS_W - 1 - d) in
  zip_with recover (take WOTS_LEN1 signature) msg_digits
  ++ zip_with recover (drop WOTS_LEN1 signature) cs_digits.
End wots.

(** ** Lemmas on digits *)

Definition is_digit (d : Z) : Prop := (0 ≤ d < 16)%Z.
Definition nibbles (b : byte) : list Z := [byte_val b / 16; byte_val b mod 16]%Z.

(** The value of a digit string, most significant first. *)
Definition digits_val (l : list Z) : Z := foldl (λ acc d, acc * 16 + d)%Z 0%Z l.

Lemma digits_val_snoc l d : digits_val (l ++ [d]) = (digits_val l * 16 + d)%Z.
Proof. unfold digits_val. by rewrite foldl_app. Qed.

Lemma digits_val_app l k : digits_val (l ++ k) = (digits_val l * 16 ^ length k + digits_val k)%Z.
Proof.
  induction k as [|d k IH] using rev_ind; [rewrite app_nil_r; change (length []) with 0%nat;
    change (digits_val []) with 0%Z; lia|].
  rewrite app_assoc, !digits_val_snoc, IH, length_app, Nat.add_1_r, Nat2Z.inj_succ, Z.pow_succ_r
    by lia. lia.
Qed.

Lemma digits_val_bound l : Forall is_digit l → (0 ≤ digits_val l < 16 ^ length l)%Z.
Proof.
  induction l as [|d l IH] using rev_ind; [by intros _|].
  intros [Hl Hd]%Forall_app. apply Forall_inv in Hd. specialize (IH Hl).
  rewrite digits_val_snoc, last_length, Nat2Z.inj_succ, Z.pow_succ_r by lia.
  unfold is_digit in Hd. lia.
Qed.

Lemma digits_val_inj l k :
  Forall is_digit l → Forall is_digit k → length l = length k →
  digits_val l = digits_val k → l = k.
Proof.
  revert k. induction l as [|d l IH] using rev_ind; intros k Hl Hk Hlen E.
  - by destruct k.
  - destruct k as [|e k _] using rev_ind; [rewrite length_app in Hlen; cbn in Hlen; lia|].
    apply Forall_app in Hl as [Hl Hd%Forall_inv].
    apply Forall_app in Hk as [Hk He%Forall_inv].
    rewrite !digits_val_snoc in E. unfold is_digit in *.
    assert (d = e) as -> by lia. f_equal. apply IH; [done..| |lia].
    rewrite !length_app in Hlen. cbn in Hlen. lia.
Qed.

Lemma nibbles_digits b : Forall is_digit (nibbles b).
Proof.
  pose proof (byte_val_bound b) as Hb. unfold nibbles, is_digit.
  pose proof (Z_div_mod_eq_full (byte_val b) 16). pose proof (Z.mod_pos_bound (byte_val b) 16).
  repeat constructor; lia.
Qed.

Lemma bytes_nibbles l : Forall is_digit (l ≫= nibbles) ∧ digits_val (l ≫= nibbles) = be_val l
  ∧ length (l ≫= nibbles) = (2 * length l)%nat.
Proof.
  induction l as [|b l (IH1 & IH2 & IH3)] using rev_ind; [by repeat split|].
  assert ((l ++ [b]) ≫= nibbles = (l ≫= nibbles) ++ nibbles b) as ->.
  { rewrite bind_app. f_equal. }
  split; [apply Forall_app; split; [done|apply nibbles_digits]|]. split.
  - rewrite digits_val_app, be_val_snoc, IH2. unfold nibbles, digits_val. cbn [foldl length].
    pose proof (Z_div_mod_eq_full (byte_val b) 16).
    change (16 ^ 2%nat)%Z with 256%Z. lia.
  - rewrite !length_app, IH3. unfold nibbles. cbn. lia.
Qed.

Lemma msg_digit_even bytes k :
  msg_digit bytes (2 * k) = (byte_val (default x00 (bytes !! S k)) / 16)%Z.
Proof.
  unfold msg_digit.
  assert ((8 + 2 * k * 4) = S k * 8)%nat as -> by lia.
  rewrite Nat.div_mul, Nat.Div0.mod_mul by lia. cbn [Nat.leb].
  change (4 - 0)%nat with 4%nat. rewrite Z.shiftr_div_pow2 by lia.
  change (2 ^ 4%nat)%Z with 16%Z. change 15%Z with (Z.ones 4). rewrite Z.land_ones by lia.
  apply Z.mod_small. pose proof (byte_val_bound (default x00 (bytes !! S k))) as Hb.
  pose proof (Z_div_mod_eq_full (byte_val (default x00 (bytes !! S k))) 16).
  pose proof (Z.mod_pos_bound (byte_val (default x00 (bytes !! S k))) 16).
  change (2 ^ 4)%Z with 16%Z. lia.
Qed.

Lemma msg_digit_odd bytes k :
  msg_digit bytes (S (2 * k)) = (byte_val (default x00 (bytes !! S k)) mod 16)%Z.
Proof.
  unfold msg_digit.
  assert ((8 + S (2 * k) * 4) = 4 + S k * 8)%nat as -> by lia.
  rewrite Nat.div_add, Nat.Div0.mod_add by lia. change (4 / 8)%nat with 0%nat.
  change (4 mod 8)%nat with 4%nat. cbn [Nat.leb Nat.add].
  change (4 - 4)%nat with 0%nat. change 15%Z with (Z.ones 4). by rewrite Z.land_ones by lia.
Qed.

(** The digits of the message are the nibbles of every byte but the first. *)
Lemma msg_digits_nibbles b l :
  msg_digit (b :: l) <$> seq 0 (2 * length l) = l ≫= nibbles.
Proof.
  induction l as [|c l IH] using rev_ind; [done|].
  rewrite length_app, bind_app, <- IH. cbn [length].
  assert (2 * (length l + 1) = 2 * length l + 2)%nat as -> by lia.
  rewrite seq_app, fmap_app. f_equal.
  - apply list_fmap_ext. intros i k Hi%lookup_seq. unfold msg_digit.
    assert (forall j, j <= length l →
      (b :: l ++ [c]) !! j = (b :: l) !! j)%nat as Hj.
    { intros [|j] ?; [done|]. cbn. apply lookup_app_l. lia. }
    destruct Hi as [-> Hi]. cbv zeta. rewrite Nat.add_0_l.
    assert ((8 + i * 4) / 8 <= length l)%nat.
    { enough ((8 + i * 4) / 8 < S (length l))%nat by lia. apply Nat.Div0.div_lt_upper_bound. lia. }
    destruct (Nat.leb_spec ((8 + i * 4) mod 8) 4); [by rewrite Hj by lia|exfalso].
    pose proof (Nat.Div0.mul_mod_distr_l (2 + i) 2 4) as Hm.
    pose proof (Nat.mod_upper_bound (2 + i) 2 ltac:(done)).
    replace (4 * (2 + i))%nat with (8 + i * 4)%nat in Hm by lia. change (4 * 2)%nat with 8%nat in Hm. lia.
  - cbn [seq fmap list_fmap Nat.add mbind list_bind].
    change (msg_digit (b :: l ++ [c]) <$> [?x]) with [msg_digit (b :: l ++ [c]) x].
    assert ((b :: l ++ [c]) !! S (length l) = Some c) as Hc by by apply (list_lookup_middle l [] c).
    by rewrite msg_digit_even, msg_digit_odd, Hc.
Qed.

(** ** The base-16 encoding of a message *)

Lemma checksum_app l k : checksum (l ++ k) = (checksum l + checksum k)%Z.
Proof.
  unfold checksum. rewrite foldl_app. generalize (foldl (λ cs d, cs + (Z.of_nat WOTS_W - 1 - d)) 0 l)%Z.
  induction k as [|d k IH] using rev_ind; intros z; [cbn; lia|].
  rewrite !foldl_app. cbn [foldl]. rewrite IH. lia.
Qed.

Lemma checksum_bound l : Forall is_digit l → (0 ≤ checksum l ≤ 15 * length l)%Z.
Proof.
  induction l as [|d l IH] using rev_ind; [done|].
  intros [Hl Hd%Forall_inv]%Forall_app. specialize (IH Hl).
  rewrite checksum_app, last_length. unfold is_digit in Hd. cbn -[Z.mul Z.of_nat].
  change (Z.of_nat WOTS_W) with 16%Z. lia.
Qed.

(** Larger digits, smaller checksum; and only equal digits keep it. *)
Lemma checksum_anti l k :
  Forall2 Z.le l k → (checksum k ≤ checksum l)%Z ∧ (checksum k = checksum l → l = k).
Proof.
  induction 1 as [|d e l k Hd _ [IH1 IH2]]; [done|].
  rewrite (checksum_app [d] l : checksum (d :: l) = _), (checksum_app [e] k : checksum (e :: k) = _).
  unfold checksum at 1 3 5 7. cbn [foldl]. split; [lia|]. intros E.
  assert (d = e) as -> by lia. f_equal. apply IH2. lia.
Qed.

Lemma checksum_digits_acc n cs acc : checksum_digits n cs acc = checksum_digits n cs [] ++ acc.
Proof.
  revert cs acc. induction n as [|n IH]; intros cs acc; [done|]. cbn.
  by rewrite IH, (IH _ [_]), <- app_assoc.
Qed.

Lemma checksum_digits_spec n cs : (0 ≤ cs)%Z →
  Forall is_digit (checksum_digits n cs []) ∧ length (checksum_digits n cs []) = n ∧
  digits_val (checksum_digits n cs []) = (cs mod 16 ^ n)%Z.
Proof.
  revert cs. induction n as [|n IH]; intros cs Hcs; [by rewrite Z.mod_1_r|].
  cbn [checksum_digits]. rewrite checksum_digits_acc. change (Z.of_nat WOTS_W) with 16%Z.
  destruct (IH (cs / 16)%Z) as (H1 & H2 & H3); [apply Z.div_pos; lia|].
  pose proof (Z.mod_pos_bound cs 16). split; [|split].
  - apply Forall_app. split; [done|]. repeat constructor; lia.
  - rewrite last_length. by f_equal.
  - rewrite digits_val_snoc, H3, Nat2Z.inj_succ, Z.pow_succ_r, Z.rem_mul_r by lia. lia.
Qed.

Lemma digits_val_mono l k : Forall2 Z.le l k → (digits_val l ≤ digits_val k)%Z.
Proof.
  intros H. unfold digits_val.
  assert (∀ a b, a ≤ b → foldl (λ acc d, acc * 16 + d) a l ≤ foldl (λ acc d, acc * 16 + d) b k)%Z
    as Hg; [|by apply Hg].
  induction H as [|d e l k Hd _ IH]; intros a b Hab; [done|]. cbn. apply IH. lia.
Qed.

Lemma pow_256_31 : (256 ^ 31%nat = 2 ^ 248)%Z.
Proof. vm_compute. reflexivity. Qed.

Lemma msg_digits_spec bytes : length bytes = 32%nat →
  Forall is_digit (msg_digit bytes <$> seq 0 WOTS_LEN1) ∧
  length (msg_digit bytes <$> seq 0 WOTS_LEN1) = WOTS_LEN1 ∧
  digits_val (msg_digit bytes <$> seq 0 WOTS_LEN1) = (be_val bytes mod 2 ^ 248)%Z.
Proof.
  destruct bytes as [|b l]; [done|]. intros Hlen. injection Hlen as Hlen.
  assert (seq 0 WOTS_LEN1 = seq 0 (2 * length l)) as -> by by rewrite Hlen.
  rewrite msg_digits_nibbles. destruct (bytes_nibbles l) as (H1 & H2 & H3).
  split; [done|]. split; [by rewrite H3, Hlen|]. rewrite H2, be_val_cons, Hlen, pow_256_31.
  pose proof (be_val_bound l) as Hb. rewrite Hlen, pow_256_31 in Hb.
  rewrite Z.add_comm, Z_mod_plus_full. symmetry. by apply Z.mod_small.
Qed.

Section wots_lemmas.
Context {SK : Stark}.

Lemma message_digits_spec m :
  Forall is_digit (message_to_base_w m).1 ∧ length (message_to_base_w m).1 = WOTS_LEN1 ∧
  digits_val (message_to_base_w m).1 = (fint m mod 2 ^ 248)%Z.
Proof.
  rewrite <- v1_felt_val_field_to_felt. unfold felt_val.
  apply (msg_digits_spec (felt_bytes (field_to_felt m))). apply length_vec_to_list.
Qed.

Lemma message_checksum_spec m :
  Forall is_digit (message_to_base_w m).2 ∧ length (message_to_base_w m).2 = WOTS_LEN2 ∧
  digits_val (message_to_base_w m).2 = checksum (message_to_base_w m).1 ∧
  (0 ≤ checksum (message_to_base_w m).1 ≤ 930)%Z.
Proof.
  destruct (message_digits_spec m) as (H1 & H2 & _). apply checksum_bound in H1.
  rewrite H2 in H1. change (15 * Z.of_nat WOTS_LEN1)%Z with 930%Z in H1.
  unfold message_to_base_w in *. cbn [fst snd] in *.
  destruct (checksum_digits_spec WOTS_LEN2 _ (proj1 H1)) as (H3 & H4 & H5).
  repeat split; [done..| |lia|lia]. rewrite H5. apply Z.mod_small. split; [lia|].
  change (16 ^ Z.of_nat WOTS_LEN2)%Z with 4096%Z. lia.
Qed.

(** ** Chains compose *)

Lemma chain_from_app v i n k : chain_from (chain_from v i n) (i + n) k = chain_from v i (n + k).
Proof.
  revert v i. induction n as [|n IH]; intros v i; [by rewrite Z.add_0_r|]. cbn [chain_from Nat.add].
  rewrite <- IH. f_equal. lia.
Qed.

Lemma chain_app v d n : (0 ≤ d ≤ n)%Z → chain (chain v 0 d) d (n - d) = chain v 0 n.
Proof.
  intros Hd. unfold chain.
  replace (chain_from (chain_from v 0 (Z.to_nat d)) d) with
    (chain_from (chain_from v 0 (Z.to_nat d)) (0 + Z.to_nat d)%Z) by (f_equal; lia).
  rewrite chain_from_app. f_equal. lia.
Qed.

Lemma recover_chains sks ds : Forall is_digit ds → length sks = length ds →
  zip_with (λ s d, chain s d (Z.of_nat WOTS_W - 1 - d)) (zip_with (λ sk d, chain sk 0 d) sks ds) ds =
  (λ sk, chain sk 0 (Z.of_nat WOTS_W - 1)) <$> sks.
Proof.
  intros Hd. revert sks. induction Hd as [|d ds Hd _ IH]; intros [|sk sks] Hlen; try done.
  cbn [zip_with fmap list_fmap]. rewrite chain_app by (unfold is_digit in Hd;
    change (Z.of_nat WOTS_W - 1)%Z with 15%Z; lia). f_equal. apply IH. cbn in Hlen. lia.
Qed.

Lemma wots_sign_length sk m : length sk = WOTS_LEN → length (wots_sign sk m) = WOTS_LEN.
Proof.
  intros Hsk. destruct (message_digits_spec m) as (_ & H2 & _).
  destruct (message_checksum_spec m) as (_ & H4 & _). unfold wots_sign.
  destruct (message_to_base_w m) as [ds cs]. cbn [fst snd] in *.
  by rewrite length_app, !length_zip_with, length_take, length_drop, Hsk, H2, H4.
Qed.

Lemma wots_verify_sign sk m : length sk = WOTS_LEN →
  wots_verify (wots_sign sk m) m = wots_keygen sk.
Proof.
  intros Hsk. destruct (message_digits_spec m) as (H1 & H2 & _).
  destruct (message_checksum_spec m) as (H3 & H4 & _).
  unfold wots_verify, wots_sign, wots_keygen. destruct (message_to_base_w m) as [ds cs].
  cbn [fst snd] in *.
  assert (length (take WOTS_LEN1 sk) = length ds) as Hl1.
  { rewrite length_take, Hsk, H2. done. }
  assert (length (drop WOTS_LEN1 sk) = length cs) as Hl2.
  { rewrite length_drop, Hsk, H4. done. }
  assert (length (zip_with (λ sk0 d, chain sk0 0 d) (take WOTS_LEN1 sk) ds) = WOTS_LEN1) as Hl.
  { rewrite length_zip_with, Hl1, Nat.min_id. done. }
  rewrite take_app_length', drop_app_length' by (symmetry; exact Hl).
  rewrite !recover_chains by done. by rewrite <- fmap_app, take_drop.
Qed.

(** Digits of a second message that are all at least those of the first are the
    same digits: the checksum goes down when the message goes up. *)
Lemma digits_no_domination m m' :
  Forall2 Z.le ((message_to_base_w m).1 ++ (message_to_base_w m).2)
    ((message_to_base_w m').1 ++ (message_to_base_w m').2) →
  (message_to_base_w m').1 = (message_to_base_w m).1.
Proof.
  intros H. destruct (message_digits_spec m) as (_ & L & _), (message_digits_spec m') as (_ & L' & _).
  destruct (message_checksum_spec m) as (_ & _ & C & _), (message_checksum_spec m') as (_ & _ & C' & _).
  apply Forall2_app_inv in H as [Hd Hc]; [|congruence].
  apply digits_val_mono in Hc. apply checksum_anti in Hd as [Hle Heq]. rewrite C, C' in Hc.
  symmetry. apply Heq. lia.
Qed.
End wots_lemmas.

Section wots_properties.
Context {SK : Stark}.

(** C36. [message_to_base_w] stays within its arrays and widths: 62 message and
    3 checksum digits, every one below [w = 16]; the message digits are the low
    248 bits of the message, most significant first (its top bits are dropped);
    the checksum the code accumulates in a [u32] is at most 930, so the three
    digits hold it entirely. *)
Theorem base_w_bounds (message : SF) :
  let '(msg_digits, cs_digits) := message_to_base_w message in
  Forall (λ d, (0 ≤ d < Z.of_nat WOTS_W)%Z) (msg_digits ++ cs_digits) ∧
  length msg_digits = WOTS_LEN1 ∧ length cs_digits = WOTS_LEN2 ∧
  digits_val msg_digits = (fint message mod 2 ^ 248)%Z ∧
  digits_val cs_digits = checksum msg_digits ∧ (0 ≤ checksum msg_digits ≤ 930)%Z.
Proof.
  destruct (message_digits_spec message) as (H1 & H2 & H3).
  destruct (message_checksum_spec message) as (H4 & H5 & H6 & H7).
  destruct (message_to_base_w message) as [ds cs]. cbn [fst snd] in *.
  split; [by apply Forall_app|done].
Qed.

(** C35. A WOTS+ signature can be moved forward along its chains but not to
    another message: if every one of the 65 digits of [m'] is at least the digit
    of [m] (which is what completing the chains of a signature on [m] to one on
    [m'] takes), then both messages have the same digits, hence agree modulo
    [2^248]; and a signature recovers the public key it was made with. *)
Theorem wots_one_time (sk : list SF) (m m' : SF) :
  length sk = WOTS_LEN →
  wots_verify (wots_sign sk m) m = wots_keygen sk ∧
  (Forall2 Z.le ((message_to_base_w m).1 ++ (message_to_base_w m).2)
     ((message_to_base_w m').1 ++ (message_to_base_w m').2) →
   message_to_base_w m' = message_to_base_w m ∧
   (fint m' mod 2 ^ 248 = fint m mod 2 ^ 248)%Z).
Proof.
  intros Hsk. split; [by apply wots_verify_sign|]. intros H%digits_no_domination. split.
  - unfold message_to_base_w in *. cbn [fst] in H. by rewrite H.
  - by rewrite <- !(proj2 (proj2 (message_digits_spec _))), H.
Qed.
End wots_properties.

Definition toy_secret_key : list (@SF ToyStark) :=
  (λ i, fof (F := @SF ToyStark) (Z.of_nat i + 1)) <$> seq 0 WOTS_LEN.

Lemma wots_one_time_witness :
  length toy_secret_key = WOTS_LEN ∧
  let m := fof (F := @SF ToyStark) 12345 in
  let m' := fof (F := @SF ToyStark) (12345 + 2 ^ 248) in
  m' ≠ m ∧ (fint m' mod 2 ^ 248 = fint m mod 2 ^ 248)%Z ∧
  wots_verify (wots_sign toy_secret_key m) m = wots_keygen toy_secret_key.
Proof.
  split; [reflexivity|]. cbv zeta.
  destruct (wots_one_time (SK := ToyStark) toy_secret_key (fof 12345) (fof (12345 + 2 ^ 248)) eq_refl)
    as [Hv Hd].
  split; [intros E%(f_equal fint); vm_compute in E; discriminate|]. split; [|exact Hv].
  apply Hd. apply (bool_decide_unpack _). vm_compute. exact I.
Defined.

