(* ===== verification/Xmss.v ===== *)
(** * XMSS key pairs ([zkapi-crypto]: xmss.rs)

    The Merkle tree over the WOTS+ public keys, signing with the next leaf or
    with one reserved elsewhere, and stateless verification.  The atomic cursor
    and its lock are the state the operations thread: a call of [sign] runs
    under the lock from start to end. *)
From S2P Require Import Prelude Felt Types Group Ark Merkle Starknet CoreV1 Wots.

(** Only what [1u32 << height] accepts: a larger shift panics. *)
Definition shl1_u32 {E} (height : nat) : result E Z :=
  if (height <? 32)%nat then Ok (2 ^ height)%Z else Panic.

Section xmss.
Context {SK : Stark}.

Definition xmss_node_hash (left_ right_ : SF) : SF :=
  poseidon_hash_many [felt_to_field DOMAIN_XMSS_NODE; left_; right_].

Definition xmss_hash_message (message : Felt252) : SF :=
  poseidon_hash_many [felt_to_field DOMAIN_XMSS_MSG; felt_to_field message].

Record XmssKeypair : Type := {
  xk_secret_keys : list (list SF);
  xk_tree : list (list SF);
  xk_root : SF;
  xk_next_index : Z;
  xk_height : nat;
}.

(** ** Key generation *)

Definition leaf_secret (seed : SF) (i : nat) : list SF :=
  (λ j : nat, poseidon_hash_many [felt_to_field DOMAIN_XMSS_SK; seed; fof i; fof j])
    <$> seq 0 WOTS_LEN.

(** One level from the one below; [prev[i + 1]] is out of range when the level
    has an odd number of nodes. *)
Fixpoint pair_nodes {E} (prev : list SF) : result E (list SF) :=
  match prev with
  | [] => Ok []
  | [_] => Panic
  | a :: b :: rest => nodes ← pair_nodes rest; Ok (xmss_node_hash a b :: nodes)
  end.

Fixpoint build_levels {E} (height : nat) (level : list SF) : result E (list (list SF)) :=
  match height with
  | O => Ok [level]
  | S h => nodes ← pair_nodes level; rest ← build_levels h nodes; Ok (level :: rest)
  end.

Definition node_at (tree : list (list SF)) (level : nat) (i : Z) : option SF :=
  tree !! level ≫= λ nodes, nodes !! Z.to_nat i.

Definition generate_with_height {E} (seed : SF) (height : nat) : result E XmssKeypair :=
  num_leaves ← shl1_u32 height;
  let secret_keys := leaf_secret seed <$> seq 0 (Z.to_nat num_leaves) in
  tree ← build_levels height ((λ sk, wots_pk_to_leaf (wots_keygen sk)) <$> secret_keys);
  root ← expect (node_at tree height 0);
  Ok {| xk_secret_keys := secret_keys; xk_tree := tree; xk_root := root; xk_next_index := 0;
        xk_height := height |}.

Definition generate {E} (seed : SF) : result E XmssKeypair :=
  generate_with_height seed XMSS_TREE_HEIGHT.

Definition root_felt (k : XmssKeypair) : Felt252 := field_to_felt (xk_root k).

(** ** Signing *)

(** The loop [for level in 0..height] that both signing functions run. *)
Fixpoint auth_path_from {E} (tree : list (list SF)) (level n : nat) (node_idx : Z)
  : result E (list Felt252) :=
  match n with
  | O => Ok []
  | S n =>
      sibling ← expect (node_at tree level (Z.lxor node_idx 1));
      rest ← auth_path_from tree (S level) n (node_idx / 2);
      Ok (field_to_felt sibling :: rest)
  end.

(** The tail the two signing functions share. *)
Definition sign_leaf {E} (k : XmssKeypair) (idx : Z) (message : Felt252) : result E XmssSignature :=
  let msg_hash := xmss_hash_message message in
  sk ← expect (xk_secret_keys k !! Z.to_nat idx);
  let wots := wots_sign sk msg_hash in
  path ← auth_path_from (xk_tree k) 0 (xk_height k) idx;
  Ok {| xmss_epoch := 0; xmss_leaf_index := idx; wots_sig := field_to_felt <$> wots;
        auth_path := path |}.

Definition set_next (n : Z) (k : XmssKeypair) : XmssKeypair :=
  {| xk_secret_keys := xk_secret_keys k; xk_tree := xk_tree k; xk_root := xk_root k;
     xk_next_index := n; xk_height := xk_height k |}.

(** [None] when the tree is exhausted.  [build_message] is the caller's closure;
    the cursor has not moved yet when it panics. *)
Definition sign_with_index {E} (build_message : Z → result E Felt252)
  : M XmssKeypair E (option (XmssSignature * Z * Felt252)) :=
  k ← get;
  let idx := xk_next_index k in
  if (2 ^ xk_height k <=? idx)%Z then mret None
  else
    message ← lift (build_message idx);
    _ ← put (set_next (idx + 1) k);
    sig ← lift (sign_leaf k idx message);
    mret (Some (sig, idx, message)).

Definition sign {E} (message : Felt252) : M XmssKeypair E (option (XmssSignature * Z)) :=
  r ← sign_with_index (λ _, Ok message);
  mret ((λ '(sig, index, _), (sig, index)) <$> r).

Definition sign_reserved {E} (index : Z) (message : Felt252)
  : M XmssKeypair E (option XmssSignature) :=
  k ← get;
  if (2 ^ xk_height k <=? index)%Z then mret None
  else if negb (bool_decide (fits 32 (index + 1))) then mret None
  else
    _ ← put (if (xk_next_index k <? index + 1)%Z then set_next (index + 1) k else k);
    sig ← lift (sign_leaf k index message);
    mret (Some sig).

Definition capacity (k : XmssKeypair) : Z := (2 ^ xk_height k)%Z.
Definition remaining (k : XmssKeypair) : Z := (capacity k - xk_next_index k)%Z.
Definition next_index (k : XmssKeypair) : Z := xk_next_index k.
Definition is_exhausted (k : XmssKeypair) : bool := (remaining k =? 0)%Z.

(** ** Verification *)

Fixpoint xmss_walk (current : SF) (idx : Z) (path : list Felt252) : SF :=
  match path with
  | [] => current
  | s :: path =>
      let sibling := felt_to_field s in
      xmss_walk (if (Z.land idx 1 =? 0)%Z then xmss_node_hash current sibling
                 else xmss_node_hash sibling current) (idx / 2) path
  end.

(** [copy_from_slice] panics unless there are exactly [WOTS_LEN] chains. *)
Definition verify_inner {E} (root message : Felt252) (sig : XmssSignature) : result E bool :=
  let msg_hash := xmss_hash_message message in
  let wots_sig_fields := felt_to_field <$> wots_sig sig in
  if negb (length wots_sig_fields =? WOTS_LEN)%nat then Panic
  else
    let leaf := wots_pk_to_leaf (wots_verify wots_sig_fields msg_hash) in
    Ok (bool_decide (field_to_felt (xmss_walk leaf (xmss_leaf_index sig) (auth_path sig)) = root)).

Definition xmss_verify_for_height {E} (root message : Felt252) (sig : XmssSignature) (height : nat)
  : result E bool :=
  match validate_for_height sig height with
  | Ok _ => verify_inner root message sig
  | _ => Ok false
  end.

Definition xmss_verify {E} (root message : Felt252) (sig : XmssSignature) : result E bool :=
  xmss_verify_for_height root message sig (length (auth_path sig)).
End xmss.

Section lemmas.
Context {SK : Stark}.
Implicit Types (k : XmssKeypair) (tree : list (list SF)).

(** ** The tree *)

(** Every node of every level is there, and is the hash of its two children. *)
Definition tree_built tree (h : nat) : Prop :=
  (∀ level i, (level ≤ h)%nat → (0 ≤ i < 2 ^ (h - level)%nat)%Z → is_Some (node_at tree level i)) ∧
  (∀ level i a b, (level < h)%nat → (0 ≤ i)%Z →
     node_at tree level (2 * i) = Some a → node_at tree level (2 * i + 1) = Some b →
     node_at tree (S level) i = Some (xmss_node_hash a b)).

Lemma pow_nat_Z h : Z.to_nat (2 ^ Z.of_nat h) = (2 ^ h)%nat.
Proof. change 2%Z with (Z.of_nat 2). by rewrite <- Nat2Z.inj_pow, Nat2Z.id. Qed.

Lemma pair_nodes_spec E n (prev : list SF) : length prev = (2 * n)%nat →
  ∃ nodes, @pair_nodes _ E prev = Ok nodes ∧ length nodes = n ∧
    ∀ i a b, prev !! (2 * i)%nat = Some a → prev !! (2 * i + 1)%nat = Some b →
      nodes !! i = Some (xmss_node_hash a b).
Proof.
  revert prev. induction n as [|n IH]; intros [|a [|b prev]] Hl; cbn in Hl; try lia.
  - exists []. repeat split. intros i a b H. by rewrite lookup_nil in H.
  - destruct (IH prev) as (nodes & E1 & E2 & E3); [lia|]. cbn [pair_nodes]. rewrite E1.
    exists (xmss_node_hash a b :: nodes). split; [done|]. split; [by f_equal/=|].
    intros [|i] a' b' Ha Hb; [by injection Ha as ->; injection Hb as ->|].
    apply E3.
    + by replace (2 * S i)%nat with (S (S (2 * i))) in Ha by lia.
    + by replace (2 * S i + 1)%nat with (S (S (2 * i + 1))) in Hb by lia.
Qed.

Lemma node_at_cons_0 row tree i : node_at (row :: tree) 0 i = row !! Z.to_nat i.
Proof. done. Qed.

Lemma node_at_cons_S row tree l i : node_at (row :: tree) (S l) i = node_at tree l i.
Proof. done. Qed.

Lemma build_levels_spec E h (leaves : list SF) : length leaves = (2 ^ h)%nat →
  ∃ tree, @build_levels _ E h leaves = Ok tree ∧ tree_built tree h ∧
    ∀ i, node_at tree 0 i = leaves !! Z.to_nat i.
Proof.
  revert leaves. induction h as [|h IH]; intros leaves Hl.
  - exists [leaves]. split; [done|]. split; [|done]. split; [|lia].
    intros [|l] i Hh Hi; [|lia]. cbn in Hi. rewrite node_at_cons_0.
    apply lookup_lt_is_Some. rewrite Hl. cbn. lia.
  - destruct (pair_nodes_spec E (2 ^ h) leaves) as (nodes & E1 & E2 & E3).
    { rewrite Hl, Nat.pow_succ_r'. done. }
    destruct (IH nodes E2) as (tree & T1 & [T2 T3] & T4).
    exists (leaves :: tree). cbn [build_levels]. rewrite E1. cbn. rewrite T1.
    split; [done|]. split; [|done]. split.
    + intros [|l] i Hh Hi.
      * rewrite node_at_cons_0. apply lookup_lt_is_Some. rewrite Hl.
        rewrite Nat.sub_0_r in Hi. rewrite <- pow_nat_Z. lia.
      * rewrite node_at_cons_S. apply T2; [lia|]. by replace (h - l)%nat with (S h - S l)%nat.
    + intros [|l] i a b Hh Hi; [|rewrite !node_at_cons_S; apply T3; lia].
      rewrite node_at_cons_S, !node_at_cons_0, T4.
      replace (Z.to_nat (2 * i)) with (2 * Z.to_nat i)%nat by lia.
      replace (Z.to_nat (2 * i + 1)) with (2 * Z.to_nat i + 1)%nat by lia. apply E3.
Qed.

(** The path collected from a node leads back from that node to the root. *)
Lemma walk_auth_path E tree h n level i v :
  tree_built tree h → (level + n)%nat = h → (0 ≤ i < 2 ^ n)%Z →
  node_at tree level i = Some v →
  ∃ path, @auth_path_from _ E tree level n i = Ok path ∧ length path = n ∧
    Forall canonical path ∧ node_at tree h 0 = Some (xmss_walk v i path).
Proof.
  intros [T1 T2]. revert level i v. induction n as [|n IH]; intros level i v Hl Hi Hv.
  - exists []. replace i with 0%Z in Hv by (cbn in Hi; lia).
    replace level with h in Hv by lia. done.
  - cbn [auth_path_from]. rewrite Nat2Z.inj_succ, Z.pow_succ_r in Hi by lia.
    pose proof (Z_div_mod_eq_full i 2) as Hdm. pose proof (Z.mod_pos_bound i 2) as Hm.
    assert (0 ≤ Z.lxor i 1 < 2 ^ (h - level)%nat)%Z as Hsib.
    { replace (h - level)%nat with (S n) by lia. rewrite Nat2Z.inj_succ, Z.pow_succ_r by lia.
      rewrite lxor_1. destruct (Z.eqb_spec (i mod 2) 0); lia. }
    destruct (T1 level (Z.lxor i 1)) as [s Hs]; [lia|done|]. rewrite Hs. cbn [expect].
    rewrite result_Ok_bind.
    destruct (IH (S level) (i / 2)%Z
      (if (Z.land i 1 =? 0)%Z then xmss_node_hash v s else xmss_node_hash s v))
      as (path & P1 & P2 & P4 & P3); [lia|lia| |].
    + rewrite land_1. rewrite lxor_1 in Hs. destruct (Z.eqb_spec (i mod 2) 0) as [E0|E0].
      * apply T2; [lia|lia|by replace (2 * (i / 2))%Z with i by lia|].
        by replace (2 * (i / 2) + 1)%Z with (i + 1)%Z by lia.
      * apply T2; [lia|lia| |by replace (2 * (i / 2) + 1)%Z with i by lia].
        by replace (2 * (i / 2))%Z with (i - 1)%Z by lia.
    + exists (field_to_felt s :: path). rewrite P1. split; [done|]. split; [by f_equal/=|].
      split; [constructor; [apply v1_field_to_felt_canonical|done]|]. rewrite P3. cbn [xmss_walk]. by rewrite v1_felt_to_field_to_felt.
Qed.

(** ** Key pairs *)

Lemma leaf_secret_length seed i : length (leaf_secret seed i) = WOTS_LEN.
Proof. unfold leaf_secret. by rewrite length_fmap, length_seq. Qed.

#[local] Opaque leaf_secret wots_keygen wots_sign.

Record keypair_ok (seed : SF) (h : nat) k : Prop := {
  ko_height : xk_height k = h;
  ko_small : (h < 32)%nat;
  ko_keys : xk_secret_keys k = leaf_secret seed <$> seq 0 (2 ^ h);
  ko_tree : tree_built (xk_tree k) h;
  ko_leaves : ∀ i, node_at (xk_tree k) 0 i =
    (λ sk, wots_pk_to_leaf (wots_keygen sk)) <$> xk_secret_keys k !! Z.to_nat i;
  ko_root : node_at (xk_tree k) h 0 = Some (xk_root k);
  ko_next : (0 ≤ xk_next_index k ≤ 2 ^ h)%Z;
}.

Lemma generate_ok E seed h : (h < 32)%nat →
  ∃ k, @generate_with_height _ E seed h = Ok k ∧ keypair_ok seed h k ∧ xk_next_index k = 0%Z.
Proof.
  intros Hh. unfold generate_with_height, shl1_u32.
  assert ((h <? 32)%nat = true) as -> by by apply Nat.ltb_lt.
  rewrite result_Ok_bind, pow_nat_Z. cbv zeta.
  edestruct (build_levels_spec E h) as (tree & T1 & T2 & T3); [|rewrite T1].
  { by rewrite !length_fmap, length_seq. }
  rewrite result_Ok_bind. pose proof T2 as [T4 _].
  destruct (T4 h 0%Z) as [r Hr]; [done|rewrite Nat.sub_diag; done|]. rewrite Hr. cbn [expect].
  rewrite result_Ok_bind. eexists. split; [done|]. split; [|done].
  split; cbn; [done..| |done|lia]. intros i. by rewrite T3, list_lookup_fmap.
Qed.

Lemma keypair_ok_next seed h k n : keypair_ok seed h k → (0 ≤ n ≤ 2 ^ h)%Z →
  keypair_ok seed h (set_next n k).
Proof. intros [] Hn. by split. Qed.

Lemma sign_leaf_ok E seed h k idx message : keypair_ok seed h k → (0 ≤ idx < 2 ^ h)%Z →
  ∃ sig, @sign_leaf _ E k idx message = Ok sig ∧ xmss_leaf_index sig = idx ∧ xmss_epoch sig = 0%Z ∧
    length (auth_path sig) = h ∧
    (Forall canonical (wots_sig sig) ∧ Forall canonical (auth_path sig)) ∧
    (∀ E', @xmss_verify _ E' (root_felt k) message sig = Ok true) ∧
    (∀ E', @xmss_verify_for_height _ E' (root_felt k) message sig h = Ok true).
Proof.
  intros [K1 K2 K3 K4 K5 K6 K7] Hi.
  assert (xk_secret_keys k !! Z.to_nat idx = Some (leaf_secret seed (Z.to_nat idx))) as Hsk.
  { rewrite K3, list_lookup_fmap, lookup_seq_lt; [done|]. rewrite <- pow_nat_Z. lia. }
  set (sk := leaf_secret seed (Z.to_nat idx)) in *.
  assert (node_at (xk_tree k) 0 idx = Some (wots_pk_to_leaf (wots_keygen sk))) as Hleaf.
  { by rewrite K5, Hsk. }
  destruct (walk_auth_path E _ h h 0 idx _ K4 eq_refl Hi Hleaf) as (path & P1 & P2 & P4 & P3).
  unfold sign_leaf. rewrite Hsk. cbn [expect]. rewrite result_Ok_bind, K1, P1.
  rewrite result_Ok_bind. eexists. split; [done|]. do 2 (split; [done|]). split; [done|].
  split.
  { split; [|done]. cbn [wots_sig]. apply Forall_fmap, Forall_true. intros x.
    apply v1_field_to_felt_canonical. }
  cut (∀ E', @xmss_verify_for_height _ E' (root_felt k) message
    {| xmss_epoch := 0; xmss_leaf_index := idx;
       wots_sig := field_to_felt <$> wots_sign sk (xmss_hash_message message);
       auth_path := path |} h = Ok true).
  { intros H. split; [|done]. intros E'. unfold xmss_verify. cbn [auth_path]. by rewrite P2. }
  intros E'. unfold xmss_verify_for_height, validate_for_height. cbn [auth_path wots_sig xmss_leaf_index].
  assert (length (wots_sign sk (xmss_hash_message message)) = WOTS_LEN) as Hw.
  { apply wots_sign_length, leaf_secret_length. }
  rewrite length_fmap, Hw, P2, !bool_decide_true by done. cbn [negb].
  assert ((32 <=? h)%nat = false) as -> by (by apply Nat.leb_gt).
  assert ((2 ^ h <=? idx)%Z = false) as -> by (apply Z.leb_gt; lia).
  unfold verify_inner. cbn [wots_sig xmss_leaf_index auth_path].
  rewrite !length_fmap, Hw, Nat.eqb_refl. cbn [negb]. cbv zeta.
  rewrite v1_fields_roundtrip.
  rewrite wots_verify_sign by apply leaf_secret_length.
  rewrite K6 in P3. injection P3 as <-. by rewrite bool_decide_true.
Qed.
End lemmas.

Section properties.
Context {SK : Stark}.

(** The leaves a key pair has signed with, in the order newest first: the key
    pair's state is reached from [generate_with_height] by signing calls. *)
Inductive xmss_used (seed : SF) (h : nat) : XmssKeypair → list Z → Prop :=
| used_new k :
    @generate_with_height _ string seed h = Ok k → xmss_used seed h k []
| used_sign k l build r k' :
    xmss_used seed h k l → @sign_with_index _ string build k = (Ok r, k') →
    xmss_used seed h k' (from_option (λ '(_, idx, _), idx :: l) l r)
| used_reserved k l index message r k' :
    xmss_used seed h k l → (0 ≤ index)%Z →
    @sign_reserved _ string index message k = (Ok r, k') →
    xmss_used seed h k' (from_option (λ _, index :: l) l r).

Lemma sign_with_index_run E seed h k build : keypair_ok seed h k →
  if (xk_next_index k <? 2 ^ h)%Z then
    match build (xk_next_index k) with
    | Ok message => ∃ sig, @sign_leaf _ E k (xk_next_index k) message = Ok sig ∧
        @sign_with_index _ E build k =
        (Ok (Some (sig, xk_next_index k, message)), set_next (xk_next_index k + 1) k)
    | Err e => @sign_with_index _ E build k = (Err e, k)
    | Panic => @sign_with_index _ E build k = (Panic, k)
    end
  else @sign_with_index _ E build k = (Ok None, k).
Proof.
  intros Hk. pose proof Hk as [K1 _ _ _ _ _ K7]. unfold sign_with_index.
  unfold mbind, M_mbind, get, put, lift. rewrite K1. rewrite Z.ltb_antisym.
  destruct (Z.leb_spec (2 ^ h) (xk_next_index k)); [done|]. cbn [negb].
  destruct (build (xk_next_index k)) as [message|e|]; [|done|done].
  destruct (sign_leaf_ok E seed h k (xk_next_index k) message Hk) as (sig & S1 & _); [lia|].
  exists sig. split; [done|]. by rewrite S1.
Qed.

Lemma sign_reserved_run E seed h k index message : keypair_ok seed h k → (0 ≤ index)%Z →
  if (index <? 2 ^ h)%Z then
    ∃ sig, @sign_leaf _ E k index message = Ok sig ∧
      @sign_reserved _ E index message k =
      (Ok (Some sig), set_next (Z.max (xk_next_index k) (index + 1)) k)
  else @sign_reserved _ E index message k = (Ok None, k).
Proof.
  intros Hk Hi. pose proof Hk as [K1 K2 _ _ _ _ K7]. unfold sign_reserved.
  unfold mbind, M_mbind, get, put, lift. rewrite K1. rewrite Z.ltb_antisym.
  destruct (Z.leb_spec (2 ^ h) index); [done|]. cbn [negb].
  assert (2 ^ h ≤ 2 ^ 31)%Z by (apply Z.pow_le_mono_r; lia).
  rewrite bool_decide_true by (unfold fits; lia). cbn [negb].
  destruct (sign_leaf_ok E seed h k index message Hk) as (sig & S1 & _); [lia|].
  exists sig. split; [done|]. rewrite S1.
  f_equal. destruct (Z.ltb_spec (xk_next_index k) (index + 1)).
  - by rewrite Z.max_r by lia.
  - rewrite Z.max_l by lia. by destruct k.
Qed.

Lemma xmss_used_inv seed h k l : (h < 32)%nat → xmss_used seed h k l →
  keypair_ok seed h k ∧ Forall (λ i, (0 ≤ i < xk_next_index k)%Z) l.
Proof.
  intros Hh. induction 1 as [k Hg|k l build r k' _ [Hk Hl] Hs|k l index message r k' _ [Hk Hl] Hi Hs].
  - destruct (generate_ok string seed h Hh) as (k0 & G1 & G2 & _).
    rewrite G1 in Hg. injection Hg as <-. by split.
  - pose proof (ko_next _ _ _ Hk). pose proof (sign_with_index_run string _ _ _ build Hk) as Hr.
    destruct (Z.ltb_spec (xk_next_index k) (2 ^ h)); [|rewrite Hr in Hs; by injection Hs as <- <-].
    destruct (build (xk_next_index k)); [destruct Hr as (sig & _ & Hr)|..]; rewrite Hr in Hs;
      [injection Hs as <- <-|discriminate..].
    split; [apply keypair_ok_next; [done|lia]|]. cbn. constructor; [lia|].
    eapply Forall_impl; [exact Hl|]. intros i ?. cbn in *. lia.
  - pose proof (ko_next _ _ _ Hk).
    pose proof (sign_reserved_run string _ _ _ index message Hk Hi) as Hr.
    destruct (Z.ltb_spec index (2 ^ h)); [destruct Hr as (sig & _ & Hr)|];
      rewrite Hr in Hs; injection Hs as <- <-; [|done].
    split; [apply keypair_ok_next; [done|lia]|]. cbn. constructor; [lia|].
    eapply Forall_impl; [exact Hl|]. intros i ?. cbn in *. lia.
Qed.

(** C34. A key pair signs what it verifies, until it is exhausted, and never
    panics: in any state reached from key generation (height below 32) by any
    signing calls, the next call signs exactly the message built for the leaf
    index it returns, moves the cursor by one, and the signature passes both
    verifiers under the key pair's root; with no leaf left it returns [None] and
    changes nothing. *)
Theorem xmss_sign_verify seed h k l build :
  (h < 32)%nat → xmss_used seed h k l →
  let idx := next_index k in
  if is_exhausted k then @sign_with_index _ string (λ i, Ok (build i)) k = (Ok None, k)
  else ∃ sig,
    @sign_with_index _ string (λ i, Ok (build i)) k = (Ok (Some (sig, idx, build idx)), set_next (idx + 1) k) ∧
    xmss_leaf_index sig = idx ∧ remaining k = (2 ^ h - idx)%Z ∧
    @xmss_verify _ string (root_felt k) (build idx) sig = Ok true ∧
    @xmss_verify_for_height _ string (root_felt k) (build idx) sig h = Ok true.
Proof.
  intros Hh [Hk _]%xmss_used_inv; [|done]. cbv zeta. pose proof Hk as [K1 _ _ _ _ _ K7].
  pose proof (sign_with_index_run string _ _ _ (λ i, Ok (build i)) Hk) as Hr.
  unfold is_exhausted, remaining, capacity, next_index in *. rewrite K1 in *.
  destruct (Z.ltb_spec (xk_next_index k) (2 ^ h)), (Z.eqb_spec (2 ^ h - xk_next_index k) 0);
    try lia; [|done].
  destruct Hr as (sig & S1 & Hr). exists sig. split; [exact Hr|].
  destruct (sign_leaf_ok string _ _ _ (xk_next_index k) (build (xk_next_index k)) Hk)
    as (sig' & S1' & S2 & _ & _ & _ & S5 & S6); [lia|].
  rewrite S1 in S1'. injection S1' as <-. repeat split; [exact S2|apply S5|apply S6].
Qed.

(** One-time leaves are used once: along any calls from key generation, a
    leaf index handed out by [sign_with_index] is none of those used before,
    whether by earlier calls or through [sign_reserved], and lies in the tree. *)
Theorem xmss_leaf_fresh seed h k l build sig idx message k' :
  (h < 32)%nat → xmss_used seed h k l →
  @sign_with_index _ string build k = (Ok (Some (sig, idx, message)), k') →
  (idx ∉ l) ∧ (0 ≤ idx < 2 ^ h)%Z ∧ xmss_leaf_index sig = idx ∧ next_index k' = (idx + 1)%Z.
Proof.
  intros Hh [Hk Hl]%xmss_used_inv Hs; [|done]. pose proof (ko_next _ _ _ Hk).
  pose proof (sign_with_index_run string _ _ _ build Hk) as Hr.
  destruct (Z.ltb_spec (xk_next_index k) (2 ^ h)); [|rewrite Hr in Hs; discriminate].
  destruct (build (xk_next_index k)) as [m|e|]; [destruct Hr as (sig' & S1 & Hr)|..];
    rewrite Hr in Hs; [|discriminate..]. injection Hs as <- <- <- <-.
  destruct (sign_leaf_ok string _ _ _ (xk_next_index k) m Hk) as (sig & S1' & S2 & _); [lia|].
  rewrite S1 in S1'. injection S1' as ->. split; [|split; [lia|done]]. intros Hin. rewrite Forall_forall in Hl. apply Hl in Hin. lia.
Qed.
End properties.

(** ** Witnesses: a tree of four leaves, one of them used *)

Definition toy_seed : @SF ToyStark := fof (F := @SF ToyStark) 7.
Definition toy_keypair : @XmssKeypair ToyStark :=
  match @generate_with_height ToyStark string toy_seed 2 with
  | Ok k => k | _ => Build_XmssKeypair [] [] toy_seed 0 0 end.
Definition toy_keypair_1 : @XmssKeypair ToyStark := set_next 1 toy_keypair.
Definition toy_build (i : Z) : Felt252 := from_u64 (100 + i).

Lemma toy_used : xmss_used (SK := ToyStark) toy_seed 2 toy_keypair_1 [0%Z].
Proof.
  destruct (generate_ok (SK := ToyStark) string toy_seed 2 ltac:(lia)) as (k & G1 & G2 & G3).
  assert (toy_keypair = k) as E by (unfold toy_keypair; by rewrite G1).
  unfold toy_keypair_1. rewrite E. pose proof (sign_with_index_run (SK := ToyStark) string _ _ _ (λ i, Ok (toy_build i)) G2) as Hr.
  rewrite G3 in Hr. destruct Hr as (sig & _ & Hr). exact (used_sign toy_seed 2 k [] (λ i, Ok (toy_build i)) _ _ (used_new _ _ _ G1) Hr).
Qed.

Lemma xmss_sign_verify_witness :
  ∃ sig, @sign_with_index ToyStark string (λ i, Ok (toy_build i)) toy_keypair_1 =
    (Ok (Some (sig, 1%Z, toy_build 1)), set_next 2 toy_keypair_1) ∧
  @xmss_verify ToyStark string (root_felt toy_keypair_1) (toy_build 1) sig = Ok true.
Proof.
  destruct (xmss_sign_verify (SK := ToyStark) toy_seed 2 toy_keypair_1 [0%Z] toy_build ltac:(lia)
    toy_used) as (sig & H1 & _ & _ & H2 & _).
  exists sig. split; [exact H1|exact H2].
Defined.

Lemma xmss_leaf_fresh_witness :
  ∃ sig k', @sign_with_index ToyStark string (λ i, Ok (toy_build i)) toy_keypair_1 =
    (Ok (Some (sig, 1%Z, toy_build 1)), k') ∧ (1%Z ∉ [0%Z]) ∧ next_index k' = 2%Z.
Proof.
  pose proof (sign_with_index_run (SK := ToyStark) string _ _ _ (λ i, Ok (toy_build i))
    (proj1 (xmss_used_inv toy_seed 2 toy_keypair_1 [0%Z] ltac:(lia) toy_used))) as Hr.
  change (xk_next_index toy_keypair_1) with 1%Z in Hr. destruct Hr as (sig & _ & Hr).
  exists sig, (set_next 2 toy_keypair_1). split; [exact Hr|].
  destruct (xmss_leaf_fresh (SK := ToyStark) toy_seed 2 toy_keypair_1 [0%Z] (λ i, Ok (toy_build i)) sig 1
    (toy_build 1) _ ltac:(lia) toy_used Hr) as (H1 & _ & _ & H2).
  split; [exact H1|exact H2].
Defined.
