(* ===== verification/WalletV1.v ===== *)
(** * The version-1 wallet ([zkapi-client]: wallet.rs)

    The client of the version-1 server.  lib.rs gives the module [wallet] the
    path wallet_v2.rs, so this file is in the repository but not in the build,
    like the proof builders it (and the server) import from [zkapi-proof].  It
    reads and writes three fields of [NoteState] that note_state.rs replaced by
    [state_signature]; [NoteStateV1] has them with the types wallet.rs gives
    them.  The proof builders, the Scarb prover, base64 and the error text of
    [hex] are arguments; randomness, ids, clocks and HTTP answers are too. *)
From S2P Require Import Prelude Felt Types Group Ark CoreV2 Starknet CoreV1 Pedersen Wots Xmss Client ClientFiles.

(** ** The persisted state *)

Record NoteStateV1 : Type := {
  n1_protocol_version : Z;
  n1_chain_id : Z;
  n1_contract_address : Felt252;
  n1_note_id : Z;
  n1_secret_s : Felt252;
  n1_deposit_amount : Z;
  n1_expiry_ts : Z;
  n1_current_balance : Z;
  n1_balance_blinding : string;
  n1_current_commitment_x : Felt252;
  n1_current_commitment_y : Felt252;
  n1_current_anchor : Felt252;
  n1_is_genesis : bool;
  n1_state_sig_epoch : option Z;
  n1_state_sig_root : option Felt252;
  n1_state_sig : option XmssSignature;
}.

Definition new_from_deposit_v1 (protocol_version chain_id : Z) (contract_address : Felt252)
  (note_id : Z) (secret_s : Felt252) (deposit_amount expiry_ts : Z) (balance_blinding : string)
  (commitment_x commitment_y : Felt252) : NoteStateV1 := {|
  n1_protocol_version := protocol_version;
  n1_chain_id := chain_id;
  n1_contract_address := contract_address;
  n1_note_id := note_id;
  n1_secret_s := secret_s;
  n1_deposit_amount := deposit_amount;
  n1_expiry_ts := expiry_ts;
  n1_current_balance := deposit_amount;
  n1_balance_blinding := balance_blinding;
  n1_current_commitment_x := commitment_x;
  n1_current_commitment_y := commitment_y;
  n1_current_anchor := ONE;
  n1_is_genesis := true;
  n1_state_sig_epoch := None;
  n1_state_sig_root := None;
  n1_state_sig := None |}.

Fixpoint reload_felts (l : list Felt252) : result ClientError (list Felt252) :=
  match l with
  | [] => Ok []
  | f :: l => f ← reload_felt f; l ← reload_felts l; Ok (f :: l)
  end.

Definition reload_xmss (s : XmssSignature) : result ClientError XmssSignature :=
  wots ← reload_felts (wots_sig s);
  path ← reload_felts (auth_path s);
  Ok {| xmss_epoch := xmss_epoch s; xmss_leaf_index := xmss_leaf_index s;
        wots_sig := wots; auth_path := path |}.

Definition reload_state_v1 (s : NoteStateV1) : result ClientError NoteStateV1 :=
  contract_address ← reload_felt (n1_contract_address s);
  secret_s ← reload_felt (n1_secret_s s);
  commitment_x ← reload_felt (n1_current_commitment_x s);
  commitment_y ← reload_felt (n1_current_commitment_y s);
  anchor ← reload_felt (n1_current_anchor s);
  root ← reload_option reload_felt (n1_state_sig_root s);
  sig ← reload_option reload_xmss (n1_state_sig s);
  Ok {| n1_protocol_version := n1_protocol_version s;
        n1_chain_id := n1_chain_id s;
        n1_contract_address := contract_address;
        n1_note_id := n1_note_id s;
        n1_secret_s := secret_s;
        n1_deposit_amount := n1_deposit_amount s;
        n1_expiry_ts := n1_expiry_ts s;
        n1_current_balance := n1_current_balance s;
        n1_balance_blinding := n1_balance_blinding s;
        n1_current_commitment_x := commitment_x;
        n1_current_commitment_y := commitment_y;
        n1_current_anchor := anchor;
        n1_is_genesis := n1_is_genesis s;
        n1_state_sig_epoch := n1_state_sig_epoch s;
        n1_state_sig_root := root;
        n1_state_sig := sig |}.

Abbreviation IO1 := (M (WorldOf NoteStateV1) ClientError).

(** ** Helpers *)

(** [hex::decode_to_slice]: exactly two digits per byte. *)
Fixpoint decode_to_slice (n : nat) (l : list byte) : option (vec byte n) :=
  match n, l with
  | O, [] => Some [#]
  | S n, a :: b :: l =>
      hi ← hex_digit a; lo ← hex_digit b; v ← decode_to_slice n l;
      Some (byte_of (hi * 16 + lo) ::: v)
  | _, _ => None
  end.

(** [bytes[0] &= 0x07]: below [2^251]. *)
Definition mask_top (bytes : vec byte 32) : vec byte 32 :=
  byte_of (Z.land (byte_val (Vector.hd bytes)) 7) ::: Vector.tl bytes.

Definition siblings_from_vec (siblings : list Felt252) :
  result ClientError (vec Felt252 MERKLE_DEPTH) :=
  ok_or (vec_of_list MERKLE_DEPTH siblings)
    (ProofGeneration ("expected " +:+ pretty MERKLE_DEPTH +:+ " merkle siblings, got "
                      +:+ pretty (length siblings))).

(** The loop draws 32 bytes until the masked value is non-zero; the draws are
    given. *)
Fixpoint sample_nonzero_felt (draws : list (vec byte 32)) : option Felt252 :=
  match draws with
  | [] => None
  | bytes :: draws =>
      let f := Felt (mask_top bytes) in
      if negb (is_zero f) then Some f else sample_nonzero_felt draws
  end.

(** What the wallet calls in crates that are not in the repository. *)
Class ProofTools : Type := {
  base64_standard_encode : list byte → string;
  hex_error : list byte → string;
  CairoArgs : Type;
  ProofArtifact : Type;
  artifact_output_hash : ProofArtifact → Felt252;
  artifact_proof : ProofArtifact → list byte;
  (** [ScarbStwoProver::new(dir).prove_and_verify_executable_with_args(..)]. *)
  prove_and_verify : string → string → Felt252 → CairoArgs → result string ProofArtifact;
}.

Section wallet_v1.
Context {A : Ark} {SK : Stark} {KC : Keccak} {GN : Generators} {PT : ProofTools}.

(** The arguments of [RequestProofBuilder::new] and [WithdrawalProofBuilder::new]. *)
Record RequestProofArgs : Type := {
  rb_secret_s : Felt252; rb_note_id : Z; rb_deposit_amount : Z; rb_expiry_ts : Z;
  rb_siblings : vec Felt252 MERKLE_DEPTH; rb_current_balance : Z; rb_current_blinding : SF;
  rb_user_rerandomization : SF; rb_current_anchor : Felt252; rb_is_genesis : bool;
  rb_state_sig_epoch : Z; rb_state_sig_root : Felt252; rb_active_root : Felt252;
  rb_protocol_version : Z; rb_chain_id : Z; rb_contract_address : Felt252; rb_solvency : Z;
}.

Record WithdrawalProofArgs : Type := {
  wb_secret_s : Felt252; wb_note_id : Z; wb_deposit_amount : Z; wb_expiry_ts : Z;
  wb_siblings : vec Felt252 MERKLE_DEPTH; wb_current_balance : Z; wb_current_blinding : SF;
  wb_current_anchor : Felt252; wb_is_genesis : bool; wb_state_sig_epoch : Z;
  wb_state_sig_root : Felt252; wb_has_clearance : bool; wb_clear_sig_epoch : Z;
  wb_clear_sig_root : Felt252; wb_destination : vec byte 20; wb_active_root : Felt252;
  wb_protocol_version : Z; wb_chain_id : Z; wb_contract_address : Felt252;
}.

(** The builders' methods. *)
Class ProofBuilders : Type := {
  request_public_inputs : RequestProofArgs → result string RequestPublicInputs;
  request_cairo_args : RequestProofArgs → option XmssSignature → result string CairoArgs;
  withdrawal_public_inputs : WithdrawalProofArgs → WithdrawalPublicInputs;
  withdrawal_cairo_args : WithdrawalProofArgs → option XmssSignature → option XmssSignature →
    result string CairoArgs;
}.
Context {PB : ProofBuilders}.

(** [cairo_dir] is the directory of the prover's mode. *)
Context (cfg : ClientConfig) (cairo_dir : string).

Definition sample_field_element (bytes : vec byte 32) : SF :=
  reduce_blinding (fof (be_val (mask_top bytes))).

(** [format!("0x{}", hex::encode(x.to_bytes_be()))]. *)
Definition blinding_hex (x : SF) : string := "0x" +:+ str_of (hex_encode (be_bytes 32 (fint x))).

Definition parse_blinding (hex_str : string) : result ClientError SF :=
  let s := strip_prefix_or (str_bytes "0x") (str_bytes hex_str) in
  let s := strip_prefix_or (str_bytes "0X") s in
  let padded := pad_left 64 s in
  match decode_to_slice 32 padded with
  | Some bytes => Ok (fof (be_val bytes))
  | None => Err (Serialization ("bad blinding hex: " +:+ hex_error padded))
  end.

Definition proof_artifact_to_wire (artifact : ProofArtifact) : ProofArtifactWire := {|
  pa_backend := StwoCairo;
  pa_public_output_hash := artifact_output_hash artifact;
  pa_proof := base64_standard_encode (artifact_proof artifact) |}.

(** ** Construction and deposit *)

Definition wallet_new_v1 : IO1 () := open_wallet reload_state_v1.

Definition has_pending_request_v1 : IO1 bool := journal_pending.

Definition get_pending_journal_v1 : IO1 (option PendingRequestJournal) := Journal_read.

Definition generate_deposit_params_v1 (draws : list (vec byte 32)) : option (Felt252 * Felt252) :=
  secret_s ← sample_nonzero_felt draws;
  Some (secret_s, compute_registration_commitment secret_s).

Definition confirm_deposit_v1 (secret_s : Felt252) (note_id deposit_amount expiry_ts : Z)
  (draw : vec byte 32) : IO1 () :=
  w ← get;
  _ ← lift (guard_err (bool_decide (is_Some (w_mem w))) NoteAlreadyExists);
  let r0 := sample_field_element draw in
  '(cx, cy) ← lift (to_affine (commit deposit_amount r0));
  let note_state := new_from_deposit_v1 (cfg_protocol_version cfg) (cfg_chain_id cfg)
    (cfg_contract_address cfg) note_id secret_s deposit_amount expiry_ts (blinding_hex r0)
    (field_to_felt cx) (field_to_felt cy) in
  _ ← save_file note_state;
  set_mem (Some note_state).

(** ** Building a request *)

(** Epoch and root of the state signature. *)
Definition state_sig_binding (state : NoteStateV1) : result ClientError (Z * Felt252) :=
  if n1_is_genesis state then Ok (0%Z, ZERO)
  else
    epoch ← ok_or (n1_state_sig_epoch state) (ProofGeneration "missing state_sig_epoch");
    root ← ok_or (n1_state_sig_root state) (ProofGeneration "missing state_sig_root");
    Ok (epoch, root).

Definition generate_request_proof_artifact (builder : RequestProofArgs)
  (state_sig : option XmssSignature) : result ClientError ProofArtifactWire :=
  public_inputs ← map_err ProofGeneration (request_public_inputs builder);
  args ← map_err ProofGeneration (request_cairo_args builder state_sig);
  hash ← request_public_output_hash public_inputs;
  artifact ← map_err ProofGeneration (prove_and_verify cairo_dir "request_from_args" hash args);
  Ok (proof_artifact_to_wire artifact).

Definition generate_withdrawal_proof_artifact (builder : WithdrawalProofArgs)
  (state_sig clear_sig : option XmssSignature) : result ClientError ProofArtifactWire :=
  let public_inputs := withdrawal_public_inputs builder in
  args ← map_err ProofGeneration (withdrawal_cairo_args builder state_sig clear_sig);
  hash ← withdrawal_public_output_hash public_inputs;
  artifact ← map_err ProofGeneration (prove_and_verify cairo_dir "withdrawal_from_args" hash args);
  Ok (proof_artifact_to_wire artifact).

Definition solvency_of (state : NoteStateV1) : Z :=
  solvency_bound (cfg_policy_enabled cfg) (cfg_request_charge_cap cfg) (cfg_policy_charge_cap cfg).

Definition public_inputs_v1 (state : NoteStateV1) (active_root : Felt252) (epoch : Z)
  (root request_nullifier : Felt252) (anon : SF * SF) : RequestPublicInputs := {|
  rp_statement_type := STATEMENT_TYPE_REQUEST;
  rp_protocol_version := n1_protocol_version state;
  rp_chain_id := n1_chain_id state;
  rp_contract_address := n1_contract_address state;
  rp_active_root := active_root;
  rp_state_sig_epoch := epoch;
  rp_state_sig_root := root;
  rp_request_nullifier := request_nullifier;
  rp_anon_commitment_x := field_to_felt anon.1;
  rp_anon_commitment_y := field_to_felt anon.2;
  rp_expiry_ts := n1_expiry_ts state;
  rp_solvency_bound := solvency_of state |}.

Definition request_args_v1 (state : NoteStateV1) (active_root : Felt252) (epoch : Z) (root : Felt252)
  (siblings : vec Felt252 MERKLE_DEPTH) (current_blinding user_rerandomization : SF)
  : RequestProofArgs := {|
  rb_secret_s := n1_secret_s state; rb_note_id := n1_note_id state;
  rb_deposit_amount := n1_deposit_amount state; rb_expiry_ts := n1_expiry_ts state;
  rb_siblings := siblings; rb_current_balance := n1_current_balance state;
  rb_current_blinding := current_blinding; rb_user_rerandomization := user_rerandomization;
  rb_current_anchor := n1_current_anchor state; rb_is_genesis := n1_is_genesis state;
  rb_state_sig_epoch := epoch; rb_state_sig_root := root; rb_active_root := active_root;
  rb_protocol_version := n1_protocol_version state; rb_chain_id := n1_chain_id state;
  rb_contract_address := n1_contract_address state; rb_solvency := solvency_of state |}.

(** The random draw, the request id and the clock of one request. *)
Record RequestEnvV1 : Type := {
  e1_draw : vec byte 32;
  e1_uuid : string;
  e1_now_ms : Z;
}.

(** What [request_flow] prepares: the request, its journal entry, and the values
    it checks the response with. *)
Record PreparedV1 : Type := {
  p1_request : ApiRequest;
  p1_journal : PendingRequestJournal;
  p1_anon : StarkG;
  p1_rerandomization : SF;
  p1_blinding : SF;
}.

Definition build_request_v1 (state : NoteStateV1) (env : RequestEnvV1) (payload : string)
  (payload_hash active_root : Felt252) (merkle_siblings : list Felt252)
  : result ClientError PreparedV1 :=
  let solvency := solvency_of state in
  _ ← guard_err (n1_current_balance state <? solvency)%Z
        (InsufficientBalance solvency (n1_current_balance state));
  current_blinding ← parse_blinding (n1_balance_blinding state);
  let user_rerandomization := sample_field_element (e1_draw env) in
  siblings ← siblings_from_vec merkle_siblings;
  let anon_blinding := add_blinding current_blinding user_rerandomization in
  let anon_commitment := commit (n1_current_balance state) anon_blinding in
  anon ← to_affine anon_commitment;
  let request_nullifier := compute_nullifier (n1_secret_s state) (n1_current_anchor state) in
  '(epoch, root) ← state_sig_binding state;
  let public_inputs := public_inputs_v1 state active_root epoch root request_nullifier anon in
  proof ← generate_request_proof_artifact
    (request_args_v1 state active_root epoch root siblings current_blinding user_rerandomization)
    (n1_state_sig state);
  Ok {| p1_request := {| ar_client_request_id := e1_uuid env; ar_payload := payload;
                         ar_payload_hash := payload_hash; ar_public_inputs := public_inputs;
                         ar_proof := proof |};
        p1_journal := {| pj_exists := true; pj_client_request_id := e1_uuid env;
                         pj_nullifier := request_nullifier; pj_payload_hash := payload_hash;
                         pj_user_rerandomization := field_to_felt user_rerandomization;
                         pj_created_at_ms := e1_now_ms env; pj_prepared_request := None |};
        p1_anon := anon_commitment; p1_rerandomization := user_rerandomization;
        p1_blinding := current_blinding |}.

(** ** Checking a response *)

Definition max_charge : Z :=
  if cfg_policy_enabled cfg then cfg_policy_charge_cap cfg else cfg_request_charge_cap cfg.

(** The root the pinned registry has for an epoch. *)
Definition check_registry (found : option Felt252) (root : Felt252) (mismatch unknown : string)
  : result ClientError () :=
  match found with
  | Some trusted => if bool_decide (trusted = root) then Ok tt else Err (VerificationFailed mismatch)
  | None => Err (VerificationFailed unknown)
  end.

Definition verify_request_response (mem : option NoteStateV1) (resp : RequestResponse)
  (anon_commitment : StarkG) : result ClientError () :=
  state ← ok_or mem NoActiveNote;
  expected_response_hash ← canonical_response_hash (str_bytes (rr_response_payload resp));
  _ ← guard_err (negb (bool_decide (rr_response_hash resp = expected_response_hash)))
        (VerificationFailed "response_hash does not match response_payload");
  _ ← guard_err (max_charge <? rr_charge_applied resp)%Z
        (VerificationFailed ("charge " +:+ pretty (rr_charge_applied resp) +:+ " exceeds cap " +:+
                             pretty max_charge));
  _ ← guard_err (is_zero (rr_next_anchor resp)) (InvalidResponse "zero next anchor");
  let blind_delta := felt_to_field (rr_blind_delta_srv resp) in
  let expected := server_update anon_commitment (rr_charge_applied resp) blind_delta in
  '(exp_x, exp_y) ← to_affine expected;
  _ ← guard_err (negb (bool_decide (field_to_felt exp_x = cp_x (rr_next_commitment resp)))
                 || negb (bool_decide (field_to_felt exp_y = cp_y (rr_next_commitment resp))))
        (VerificationFailed "next_commitment algebra mismatch");
  _ ← map_err (λ e, VerificationFailed ("state sig structural check failed: " +:+ e))
        (validate_for_height (rr_next_state_sig resp) (length (auth_path (rr_next_state_sig resp))));
  _ ← guard_err ((rr_next_state_sig_epoch resp =? 0)%Z || is_zero (rr_next_state_sig_root resp))
        (InvalidResponse "missing non-genesis state signature root/epoch");
  _ ← check_registry
        (lookup_state_root (cfg_trusted_epoch_roots cfg) (rr_next_state_sig_epoch resp))
        (rr_next_state_sig_root resp)
        "state signature root does not match trusted epoch registry"
        "state signature epoch is not trusted";
  _ ← guard_err (negb (xmss_epoch (rr_next_state_sig resp) =? rr_next_state_sig_epoch resp)%Z)
        (VerificationFailed ("state sig epoch mismatch: " +:+
           pretty (xmss_epoch (rr_next_state_sig resp)) +:+ " != " +:+
           pretty (rr_next_state_sig_epoch resp)));
  let state_msg := compute_state_message (n1_protocol_version state) (n1_chain_id state)
    (n1_contract_address state) (cp_x (rr_next_commitment resp)) (cp_y (rr_next_commitment resp))
    (rr_next_anchor resp) in
  ok ← xmss_verify (rr_next_state_sig_root resp) state_msg (rr_next_state_sig resp);
  guard_err (negb ok) (VerificationFailed "state signature XMSS verification failed").

(** The state that follows an accepted response: the tail both [request_flow]
    and [recover] run. *)
Definition next_state_v1 (state : NoteStateV1) (resp : RequestResponse)
  (current_blinding user_rerandomization : SF) : result ClientError NoteStateV1 :=
  let charge := rr_charge_applied resp in
  _ ← guard_err (n1_current_balance state <? charge)%Z (InvalidResponse "charge exceeds balance");
  let blind_delta_srv := felt_to_field (rr_blind_delta_srv resp) in
  let next_blinding :=
    add_blinding (add_blinding current_blinding user_rerandomization) blind_delta_srv in
  Ok {| n1_protocol_version := n1_protocol_version state;
        n1_chain_id := n1_chain_id state;
        n1_contract_address := n1_contract_address state;
        n1_note_id := n1_note_id state;
        n1_secret_s := n1_secret_s state;
        n1_deposit_amount := n1_deposit_amount state;
        n1_expiry_ts := n1_expiry_ts state;
        n1_current_balance := n1_current_balance state - charge;
        n1_balance_blinding := blinding_hex next_blinding;
        n1_current_commitment_x := cp_x (rr_next_commitment resp);
        n1_current_commitment_y := cp_y (rr_next_commitment resp);
        n1_current_anchor := rr_next_anchor resp;
        n1_is_genesis := false;
        n1_state_sig_epoch := Some (rr_next_state_sig_epoch resp);
        n1_state_sig_root := Some (rr_next_state_sig_root resp);
        n1_state_sig := Some (rr_next_state_sig resp) |}.

(** Verify, build the next state, persist it, install it, clear the journal. *)
Definition install_response (state : NoteStateV1) (resp : RequestResponse) (anon : StarkG)
  (current_blinding user_rerandomization : SF) : IO1 () :=
  w ← get;
  _ ← lift (verify_request_response (w_mem w) resp anon);
  next ← lift (next_state_v1 state resp current_blinding user_rerandomization);
  _ ← save_file next;
  _ ← set_mem (Some next);
  Journal_clear.

(** [request_flow] from the server's answer on. *)
Definition answered (state : NoteStateV1) (prepared : PreparedV1)
  (outcome : PostOutcome RequestResponse) : IO1 RequestResponse :=
  match outcome with
  | PostSendError e => fail (ServerError e)
  | PostBodyError e => fail (ServerError e)
  | PostFailure status body parsed =>
      match parsed with
      | Some err_resp =>
          if bool_decide (er_error_code err_resp = "stale_root"%string)
          then _ ← Journal_clear; fail StaleRoot
          else fail (ServerError (er_error_code err_resp +:+ ": " +:+ er_error_message err_resp))
      | None => fail (ServerError ("HTTP " +:+ status +:+ ": " +:+ body))
      end
  | PostSuccess parsed =>
      server_resp ← lift (map_err InvalidResponse parsed);
      _ ← install_response state server_resp (p1_anon prepared) (p1_blinding prepared)
            (p1_rerandomization prepared);
      mret server_resp
  end.

Definition request_flow_v1 (env : RequestEnvV1) (post : ApiRequest → PostOutcome RequestResponse)
  (payload : string) (payload_hash active_root : Felt252) (merkle_siblings : list Felt252)
  : IO1 RequestResponse :=
  journal ← Journal_read;
  _ ← lift (guard_err (bool_decide (is_Some (pj_exists <$> journal))) PendingRequest);
  actual_payload_hash ← lift (canonical_payload_hash (str_bytes payload));
  _ ← lift (guard_err (negb (bool_decide (payload_hash = actual_payload_hash)))
        (InvalidResponse "payload_hash does not match actual payload bytes"));
  w ← get;
  state ← lift (ok_or (w_mem w) NoActiveNote);
  prepared ← lift (build_request_v1 state env payload payload_hash active_root merkle_siblings);
  _ ← Journal_write (p1_journal prepared);
  answered state prepared (post (p1_request prepared)).

(** What [GET /v1/requests/{id}] produced; the status is not looked at. *)
Inductive RecoveryOutcomeV1 : Type :=
| RecoverSendError (e : string)
| RecoverBodyError (e : string)
| RecoverBody (parsed : result string RecoveryResponse).

Definition recover_v1 (fetch : string → RecoveryOutcomeV1) : IO1 (option RequestResponse) :=
  journal ← Journal_read;
  match journal with
  | None => mret None
  | Some journal =>
      match fetch (pj_client_request_id journal) with
      | RecoverSendError e => fail (ServerError e)
      | RecoverBodyError e => fail (ServerError e)
      | RecoverBody parsed =>
          recovery ← lift (map_err InvalidResponse parsed);
          if bool_decide (rc_nullifier_status recovery = "finalized"%string) then
            server_resp ← lift (ok_or (rc_request_response recovery)
              (InvalidResponse "finalized recovery missing request_response"));
            w ← get;
            state ← lift (ok_or (w_mem w) NoActiveNote);
            let user_rerandomization := felt_to_field (pj_user_rerandomization journal) in
            current_blinding ← lift (parse_blinding (n1_balance_blinding state));
            let anon_blinding := add_blinding current_blinding user_rerandomization in
            let anon_commitment := commit (n1_current_balance state) anon_blinding in
            _ ← install_response state server_resp anon_commitment current_blinding
                  user_rerandomization;
            mret (Some server_resp)
          else if bool_decide (rc_nullifier_status recovery = "reserved"%string) then
            fail (ServerError "request still reserved on server, retry later")
          else
            fail (InvalidResponse ("unexpected nullifier_status: " +:+
                                   rc_nullifier_status recovery))
      end
  end.

(** ** Withdrawal *)

Definition request_clearance_v1 (withdrawal_nullifier : Felt252)
  (outcome : ClearanceOutcome ClearanceResponse) : result ClientError ClearanceResponse :=
  match outcome with
  | ClearSendError e => Err (ServerError e)
  | ClearBodyError e => Err (ServerError e)
  | ClearFailure status body =>
      Err (ServerError ("clearance request failed: HTTP " +:+ status +:+ " - " +:+ body))
  | ClearSuccess parsed =>
      clearance ← map_err InvalidResponse parsed;
      _ ← guard_err (is_zero (cr_clear_sig_root clearance))
            (InvalidResponse "clearance response missing clear_sig_root");
      _ ← check_registry
            (lookup_clear_root (cfg_trusted_epoch_roots cfg) (cr_clear_sig_epoch clearance))
            (cr_clear_sig_root clearance)
            "clearance root does not match trusted epoch registry"
            "clearance epoch is not trusted";
      _ ← guard_err (negb (xmss_epoch (cr_clear_sig clearance) =? cr_clear_sig_epoch clearance)%Z)
            (VerificationFailed ("clearance signature epoch mismatch: " +:+
               pretty (xmss_epoch (cr_clear_sig clearance)) +:+ " != " +:+
               pretty (cr_clear_sig_epoch clearance)));
      let clear_msg := compute_clearance_message (cfg_protocol_version cfg) (cfg_chain_id cfg)
        (cfg_contract_address cfg) withdrawal_nullifier in
      ok ← xmss_verify (cr_clear_sig_root clearance) clear_msg (cr_clear_sig clearance);
      _ ← guard_err (negb ok) (VerificationFailed "clearance XMSS verification failed");
      Ok clearance
  end.

(** The part the two withdrawals share; [clearance] gives the epoch and root of
    the clearance signature. *)
Definition build_withdrawal_v1 (state : NoteStateV1) (destination : vec byte 20)
  (active_root : Felt252) (siblings : vec Felt252 MERKLE_DEPTH) (withdrawal_nullifier : Felt252)
  (clearance : option ClearanceResponse)
  : result ClientError (WithdrawalPublicInputs * ProofArtifactWire) :=
  '(epoch, root) ← state_sig_binding state;
  let has_clearance := bool_decide (is_Some (cr_status <$> clearance)) in
  let clear_sig_epoch := from_option cr_clear_sig_epoch 0%Z clearance in
  let clear_sig_root := from_option cr_clear_sig_root ZERO clearance in
  let public_inputs := {|
    wp_statement_type := STATEMENT_TYPE_WITHDRAWAL;
    wp_protocol_version := n1_protocol_version state; wp_chain_id := n1_chain_id state;
    wp_contract_address := n1_contract_address state; wp_active_root := active_root;
    wp_note_id := n1_note_id state; wp_final_balance := n1_current_balance state;
    wp_destination := destination; wp_withdrawal_nullifier := withdrawal_nullifier;
    wp_is_genesis := n1_is_genesis state; wp_has_clearance := has_clearance;
    wp_state_sig_epoch := epoch; wp_state_sig_root := root;
    wp_clear_sig_epoch := clear_sig_epoch; wp_clear_sig_root := clear_sig_root |} in
  current_blinding ← parse_blinding (n1_balance_blinding state);
  proof ← generate_withdrawal_proof_artifact
    {| wb_secret_s := n1_secret_s state; wb_note_id := n1_note_id state;
       wb_deposit_amount := n1_deposit_amount state; wb_expiry_ts := n1_expiry_ts state;
       wb_siblings := siblings; wb_current_balance := n1_current_balance state;
       wb_current_blinding := current_blinding; wb_current_anchor := n1_current_anchor state;
       wb_is_genesis := n1_is_genesis state; wb_state_sig_epoch := epoch;
       wb_state_sig_root := root; wb_has_clearance := has_clearance;
       wb_clear_sig_epoch := clear_sig_epoch; wb_clear_sig_root := clear_sig_root;
       wb_destination := destination; wb_active_root := active_root;
       wb_protocol_version := n1_protocol_version state; wb_chain_id := n1_chain_id state;
       wb_contract_address := n1_contract_address state |}
    (n1_state_sig state) (cr_clear_sig <$> clearance);
  Ok (public_inputs, proof).

Definition withdrawal_mutual_close_v1 (mem : option NoteStateV1)
  (post : Felt252 → ClearanceOutcome ClearanceResponse) (destination : vec byte 20)
  (active_root : Felt252) (merkle_siblings : list Felt252)
  : result ClientError (WithdrawalPublicInputs * ProofArtifactWire) :=
  state ← ok_or mem NoActiveNote;
  siblings ← siblings_from_vec merkle_siblings;
  let withdrawal_nullifier := compute_nullifier (n1_secret_s state) (n1_current_anchor state) in
  clearance ← request_clearance_v1 withdrawal_nullifier (post withdrawal_nullifier);
  build_withdrawal_v1 state destination active_root siblings withdrawal_nullifier (Some clearance).

Definition withdrawal_escape_hatch_v1 (mem : option NoteStateV1) (destination : vec byte 20)
  (active_root : Felt252) (merkle_siblings : list Felt252)
  : result ClientError (WithdrawalPublicInputs * ProofArtifactWire) :=
  state ← ok_or mem NoActiveNote;
  siblings ← siblings_from_vec merkle_siblings;
  let withdrawal_nullifier := compute_nullifier (n1_secret_s state) (n1_current_anchor state) in
  build_withdrawal_v1 state destination active_root siblings withdrawal_nullifier None.

(** [take] empties the memory before the archive may fail. *)
Definition archive_note_v1 : IO1 () :=
  w ← get;
  match w_mem w with
  | Some state => _ ← set_mem None; archive_file n1_note_id state
  | None => mret tt
  end.
End wallet_v1.

(** ** Reading back *)

Lemma reload_felts_canonical l : Forall canonical l → reload_felts l = Ok l.
Proof.
  induction 1 as [|f l Hf _ IH]; [done|]. cbn [reload_felts].
  rewrite reload_felt_canonical by done. cbn. by rewrite IH.
Qed.

Definition xmss_canonical (s : XmssSignature) : Prop :=
  Forall canonical (wots_sig s) ∧ Forall canonical (auth_path s).

Lemma reload_xmss_canonical s : xmss_canonical s → reload_xmss s = Ok s.
Proof.
  intros [H1 H2]. unfold reload_xmss. rewrite !reload_felts_canonical by done. by destruct s.
Qed.

Lemma hex_digits b : ∃ hi lo, hex_digit (hex_char (byte_val b / 16)) = Some hi ∧
  hex_digit (hex_char (byte_val b mod 16)) = Some lo ∧ byte_of (hi * 16 + lo) = b.
Proof.
  assert (∀ c, (λ b, match hex_digit (hex_char (byte_val b / 16)), hex_digit (hex_char (byte_val b mod 16)) with
    | Some hi, Some lo => bool_decide (byte_of (hi * 16 + lo) = b) | _, _ => false end) c = true)
    as H by (intros []; vm_compute; reflexivity).
  specialize (H b). cbv beta in H. destruct (hex_digit _) as [hi|], (hex_digit _) as [lo|]; try done.
  exists hi, lo. by apply bool_decide_eq_true in H.
Qed.

Lemma decode_to_slice_hex n (v : vec byte n) : decode_to_slice n (hex_encode v) = Some v.
Proof.
  induction v as [|b n v IH]; [done|].
  change (hex_encode (b ::: v)) with (hex_of_byte b ++ hex_encode v).
  destruct (hex_digits b) as (hi & lo & E1 & E2 & E3).
  cbn [hex_of_byte app decode_to_slice mbind option_bind]. unfold hex_of_byte. cbn [app].
  cbn [decode_to_slice]. rewrite E1. cbn. rewrite E2. cbn. rewrite IH. cbn. by rewrite E3.
Qed.

Section blinding.
Context {SK : Stark} {PT : ProofTools}.

Lemma be_bytes_SF (x : SF) : fof (be_val (be_bytes 32 (fint x))) = x.
Proof. fold (felt_to_field (field_to_felt x)). apply v1_felt_to_field_to_felt. Qed.

(** What the wallet writes as a blinding reads back. *)
Lemma parse_blinding_hex x : parse_blinding (blinding_hex x) = Ok x.
Proof.
  unfold parse_blinding, blinding_hex. rewrite str_bytes_app, str_bytes_of. cbn [str_bytes].
  change (str_bytes "0x" ++ ?l) with (x30 :: x78 :: l). rewrite strip_prefix_0x.
  pose proof (hex_encode_ascii (be_bytes 32 (fint x))) as Ha.
  rewrite strip_prefix_0X_lower by (eapply Forall_impl; [exact Ha|by intros c []]).
  unfold pad_left. rewrite char_count_ascii by (eapply Forall_impl; [exact Ha|by intros c []]).
  rewrite hex_encode_length, length_vec_to_list. cbn [Nat.mul Nat.sub Nat.add replicate app].
  rewrite decode_to_slice_hex. by rewrite be_bytes_SF.
Qed.
End blinding.

(** ** Valid note states *)

Section valid.
Context {A : Ark} {SK : Stark} {KC : Keccak} {GN : Generators} {PT : ProofTools} {PB : ProofBuilders}.
Context (cfg : ClientConfig) (cairo_dir : string).
Implicit Types (s n : NoteStateV1) (resp : RequestResponse).

(** The signature of a state: in the pinned registry, and over this state. *)
Definition signed_state s (epoch : Z) (root : Felt252) (sig : XmssSignature) : Prop :=
  epoch ≠ 0%Z ∧ is_zero root = false ∧ canonical root ∧ xmss_canonical sig ∧
  lookup_state_root (cfg_trusted_epoch_roots cfg) epoch = Some root ∧ xmss_epoch sig = epoch ∧
  @xmss_verify _ ClientError root
    (compute_state_message (n1_protocol_version s) (n1_chain_id s) (n1_contract_address s)
       (n1_current_commitment_x s) (n1_current_commitment_y s) (n1_current_anchor s)) sig = Ok true.

(** The stored commitment is the point with this opening. *)
Definition opens s (x : SF) : Prop :=
  ∃ cx cy, point_to_affine (commit (n1_current_balance s) x) = Some (cx, cy) ∧
    n1_current_commitment_x s = field_to_felt cx ∧ n1_current_commitment_y s = field_to_felt cy.

Record state_ok_v1 s : Prop := {
  s1_deposit : fits 128 (n1_deposit_amount s);
  s1_balance : (0 ≤ n1_current_balance s ≤ n1_deposit_amount s)%Z;
  s1_contract : canonical (n1_contract_address s);
  s1_secret : canonical (n1_secret_s s);
  s1_anchor : canonical (n1_current_anchor s);
  s1_opens : ∃ x, parse_blinding (n1_balance_blinding s) = Ok x ∧ opens s x;
  s1_genesis : n1_is_genesis s = true → n1_current_anchor s = ONE ∧
    n1_current_balance s = n1_deposit_amount s ∧ n1_state_sig_epoch s = None ∧
    n1_state_sig_root s = None ∧ n1_state_sig s = None;
  s1_signed : n1_is_genesis s = false → ∃ epoch root sig,
    n1_state_sig_epoch s = Some epoch ∧ n1_state_sig_root s = Some root ∧
    n1_state_sig s = Some sig ∧ signed_state s epoch root sig;
}.

Lemma state_ok_v1_reload s : state_ok_v1 s → reload_state_v1 s = Ok s.
Proof.
  intros Hs. destruct (s1_opens s Hs) as (x & _ & cx & cy & _ & Hx & Hy).
  assert (reload_option reload_felt (n1_state_sig_root s) = Ok (n1_state_sig_root s) ∧
    reload_option reload_xmss (n1_state_sig s) = Ok (n1_state_sig s)) as [E1 E2].
  { destruct (n1_is_genesis s) eqn:Hg.
    - destruct (s1_genesis s Hs Hg) as (_ & _ & _ & -> & ->). done.
    - destruct (s1_signed s Hs Hg) as (e & root & sig & _ & -> & -> & _ & _ & H1 & H2 & _). cbn.
      by rewrite reload_felt_canonical, reload_xmss_canonical. }
  unfold reload_state_v1.
  rewrite !reload_felt_canonical by (done || apply Hs || (rewrite ?Hx, ?Hy; apply v1_field_to_felt_canonical)).
  cbn. rewrite E1. cbn. rewrite E2. cbn. by destruct s.
Qed.

(** What JSON parsing guarantees of a response. *)
Record response_ok_v1 resp : Prop := {
  r1_charge : (0 ≤ rr_charge_applied resp)%Z;
  r1_anchor : canonical (rr_next_anchor resp);
  r1_root : canonical (rr_next_state_sig_root resp);
  r1_sig : xmss_canonical (rr_next_state_sig resp);
}.

(** ** Accepting a response *)

(** What the checks of [verify_request_response] amount to. *)
Definition response_checked s resp (anon : StarkG) : Prop :=
  @canonical_response_hash _ ClientError (str_bytes (rr_response_payload resp))
    = Ok (rr_response_hash resp) ∧
  (rr_charge_applied resp ≤ max_charge cfg)%Z ∧ is_zero (rr_next_anchor resp) = false ∧
  (∃ cx cy, point_to_affine (server_update anon (rr_charge_applied resp)
       (felt_to_field (rr_blind_delta_srv resp))) = Some (cx, cy) ∧
     field_to_felt cx = cp_x (rr_next_commitment resp) ∧
     field_to_felt cy = cp_y (rr_next_commitment resp)) ∧
  rr_next_state_sig_epoch resp ≠ 0%Z ∧ is_zero (rr_next_state_sig_root resp) = false ∧
  lookup_state_root (cfg_trusted_epoch_roots cfg) (rr_next_state_sig_epoch resp)
    = Some (rr_next_state_sig_root resp) ∧
  xmss_epoch (rr_next_state_sig resp) = rr_next_state_sig_epoch resp ∧
  @xmss_verify _ ClientError (rr_next_state_sig_root resp)
    (compute_state_message (n1_protocol_version s) (n1_chain_id s) (n1_contract_address s)
       (cp_x (rr_next_commitment resp)) (cp_y (rr_next_commitment resp)) (rr_next_anchor resp))
    (rr_next_state_sig resp) = Ok true.

Lemma check_registry_Ok found root m u x : check_registry found root m u = Ok x ↔ found = Some root.
Proof.
  unfold check_registry. destruct x, found as [t|]; [|done]. case_bool_decide; split; congruence.
Qed.

Lemma xmss_verify_validates E root message sig :
  @xmss_verify _ E root message sig = Ok true →
  validate_for_height sig (length (auth_path sig)) = Ok tt.
Proof.
  unfold xmss_verify, xmss_verify_for_height.
  by destruct (validate_for_height sig (length (auth_path sig))) as [[]|e|].
Qed.

Lemma verify_response_iff s resp anon :
  verify_request_response cfg (Some s) resp anon = Ok tt ↔ response_checked s resp anon.
Proof.
  unfold verify_request_response. cbn [ok_or]. rewrite result_Ok_bind. split.
  - intros H. res_inv. destruct x3 as [cx cy]. res_inv. subst. bool_facts. subst.
    match goal with H : check_registry _ _ _ _ = Ok _ |- _ => apply check_registry_Ok in H end.
    match goal with H : to_affine _ = Ok _ |- _ => apply expect_Ok in H end.
    unfold response_checked. split_and!; eauto.
  - intros (H1 & H2 & H3 & (cx & cy & H4 & H5 & H6) & H7 & H8 & H9 & H10 & H11).
    rewrite H1. ok_step. rewrite bool_decide_true by done. ok_step.
    rewrite (proj2 (Z.ltb_ge _ _) H2). ok_step. rewrite H3. ok_step.
    unfold to_affine. rewrite H4. cbn [expect]. rewrite result_Ok_bind, !bool_decide_true by done.
    ok_step. rewrite (xmss_verify_validates _ _ _ _ H11). ok_step.
    rewrite (proj2 (Z.eqb_neq _ _) H7), H8. ok_step. rewrite H9. cbn [check_registry].
    rewrite bool_decide_true by done. ok_step. rewrite H10, Z.eqb_refl. ok_step.
    by rewrite H11.
Qed.

(** The state an accepted response leads to. *)
Record next_of_v1 s resp n : Prop := {
  n1n_balance : n1_current_balance n = (n1_current_balance s - rr_charge_applied resp)%Z;
  n1n_charge : (rr_charge_applied resp ≤ max_charge cfg)%Z ∧
               (rr_charge_applied resp ≤ n1_current_balance s)%Z;
  n1n_identity : n1_note_id n = n1_note_id s ∧ n1_secret_s n = n1_secret_s s ∧
                 n1_deposit_amount n = n1_deposit_amount s ∧ n1_expiry_ts n = n1_expiry_ts s;
  n1n_anchor : n1_current_anchor n = rr_next_anchor resp;
  n1n_signed : n1_is_genesis n = false ∧ n1_state_sig n = Some (rr_next_state_sig resp);
}.

Lemma next_state_v1_total s resp x rho :
  (rr_charge_applied resp ≤ n1_current_balance s)%Z → ∃ n, next_state_v1 s resp x rho = Ok n.
Proof. intros H. unfold next_state_v1. rewrite (proj2 (Z.ltb_ge _ _) H). by eexists. Qed.

Lemma next_state_v1_sound s resp x rho n :
  state_ok_v1 s → response_ok_v1 resp → parse_blinding (n1_balance_blinding s) = Ok x →
  response_checked s resp (commit (n1_current_balance s) (add_blinding x rho)) →
  next_state_v1 s resp x rho = Ok n → state_ok_v1 n ∧ next_of_v1 s resp n.
Proof.
  intros Hs Hr Hx (_ & H2 & H3 & (cx & cy & H4 & H5 & H6) & H7 & H8 & H9 & H10 & H11) H.
  pose proof (s1_balance s Hs) as Hb. pose proof (s1_deposit s Hs) as Hd. pose proof (r1_charge _ Hr) as Hc.
  unfold next_state_v1 in H. res_inv. bool_facts. subst n.
  assert (fits 128 (n1_current_balance s)) as Hfb by (destruct Hd; split; lia).
  assert (fits 128 (rr_charge_applied resp)) as Hfc by (destruct Hd; split; lia).
  rewrite server_update_commit in H4 by done.
  split; split; cbn; try done; try apply Hs; try apply Hr; try lia.
  - eexists. split; [apply parse_blinding_hex|]. exists cx, cy. cbn. by rewrite H5, H6.
  - intros _. do 3 eexists. do 3 (split; [reflexivity|]).
    split; [done|]. split; [done|]. split; [apply Hr|]. split; [apply Hr|]. by repeat split.
Qed.

(** What a prepared request consists of. *)
Lemma build_request_v1_inv s env payload ph root sibs p :
  build_request_v1 cfg cairo_dir s env payload ph root sibs = Ok p →
  (solvency_of cfg s ≤ n1_current_balance s)%Z ∧
  ∃ x anon epoch sroot proof, parse_blinding (n1_balance_blinding s) = Ok x ∧
    p1_blinding p = x ∧ p1_rerandomization p = sample_field_element (e1_draw env) ∧
    p1_anon p = commit (n1_current_balance s) (add_blinding x (p1_rerandomization p)) ∧
    point_to_affine (p1_anon p) = Some anon ∧
    state_sig_binding s = Ok (epoch, sroot) ∧
    let nul := compute_nullifier (n1_secret_s s) (n1_current_anchor s) in
    p1_request p = {| ar_client_request_id := e1_uuid env; ar_payload := payload;
      ar_payload_hash := ph; ar_public_inputs := public_inputs_v1 cfg s root epoch sroot nul anon;
      ar_proof := proof |} ∧
    pj_client_request_id (p1_journal p) = e1_uuid env ∧ pj_nullifier (p1_journal p) = nul ∧
    pj_user_rerandomization (p1_journal p) = field_to_felt (p1_rerandomization p).
Proof.
  unfold build_request_v1. intros H. res_inv. destruct x3 as [epoch sroot]. res_inv.
  match goal with H : to_affine _ = Ok _ |- _ => apply expect_Ok in H end.
  bool_facts. subst p. cbn. split; [done|]. do 5 eexists. split_and!; eauto.
Qed.

(** ** Histories of failures, crashes and restarts *)

(** A failed archive leaves the memory empty next to the file. *)
Definition in_step_v1 (mem file : option NoteStateV1) : Prop := mem = None ∨ mem = file.
#[local] Instance in_step_v1_refl : Reflexive in_step_v1.
Proof. by right. Qed.

Abbreviation keeps1 := (keeps state_ok_v1 in_step_v1).
Abbreviation keeps_at1 := (keeps_at state_ok_v1 in_step_v1).

Lemma in_step_v1_ok w s : files_inv state_ok_v1 in_step_v1 w → w_mem w = Some s → state_ok_v1 s.
Proof. intros [[Hm|Hm] Hd] E; rewrite E in Hm; [done|]. by apply Hd. Qed.

Lemma new_deposit_ok_v1 secret note_id amount expiry x cx cy :
  canonical (cfg_contract_address cfg) → canonical secret → fits 128 amount →
  point_to_affine (commit amount x) = Some (cx, cy) →
  state_ok_v1 (new_from_deposit_v1 (cfg_protocol_version cfg) (cfg_chain_id cfg)
    (cfg_contract_address cfg) note_id secret amount expiry (blinding_hex x)
    (field_to_felt cx) (field_to_felt cy)).
Proof.
  intros Hc Hs Ha Hp. split; cbn; try done.
  - split; [apply Ha|lia].
  - exists x. split; [apply parse_blinding_hex|]. by exists cx, cy.
Qed.

Lemma keeps_deposit_v1 secret note_id amount expiry draw :
  canonical (cfg_contract_address cfg) → canonical secret → fits 128 amount →
  keeps1 (confirm_deposit_v1 cfg secret note_id amount expiry draw).
Proof.
  intros Hc Hs Ha w. apply keeps_at_get. apply keeps_at_lift. intros _ _.
  apply keeps_at_lift. intros [cx cy] Hp%expect_Ok.
  apply keeps_save_install; [apply _|by apply new_deposit_ok_v1].
Qed.

Lemma keeps_install_v1 s resp x rho w :
  w_mem w = Some s → response_ok_v1 resp → parse_blinding (n1_balance_blinding s) = Ok x →
  keeps_at1 (install_response cfg s resp (commit (n1_current_balance s) (add_blinding x rho)) x rho) w.
Proof.
  intros Hm Hr Hx Hw. assert (state_ok_v1 s) as Hs by by eapply in_step_v1_ok. revert Hw.
  apply keeps_at_get. rewrite Hm. apply keeps_at_lift. intros [] Hv%verify_response_iff.
  apply keeps_at_lift. intros n Hn.
  apply (next_state_v1_sound s resp x rho n Hs Hr Hx Hv) in Hn as [Hn _].
  change (keeps_at1 ((save_file n ≫= λ _, set_mem (Some n) ≫= λ _, Journal_clear)) w).
  intros Hw. rewrite <- M_bind_assoc. revert Hw.
  apply keeps_at_bind; [by apply keeps_save_install; [apply _|]|intros _; by apply keeps_journal_clear].
Qed.

Lemma keeps_flow_v1 env post payload ph root sibs :
  (∀ req r, post req = PostSuccess (Ok r) → response_ok_v1 r) →
  keeps1 (request_flow_v1 cfg cairo_dir env post payload ph root sibs).
Proof.
  intros Hpost. apply keeps_bind; [by apply keeps_journal_read|]. intros journal w.
  apply keeps_at_lift. intros _ _. apply keeps_at_lift. intros h _. apply keeps_at_lift. intros _ _.
  apply keeps_at_get. apply keeps_at_lift. intros s Hs%ok_or_Ok.
  apply keeps_at_lift. intros p (_ & x & anon & ep & sr & pf & Hx & H1 & H2 & H3 & _)%build_request_v1_inv.
  apply keeps_at_journal_write. intros d io Hd.
  unfold answered. destruct (post (p1_request p)) as [e|e|status body [err|]|parsed] eqn:E; try apply keeps_fail.
  - case_bool_decide; [|apply keeps_fail].
    apply keeps_at_bind; [by apply keeps_journal_clear|intros _; apply keeps_fail].
  - apply keeps_at_lift. intros r Hr%map_err_Ok. subst parsed.
    apply keeps_at_bind; [|intros _; apply keeps_ret]. rewrite H1, H3.
    apply keeps_install_v1; [exact Hs|by eapply Hpost|exact Hx].
Qed.

Lemma keeps_recover_v1 fetch :
  (∀ id rc r, fetch id = RecoverBody (Ok rc) → rc_request_response rc = Some r → response_ok_v1 r) →
  keeps1 (recover_v1 cfg fetch).
Proof.
  intros Hf. apply keeps_bind; [by apply keeps_journal_read|]. intros [j|]; [|apply keeps_ret].
  destruct (fetch (pj_client_request_id j)) as [e|e|parsed] eqn:E; try apply keeps_fail.
  intros w. apply keeps_at_lift. intros rc Hrc%map_err_Ok. subst parsed.
  case_bool_decide; [|case_bool_decide; apply keeps_fail].
  apply keeps_at_lift. intros r Hr%ok_or_Ok. apply keeps_at_get. apply keeps_at_lift.
  intros s Hs%ok_or_Ok. apply keeps_at_lift. intros x Hx.
  apply keeps_at_bind; [|intros _; apply keeps_ret].
  apply keeps_install_v1; [exact Hs|by eapply Hf|exact Hx].
Qed.

Lemma keeps_archive_v1 : keeps1 archive_note_v1.
Proof.
  intros w. apply keeps_at_get. destruct (w_mem w) as [s|] eqn:Em; [|apply keeps_ret].
  intros [_ Hd]. unfold mbind, M_mbind, set_mem.
  destruct (archive_cases n1_note_id s {| w_disk := w_disk w; w_mem := None; w_io := w_io w |})
    as (io & r & d & E & Hc). cbn [w_mem w_disk] in E, Hc. rewrite E. cbn.
  assert (files_ok state_ok_v1 d) as Hd'.
  { destruct Hc as [[_ H]|[_ H]]; intros t; rewrite H; [done|apply Hd]. }
  split; [exact Hd'|]. intros _. split; [by left|exact Hd'].
Qed.

Inductive wallet_op_v1 : Type :=
| Op1Deposit (secret : Felt252) (note_id amount expiry : Z) (draw : vec byte 32)
| Op1Flow (env : RequestEnvV1) (post : ApiRequest → PostOutcome RequestResponse)
    (payload : string) (payload_hash root : Felt252) (siblings : list Felt252)
| Op1Recover (fetch : string → RecoveryOutcomeV1)
| Op1Archive.

Definition run_op_v1 (op : wallet_op_v1) : IO1 () :=
  match op with
  | Op1Deposit secret note_id amount expiry draw =>
      confirm_deposit_v1 cfg secret note_id amount expiry draw
  | Op1Flow env post payload ph root sibs =>
      _ ← request_flow_v1 cfg cairo_dir env post payload ph root sibs; mret tt
  | Op1Recover fetch => _ ← recover_v1 cfg fetch; mret tt
  | Op1Archive => archive_note_v1
  end.

(** Typed arguments: integers of their width, parsed JSON. *)
Definition op_ok_v1 (op : wallet_op_v1) : Prop :=
  match op with
  | Op1Deposit secret _ amount _ _ => canonical secret ∧ fits 128 amount
  | Op1Flow _ post _ _ _ _ => ∀ req r, post req = PostSuccess (Ok r) → response_ok_v1 r
  | Op1Recover fetch => ∀ id rc r,
      fetch id = RecoverBody (Ok rc) → rc_request_response rc = Some r → response_ok_v1 r
  | Op1Archive => True
  end.

Lemma keeps_run_op_v1 op :
  canonical (cfg_contract_address cfg) → op_ok_v1 op → keeps1 (run_op_v1 op).
Proof.
  intros Hc. destruct op as [secret note_id amount expiry draw|env post payload ph root sibs|fetch|]; cbn.
  - intros [? ?]. by apply keeps_deposit_v1.
  - intros H. apply keeps_bind; [by apply keeps_flow_v1|intros; apply keeps_ret].
  - intros H. apply keeps_bind; [by apply keeps_recover_v1|intros; apply keeps_ret].
  - intros _. apply keeps_archive_v1.
Qed.

(** C24. The version-1 wallet's file through failures, crashes and restarts: along
    any history of deposits, requests, recoveries, archivals, I/O errors, deaths
    at any system call and restarts, with any answers of the server, the state
    file holds a valid state: its commitment opens at the stored balance, which
    is within the deposit, and it is the genesis state or carries an XMSS
    signature over it under a root of the pinned registry.  A running process
    has the file's state in memory, or none. *)
Theorem wallet_v1_history_safe p :
  canonical (cfg_contract_address cfg) →
  rtc (file_step wallet_new_v1 run_op_v1 op_ok_v1)
    (Down {| d_state := None; d_journal := None; d_archive := ∅ |}) p →
  match p with
  | Down d => ∀ s, d_state d = Some s → state_ok_v1 s
  | Up d m => (m = None ∨ m = d_state d) ∧ ∀ s, d_state d = Some s → state_ok_v1 s
  end.
Proof.
  intros Hcfg Hsteps. assert (process_ok state_ok_v1 in_step_v1 p) as Hp; [|by destruct p].
  apply (file_steps_ok state_ok_v1 in_step_v1 wallet_new_v1 run_op_v1 op_ok_v1) in Hsteps;
    [done| | |done].
  - intros d io r w. apply open_wallet_disk, state_ok_v1_reload.
  - intros op. by apply keeps_run_op_v1.
Qed.
End valid.

(** ** Witness: a deposit and a restart *)
#[local] Existing Instance Toy.
#[local] Existing Instance ToyStark.
#[local] Existing Instance toy_generators.
#[local] Existing Instance toy_keccak.

Definition toy_tools : ProofTools := {|
  base64_standard_encode := str_of; hex_error := λ _, "";
  CairoArgs := (); ProofArtifact := Felt252 * list byte;
  artifact_output_hash := fst; artifact_proof := snd;
  prove_and_verify := λ _ _ hash _, Ok (hash, str_bytes "proof") |}.
#[local] Existing Instance toy_tools.

(** Builders that make the statement their arguments determine. *)
Definition toy_builders : ProofBuilders := {|
  request_public_inputs := λ a,
    anon ← ok_or (point_to_affine (commit (rb_current_balance a)
              (add_blinding (rb_current_blinding a) (rb_user_rerandomization a)))) "point at infinity";
    Ok {| rp_statement_type := STATEMENT_TYPE_REQUEST; rp_protocol_version := rb_protocol_version a;
          rp_chain_id := rb_chain_id a; rp_contract_address := rb_contract_address a;
          rp_active_root := rb_active_root a; rp_state_sig_epoch := rb_state_sig_epoch a;
          rp_state_sig_root := rb_state_sig_root a;
          rp_request_nullifier := compute_nullifier (rb_secret_s a) (rb_current_anchor a);
          rp_anon_commitment_x := field_to_felt anon.1; rp_anon_commitment_y := field_to_felt anon.2;
          rp_expiry_ts := rb_expiry_ts a; rp_solvency_bound := rb_solvency a |};
  request_cairo_args := λ _ _, Ok tt;
  withdrawal_public_inputs := λ a,
    {| wp_statement_type := STATEMENT_TYPE_WITHDRAWAL; wp_protocol_version := wb_protocol_version a;
       wp_chain_id := wb_chain_id a; wp_contract_address := wb_contract_address a;
       wp_active_root := wb_active_root a; wp_note_id := wb_note_id a;
       wp_final_balance := wb_current_balance a; wp_destination := wb_destination a;
       wp_withdrawal_nullifier := compute_nullifier (wb_secret_s a) (wb_current_anchor a);
       wp_is_genesis := wb_is_genesis a; wp_has_clearance := wb_has_clearance a;
       wp_state_sig_epoch := wb_state_sig_epoch a; wp_state_sig_root := wb_state_sig_root a;
       wp_clear_sig_epoch := wb_clear_sig_epoch a; wp_clear_sig_root := wb_clear_sig_root a |};
  withdrawal_cairo_args := λ _ _ _, Ok tt |}.
#[local] Existing Instance toy_builders.

Definition toy_client (roots : list EpochRoots) : ClientConfig := {|
  cfg_protocol_version := 1; cfg_chain_id := 1; cfg_contract_address := ZERO;
  cfg_request_charge_cap := 1000000; cfg_policy_charge_cap := 10000000;
  cfg_policy_enabled := false; cfg_server_url := "http://localhost"; cfg_state_dir := "state";
  cfg_trusted_epoch_roots := roots; cfg_setup_dir := "setup";
  cfg_state_signing_key := {| cp_x := ZERO; cp_y := ZERO |};
  cfg_clearance_signing_key := {| cp_x := ZERO; cp_y := ZERO |} |}.

Definition toy_note_draw : vec byte 32 := be_bytes 32 77.

(** The genesis state the deposit of 5 000 000 makes. *)
Definition toy_note : NoteStateV1 :=
  let x := sample_field_element toy_note_draw in
  match point_to_affine (commit 5000000 x) with
  | Some (cx, cy) => new_from_deposit_v1 1 1 ZERO 3 (from_u64 8) 5000000 100 (blinding_hex x)
                       (field_to_felt cx) (field_to_felt cy)
  | None => new_from_deposit_v1 1 1 ZERO 3 (from_u64 8) 5000000 100 "" ZERO ZERO
  end.

Lemma toy_note_ok roots : state_ok_v1 (toy_client roots) toy_note.
Proof.
  unfold toy_note.
  assert (∃ p, @to_affine _ string (commit 5000000 (sample_field_element toy_note_draw)) = Ok p)
    as [[cx cy] E%expect_Ok]
    by (apply is_ok_value; vm_compute; reflexivity).
  rewrite E. apply (new_deposit_ok_v1 (toy_client roots)); [..|by split|exact E];
    apply (bool_decide_unpack _); vm_compute; exact I.
Qed.

Definition toy_empty : DiskOf NoteStateV1 := {| d_state := None; d_journal := None; d_archive := ∅ |}.
Definition toy_deposit : wallet_op_v1 := Op1Deposit (from_u64 8) 3 5000000 100 toy_note_draw.

Definition toy_deposited : WorldOf NoteStateV1 :=
  {| w_disk := put_state (Some toy_note) toy_empty; w_mem := Some toy_note; w_io := [] |}.

Lemma toy_deposit_run :
  run_op_v1 (toy_client []) "cairo" toy_deposit {| w_disk := toy_empty; w_mem := None; w_io := [] |}
  = (Ok tt, toy_deposited).
Proof. vm_compute. reflexivity. Qed.

Lemma wallet_v1_history_safe_witness :
  state_ok_v1 (toy_client []) toy_note ∧
  rtc (file_step wallet_new_v1 (run_op_v1 (toy_client []) "cairo") op_ok_v1)
    (Down toy_empty) (Down (put_state (Some toy_note) toy_empty)).
Proof.
  assert (rtc (file_step wallet_new_v1 (run_op_v1 (toy_client []) "cairo") op_ok_v1)
    (Down toy_empty) (Down (put_state (Some toy_note) toy_empty))) as H.
  { eapply rtc_l; [exact (step_start wallet_new_v1 (run_op_v1 (toy_client []) "cairo") op_ok_v1
      toy_empty [] (Ok tt) {| w_disk := toy_empty; w_mem := None; w_io := [] |} eq_refl)|].
    eapply rtc_l; [refine (step_op wallet_new_v1 (run_op_v1 (toy_client []) "cairo") op_ok_v1 toy_deposit
      toy_empty None [] (Ok tt) toy_deposited _ toy_deposit_run); by repeat split; vm_compute|].
    eapply rtc_l; [apply step_kill|apply rtc_refl]. }
  split; [|exact H].
  refine (wallet_v1_history_safe (toy_client []) "cairo" _ _ H toy_note eq_refl).
  apply (bool_decide_unpack _). vm_compute. exact I.
Defined.
