(* ===== verification/ServerBase.v ===== *)
(** * Server foundations ([zkapi-server]: error.rs, config.rs, provider.rs; SQLite)

    The server's errors and configuration, the provider boundary, and the
    database connection: [rusqlite] and SQLite are third-party code, seen as
    statements that are atomic and each succeed, fail, or end the process,
    following a schedule. *)
From S2P Require Import Prelude Felt Types.

(** ** error.rs *)

Inductive ServerError : Type :=
| InvalidProof (e : string)
| StaleRoot (latest_root : string)
| Replay
| NoteExpired
| Internal (e : string)
| CapacityExhausted
| NullifierUsed
| Database (e : string)
| InvalidRequest (e : string)
| ProtocolMismatch (e : string).
#[export] Instance ServerError_eq_dec : EqDecision ServerError.
Proof. solve_decision. Defined.

(** The [#[error]] attributes. *)
Definition ServerError_display (e : ServerError) : string :=
  match e with
  | InvalidProof e => "invalid proof: " +:+ e
  | StaleRoot latest_root => "stale root: latest is " +:+ latest_root
  | Replay => "replayed nullifier"
  | NoteExpired => "note expired"
  | Internal e => "internal error: " +:+ e
  | CapacityExhausted => "capacity exhausted"
  | NullifierUsed => "nullifier already used"
  | Database e => "database error: " +:+ e
  | InvalidRequest e => "invalid request: " +:+ e
  | ProtocolMismatch e => "protocol mismatch: " +:+ e
  end.

Definition error_code (e : ServerError) : string :=
  match e with
  | InvalidProof _ => "INVALID_PROOF"
  | StaleRoot _ => "STALE_ROOT"
  | Replay => "REPLAY"
  | NoteExpired => "NOTE_EXPIRED"
  | Internal _ => "INTERNAL"
  | CapacityExhausted => "CAPACITY_EXHAUSTED"
  | NullifierUsed => "NULLIFIER_USED"
  | Database _ => "DATABASE_ERROR"
  | InvalidRequest _ => "INVALID_REQUEST"
  | ProtocolMismatch _ => "PROTOCOL_MISMATCH"
  end.

Definition is_retriable (e : ServerError) : bool :=
  match e with
  | StaleRoot _ | Internal _ | Database _ => true
  | _ => false
  end.

(** ** config.rs *)

(** The default build: [DevWitnessEnvelope] is behind a feature. *)
Inductive ServerProofMode : Type := StwoScarb (cairo_dir : string).

Record ServerConfig : Type := {
  sc_protocol_version : Z;
  sc_chain_id : Z;
  sc_contract_address : Felt252;
  sc_request_charge_cap : Z;
  sc_policy_charge_cap : Z;
  sc_policy_enabled : bool;
  sc_listen_addr : string;
  sc_db_path : string;
  sc_recovery_timeout_ms : Z;
  sc_state_seed : Felt252;
  sc_clear_seed : Felt252;
  sc_epoch : Z;
  sc_xmss_height : nat;
  sc_initial_root : Felt252;
  sc_trusted_epoch_roots : list EpochRoots;
  sc_proof_mode : ServerProofMode;
}.

Definition ServerConfig_default : ServerConfig := {|
  sc_protocol_version := 1;
  sc_chain_id := 1;
  sc_contract_address := ZERO;
  sc_request_charge_cap := 1000000;
  sc_policy_charge_cap := 10000000;
  sc_policy_enabled := false;
  sc_listen_addr := "0.0.0.0:3000";
  sc_db_path := "zkapi_server.db";
  sc_recovery_timeout_ms := 30000;
  sc_state_seed := from_u64 1;
  sc_clear_seed := from_u64 2;
  sc_epoch := 1;
  sc_xmss_height := XMSS_TREE_HEIGHT;
  sc_initial_root := ZERO;
  sc_trusted_epoch_roots := [];
  sc_proof_mode := StwoScarb "cairo" |}.

(** ** provider.rs *)

Record ProviderResponse : Type := {
  pv_status_code : Z;
  pv_payload : string;
  pv_charge_applied : Z;
  pv_policy_reason_code : option Z;
  pv_policy_evidence_hash : option Felt252;
}.

(** The trait: request id, payload and its hash to a response. *)
Class ApiProvider : Type :=
  execute : string → string → Felt252 → result ServerError ProviderResponse.

Definition EchoProvider (fixed_charge : Z) : ApiProvider := λ _ payload _,
  Ok {| pv_status_code := 200; pv_payload := payload; pv_charge_applied := fixed_charge;
        pv_policy_reason_code := None; pv_policy_evidence_hash := None |}.

(** ** SQLite *)

Inductive SqlEvent : Type := SqlOk | SqlFail (e : string) | SqlCrash.

Inductive SqlError : Type := ConstraintViolation (e : string) | SqlOther (e : string).

Definition SqlError_display (e : SqlError) : string :=
  match e with ConstraintViolation e | SqlOther e => e end.

(** A connection: the tables it reaches and the outcomes of its statements. *)
Record Sql (T : Type) : Type := { sql_data : T; sql_io : list SqlEvent }.
Arguments sql_data {T} s.
Arguments sql_io {T} s.
Arguments Build_Sql {T} sql_data sql_io.

(** One statement; the process dies in [Panic]. *)
Definition statement {T A} (f : T → result SqlError A * T) : M (Sql T) SqlError A := λ s,
  match sql_io s with
  | SqlFail e :: io => (Err (SqlOther e), Build_Sql (sql_data s) io)
  | SqlCrash :: io => (Panic, Build_Sql (sql_data s) io)
  | io => let '(r, d) := f (sql_data s) in (r, Build_Sql d (tail io))
  end.

Definition query {T A} (f : T → result SqlError A) : M (Sql T) SqlError A :=
  statement (λ d, (f d, d)).

(** Opening, beginning: a statement with no effect on the tables. *)
Definition no_effect {T} : M (Sql T) SqlError () := query (λ _, Ok tt).

(** A statement whose result the code drops ([let _ = conn.execute(..)]). *)
Definition ignore_err {T A} (m : M (Sql T) SqlError A) : M (Sql T) SqlError () := λ s,
  match m s with
  | (Panic, s') => (Panic, s')
  | (_, s') => (Ok tt, s')
  end.

Definition query_returned_no_rows : SqlError := SqlOther "Query returned no rows".

(** ** Lemmas *)

Lemma statement_inv {T A} (f : T → result SqlError A * T) s a s' :
  statement f s = (Ok a, s') → f (sql_data s) = (Ok a, sql_data s').
Proof.
  unfold statement. destruct (sql_io s) as [|[] io]; try done;
    destruct (f (sql_data s)) as [r d]; cbn; by intros [= -> <-].
Qed.

(** No failure is scheduled. *)
Lemma statement_quiet {T A} (f : T → result SqlError A * T) d :
  statement f (Build_Sql d []) = (let '(r, d') := f d in (r, Build_Sql d' [])).
Proof. done. Qed.

(** Every statement either runs on the tables or leaves them. *)
Lemma statement_steps {T A} (R : relation T) `{!PreOrder R} (f : T → result SqlError A * T) :
  (∀ d, R d (f d).2) → steps (λ s s', R (sql_data s) (sql_data s')) (statement f).
Proof.
  intros Hf s. unfold statement. specialize (Hf (sql_data s)).
  destruct (sql_io s) as [|[] io]; cbn; try reflexivity;
    destruct (f (sql_data s)) as [r d]; exact Hf.
Qed.

#[export] Instance sql_data_preorder {T} (R : relation T) `{!PreOrder R} :
  PreOrder (λ s s' : Sql T, R (sql_data s) (sql_data s')).
Proof. split; [intros s; reflexivity|intros s t u; apply transitivity]. Qed.

Lemma query_steps {T A} (R : relation T) `{!PreOrder R} (f : T → result SqlError A) :
  steps (λ s s', R (sql_data s) (sql_data s')) (query f).
Proof. apply statement_steps; [done|]. intros d. reflexivity. Qed.
