(* ===== verification/Store.v ===== *)
(** * The nullifier store ([zkapi-server]: nullifier_store.rs)

    One SQL table, its rows in insertion order, and the operations of
    [NullifierStore].  Felt columns are the hexadecimal strings the code writes;
    the JSON columns hold the value printed, and reading them back sends every
    field element through [to_hex] and the checked [from_hex].  An operation
    holds the connection's mutex from start to end, so each is one atomic step. *)
From S2P Require Import Prelude Felt Types ServerBase.

Record TranscriptRecord : Type := {
  tr_nullifier : Felt252;
  tr_status : NullifierStatus;
  tr_client_request_id : option string;
  tr_payload_hash : option Felt252;
  tr_charge_applied : option Z;
  tr_response_code : option Z;
  tr_response_payload : option string;
  tr_response_hash : option Felt252;
  tr_next_commitment_x : option Felt252;
  tr_next_commitment_y : option Felt252;
  tr_next_anchor : option Felt252;
  tr_blind_delta_srv : option Felt252;
  tr_next_state_sig_epoch : option Z;
  tr_next_state_sig_root : option Felt252;
  tr_next_state_sig : option XmssSignature;
  tr_policy_reason_code : option Z;
  tr_policy_evidence_hash : option Felt252;
  tr_proof_blob : option (list byte);
  tr_request_inputs_json : option RequestPublicInputs;
  tr_created_at : Z;
  tr_finalized_at : option Z;
}.

(** A row of table [nullifiers]; integers as SQLite stores them. *)
Record Row : Type := {
  row_nullifier : string;
  row_status : string;
  row_client_request_id : option string;
  row_payload_hash : option string;
  row_charge_applied : option Z;
  row_response_code : option Z;
  row_response_payload : option string;
  row_response_hash : option string;
  row_next_commitment_x : option string;
  row_next_commitment_y : option string;
  row_next_anchor : option string;
  row_blind_delta_srv : option string;
  row_next_state_sig_epoch : option Z;
  row_next_state_sig_root : option string;
  row_next_state_sig_json : option XmssSignature;
  row_policy_reason_code : option Z;
  row_policy_evidence_hash : option string;
  row_proof_blob : option (list byte);
  row_request_inputs_json : option RequestPublicInputs;
  row_created_at : Z;
  row_finalized_at : option Z;
}.

Abbreviation Rows := (list Row).
Abbreviation DB := (M (Sql Rows) ServerError).

(** ** Conversions *)

Definition status_to_str (status : NullifierStatus) : string :=
  match status with
  | Reserved => "Reserved"
  | Finalized => "Finalized"
  | ClearanceReserved => "ClearanceReserved"
  end.

(** Anything else falls back to [Reserved]. *)
Definition str_to_status (s : string) : NullifierStatus :=
  if bool_decide (s = "Reserved") then Reserved
  else if bool_decide (s = "Finalized") then Finalized
  else if bool_decide (s = "ClearanceReserved") then ClearanceReserved
  else Reserved.

(** [.ok()]: an error is dropped, a panic is not. *)
Definition ok_opt {E E' A} (r : result E A) : result E' (option A) :=
  match r with Ok a => Ok (Some a) | Err _ => Ok None | Panic => Panic end.

Definition parse_opt_felt {E} (s : option string) : result E (option Felt252) :=
  match s with None => Ok None | Some h => ok_opt (from_hex h) end.

(** serde's reader of one [Felt252], on what its writer printed. *)
Definition json_felt (f : Felt252) : result string Felt252 := from_hex (to_hex f).

Fixpoint json_felts (l : list Felt252) : result string (list Felt252) :=
  match l with
  | [] => Ok []
  | f :: l => f ← json_felt f; l ← json_felts l; Ok (f :: l)
  end.

Definition json_signature (s : XmssSignature) : result string XmssSignature :=
  w ← json_felts (wots_sig s);
  p ← json_felts (auth_path s);
  Ok {| xmss_epoch := xmss_epoch s; xmss_leaf_index := xmss_leaf_index s;
        wots_sig := w; auth_path := p |}.

Definition opt_signature {E} (s : option XmssSignature) : result E (option XmssSignature) :=
  match s with None => Ok None | Some s => ok_opt (json_signature s) end.

Definition row_to_record {E} (row : Row) : result E TranscriptRecord :=
  next_state_sig ← opt_signature (row_next_state_sig_json row);
  nullifier ← ok_opt (from_hex (row_nullifier row));
  payload_hash ← parse_opt_felt (row_payload_hash row);
  response_hash ← parse_opt_felt (row_response_hash row);
  next_commitment_x ← parse_opt_felt (row_next_commitment_x row);
  next_commitment_y ← parse_opt_felt (row_next_commitment_y row);
  next_anchor ← parse_opt_felt (row_next_anchor row);
  blind_delta_srv ← parse_opt_felt (row_blind_delta_srv row);
  next_state_sig_root ← parse_opt_felt (row_next_state_sig_root row);
  policy_evidence_hash ← parse_opt_felt (row_policy_evidence_hash row);
  Ok {| tr_nullifier := default ZERO nullifier;
        tr_status := str_to_status (row_status row);
        tr_client_request_id := row_client_request_id row;
        tr_payload_hash := payload_hash;
        tr_charge_applied := wrap 128 <$> row_charge_applied row;
        tr_response_code := wrap 16 <$> row_response_code row;
        tr_response_payload := row_response_payload row;
        tr_response_hash := response_hash;
        tr_next_commitment_x := next_commitment_x;
        tr_next_commitment_y := next_commitment_y;
        tr_next_anchor := next_anchor;
        tr_blind_delta_srv := blind_delta_srv;
        tr_next_state_sig_epoch := wrap 32 <$> row_next_state_sig_epoch row;
        tr_next_state_sig_root := next_state_sig_root;
        tr_next_state_sig := next_state_sig;
        tr_policy_reason_code := wrap 32 <$> row_policy_reason_code row;
        tr_policy_evidence_hash := policy_evidence_hash;
        tr_proof_blob := row_proof_blob row;
        tr_request_inputs_json := row_request_inputs_json row;
        tr_created_at := wrap 64 (row_created_at row);
        tr_finalized_at := wrap 64 <$> row_finalized_at row |}.

(** ** Statements *)

(** The columns an INSERT does not name are NULL. *)
Definition new_row (nullifier status : string) (client_request_id payload_hash : option string)
  (created_at : Z) : Row :=
  {| row_nullifier := nullifier; row_status := status;
     row_client_request_id := client_request_id; row_payload_hash := payload_hash;
     row_charge_applied := None; row_response_code := None; row_response_payload := None;
     row_response_hash := None; row_next_commitment_x := None; row_next_commitment_y := None;
     row_next_anchor := None; row_blind_delta_srv := None; row_next_state_sig_epoch := None;
     row_next_state_sig_root := None; row_next_state_sig_json := None;
     row_policy_reason_code := None; row_policy_evidence_hash := None; row_proof_blob := None;
     row_request_inputs_json := None; row_created_at := created_at; row_finalized_at := None |}.

Definition select (k : string) (rows : Rows) : Rows := filter (λ r, row_nullifier r = k) rows.

(** [nullifier TEXT PRIMARY KEY]. *)
Definition insert_row (row : Row) (rows : Rows) : result SqlError () * Rows :=
  match select (row_nullifier row) rows with
  | [] => (Ok tt, rows ++ [row])
  | _ => (Err (ConstraintViolation "UNIQUE constraint failed: nullifiers.nullifier"), rows)
  end.

(** The SET clause of [finalize]. *)
Definition finalize_row (t : TranscriptRecord) (now : Z) (row : Row) : Row :=
  {| row_nullifier := row_nullifier row; row_status := status_to_str Finalized;
     row_client_request_id := row_client_request_id row; row_payload_hash := row_payload_hash row;
     row_charge_applied := as_signed 64 <$> tr_charge_applied t;
     row_response_code := as_signed 32 <$> tr_response_code t;
     row_response_payload := tr_response_payload t;
     row_response_hash := to_hex <$> tr_response_hash t;
     row_next_commitment_x := to_hex <$> tr_next_commitment_x t;
     row_next_commitment_y := to_hex <$> tr_next_commitment_y t;
     row_next_anchor := to_hex <$> tr_next_anchor t;
     row_blind_delta_srv := to_hex <$> tr_blind_delta_srv t;
     row_next_state_sig_epoch := as_signed 32 <$> tr_next_state_sig_epoch t;
     row_next_state_sig_root := to_hex <$> tr_next_state_sig_root t;
     row_next_state_sig_json := tr_next_state_sig t;
     row_policy_reason_code := as_signed 32 <$> tr_policy_reason_code t;
     row_policy_evidence_hash := to_hex <$> tr_policy_evidence_hash t;
     row_proof_blob := tr_proof_blob t;
     row_request_inputs_json := tr_request_inputs_json t;
     row_created_at := row_created_at row;
     row_finalized_at := Some (as_signed 64 now) |}.

Definition finalizable (k : string) (row : Row) : bool :=
  bool_decide (row_nullifier row = k ∧ row_status row = status_to_str Reserved).

(** The UPDATE: the number of rows it changed, and the table. *)
Definition update_rows (k : string) (t : TranscriptRecord) (now : Z) (rows : Rows)
  : result SqlError nat * Rows :=
  (Ok (length (filter (λ r, finalizable k r = true) rows)),
   (λ r, if finalizable k r then finalize_row t now r else r) <$> rows).

(** ** Operations *)

(** The table is created if it does not exist (an absent table is an empty
    one); the two ALTER TABLEs fail on a table that has the columns. *)
Definition NullifierStore_new : DB () :=
  _ ← catch_err (λ e, Database ("failed to open db: " +:+ SqlError_display e)) no_effect;
  _ ← catch_err (λ e, Database ("failed to create table: " +:+ SqlError_display e)) no_effect;
  _ ← catch_err (λ e, Database (SqlError_display e)) (ignore_err no_effect);
  catch_err (λ e, Database (SqlError_display e)) (ignore_err no_effect).

Definition reserve (now : Z) (nullifier : Felt252) (client_request_id : string)
  (payload_hash : Felt252) : DB () :=
  catch_err (λ e, match e with
    | ConstraintViolation _ => Replay
    | e => Database ("insert failed: " +:+ SqlError_display e)
    end)
  (statement (insert_row (new_row (to_hex nullifier) (status_to_str Reserved)
     (Some client_request_id) (Some (to_hex payload_hash)) (as_signed 64 now)))).

Definition finalize (now : Z) (nullifier : Felt252) (transcript : TranscriptRecord) : DB () :=
  rows ← catch_err (λ e, Database ("finalize failed: " +:+ SqlError_display e))
    (statement (update_rows (to_hex nullifier) transcript now));
  if (rows =? 0)%nat then fail (Internal "nullifier not in Reserved state or does not exist")
  else mret tt.

(** [query_row(..).optional().ok().flatten()]: the first row, if it reads. *)
Definition query_row {E} (p : Row → bool) : M (Sql Rows) E (option TranscriptRecord) := λ s,
  match query (λ rows, match filter (λ r, p r = true) rows with
                       | [] => Ok None
                       | row :: _ => Some <$> row_to_record row
                       end) s with
  | (Err _, s') => (Ok None, s')
  | (Ok o, s') => (Ok o, s')
  | (Panic, s') => (Panic, s')
  end.

Definition lookup_by_nullifier {E} (nullifier : Felt252)
  : M (Sql Rows) E (option TranscriptRecord) :=
  query_row (λ r, bool_decide (row_nullifier r = to_hex nullifier)).

Definition lookup_by_client_id {E} (client_request_id : string)
  : M (Sql Rows) E (option TranscriptRecord) :=
  query_row (λ r, bool_decide (row_client_request_id r = Some client_request_id)).

Definition reserve_clearance (now : Z) (nullifier : Felt252) : DB () :=
  catch_err (λ e, match e with
    | ConstraintViolation _ => NullifierUsed
    | e => Database ("clearance reserve failed: " +:+ SqlError_display e)
    end)
  (statement (insert_row (new_row (to_hex nullifier) (status_to_str ClearanceReserved)
     None None (as_signed 64 now)))).

(** [rows.filter_map(|r| r.ok()).collect()]; any failure is an empty answer. *)
Fixpoint read_rows {E} (rows : Rows) : result E (list TranscriptRecord) :=
  match rows with
  | [] => Ok []
  | r :: rows => rec ← row_to_record r; recs ← read_rows rows; Ok (rec :: recs)
  end.

Definition query_all (p : Row → bool) : DB (list TranscriptRecord) := λ s,
  match query (λ rows, read_rows (filter (λ r, p r = true) rows)) s with
  | (Err _, s') => (Ok [], s')
  | (Ok l, s') => (Ok l, s')
  | (Panic, s') => (Panic, s')
  end.

Definition get_reserved_entries : DB (list TranscriptRecord) :=
  query_all (λ r, bool_decide (row_status r = status_to_str Reserved)).

Definition get_all_nullifiers : DB (list TranscriptRecord) := query_all (λ _, true).

(** ** The table *)

Definition row_at (k : string) (rows : Rows) : option Row := head (select k rows).

(** The primary key. *)
Definition keys_unique (rows : Rows) : Prop := NoDup (row_nullifier <$> rows).

Lemma select_elem k rows r : r ∈ select k rows ↔ row_nullifier r = k ∧ r ∈ rows.
Proof. unfold select. by rewrite list_elem_of_filter. Qed.

Lemma select_nil k rows : (k ∉ row_nullifier <$> rows) ↔ select k rows = [].
Proof.
  split.
  - intros Hk. destruct (select k rows) as [|r l] eqn:E; [done|]. destruct Hk.
    assert (r ∈ select k rows) as [<- Hin]%select_elem by (rewrite E; left).
    by apply list_elem_of_fmap_2.
  - intros E (r & -> & Hr)%list_elem_of_fmap.
    assert (r ∈ select (row_nullifier r) rows) as Hs by by apply select_elem.
    rewrite E in Hs. by apply not_elem_of_nil in Hs.
Qed.

Lemma row_at_None k rows : row_at k rows = None ↔ select k rows = [].
Proof. unfold row_at. by destruct (select k rows). Qed.

Lemma select_unique k rows r : keys_unique rows → row_at k rows = Some r → select k rows = [r].
Proof.
  unfold keys_unique, row_at. induction rows as [|x rows IH]; [done|].
  rewrite fmap_cons. intros [Hx Hu]%NoDup_cons. unfold select. rewrite filter_cons.
  destruct (decide (row_nullifier x = k)) as [E|E]; [|by apply IH]. cbn. intros [= ->].
  f_equal. apply select_nil. by rewrite <- E.
Qed.

Lemma row_at_snoc k rows r :
  row_at k (rows ++ [r]) =
  match row_at k rows with
  | Some r' => Some r'
  | None => if bool_decide (row_nullifier r = k) then Some r else None
  end.
Proof.
  unfold row_at, select. rewrite filter_app. destruct (filter _ rows); [|done].
  rewrite filter_cons. case_bool_decide; by case_decide.
Qed.

Lemma insert_row_cases row rows :
  (row_at (row_nullifier row) rows = None ∧ insert_row row rows = (Ok tt, rows ++ [row])) ∨
  (∃ r e, row_at (row_nullifier row) rows = Some r ∧
     insert_row row rows = (Err (ConstraintViolation e), rows)).
Proof.
  unfold insert_row, row_at. destruct (select _ rows) as [|r l]; [by left|right; eauto].
Qed.

Lemma keys_unique_snoc rows r :
  keys_unique rows → row_at (row_nullifier r) rows = None → keys_unique (rows ++ [r]).
Proof.
  unfold keys_unique. rewrite row_at_None, <- select_nil. intros Hu Hr.
  rewrite fmap_app. apply NoDup_app. split; [done|]. split; [|apply NoDup_singleton].
  intros x Hx Hx'. apply list_elem_of_singleton in Hx' as ->. done.
Qed.

Definition update_row (k : string) (t : TranscriptRecord) (now : Z) (r : Row) : Row :=
  if finalizable k r then finalize_row t now r else r.

Lemma update_row_key k t now r : row_nullifier (update_row k t now r) = row_nullifier r.
Proof. unfold update_row. by destruct (finalizable k r). Qed.

Lemma update_keys k t now (rows : Rows) :
  row_nullifier <$> (update_row k t now <$> rows) = row_nullifier <$> rows.
Proof. rewrite <- list_fmap_compose. apply list_fmap_ext. intros. apply update_row_key. Qed.

Lemma row_at_update k k' t now (rows : Rows) :
  row_at k' (update_row k t now <$> rows) = update_row k t now <$> row_at k' rows.
Proof.
  unfold row_at. induction rows as [|r rows IH]; [done|]. rewrite fmap_cons. unfold select in *.
  rewrite !filter_cons, update_row_key. by case_decide.
Qed.

Lemma finalizable_select k rows :
  filter (λ r, finalizable k r = true) rows =
  filter (λ r, row_status r = status_to_str Reserved) (select k rows).
Proof.
  unfold select. rewrite list_filter_filter. apply list_filter_iff. intros r. unfold finalizable.
  rewrite bool_decide_eq_true. tauto.
Qed.

(** What the UPDATE of [finalize] does to a table with a primary key. *)
Lemma update_rows_cases k t now rows : keys_unique rows →
  (∃ r, row_at k rows = Some r ∧ row_status r = status_to_str Reserved ∧
     update_rows k t now rows = (Ok 1%nat, update_row k t now <$> rows)) ∨
  (update_rows k t now rows = (Ok 0%nat, rows) ∧
     ∀ r, row_at k rows = Some r → row_status r ≠ status_to_str Reserved).
Proof.
  intros Hu. unfold update_rows. fold (update_row k t now). rewrite finalizable_select.
  assert ((∀ r, row_at k rows = Some r → row_status r ≠ status_to_str Reserved) →
    update_row k t now <$> rows = rows) as Hid.
  { intros Hn. rewrite <- (list_fmap_id rows) at 2. apply list_fmap_ext. intros i r Hr%list_elem_of_lookup_2.
    unfold update_row, finalizable. case_bool_decide as E; [|done]. destruct E as [Ek Es].
    destruct (row_at k rows) as [r'|] eqn:Er.
    - apply select_unique in Er as Es'; [|done].
      assert (r ∈ select k rows) as Hin by by apply list_elem_of_filter.
      rewrite Es' in Hin. apply list_elem_of_singleton in Hin as ->. by destruct (Hn r').
    - apply row_at_None, select_nil in Er. destruct Er. apply list_elem_of_fmap. eauto. }
  destruct (row_at k rows) as [r|] eqn:Er.
  - rewrite (select_unique _ _ _ Hu Er), filter_cons. case_decide as Es; [left; eauto|].
    right. rewrite Hid by congruence. split; [done|congruence].
  - right. rewrite (proj1 (row_at_None _ _) Er), Hid by done. done.
Qed.

(** ** What each operation does to the table *)

Lemma reserve_cases now n id ph s r s' : reserve now n id ph s = (r, s') →
  (r = Ok tt ∧ row_at (to_hex n) (sql_data s) = None ∧
   sql_data s' = sql_data s ++ [new_row (to_hex n) (status_to_str Reserved) (Some id)
                                  (Some (to_hex ph)) (as_signed 64 now)]) ∨
  (r ≠ Ok tt ∧ sql_data s' = sql_data s).
Proof.
  unfold reserve, catch_err, statement. intros H.
  destruct (insert_row_cases (new_row (to_hex n) (status_to_str Reserved) (Some id)
    (Some (to_hex ph)) (as_signed 64 now)) (sql_data s)) as [[E1 E2]|(x & e & E1 & E2)];
    destruct (sql_io s) as [|[] io]; rewrite ?E2 in H; cbn in H; injection H as <- <-;
    (by left) || (by right).
Qed.

Lemma reserve_clearance_cases now n s r s' : reserve_clearance now n s = (r, s') →
  (r = Ok tt ∧ row_at (to_hex n) (sql_data s) = None ∧
   sql_data s' = sql_data s ++ [new_row (to_hex n) (status_to_str ClearanceReserved) None None
                                  (as_signed 64 now)]) ∨
  (r ≠ Ok tt ∧ sql_data s' = sql_data s).
Proof.
  unfold reserve_clearance, catch_err, statement. intros H.
  destruct (insert_row_cases (new_row (to_hex n) (status_to_str ClearanceReserved) None None
    (as_signed 64 now)) (sql_data s)) as [[E1 E2]|(x & e & E1 & E2)];
    destruct (sql_io s) as [|[] io]; rewrite ?E2 in H; cbn in H; injection H as <- <-;
    (by left) || (by right).
Qed.

Lemma finalize_cases now n t s r s' : keys_unique (sql_data s) → finalize now n t s = (r, s') →
  (r = Ok tt ∧ ∃ row, row_at (to_hex n) (sql_data s) = Some row ∧
   row_status row = status_to_str Reserved ∧
   sql_data s' = update_row (to_hex n) t now <$> sql_data s) ∨
  (r ≠ Ok tt ∧ sql_data s' = sql_data s).
Proof.
  unfold finalize, catch_err, statement, mbind, M_mbind. intros Hu H.
  destruct (update_rows_cases (to_hex n) t now (sql_data s) Hu) as [(row & E1 & E2 & E3)|[E3 _]];
    destruct (sql_io s) as [|[] io]; rewrite ?E3 in H; cbn in H; injection H as <- <-;
    try (by right); left; eauto.
Qed.

Lemma query_row_data {E} p s (r : result E _) s' : query_row p s = (r, s') → sql_data s' = sql_data s.
Proof.
  unfold query_row, query, statement. intros H.
  destruct (sql_io s) as [|[] io];
    [..|by injection H as <- <-|by injection H as <- <-];
    destruct (match filter _ _ with [] => _ | _ => _ end) as [o|e|]; by injection H as <- <-.
Qed.

Lemma query_all_data p s r s' : query_all p s = (r, s') → sql_data s' = sql_data s.
Proof.
  unfold query_all, query, statement. intros H.
  destruct (sql_io s) as [|[] io];
    [..|by injection H as <- <-|by injection H as <- <-];
    destruct (read_rows _) as [o|e|]; by injection H as <- <-.
Qed.

(** ** Histories

    The calls the server's threads make, in the order the connection's mutex
    lets them run, whatever the database answers each and however often the
    process restarts. *)
Inductive StoreOp : Type :=
| OpReserve (now : Z) (n : Felt252) (id : string) (ph : Felt252)
| OpFinalize (now : Z) (n : Felt252) (t : TranscriptRecord)
| OpClearance (now : Z) (n : Felt252)
| OpLookup (n : Felt252)
| OpLookupId (id : string)
| OpReserved
| OpAll
| OpOpen.

Definition run_op (o : StoreOp) : DB () :=
  match o with
  | OpReserve now n id ph => reserve now n id ph
  | OpFinalize now n t => finalize now n t
  | OpClearance now n => reserve_clearance now n
  | OpLookup n => _ ← lookup_by_nullifier n; mret tt
  | OpLookupId id => _ ← lookup_by_client_id id; mret tt
  | OpReserved => _ ← get_reserved_entries; mret tt
  | OpAll => _ ← get_all_nullifiers; mret tt
  | OpOpen => NullifierStore_new
  end.

Inductive history (rows0 : Rows) : list (StoreOp * result ServerError ()) → Rows → Prop :=
| history_nil : history rows0 [] rows0
| history_step tr rows o io r s' :
    history rows0 tr rows → run_op o (Build_Sql rows io) = (r, s') →
    history rows0 (tr ++ [(o, r)]) (sql_data s').

Definition count (p : StoreOp * result ServerError () → bool)
  (tr : list (StoreOp * result ServerError ())) : nat := length (filter (λ e, p e = true) tr).

(** The successful reservations, finalizations and clearances of a nullifier. *)
Definition is_reserve (k : string) (e : StoreOp * result ServerError ()) : bool :=
  match e with (OpReserve _ n _ _, Ok _) => bool_decide (to_hex n = k) | _ => false end.
Definition is_finalize (k : string) (e : StoreOp * result ServerError ()) : bool :=
  match e with (OpFinalize _ n _, Ok _) => bool_decide (to_hex n = k) | _ => false end.
Definition is_clearance (k : string) (e : StoreOp * result ServerError ()) : bool :=
  match e with (OpClearance _ n, Ok _) => bool_decide (to_hex n = k) | _ => false end.

Lemma count_snoc p tr e : count p (tr ++ [e]) = (count p tr + if p e then 1 else 0)%nat.
Proof.
  unfold count. rewrite filter_app, length_app, filter_cons, filter_nil. by destruct (p e).
Qed.

(** A row keeps its key; once no longer [Reserved] it is frozen. *)
Definition row_evolves (r r' : Row) : Prop :=
  r' = r ∨ (row_status r = status_to_str Reserved ∧ ∃ t now, r' = finalize_row t now r).

#[export] Instance row_evolves_preorder : PreOrder row_evolves.
Proof.
  split; [by left|]. intros r1 r2 r3 [->|(E & t & now & ->)] H; [done|].
  destruct H as [->|(E' & _)]; [right; eauto|done].
Qed.

Definition rows_evolve (rows rows' : Rows) : Prop :=
  keys_unique rows →
  keys_unique rows' ∧
  ∀ k r, row_at k rows = Some r → ∃ r', row_at k rows' = Some r' ∧ row_evolves r r'.

#[export] Instance rows_evolve_preorder : PreOrder rows_evolve.
Proof.
  split.
  - intros rows Hu. split; [done|]. intros k r Hr. exists r. by split; [|left].
  - intros l1 l2 l3 H12 H23 Hu. destruct (H12 Hu) as [Hu2 H2]. destruct (H23 Hu2) as [Hu3 H3].
    split; [done|]. intros k r (r2 & E2 & Hr2)%H2. destruct (H3 _ _ E2) as (r3 & E3 & Hr3).
    exists r3. split; [done|]. by etrans.
Qed.

Lemma insert_evolves row rows : row_at (row_nullifier row) rows = None →
  rows_evolve rows (rows ++ [row]).
Proof.
  intros Hn Hu. split; [by apply keys_unique_snoc|]. intros k r Hr. exists r.
  split; [by rewrite row_at_snoc, Hr|by left].
Qed.

Lemma update_evolves k t now rows : rows_evolve rows (update_row k t now <$> rows).
Proof.
  intros Hu. split; [unfold keys_unique; by rewrite update_keys|]. intros k' r Hr.
  exists (update_row k t now r). split; [by rewrite row_at_update, Hr|]. unfold update_row, finalizable.
  case_bool_decide as E; [right|by left]. destruct E as [_ E]. eauto.
Qed.

(** Every operation's effect, in one statement: nothing, or the one row of its
    nullifier appears or is finalized. *)
Definition op_effect (o : StoreOp) (r : result ServerError ()) (rows rows' : Rows) : Prop :=
  match o, r with
  | OpReserve now n id ph, Ok _ =>
      row_at (to_hex n) rows = None ∧
      rows' = rows ++ [new_row (to_hex n) (status_to_str Reserved) (Some id) (Some (to_hex ph))
                         (as_signed 64 now)]
  | OpClearance now n, Ok _ =>
      row_at (to_hex n) rows = None ∧
      rows' = rows ++ [new_row (to_hex n) (status_to_str ClearanceReserved) None None
                         (as_signed 64 now)]
  | OpFinalize now n t, Ok _ =>
      (∃ row, row_at (to_hex n) rows = Some row ∧ row_status row = status_to_str Reserved) ∧
      rows' = update_row (to_hex n) t now <$> rows
  | _, _ => rows' = rows
  end.

Lemma bind_ret_data {A} (m : DB A) s r s' :
  (∀ r s', m s = (r, s') → sql_data s' = sql_data s) →
  (m ≫= λ _, mret tt) s = (r, s') → sql_data s' = sql_data s.
Proof.
  intros Hm. unfold mbind, M_mbind. destruct (m s) as [[a|e|] s1] eqn:E; intros [= <- <-]; eauto.
Qed.

Lemma open_data s : sql_data (NullifierStore_new s).2 = sql_data s.
Proof.
  cut (steps (λ s s', sql_data s = sql_data s') NullifierStore_new); [intros H; symmetry; apply H|].
  assert (∀ A (f : Rows → result SqlError A), steps (λ s s', sql_data s = sql_data s') (query f)) as Hq
    by (intros; apply query_steps; split; [by intros ?|by intros ??? -> ->]).
  unfold NullifierStore_new.
  repeat (apply (steps_bind (λ s s' : Sql Rows, sql_data s = sql_data s')); [|intros _]);
    apply steps_catch; try apply Hq;
    intros s1; specialize (Hq _ (λ _, Ok tt) s1); unfold ignore_err, no_effect in *;
    by destruct (query _ s1) as [[]].
Qed.

Lemma run_op_effect o rows io r s' : keys_unique rows →
  run_op o (Build_Sql rows io) = (r, s') → op_effect o r rows (sql_data s').
Proof.
  intros Hu H. destruct o; cbn [run_op] in H.
  - apply reserve_cases in H as [(-> & E)|[Hr E]]; [done|]. by destruct r as [[]| |].
  - apply finalize_cases in H as [(-> & row & E1 & E2 & E)|[Hr E]]; [|by destruct r as [[]| |]|done].
    split; [eauto|done].
  - apply reserve_clearance_cases in H as [(-> & E)|[Hr E]]; [done|]. by destruct r as [[]| |].
  - apply bind_ret_data in H; [exact H|]. intros. by eapply query_row_data.
  - apply bind_ret_data in H; [exact H|]. intros. by eapply query_row_data.
  - apply bind_ret_data in H; [exact H|]. intros. by eapply query_all_data.
  - apply bind_ret_data in H; [exact H|]. intros. by eapply query_all_data.
  - cbn. pose proof (open_data (Build_Sql rows io)) as E. by rewrite H in E.
Qed.

Lemma op_effect_evolves o r rows rows' : op_effect o r rows rows' → rows_evolve rows rows'.
Proof.
  destruct o, r as [[]| |]; cbn; intros H; try (by subst rows').
  - destruct H as [Hn ->]. by apply insert_evolves.
  - destruct H as [_ ->]. apply update_evolves.
  - destruct H as [Hn ->]. by apply insert_evolves.
Qed.

Lemma history_evolves rows0 tr rows : keys_unique rows0 → history rows0 tr rows →
  rows_evolve rows0 rows.
Proof.
  intros Hu. induction 1 as [|tr rows o io r s' _ IH Hr]; [reflexivity|].
  etrans; [exact IH|]. eapply op_effect_evolves, run_op_effect; [|exact Hr]. by apply IH.
Qed.

Definition tallied (k : string) (tr : list (StoreOp * result ServerError ())) (o : option Row) : Prop :=
  let counts a b c := count (is_reserve k) tr = a ∧ count (is_finalize k) tr = b ∧
                      count (is_clearance k) tr = c in
  match o with
  | None => counts 0%nat 0%nat 0%nat
  | Some r => (row_status r = status_to_str Reserved ∧ counts 1%nat 0%nat 0%nat) ∨
              (row_status r = status_to_str Finalized ∧ counts 1%nat 1%nat 0%nat) ∨
              (row_status r = status_to_str ClearanceReserved ∧ counts 0%nat 0%nat 1%nat)
  end.

(** An event that neither changes the row of [k] nor counts for it. *)
Lemma tallied_other k tr e o :
  is_reserve k e = false → is_finalize k e = false → is_clearance k e = false →
  tallied k tr o → tallied k (tr ++ [e]) o.
Proof.
  intros E1 E2 E3. unfold tallied. rewrite !count_snoc, E1, E2, E3, !Nat.add_0_r. done.
Qed.

Lemma tallied_step k tr o r rows rows' :
  op_effect o r rows rows' → tallied k tr (row_at k rows) →
  tallied k (tr ++ [(o, r)]) (row_at k rows').
Proof.
  destruct o, r as [[]| |]; cbn [op_effect]; intros H; try (subst rows'; by apply tallied_other).
  - destruct H as [Hn ->]. rewrite row_at_snoc. cbn [row_nullifier new_row].
    case_bool_decide as E; [subst k; rewrite Hn|].
    + unfold tallied. rewrite !count_snoc. cbn. rewrite bool_decide_true by done. intros (-> & -> & ->).
      by left.
    + intros Ht. assert (bool_decide (to_hex n = k) = false) as Ef by by apply bool_decide_eq_false.
      destruct (row_at k rows); by apply tallied_other.
  - destruct H as [(row & Hn & Hs) ->]. rewrite row_at_update.
    destruct (decide (to_hex n = k)) as [<-|E].
    + rewrite Hn. cbn [fmap option_fmap option_map]. unfold tallied. rewrite !count_snoc. cbn.
      rewrite bool_decide_true by done.
      intros [(_ & -> & -> & ->)|[(E & _)|(E & _)]]; [|by rewrite Hs in E..].
      right. left. unfold update_row, finalizable. rewrite bool_decide_true; [done|].
      split; [|done]. assert (row ∈ select (to_hex n) rows) as [E _]%select_elem; [|done].
      unfold row_at in Hn. destruct (select _ rows); [done|]. injection Hn as ->. left.
    + intros Ht. replace (update_row (to_hex n) t now <$> row_at k rows) with (row_at k rows).
      { apply tallied_other; [done| |done|done]. by apply bool_decide_eq_false. }
      destruct (row_at k rows) as [r|] eqn:Er; [|done]. cbn. f_equal. unfold update_row, finalizable.
      case_bool_decide as Ek'; [|done]. destruct Ek' as [Ek' _]. destruct E.
      assert (r ∈ select k rows) as [Ek _]%select_elem.
      { unfold row_at in Er. destruct (select _ rows); [done|]. injection Er as ->. left. }
      congruence.
  - destruct H as [Hn ->]. rewrite row_at_snoc. cbn [row_nullifier new_row].
    case_bool_decide as E; [subst k; rewrite Hn|].
    + unfold tallied. rewrite !count_snoc. cbn. rewrite bool_decide_true by done. intros (-> & -> & ->).
      right. by right.
    + intros Ht. assert (bool_decide (to_hex n = k) = false) as Ef by by apply bool_decide_eq_false.
      destruct (row_at k rows); by apply tallied_other.
Qed.

Lemma history_tallied k tr rows : history [] tr rows → tallied k tr (row_at k rows).
Proof.
  induction 1 as [|tr rows o io r s' Hh IH Hr]; [done|].
  eapply tallied_step; [|exact IH]. eapply run_op_effect; [|exact Hr].
  eapply history_evolves; [..|exact Hh|]; apply NoDup_nil_2.
Qed.

(** ** Reading rows back *)

Definition opt_canonical (o : option Felt252) : Prop := from_option canonical True o.

Record transcript_ok (t : TranscriptRecord) : Prop := {
  to_charge : from_option (fits 128) True (tr_charge_applied t);
  to_code : from_option (fits 16) True (tr_response_code t);
  to_response_hash : opt_canonical (tr_response_hash t);
  to_cx : opt_canonical (tr_next_commitment_x t);
  to_cy : opt_canonical (tr_next_commitment_y t);
  to_anchor : opt_canonical (tr_next_anchor t);
  to_delta : opt_canonical (tr_blind_delta_srv t);
  to_epoch : from_option (fits 32) True (tr_next_state_sig_epoch t);
  to_root : opt_canonical (tr_next_state_sig_root t);
  to_wots : from_option (λ s, Forall canonical (wots_sig s) ∧ Forall canonical (auth_path s)) True
              (tr_next_state_sig t);
  to_reason : from_option (fits 32) True (tr_policy_reason_code t);
  to_evidence : opt_canonical (tr_policy_evidence_hash t);
}.

Lemma json_felt_id f : canonical f → json_felt f = Ok f.
Proof. intros Hf. unfold json_felt. rewrite from_hex_to_hex. by apply canonical_try_from_bytes_be. Qed.

Lemma json_felts_id l : Forall canonical l → json_felts l = Ok l.
Proof.
  induction 1 as [|f l Hf _ IH]; [done|]. cbn [json_felts].
  rewrite json_felt_id, result_Ok_bind by done. by rewrite IH.
Qed.

Lemma to_hex_canonical_inj f g : canonical f → canonical g → to_hex f = to_hex g → f = g.
Proof.
  intros Hf Hg E. apply json_felt_id in Hf, Hg. unfold json_felt in *. rewrite E in Hf. congruence.
Qed.

Lemma parse_opt_felt_id {E} o : opt_canonical o → @parse_opt_felt E (to_hex <$> o) = Ok o.
Proof.
  destruct o as [f|]; [|done]. intros Hf. cbn -[to_hex from_hex]. apply json_felt_id in Hf.
  unfold json_felt in Hf. by rewrite Hf.
Qed.

Lemma opt_signature_id {E} o :
  from_option (λ s, Forall canonical (wots_sig s) ∧ Forall canonical (auth_path s)) True o →
  @opt_signature E o = Ok o.
Proof.
  destruct o as [s|]; [|done]. intros [Hw Hp]. cbn. unfold json_signature.
  rewrite !json_felts_id, !result_Ok_bind by done. by destruct s.
Qed.

Lemma wrap_as_signed w v z : (0 < w)%Z → (w ≤ v)%Z → fits (w - 1) z → wrap v (as_signed w z) = z.
Proof. intros Hw Hv Hz. rewrite as_signed_small by done. apply wrap_id. eapply fits_weaken; [|done]. lia. Qed.

(** [as i32 as u32] is the identity, [as i64 as u128] is not. *)
Lemma wrap_as_signed_same w z : (0 < w)%Z → fits w z → wrap w (as_signed w z) = z.
Proof.
  intros Hw Hz. unfold as_signed. cbv zeta. rewrite !(wrap_id w z Hz).
  destruct (_ <? _)%Z; [by apply wrap_id|].
  unfold wrap. replace (z - 2 ^ w)%Z with (z + -1 * 2 ^ w)%Z by lia.
  rewrite Z_mod_plus_full. apply Z.mod_small. exact Hz.
Qed.

(** [u16 as i32], then [as u16]. *)
Lemma wrap_as_signed_u16 z : fits 16 z → wrap 16 (as_signed 32 z) = z.
Proof.
  intros Hz. rewrite as_signed_small; [by apply wrap_id|done|]. eapply fits_weaken; [|exact Hz]. lia.
Qed.

(** What the charge column gives back. *)
Definition stored_charge (c : Z) : Z := wrap 128 (as_signed 64 c).

Lemma stored_charge_small c : fits 63 c → stored_charge c = c.
Proof. intros Hc. by apply (wrap_as_signed 64 128). Qed.

Lemma stored_charge_large c : (2 ^ 63 ≤ c < 2 ^ 64)%Z → stored_charge c = (c + (2 ^ 128 - 2 ^ 64))%Z.
Proof.
  intros Hc. unfold stored_charge, as_signed. cbv zeta. rewrite !(wrap_id 64 c) by (split; lia).
  destruct (Z.ltb_spec c (2 ^ (64 - 1))) as [H|_]; [change (2 ^ (64 - 1))%Z with (2 ^ 63)%Z in H; lia|].
  unfold wrap. replace (c - 2 ^ 64)%Z with (c + (2 ^ 128 - 2 ^ 64) + -1 * 2 ^ 128)%Z by lia.
  rewrite Z_mod_plus_full. apply Z.mod_small. lia.
Qed.

(** What [lookup] returns of a finalized transcript: the transcript, under the
    reservation's id and payload hash, with the charge as the column gives it. *)
Definition recorded (n : Felt252) (id : string) (ph : Felt252) (created now : Z)
  (t : TranscriptRecord) : TranscriptRecord :=
  {| tr_nullifier := n; tr_status := Finalized; tr_client_request_id := Some id;
     tr_payload_hash := Some ph; tr_charge_applied := stored_charge <$> tr_charge_applied t;
     tr_response_code := tr_response_code t; tr_response_payload := tr_response_payload t;
     tr_response_hash := tr_response_hash t; tr_next_commitment_x := tr_next_commitment_x t;
     tr_next_commitment_y := tr_next_commitment_y t; tr_next_anchor := tr_next_anchor t;
     tr_blind_delta_srv := tr_blind_delta_srv t;
     tr_next_state_sig_epoch := tr_next_state_sig_epoch t;
     tr_next_state_sig_root := tr_next_state_sig_root t; tr_next_state_sig := tr_next_state_sig t;
     tr_policy_reason_code := tr_policy_reason_code t;
     tr_policy_evidence_hash := tr_policy_evidence_hash t; tr_proof_blob := tr_proof_blob t;
     tr_request_inputs_json := tr_request_inputs_json t; tr_created_at := created;
     tr_finalized_at := Some now |}.

Definition reserved_row (n : Felt252) (id : string) (ph : Felt252) (created : Z) : Row :=
  new_row (to_hex n) (status_to_str Reserved) (Some id) (Some (to_hex ph)) (as_signed 64 created).

Lemma fmap_wrap_id w (o : option Z) (f : Z → Z) :
  (∀ z, fits w z → wrap w (f z) = z) → from_option (fits w) True o → wrap w <$> (f <$> o) = o.
Proof. destruct o as [z|]; [|done]. intros Hf Hz. cbn. by rewrite Hf. Qed.

Lemma ok_opt_hex {E} n : canonical n → @ok_opt _ E _ (from_hex (to_hex n)) = Ok (Some n).
Proof. intros Hn. apply json_felt_id in Hn. unfold json_felt in Hn. by rewrite Hn. Qed.

Lemma ok_opt_any {E1 E2 E A} (r : result E A) o : @ok_opt _ E1 _ r = Ok o → @ok_opt _ E2 _ r = Ok o.
Proof. destruct r; cbn; [by intros [= <-]..|discriminate]. Qed.

Lemma parse_opt_felt_any {E1 E2} s o : @parse_opt_felt E1 s = Ok o → @parse_opt_felt E2 s = Ok o.
Proof. destruct s; [apply ok_opt_any|]. cbn. by intros [= <-]. Qed.

Lemma opt_signature_any {E1 E2} s o : @opt_signature E1 s = Ok o → @opt_signature E2 s = Ok o.
Proof. destruct s; [apply ok_opt_any|]. cbn. by intros [= <-]. Qed.

(** Reading does not depend on the error type around it. *)
Lemma row_to_record_any {E1 E2} row rec : @row_to_record E1 row = Ok rec → @row_to_record E2 row = Ok rec.
Proof.
  unfold row_to_record. intros H. res_inv.
  repeat match goal with
  | H : parse_opt_felt _ = Ok _ |- _ => apply (parse_opt_felt_any (E2 := E2)) in H; rewrite H; clear H
  | H : opt_signature _ = Ok _ |- _ => apply (opt_signature_any (E2 := E2)) in H; rewrite H; clear H
  | H : ok_opt _ = Ok _ |- _ => apply (ok_opt_any (E2 := E2)) in H; rewrite H; clear H
  | |- _ => rewrite result_Ok_bind
  end.
  by rewrite H.
Qed.

Lemma row_to_record_key {E} row rec n :
  @row_to_record E row = Ok rec → row_nullifier row = to_hex n → canonical n → tr_nullifier rec = n.
Proof.
  unfold row_to_record. intros H Hk Hn. rewrite Hk in H. rewrite ok_opt_hex in H by done.
  res_inv. subst rec. cbn. by simplify_eq.
Qed.

Lemma row_to_record_status {E} row rec : @row_to_record E row = Ok rec →
  tr_status rec = str_to_status (row_status row).
Proof. unfold row_to_record. intros H. res_inv. by subst rec. Qed.

Lemma row_to_record_id {E} row rec : @row_to_record E row = Ok rec →
  tr_client_request_id rec = row_client_request_id row.
Proof. unfold row_to_record. intros H. res_inv. by subst rec. Qed.

Lemma str_to_status_Finalized s : str_to_status s = Finalized → s = status_to_str Finalized.
Proof. unfold str_to_status. by repeat case_bool_decide. Qed.

(** Finalizing keeps what the reservation's columns read as. *)
Lemma finalize_read {E} row rec now t :
  @row_to_record E row = Ok rec → transcript_ok t → fits 64 now →
  @row_to_record E (finalize_row t now row) = Ok {|
    tr_nullifier := tr_nullifier rec; tr_status := Finalized;
    tr_client_request_id := tr_client_request_id rec; tr_payload_hash := tr_payload_hash rec;
    tr_charge_applied := stored_charge <$> tr_charge_applied t;
    tr_response_code := tr_response_code t; tr_response_payload := tr_response_payload t;
    tr_response_hash := tr_response_hash t; tr_next_commitment_x := tr_next_commitment_x t;
    tr_next_commitment_y := tr_next_commitment_y t; tr_next_anchor := tr_next_anchor t;
    tr_blind_delta_srv := tr_blind_delta_srv t;
    tr_next_state_sig_epoch := tr_next_state_sig_epoch t;
    tr_next_state_sig_root := tr_next_state_sig_root t; tr_next_state_sig := tr_next_state_sig t;
    tr_policy_reason_code := tr_policy_reason_code t;
    tr_policy_evidence_hash := tr_policy_evidence_hash t; tr_proof_blob := tr_proof_blob t;
    tr_request_inputs_json := tr_request_inputs_json t; tr_created_at := tr_created_at rec;
    tr_finalized_at := Some now |}.
Proof.
  unfold row_to_record at 1. intros H [] Hnow. res_inv. subst rec. unfold row_to_record.
  cbn -[to_hex from_hex mbind parse_opt_felt opt_signature wrap as_signed status_to_str fmap].
  rewrite opt_signature_id by done. repeat match goal with
    H : ?f = Ok _ |- context [?f] => rewrite H; clear H end.
  rewrite !result_Ok_bind, !parse_opt_felt_id by done. rewrite !result_Ok_bind. f_equal.
  rewrite !(fmap_wrap_id 32) by (try done; intros; by apply wrap_as_signed_same).
  rewrite (fmap_wrap_id 16) by (try done; apply wrap_as_signed_u16).
  f_equal; [by destruct (tr_charge_applied t)|]. cbn -[wrap as_signed].
  by rewrite wrap_as_signed_same.
Qed.

Lemma read_reserved {E} n id ph created :
  canonical n → canonical ph → fits 64 created →
  ∃ rec, @row_to_record E (reserved_row n id ph created) = Ok rec ∧
    tr_nullifier rec = n ∧ tr_status rec = Reserved ∧
    tr_client_request_id rec = Some id ∧ tr_payload_hash rec = Some ph ∧ tr_created_at rec = created.
Proof.
  intros Hn Hph Hc. unfold row_to_record.
  cbn -[to_hex from_hex mbind parse_opt_felt opt_signature wrap as_signed status_to_str fmap].
  change (Some (to_hex ph)) with (to_hex <$> Some ph).
  rewrite opt_signature_id, ok_opt_hex, !result_Ok_bind, (parse_opt_felt_id (Some ph)) by done.
  rewrite !result_Ok_bind. eexists. split; [done|]. cbn -[wrap as_signed].
  by rewrite wrap_as_signed_same.
Qed.

Lemma read_clearance n created : canonical n → fits 64 created →
  ∃ rec, (∀ E, @row_to_record E (new_row (to_hex n) (status_to_str ClearanceReserved) None None
                                  (as_signed 64 created)) = Ok rec) ∧
    tr_status rec = ClearanceReserved ∧ tr_client_request_id rec = None.
Proof.
  intros Hn Hc. eexists. split; [intros E; unfold row_to_record|].
  - cbn -[to_hex from_hex mbind parse_opt_felt opt_signature wrap as_signed status_to_str fmap].
    rewrite opt_signature_id, ok_opt_hex, !result_Ok_bind, !(parse_opt_felt_id None) by done.
    rewrite !result_Ok_bind. reflexivity.
  - done.
Qed.

Lemma read_finalized {E} n id ph created now t :
  canonical n → canonical ph → transcript_ok t → fits 64 created → fits 64 now →
  @row_to_record E (finalize_row t now (reserved_row n id ph created))
  = Ok (recorded n id ph created now t).
Proof.
  intros Hn Hph Ht Hc Hnow.
  destruct (@read_reserved E n id ph created Hn Hph Hc) as (rec & Hrec & E1 & _ & E2 & E3 & E4).
  rewrite (finalize_read _ _ now t Hrec Ht Hnow). unfold recorded. by rewrite E1, E2, E3, E4.
Qed.

(** A lookup that answers has read the row. *)
Lemma lookup_inv {E} n s rec s' : @lookup_by_nullifier E n s = (Ok (Some rec), s') →
  ∃ row, row_at (to_hex n) (sql_data s) = Some row ∧ (∀ E, @row_to_record E row = Ok rec) ∧
    sql_data s' = sql_data s.
Proof.
  intros H. pose proof (query_row_data _ _ _ _ H) as Hd.
  unfold lookup_by_nullifier, query_row, query in H.
  destruct (statement _ s) as [[o|e|] s1] eqn:Es; [|discriminate..]. injection H as -> ->.
  apply statement_inv in Es.
  assert (filter (λ r, bool_decide (row_nullifier r = to_hex n) = true) (sql_data s)
    = select (to_hex n) (sql_data s)) as Ef.
  { apply list_filter_iff. intros r. apply bool_decide_eq_true. }
  rewrite Ef in Es. unfold row_at. destruct (select _ (sql_data s)) as [|row l]; [discriminate|].
  exists row. split; [done|]. split; [|done]. intros E'. injection Es as Es _.
  destruct (row_to_record row) as [rec'| |] eqn:Er; [|discriminate..]. cbn in Es. injection Es as ->.
  by eapply row_to_record_any.
Qed.

Lemma lookup_row {E'} n rows row rec :
  row_at (to_hex n) rows = Some row → (∀ E, @row_to_record E row = Ok rec) →
  @lookup_by_nullifier E' n (Build_Sql rows []) = (Ok (Some rec), Build_Sql rows []).
Proof.
  intros Hr Hrec. unfold lookup_by_nullifier, query_row, query. rewrite statement_quiet.
  assert (filter (λ r, bool_decide (row_nullifier r = to_hex n) = true) rows
    = select (to_hex n) rows) as ->.
  { apply list_filter_iff. intros r. apply bool_decide_eq_true. }
  unfold row_at in Hr. destruct (select _ rows); [done|]. injection Hr as ->. by rewrite Hrec.
Qed.

Lemma lookup_absent {E'} n rows :
  row_at (to_hex n) rows = None →
  @lookup_by_nullifier E' n (Build_Sql rows []) = (Ok None, Build_Sql rows []).
Proof.
  intros Hr. unfold lookup_by_nullifier, query_row, query. rewrite statement_quiet.
  assert (filter (λ r, bool_decide (row_nullifier r = to_hex n) = true) rows
    = select (to_hex n) rows) as ->.
  { apply list_filter_iff. intros r. apply bool_decide_eq_true. }
  by rewrite (proj1 (row_at_None _ _) Hr).
Qed.

Lemma reserve_quiet now n id ph rows : row_at (to_hex n) rows = None →
  reserve now n id ph (Build_Sql rows []) = (Ok tt, Build_Sql (rows ++ [reserved_row n id ph now]) []).
Proof.
  intros Hn. unfold reserve, catch_err. rewrite statement_quiet. unfold insert_row.
  cbn [row_nullifier new_row]. by rewrite (proj1 (row_at_None _ _) Hn).
Qed.

Lemma finalize_quiet now n t rows row :
  keys_unique rows → row_at (to_hex n) rows = Some row → row_status row = status_to_str Reserved →
  finalize now n t (Build_Sql rows []) =
    (Ok tt, Build_Sql (update_row (to_hex n) t now <$> rows) []) ∧
  row_at (to_hex n) (update_row (to_hex n) t now <$> rows) = Some (finalize_row t now row).
Proof.
  intros Hu Hr Hs. split.
  - unfold finalize, catch_err, mbind, M_mbind. rewrite statement_quiet.
    destruct (update_rows_cases (to_hex n) t now rows Hu) as [(row' & E1 & E2 & E3)|[E3 Hno]].
    + by rewrite E3.
    + by destruct (Hno _ Hr).
  - rewrite row_at_update, Hr. cbn. unfold update_row, finalizable. rewrite bool_decide_true; [done|].
    apply select_unique in Hr as E; [|done].
    assert (row ∈ select (to_hex n) rows) as [? _]%select_elem by (rewrite E; left). done.
Qed.
(** ** Properties *)

(** C32. A nullifier is spent at most once: along any interleaving of store
    operations on a fresh database, with any database failures and restarts, at
    most one reservation or clearance of a nullifier succeeds, at most one
    finalization, and only after a reservation; the status stored tells which
    happened, so no nullifier is both finalized and cleared. *)
Theorem store_lifecycle tr rows :
  history [] tr rows →
  ∀ n, let k := to_hex n in
    (count (is_reserve k) tr + count (is_clearance k) tr ≤ 1)%nat ∧
    (count (is_finalize k) tr ≤ count (is_reserve k) tr)%nat ∧
    (row_at k rows = None ↔ (count (is_reserve k) tr + count (is_clearance k) tr = 0)%nat) ∧
    ∀ r, row_at k rows = Some r →
      (row_status r = status_to_str Finalized ↔ count (is_finalize k) tr = 1%nat) ∧
      (row_status r = status_to_str ClearanceReserved ↔ count (is_clearance k) tr = 1%nat).
Proof.
  intros Hh n. cbv zeta. pose proof (history_tallied (to_hex n) tr rows Hh) as Ht. unfold tallied in Ht.
  destruct (row_at (to_hex n) rows) as [r|].
  - destruct Ht as [(E & -> & -> & ->)|[(E & -> & -> & ->)|(E & -> & -> & ->)]];
      (split; [lia|]); (split; [lia|]); (split; [split; [done|lia]|]);
      intros r' [= <-]; rewrite E; split; split; intros H; done || discriminate H.
  - destruct Ht as (-> & -> & ->). split; [lia|]. split; [lia|]. by split.
Qed.

(** Stored transcripts are immutable: whatever operations run, the table
    keeps one row per nullifier, a row never disappears, and it changes only by
    the one finalization that takes it out of [Reserved]; a finalized or cleared
    row reads the same ever after. *)
Theorem store_rows_frozen rows0 tr rows k r :
  keys_unique rows0 → history rows0 tr rows → row_at k rows0 = Some r →
  keys_unique rows ∧
  ∃ r', row_at k rows = Some r' ∧
    (row_status r ≠ status_to_str Reserved → r' = r) ∧
    (r' ≠ r → ∃ t now, r' = finalize_row t now r).
Proof.
  intros Hu Hh Hr. destruct (history_evolves _ _ _ Hu Hh Hu) as [Hu' Hk]. split; [done|].
  destruct (Hk k r Hr) as (r' & E & Hev). exists r'. split; [done|].
  destruct Hev as [->|(Hs & t & now & ->)]; [done|]. split; [done|]. eauto.
Qed.

(** A transcript is read back as it was finalized, under the id and payload
    hash of its reservation, except that its charge goes through [i64]: a charge
    below [2^63] comes back exactly, one from [2^63] to [2^64] comes back with
    [2^128 - 2^64] added. *)
Theorem finalize_lookup rows n id ph t created now :
  keys_unique rows → row_at (to_hex n) rows = None →
  canonical n → canonical ph → transcript_ok t → fits 64 created → fits 64 now →
  ∃ s1 s2,
    reserve created n id ph (Build_Sql rows []) = (Ok tt, s1) ∧
    finalize now n t s1 = (Ok tt, s2) ∧
    @lookup_by_nullifier ServerError n s2 = (Ok (Some (recorded n id ph created now t)), s2) ∧
    ∀ c, tr_charge_applied t = Some c →
      tr_charge_applied (recorded n id ph created now t) = Some (stored_charge c) ∧
      ((c < 2 ^ 63)%Z → stored_charge c = c) ∧
      ((2 ^ 63 ≤ c < 2 ^ 64)%Z → stored_charge c = (c + (2 ^ 128 - 2 ^ 64))%Z).
Proof.
  intros Hu Hn Hcn Hcp Ht Hc Hnow.
  assert (row_at (to_hex n) (rows ++ [reserved_row n id ph created])
    = Some (reserved_row n id ph created)) as Hr.
  { rewrite row_at_snoc, Hn. by rewrite bool_decide_true. }
  destruct (finalize_quiet now n t _ _ (keys_unique_snoc rows (reserved_row n id ph created) Hu Hn) Hr eq_refl) as [F1 F2].
  eexists _, _. split; [by apply reserve_quiet|]. split; [exact F1|]. split.
  { eapply lookup_row; [exact F2|]. intros. by apply read_finalized. }
  intros c Ec. cbn [recorded tr_charge_applied]. rewrite Ec. split; [done|].
  pose proof (to_charge _ Ht) as Hf. rewrite Ec in Hf. cbn in Hf. destruct Hf.
  split; [intros; apply stored_charge_small; split; lia|apply stored_charge_large].
Qed.

(** ** Witnesses: a request finalized, and a clearance of its nullifier refused *)

Definition sample_transcript : TranscriptRecord := {|
  tr_nullifier := from_u64 42; tr_status := Finalized; tr_client_request_id := Some "req-1";
  tr_payload_hash := Some (from_u64 9); tr_charge_applied := Some (2 ^ 63)%Z;
  tr_response_code := Some 200%Z; tr_response_payload := Some "ok";
  tr_response_hash := Some (from_u64 9); tr_next_commitment_x := Some (from_u64 3);
  tr_next_commitment_y := Some (from_u64 4); tr_next_anchor := Some (from_u64 5);
  tr_blind_delta_srv := Some (from_u64 6); tr_next_state_sig_epoch := Some 1%Z;
  tr_next_state_sig_root := Some (from_u64 7); tr_next_state_sig := None;
  tr_policy_reason_code := None; tr_policy_evidence_hash := None; tr_proof_blob := Some [x01; x02];
  tr_request_inputs_json := None; tr_created_at := 0; tr_finalized_at := Some 1%Z |}.

Definition sample_ops : list StoreOp :=
  [OpReserve 10 (from_u64 42) "req-1" (from_u64 9); OpReserve 11 (from_u64 42) "req-2" (from_u64 8);
   OpFinalize 12 (from_u64 42) sample_transcript; OpClearance 13 (from_u64 42);
   OpFinalize 14 (from_u64 42) sample_transcript].

Fixpoint replay (ops : list StoreOp) (rows : Rows)
  : list (StoreOp * result ServerError ()) * Rows :=
  match ops with
  | [] => ([], rows)
  | o :: ops =>
      let '(r, s) := run_op o (Build_Sql rows []) in
      let '(tr, rows) := replay ops (sql_data s) in ((o, r) :: tr, rows)
  end.

Lemma history_replay rows0 tr rows ops :
  history rows0 tr rows → history rows0 (tr ++ (replay ops rows).1) (replay ops rows).2.
Proof.
  revert tr rows. induction ops as [|o ops IH]; intros tr rows Hh; [by rewrite app_nil_r|].
  cbn [replay]. destruct (run_op o (Build_Sql rows [])) as [r s] eqn:E.
  pose proof (IH _ _ (history_step _ _ _ _ _ _ _ Hh E)) as IH'.
  destruct (replay ops (sql_data s)) as [tr' rows']. cbn [fst snd] in *. by rewrite <- app_assoc in IH'.
Qed.

Definition sample_history : list (StoreOp * result ServerError ()) * Rows := replay sample_ops [].

Lemma sample_history_ok : history [] sample_history.1 sample_history.2.
Proof. apply (history_replay [] [] []), history_nil. Qed.

Lemma store_lifecycle_witness :
  history [] sample_history.1 sample_history.2 ∧
  (count (is_reserve (to_hex (from_u64 42))) sample_history.1
   + count (is_clearance (to_hex (from_u64 42))) sample_history.1 ≤ 1)%nat ∧
  count (is_finalize (to_hex (from_u64 42))) sample_history.1 = 1%nat.
Proof.
  split; [apply sample_history_ok|]. split; [|vm_compute; reflexivity].
  destruct (store_lifecycle sample_history.1 sample_history.2 sample_history_ok (from_u64 42)) as [H _].
  exact H.
Defined.

Definition sample_frozen : Rows := (replay (take 3 sample_ops) []).2.

Lemma store_rows_frozen_witness :
  ∃ r, row_at (to_hex (from_u64 42)) sample_frozen = Some r ∧
    row_status r = "Finalized" ∧
    row_at (to_hex (from_u64 42)) (replay (drop 3 sample_ops) sample_frozen).2 = Some r.
Proof.
  assert (∃ r, row_at (to_hex (from_u64 42)) sample_frozen = Some r ∧ row_status r = "Finalized")
    as (r & E1 & E2) by (vm_compute; eauto).
  exists r. split; [exact E1|]. split; [exact E2|].
  assert (keys_unique sample_frozen) as Hu.
  { apply (bool_decide_unpack _). vm_compute. exact I. }
  destruct (store_rows_frozen sample_frozen _ _ _ r Hu
    (history_replay sample_frozen [] sample_frozen (drop 3 sample_ops) (history_nil _)) E1)
    as [_ (r' & E3 & E4 & _)].
  rewrite E3. f_equal. apply E4. rewrite E2. discriminate.
Defined.

Lemma finalize_lookup_witness :
  keys_unique [] ∧ transcript_ok sample_transcript ∧ stored_charge (2 ^ 63) ≠ (2 ^ 63)%Z ∧
  ∃ s1 s2,
    reserve 10 (from_u64 42) "req-1" (from_u64 9) (Build_Sql [] []) = (Ok tt, s1) ∧
    finalize 12 (from_u64 42) sample_transcript s1 = (Ok tt, s2) ∧
    @lookup_by_nullifier ServerError (from_u64 42) s2 =
      (Ok (Some (recorded (from_u64 42) "req-1" (from_u64 9) 10 12 sample_transcript)), s2).
Proof.
  assert (∀ z, bool_decide (canonical (from_u64 z)) = true → canonical (from_u64 z)) as Hc
    by (intros z; apply bool_decide_eq_true).
  assert (transcript_ok sample_transcript) as Ht.
  { split; cbn; try exact I; (apply Hc; vm_compute; reflexivity) || (by split). }
  split; [apply NoDup_nil_2|]. split; [exact Ht|]. split; [vm_compute; discriminate|].
  destruct (finalize_lookup [] (from_u64 42) "req-1" (from_u64 9) sample_transcript 10 12)
    as (s1 & s2 & H1 & H2 & H3 & _).
  - apply NoDup_nil_2.
  - reflexivity.
  - apply Hc. vm_compute. reflexivity.
  - apply Hc. vm_compute. reflexivity.
  - exact Ht.
  - by split.
  - by split.
  - exists s1, s2. auto.
Defined.
