(* ===== verification/Signer.v ===== *)
(** * The signing service ([zkapi-server]: signer.rs)

    Two XMSS trees behind one operation lock, and the SQLite table that makes
    their leaf counters survive a restart.  A durable signer reserves a leaf in
    a committed transaction before it builds and signs the message. *)
From S2P Require Import Prelude Felt Types Group Ark Merkle Starknet CoreV1 Wots Xmss ServerBase.

(** ** [SignerStateStore] *)

Inductive SignerTree : Type := State | Clear.
#[export] Instance SignerTree_eq_dec : EqDecision SignerTree.
Proof. solve_decision. Defined.

Definition as_str (tree : SignerTree) : string :=
  match tree with State => "state" | Clear => "clear" end.

(** A row of table [signer_state], keyed by [tree_kind]. *)
Record SignerRow : Type := { sr_epoch : Z; sr_root : string; sr_next_leaf : Z }.

Abbreviation SignerTable := (gmap string SignerRow).
Abbreviation SDB := (M (Sql SignerTable) ServerError).

Definition db_err (what : string) {T A} (m : M (Sql T) SqlError A) : M (Sql T) ServerError A :=
  catch_err (λ e, Database (what +:+ SqlError_display e)) m.

Definition select_tree (tree : SignerTree) : M (Sql SignerTable) SqlError SignerRow :=
  query (λ d, ok_or (d !! as_str tree) query_returned_no_rows).

Definition put_row (tree : SignerTree) (row : SignerRow) : M (Sql SignerTable) SqlError () :=
  statement (λ d, (Ok tt, <[as_str tree := row]> d)).

Definition mismatch (what : string) (tree : SignerTree) (row : SignerRow) (who : string)
  (epoch : Z) (root : Felt252) : ServerError :=
  Database ("signer_state " +:+ as_str tree +:+ what +:+ pretty (sr_epoch row) +:+ " root=" +:+
            sr_root row +:+ who +:+ pretty epoch +:+ " root=" +:+ to_hex root).

Definition ensure_tree (tree : SignerTree) (epoch : Z) (root : Felt252) : SDB () :=
  row ← db_err "signer_state lookup failed: " (query (λ d : SignerTable, Ok (d !! as_str tree)));
  match row with
  | Some row =>
      if bool_decide (sr_epoch row = epoch ∧ sr_root row = to_hex root) then mret tt
      else fail (mismatch " mismatch: db has epoch=" tree row ", config has epoch=" epoch root)
  | None =>
      db_err "signer_state insert failed: "
        (put_row tree {| sr_epoch := epoch; sr_root := to_hex root; sr_next_leaf := 0 |})
  end.

Definition SignerStateStore_new (state_epoch : Z) (state_root : Felt252) (clear_epoch : Z)
  (clear_root : Felt252) : SDB () :=
  _ ← db_err "failed to open signer db: " no_effect;
  _ ← db_err "failed to create signer_state: " no_effect;
  _ ← ensure_tree State state_epoch state_root;
  ensure_tree Clear clear_epoch clear_root.

(** [u32::try_from]. *)
Definition try_u32 (z : Z) (e : ServerError) : result ServerError Z :=
  if bool_decide (fits 32 z) then Ok z else Err e.

Definition out_of_range : ServerError := Database "signer_state next_leaf out of range".

Definition next_leaf (tree : SignerTree) : SDB Z :=
  row ← db_err "signer_state lookup failed: " (select_tree tree);
  lift (try_u32 (sr_next_leaf row) out_of_range).

(** The table changes at the commit; an error before it rolls back. *)
Definition reserve_leaf (tree : SignerTree) (epoch : Z) (root : Felt252) (capacity : Z) : SDB Z :=
  _ ← db_err "signer_state tx failed: " no_effect;
  row ← db_err "signer_state reserve lookup failed: " (select_tree tree);
  if negb (bool_decide (sr_epoch row = epoch ∧ sr_root row = to_hex root))
  then fail (mismatch " changed: db has epoch=" tree row ", signer has epoch=" epoch root)
  else
    next ← lift (try_u32 (sr_next_leaf row) out_of_range);
    if (capacity <=? next)%Z then fail CapacityExhausted
    else
      _ ← db_err "signer_state reserve update failed: " no_effect;
      _ ← db_err "signer_state tx commit failed: "
        (put_row tree {| sr_epoch := sr_epoch row; sr_root := sr_root row;
                         sr_next_leaf := next + 1 |});
      mret next.

(** ** [ServerSigner] *)

Section signer.
Context {SK : Stark}.

(** [sg_poisoned]: a caller's closure panicked under [operation_lock]. *)
Record ServerSigner : Type := {
  sg_state_keypair : XmssKeypair;
  sg_clear_keypair : XmssKeypair;
  sg_state_epoch : Z;
  sg_clear_epoch : Z;
  sg_durable : bool;
  sg_poisoned : bool;
}.

(** The signer in memory and its connection. *)
Record SignerWorld : Type := { sw_signer : ServerSigner; sw_db : Sql SignerTable }.

Abbreviation SM := (M SignerWorld ServerError).

Definition set_signer (sg : ServerSigner) (w : SignerWorld) : SignerWorld :=
  {| sw_signer := sg; sw_db := sw_db w |}.
Definition set_db (d : Sql SignerTable) (w : SignerWorld) : SignerWorld :=
  {| sw_signer := sw_signer w; sw_db := d |}.

Definition keypair (tree : SignerTree) (sg : ServerSigner) : XmssKeypair :=
  match tree with State => sg_state_keypair sg | Clear => sg_clear_keypair sg end.
Definition set_keypair (tree : SignerTree) (k : XmssKeypair) (sg : ServerSigner) : ServerSigner :=
  match tree with
  | State => {| sg_state_keypair := k; sg_clear_keypair := sg_clear_keypair sg;
                sg_state_epoch := sg_state_epoch sg; sg_clear_epoch := sg_clear_epoch sg;
                sg_durable := sg_durable sg; sg_poisoned := sg_poisoned sg |}
  | Clear => {| sg_state_keypair := sg_state_keypair sg; sg_clear_keypair := k;
                sg_state_epoch := sg_state_epoch sg; sg_clear_epoch := sg_clear_epoch sg;
                sg_durable := sg_durable sg; sg_poisoned := sg_poisoned sg |}
  end.
Definition poison (w : SignerWorld) : SignerWorld :=
  let sg := sw_signer w in
  set_signer {| sg_state_keypair := sg_state_keypair sg; sg_clear_keypair := sg_clear_keypair sg;
                sg_state_epoch := sg_state_epoch sg; sg_clear_epoch := sg_clear_epoch sg;
                sg_durable := sg_durable sg; sg_poisoned := true |} w.

Definition tree_epoch (tree : SignerTree) (sg : ServerSigner) : Z :=
  match tree with State => sg_state_epoch sg | Clear => sg_clear_epoch sg end.

Definition state_root (sg : ServerSigner) : Felt252 := root_felt (sg_state_keypair sg).
Definition clear_root (sg : ServerSigner) : Felt252 := root_felt (sg_clear_keypair sg).
Definition tree_root (tree : SignerTree) (sg : ServerSigner) : Felt252 :=
  match tree with State => state_root sg | Clear => clear_root sg end.

Definition with_height {E} (state_seed clear_seed : SF) (epoch : Z) (height : nat)
  : result E ServerSigner :=
  state_keypair ← generate_with_height state_seed height;
  clear_keypair ← generate_with_height clear_seed height;
  Ok {| sg_state_keypair := state_keypair; sg_clear_keypair := clear_keypair;
        sg_state_epoch := epoch; sg_clear_epoch := epoch; sg_durable := false;
        sg_poisoned := false |}.

Definition ServerSigner_new {E} (state_seed clear_seed : SF) (epoch : Z) : result E ServerSigner :=
  with_height state_seed clear_seed epoch XMSS_TREE_HEIGHT.

Definition with_height_durable (state_seed clear_seed : SF) (epoch : Z) (height : nat)
  : SDB ServerSigner :=
  state_keypair ← lift (generate_with_height state_seed height);
  clear_keypair ← lift (generate_with_height clear_seed height);
  _ ← SignerStateStore_new epoch (root_felt state_keypair) epoch (root_felt clear_keypair);
  mret {| sg_state_keypair := state_keypair; sg_clear_keypair := clear_keypair;
          sg_state_epoch := epoch; sg_clear_epoch := epoch; sg_durable := true;
          sg_poisoned := false |}.

Definition lock_poisoned : ServerError :=
  Internal "signer operation lock poisoned: poisoned lock: another task failed inside".

Definition on_db {A} (m : SDB A) : SM A := zoom sw_db set_db m.
Definition on_keypair {A} (tree : SignerTree) (m : M XmssKeypair ServerError A) : SM A :=
  zoom (λ w, keypair tree (sw_signer w)) (λ k w, set_signer (set_keypair tree k (sw_signer w)) w) m.

(** [sig.epoch = ..]. *)
Definition set_epoch (epoch : Z) (sig : XmssSignature) : XmssSignature :=
  {| xmss_epoch := epoch; xmss_leaf_index := xmss_leaf_index sig; wots_sig := wots_sig sig;
     auth_path := auth_path sig |}.

(** The body the three signing functions share, up to the tree they name. *)
Definition sign_body (tree : SignerTree) (build_message : Z → result ServerError Felt252)
  : SM (XmssSignature * Z * Felt252) :=
  w ← get;
  let sg := sw_signer w in
  '(sig, leaf_index, message) ←
    (if sg_durable sg then
       leaf_index ← on_db (reserve_leaf tree (tree_epoch tree sg) (tree_root tree sg)
                             (capacity (keypair tree sg)));
       message ← lift (build_message leaf_index);
       sig ← on_keypair tree (sign_reserved leaf_index message);
       sig ← lift (ok_or sig CapacityExhausted);
       mret (sig, leaf_index, message)
     else
       r ← on_keypair tree (sign_with_index build_message);
       lift (ok_or r CapacityExhausted));
  mret (set_epoch (tree_epoch tree sg) sig, leaf_index, message).

Definition locked {A} (m : SM A) : SM A :=
  with_lock (λ w, sg_poisoned (sw_signer w)) poison (Err lock_poisoned) m.

Definition sign_next_state (build_message : Z → result ServerError Felt252)
  : SM (XmssSignature * Z * Felt252) := locked (sign_body State build_message).

Definition sign_state (message : Felt252) : SM (XmssSignature * Z) :=
  locked ('(sig, leaf_index, _) ← sign_body State (λ _, Ok message); mret (sig, leaf_index)).

Definition sign_clearance (message : Felt252) : SM (XmssSignature * Z) :=
  locked ('(sig, leaf_index, _) ← sign_body Clear (λ _, Ok message); mret (sig, leaf_index)).

Definition epoch (sg : ServerSigner) : Z := sg_state_epoch sg.
Definition clear_epoch (sg : ServerSigner) : Z := sg_clear_epoch sg.

(** [store.next_leaf(..).ok()]; only the process's death is no answer. *)
Definition peek_leaf (tree : SignerTree) : SM (option Z) := λ w,
  match on_db (next_leaf tree) w with
  | (Ok n, w') => (Ok (Some n), w')
  | (Err _, w') => (Ok None, w')
  | (Panic, w') => (Panic, w')
  end.

(** [state_remaining], [clear_remaining]. *)
Definition tree_remaining (tree : SignerTree) : SM Z :=
  w ← get;
  let k := keypair tree (sw_signer w) in
  if sg_durable (sw_signer w) then
    next ← peek_leaf tree;
    mret (match next with
          | Some next => if (next <=? capacity k)%Z then capacity k - next else 0
          | None => 0
          end)%Z
  else mret (remaining k).

(** [state_next_index], [clear_next_index]. *)
Definition tree_next_index (tree : SignerTree) : SM Z :=
  w ← get;
  if sg_durable (sw_signer w) then next ← peek_leaf tree; mret (default 0%Z next)
  else mret (next_index (keypair tree (sw_signer w))).

Definition state_remaining : SM Z := tree_remaining State.
Definition clear_remaining : SM Z := tree_remaining Clear.
Definition state_next_index : SM Z := tree_next_index State.
Definition clear_next_index : SM Z := tree_next_index Clear.
End signer.

(** ** Lemmas *)

(** Counters only grow. *)
Definition tables_le (d d' : SignerTable) : Prop :=
  ∀ k row, d !! k = Some row → ∃ row', d' !! k = Some row' ∧ (sr_next_leaf row ≤ sr_next_leaf row')%Z.

#[export] Instance tables_le_preorder : PreOrder tables_le.
Proof.
  split; [intros d k row H; eauto with lia|]. intros d1 d2 d3 H12 H23 k row (r2 & E2 & L2)%H12.
  destruct (H23 _ _ E2) as (r3 & E3 & L3). exists r3. split; [done|lia].
Qed.

Lemma db_err_steps what {T A} (R : relation T) (m : M (Sql T) SqlError A) :
  steps (λ s s', R (sql_data s) (sql_data s')) m →
  steps (λ s s', R (sql_data s) (sql_data s')) (db_err what m).
Proof. apply steps_catch. Qed.

(** A reservation: the row it read, and the table after the commit. *)
Definition reserved_at (tree : SignerTree) (n : Z) (d d' : SignerTable) : Prop :=
  ∃ row, d !! as_str tree = Some row ∧ sr_next_leaf row = n ∧ fits 32 n ∧
    d' = <[as_str tree := {| sr_epoch := sr_epoch row; sr_root := sr_root row;
                             sr_next_leaf := n + 1 |}]> d.

Lemma db_err_cases what {T A} (f : T → result SqlError A * T) s :
  (∃ a d', f (sql_data s) = (Ok a, d') ∧
     db_err what (statement f) s = (Ok a, Build_Sql d' (tail (sql_io s)))) ∨
  (∃ r d' io, db_err what (statement f) s = (r, Build_Sql d' io) ∧ (∀ a, r ≠ Ok a) ∧
     (d' = sql_data s ∨ d' = (f (sql_data s)).2)).
Proof.
  unfold db_err, catch_err, statement.
  destruct (sql_io s) as [|[] io]; cbn;
    try (right; eexists _, _, _; split; [done|]; split; [done|by left]);
    destruct (f (sql_data s)) as [[a|e|] d'] eqn:E; cbn;
    (left; by eexists _, _) || (right; eexists _, _, _; split; [done|]; split; [done|by right]).
Qed.

Lemma no_effect_cases what {T} (s : Sql T) :
  (∃ io, db_err what no_effect s = (Ok tt, Build_Sql (sql_data s) io)) ∨
  (∃ r io, db_err what no_effect s = (r, Build_Sql (sql_data s) io) ∧ ∀ a, r ≠ Ok a).
Proof.
  destruct (db_err_cases what (λ d : T, (Ok tt, d)) s) as [(a & d' & E & H)|(r & d' & io & H & Hr & Hd)].
  - left. injection E as <- <-. eauto.
  - right. assert (d' = sql_data s) as -> by by destruct Hd. eauto.
Qed.


Lemma stopped_run {S E A B} (m : M S E A) (f : A → M S E B) s r s1 r' s' :
  m s = (r, s1) → (∀ a, r ≠ Ok a) → (m ≫= f) s = (r', s') → s' = s1 ∧ ∀ b, r' ≠ Ok b.
Proof.
  intros E1 Hr. rewrite (M_bind_stop _ _ _ _ _ E1 Hr). intros [= <- <-]. split; [done|].
  by destruct r.
Qed.

Lemma select_tree_cases what tree s :
  (∃ row io, db_err what (select_tree tree) s = (Ok row, Build_Sql (sql_data s) io) ∧
     sql_data s !! as_str tree = Some row) ∨
  (∃ r io, db_err what (select_tree tree) s = (r, Build_Sql (sql_data s) io) ∧ ∀ a, r ≠ Ok a).
Proof.
  unfold select_tree, query.
  destruct (db_err_cases what (λ d, (ok_or (d !! as_str tree) query_returned_no_rows, d)) s)
    as [(a & d' & E & H)|(r & d' & io & H & Hr & Hd)].
  - left. injection E as E%ok_or_Ok <-. eauto.
  - right. assert (d' = sql_data s) as -> by by destruct Hd. eauto.
Qed.

Lemma reserve_leaf_cases tree e root cap s r s' : reserve_leaf tree e root cap s = (r, s') →
  (∃ n, r = Ok n ∧ (n < cap)%Z ∧ reserved_at tree n (sql_data s) (sql_data s')) ∨
  ((∀ n, r ≠ Ok n) ∧ (sql_data s' = sql_data s ∨
     ∃ n, (n < cap)%Z ∧ reserved_at tree n (sql_data s) (sql_data s'))).
Proof.
  unfold reserve_leaf. intros H.
  destruct (no_effect_cases "signer_state tx failed: " s) as [(io & E)|(r1 & io & E & Hr)];
    [rewrite (M_bind_Ok _ _ _ _ _ E) in H|
     destruct (stopped_run _ _ _ _ _ _ _ E Hr H) as [-> ?]; right; split; [done|by left]].
  destruct (select_tree_cases "signer_state reserve lookup failed: " tree (Build_Sql (sql_data s) io))
    as [(row & io1 & E1 & Erow)|(r1 & io1 & E1 & Hr)];
    [rewrite (M_bind_Ok _ _ _ _ _ E1) in H|
     destruct (stopped_run _ _ _ _ _ _ _ E1 Hr H) as [-> ?]; right; split; [done|by left]].
  cbn [sql_data] in *. destruct (negb _); [injection H as <- <-; right; split; [done|by left]|].
  rewrite lift_bind in H. unfold try_u32 in H. case_bool_decide as Hfit;
    [|injection H as <- <-; right; split; [done|by left]].
  destruct (Z.leb_spec cap (sr_next_leaf row)); [injection H as <- <-; right; split; [done|by left]|].
  destruct (no_effect_cases "signer_state reserve update failed: " (Build_Sql (sql_data s) io1))
    as [(io2 & E2)|(r1 & io2 & E2 & Hr)];
    [rewrite (M_bind_Ok _ _ _ _ _ E2) in H|
     destruct (stopped_run _ _ _ _ _ _ _ E2 Hr H) as [-> ?]; right; split; [done|by left]].
  unfold put_row in H.
  destruct (db_err_cases "signer_state tx commit failed: "
    (λ d : SignerTable, (Ok tt, <[as_str tree := {| sr_epoch := sr_epoch row; sr_root := sr_root row;
      sr_next_leaf := sr_next_leaf row + 1 |}]> d)) (Build_Sql (sql_data s) io2))
    as [([] & d' & Ed & E3)|(r1 & d' & io3 & E3 & Hr & Hd)].
  - rewrite (M_bind_Ok _ _ _ _ _ E3) in H. injection H as <- <-. injection Ed as <-.
    left. exists (sr_next_leaf row). split; [done|]. split; [lia|]. by exists row.
  - destruct (stopped_run _ _ _ _ _ _ _ E3 Hr H) as [-> ?]. right. split; [done|].
    cbn [sql_data]. destruct Hd as [-> | ->]; [by left|right]. exists (sr_next_leaf row).
    split; [lia|]. by exists row.
Qed.

Lemma reserved_at_le tree n d d' : reserved_at tree n d d' → tables_le d d'.
Proof.
  intros (row & E & <- & _ & ->) k r Hr. destruct (decide (k = as_str tree)) as [->|Hk].
  - rewrite lookup_insert_eq. eexists. split; [done|]. cbn. simplify_eq. lia.
  - rewrite lookup_insert_ne by done. eauto with lia.
Qed.

Lemma ensure_tree_le tree e root s : tables_le (sql_data s) (sql_data (ensure_tree tree e root s).2).
Proof.
  unfold ensure_tree, query. unfold mbind at 1, M_mbind.
  destruct (db_err_cases "signer_state lookup failed: "
    (λ d : SignerTable, (Ok (d !! as_str tree), d)) s) as [(a & d' & E & ->)|(r & d' & io & -> & Hr & Hd)].
  - injection E as <- <-. destruct (sql_data s !! as_str tree) as [row|] eqn:Erow.
    + case_bool_decide; reflexivity.
    + unfold put_row. cbn [sql_data].
      destruct (db_err_cases "signer_state insert failed: "
        (λ d : SignerTable, (Ok tt, <[as_str tree := {| sr_epoch := e; sr_root := to_hex root;
           sr_next_leaf := 0 |}]> d)) (Build_Sql (sql_data s) (tail (sql_io s))))
        as [([] & d' & E & ->)|(r & d' & io & -> & Hr & Hd)].
      * injection E as <-. intros k row Hk. cbn. rewrite lookup_insert_ne by congruence. eauto with lia.
      * cbn. destruct Hd as [->| ->]; [done|]. intros k row Hk. cbn.
        rewrite lookup_insert_ne by congruence. eauto with lia.
  - assert (d' = sql_data s) as -> by by destruct Hd. destruct r; reflexivity || (by destruct (Hr a)).
Qed.

Section lemmas.
Context {SK : Stark}.
Implicit Types (sg : ServerSigner) (w : SignerWorld).

(** A durable signer over the given seeds. *)
Record signer_ok (seeds : SignerTree → SF) (h : nat) sg : Prop := {
  go_durable : sg_durable sg = true;
  go_keys : ∀ tree, keypair_ok (seeds tree) h (keypair tree sg);
}.

Lemma set_keypair_ok seeds h tree k sg :
  signer_ok seeds h sg → keypair_ok (seeds tree) h k → signer_ok seeds h (set_keypair tree k sg).
Proof.
  intros [H1 H2] Hk. split; [by destruct tree|].
  intros tree'. destruct tree, tree'; done || apply (H2 State) || apply (H2 Clear).
Qed.

Lemma with_height_durable_ok s1 s2 e h s sg s' :
  (h < 32)%nat → with_height_durable s1 s2 e h s = (Ok sg, s') →
  signer_ok (λ tree, match tree with State => s1 | Clear => s2 end) h sg ∧ sg_poisoned sg = false ∧
  ∀ tree, tree_epoch tree sg = e.
Proof.
  intros Hh. unfold with_height_durable. rewrite !lift_bind.
  destruct (generate_ok ServerError s1 h Hh) as (k1 & -> & K1 & _). rewrite lift_bind.
  destruct (generate_ok ServerError s2 h Hh) as (k2 & -> & K2 & _). intros H.
  apply M_bind_inv in H as ([] & s3 & _ & [= <- <-]). split; [split; [done|]|split; [done|]];
    by intros [].
Qed.

Lemma with_height_durable_le s1 s2 e h s :
  tables_le (sql_data s) (sql_data (with_height_durable s1 s2 e h s).2).
Proof.
  unfold with_height_durable.
  set (R := λ s s' : Sql SignerTable, tables_le (sql_data s) (sql_data s')).
  assert (PreOrder R) as HR by apply sql_data_preorder, _.
  enough (steps R (k1 ← lift (generate_with_height s1 h); k2 ← lift (generate_with_height s2 h);
    _ ← SignerStateStore_new e (root_felt k1) e (root_felt k2);
    mret {| sg_state_keypair := k1; sg_clear_keypair := k2; sg_state_epoch := e;
            sg_clear_epoch := e; sg_durable := true; sg_poisoned := false |})) as H by apply H.
  assert (∀ what, steps R (db_err what no_effect)) as Hno.
  { intros what. apply db_err_steps, query_steps, _. }
  assert (∀ tree e r, steps R (ensure_tree tree e r)) as Hens by (intros ??? s0; apply ensure_tree_le).
  unfold SignerStateStore_new.
  repeat first [apply steps_lift, _ | apply steps_ret, _ | apply Hno | apply Hens
    | apply (steps_bind R); [|intros ?]].
Qed.

(** What a signature handed out is worth. *)
Definition signed (seeds : SignerTree → SF) (h : nat) sg (tree : SignerTree) (sig : XmssSignature)
  (leaf : Z) (message : Felt252) : Prop :=
  (0 ≤ leaf < 2 ^ h)%Z ∧ xmss_leaf_index sig = leaf ∧ xmss_epoch sig = tree_epoch tree sg ∧
  length (auth_path sig) = h ∧
  (Forall canonical (wots_sig sig) ∧ Forall canonical (auth_path sig)) ∧
  (∀ E, @xmss_verify _ E (tree_root tree sg) message sig = Ok true) ∧
  ∀ E, @xmss_verify_for_height _ E (tree_root tree sg) message sig h = Ok true.

(** What a signing call keeps of the signer. *)
Definition same_signer sg sg' : Prop :=
  (∀ tree, tree_epoch tree sg' = tree_epoch tree sg) ∧
  ∀ tree, tree_root tree sg' = tree_root tree sg.

Lemma tree_root_keypair tree sg : tree_root tree sg = root_felt (keypair tree sg).
Proof. by destruct tree. Qed.

Lemma set_next_root k n : root_felt (set_next n k) = root_felt k.
Proof. done. Qed.

Lemma set_keypair_same tree n sg :
  same_signer sg (set_keypair tree (set_next n (keypair tree sg)) sg).
Proof. by split; intros []; destruct tree. Qed.

Lemma keypair_capacity seeds h sg tree : signer_ok seeds h sg → capacity (keypair tree sg) = (2 ^ h)%Z.
Proof. intros [_ Hk]. unfold capacity. by rewrite (ko_height _ _ _ (Hk tree)). Qed.

(** Signing with a leaf just reserved. *)
Lemma sign_reserved_world seeds h tree w leaf message :
  signer_ok seeds h (sw_signer w) → (0 ≤ leaf < 2 ^ h)%Z →
  ∃ sig w', on_keypair tree (sign_reserved leaf message) w = (Ok (Some sig), w') ∧
    signed seeds h (sw_signer w) tree (set_epoch (tree_epoch tree (sw_signer w)) sig) leaf message ∧
    sw_db w' = sw_db w ∧ signer_ok seeds h (sw_signer w') ∧ same_signer (sw_signer w) (sw_signer w') ∧
    sg_poisoned (sw_signer w') = sg_poisoned (sw_signer w).
Proof.
  intros Hw Hl. pose proof (go_keys _ _ _ Hw tree) as Hk.
  pose proof (sign_reserved_run ServerError _ _ _ leaf message Hk ltac:(lia)) as Hr.
  destruct (Z.ltb_spec leaf (2 ^ h)); [|lia]. destruct Hr as (sig & S1 & Hr).
  destruct (sign_leaf_ok ServerError _ _ _ leaf message Hk Hl) as (sig' & S1' & L1 & _ & L2 & [L5 L6] & L3 & L4).
  rewrite S1 in S1'. injection S1' as <-.
  pose proof (ko_next _ _ _ Hk). unfold on_keypair, zoom. rewrite Hr. eexists _, _. split; [done|].
  cbn [sw_signer sw_db set_signer]. split; [|split; [done|]].
  - unfold signed. rewrite tree_root_keypair. repeat split; try done; lia || apply L3 || apply L4.
  - split; [|split; [apply set_keypair_same|by destruct tree]].
    apply set_keypair_ok; [done|]. apply keypair_ok_next; [done|lia].
Qed.

Lemma sign_body_cases seeds h tree build w r w' :
  signer_ok seeds h (sw_signer w) → sign_body tree build w = (r, w') →
  signer_ok seeds h (sw_signer w') ∧ same_signer (sw_signer w) (sw_signer w') ∧
  sg_poisoned (sw_signer w') = sg_poisoned (sw_signer w) ∧
  tables_le (sql_data (sw_db w)) (sql_data (sw_db w')) ∧
  ∀ sig leaf message, r = Ok (sig, leaf, message) →
    build leaf = Ok message ∧ signed seeds h (sw_signer w) tree sig leaf message ∧
    reserved_at tree leaf (sql_data (sw_db w)) (sql_data (sw_db w')).
Proof.
  intros Hw H. unfold sign_body in H.
  change ((get ≫= ?f) w) with (f w w) in H. cbv beta zeta in H. rewrite (go_durable _ _ _ Hw) in H.
  rewrite (keypair_capacity seeds h _ tree Hw), !M_bind_assoc in H.
  unfold mbind at 1, M_mbind at 1 in H. unfold on_db, zoom at 1 in H.
  destruct (reserve_leaf _ _ _ _ _) as [r1 d1] eqn:Er.
  pose proof (reserve_leaf_cases _ _ _ _ _ _ _ Er) as Hres.
  assert (tables_le (sql_data (sw_db w)) (sql_data d1)) as Hle.
  { destruct Hres as [(n & _ & _ & Hn%reserved_at_le)|[_ [-> |(n & _ & Hn%reserved_at_le)]]];
      done || reflexivity. }
  set (w1 := set_db d1 w) in *. assert (signer_ok seeds h (sw_signer w1)) as Hw1 by exact Hw.
  destruct r1 as [leaf|e|]; [|by injection H as <- <-..].
  destruct Hres as [(n & [= <-] & Hlt & Hat)|[Hno _]]; [|by destruct (Hno leaf)].
  rewrite M_bind_assoc in H. unfold mbind at 1, M_mbind at 1, lift at 1 in H.
  destruct (build leaf) as [message|e|] eqn:Eb; [|by injection H as <- <-..].
  assert (0 ≤ leaf < 2 ^ h)%Z as Hl by (destruct Hat as (? & _ & _ & [] & _); lia).
  destruct (sign_reserved_world seeds h tree w1 leaf message Hw1 Hl)
    as (sig & w2 & S1 & S2 & S3 & S4 & S5 & S6).
  rewrite M_bind_assoc, (M_bind_Ok _ _ _ _ _ S1) in H.
  injection H as <- <-. rewrite S3. split; [done|]. split; [done|]. split; [done|].
  split; [done|]. intros sig' leaf' message' [= <- <- <-]. done.
Qed.
End lemmas.

(** ** Histories *)

Section histories.
Context {SK : Stark}.

Inductive SignOp : Type :=
| SNext (build_message : Z → result ServerError Felt252)
| SState (message : Felt252)
| SClear (message : Felt252).

Definition op_tree (op : SignOp) : SignerTree :=
  match op with SClear _ => Clear | _ => State end.

(** What the operation asks to be signed under the leaf it gets. *)
Definition op_message (op : SignOp) (leaf : Z) : result ServerError Felt252 :=
  match op with SNext build => build leaf | SState m | SClear m => Ok m end.

Definition run_sign (op : SignOp) : M SignerWorld ServerError (XmssSignature * Z) :=
  match op with
  | SNext build => '(sig, leaf, _) ← sign_next_state build; mret (sig, leaf)
  | SState message => sign_state message
  | SClear message => sign_clearance message
  end.

(** The durable signer over the life of its database: the process in memory
    ([None] before it is up), the table, and the leaves signed with so far.  A
    restart can come at any point, and an operation can end by the process's
    death as well as by an error. *)
Inductive signer_run (state_seed clear_seed : SF) (e : Z) (h : nat)
  : option ServerSigner → SignerTable → list (SignerTree * Z) → Prop :=
| run_fresh : signer_run state_seed clear_seed e h None ∅ []
| run_restart o d used io r s :
    signer_run state_seed clear_seed e h o d used →
    with_height_durable state_seed clear_seed e h (Build_Sql d io) = (r, s) →
    signer_run state_seed clear_seed e h (result_ok r) (sql_data s) used
| run_signs sg d used op io r w :
    signer_run state_seed clear_seed e h (Some sg) d used →
    run_sign op {| sw_signer := sg; sw_db := Build_Sql d io |} = (r, w) →
    signer_run state_seed clear_seed e h (Some (sw_signer w)) (sql_data (sw_db w))
      (match r with Ok (_, leaf) => [(op_tree op, leaf)] | _ => [] end ++ used).

Definition seeds_of (state_seed clear_seed : SF) (tree : SignerTree) : SF :=
  match tree with State => state_seed | Clear => clear_seed end.

Lemma locked_cases {A} (m : M SignerWorld ServerError A) w r w' : locked m w = (r, w') →
  (sg_poisoned (sw_signer w) = true ∧ r = Err lock_poisoned ∧ w' = w) ∨
  (sg_poisoned (sw_signer w) = false ∧ ∃ w1, m w = (r, w1) ∧
     (w' = w1 ∧ r ≠ Panic ∨ w' = poison w1 ∧ r = Panic)).
Proof.
  unfold locked, with_lock. destruct (sg_poisoned (sw_signer w)); [intros [= <- <-]; by left|].
  destruct (m w) as [[a|e|] w1]; intros [= <- <-]; right; (split; [done|]); eexists;
    (split; [done|]); (left; by split) || (right; by split).
Qed.

Lemma poison_ok seeds h w : signer_ok seeds h (sw_signer w) → signer_ok seeds h (sw_signer (poison w)).
Proof. intros [H1 H2]. split; [done|]. intros []; [apply (H2 State)|apply (H2 Clear)]. Qed.

(** Every operation is the common body under the lock. *)
Lemma run_sign_body op :
  ∃ X (body : M SignerWorld ServerError X) (f : X → XmssSignature * Z),
    (∀ w, run_sign op w = (let '(r, w') := locked body w in (f <$> r, w'))) ∧
    ∀ w r w', body w = (r, w') → ∃ r0, sign_body (op_tree op) (op_message op) w = (r0, w') ∧
      ((λ '(sig, leaf, _), (sig, leaf)) <$> r0) = (f <$> r).
Proof.
  destruct op as [build|m|m]; cbn [run_sign op_tree].
  - exists _, (sign_body State build), (λ '(sig, leaf, _), (sig, leaf)). split; [|eauto].
    intros w. unfold sign_next_state, mbind, M_mbind. destruct (locked _ w) as [[[[sig leaf] m]|e|] w1]; reflexivity.
  - exists _, ('(sig, leaf, _) ← sign_body State (λ _, Ok m); mret (sig, leaf)), id. split.
    + intros w. unfold sign_state. destruct (locked _ w) as [[x|err|] w1]; reflexivity.
    + intros w r w' H. unfold mbind, M_mbind in H.
      change (op_message (SState m)) with (λ _ : Z, @Ok ServerError Felt252 m).
      destruct (sign_body State _ w) as [[[[sig leaf] x]| |] w1]; injection H as <- <-; by eexists.
  - exists _, ('(sig, leaf, _) ← sign_body Clear (λ _, Ok m); mret (sig, leaf)), id. split.
    + intros w. unfold sign_clearance. destruct (locked _ w) as [[x|err|] w1]; reflexivity.
    + intros w r w' H. unfold mbind, M_mbind in H.
      change (op_message (SClear m)) with (λ _ : Z, @Ok ServerError Felt252 m).
      destruct (sign_body Clear _ w) as [[[[sig leaf] x]| |] w1]; injection H as <- <-; by eexists.
Qed.

Lemma run_sign_cases seeds h op w r w' :
  signer_ok seeds h (sw_signer w) → run_sign op w = (r, w') →
  signer_ok seeds h (sw_signer w') ∧ same_signer (sw_signer w) (sw_signer w') ∧
  tables_le (sql_data (sw_db w)) (sql_data (sw_db w')) ∧
  ∀ sig leaf, r = Ok (sig, leaf) → ∃ message,
    op_message op leaf = Ok message ∧ signed seeds h (sw_signer w) (op_tree op) sig leaf message ∧
    reserved_at (op_tree op) leaf (sql_data (sw_db w)) (sql_data (sw_db w')).
Proof.
  intros Hw H. destruct (run_sign_body op) as (X & body & f & Hrun & Hbody). rewrite Hrun in H.
  destruct (locked body w) as [r1 w1] eqn:El. injection H as <- <-.
  apply locked_cases in El as [(_ & -> & ->)|(_ & w2 & Eb & Hw')].
  { split; [done|]. split; [by split|]. split; [reflexivity|done]. }
  destruct (Hbody _ _ _ Eb) as (r0 & Es & Er0).
  destruct (sign_body_cases _ _ _ _ _ _ _ Hw Es) as (B1 & B2 & _ & B4 & B5).
  destruct Hw' as [[-> _]|[-> ->]].
  - split; [done|]. split; [done|]. split; [done|]. intros sig leaf Er. rewrite Er in Er0.
    destruct r0 as [[[sig0 leaf0] m]| |]; [|discriminate..]. injection Er0 as -> ->.
    exists m. by apply B5.
  - split; [by apply poison_ok|]. split; [|done]. destruct B2 as [E1 E2].
    split; intros []; [apply (E1 State)|apply (E1 Clear)|apply (E2 State)|apply (E2 Clear)].
Qed.

(** Every leaf signed with is below its tree's stored counter. *)
Definition used_ok (d : SignerTable) (used : list (SignerTree * Z)) : Prop :=
  ∀ tree leaf, (tree, leaf) ∈ used → ∃ row, d !! as_str tree = Some row ∧ (leaf < sr_next_leaf row)%Z.

Lemma used_ok_le d d' used : tables_le d d' → used_ok d used → used_ok d' used.
Proof.
  intros Hle Hu tree leaf (row & E & Hl)%Hu. destruct (Hle _ _ E) as (row' & E' & ?).
  exists row'. split; [done|lia].
Qed.

Lemma reserved_at_used tree leaf d d' used :
  reserved_at tree leaf d d' → used_ok d used → ((tree, leaf) ∉ used) ∧ used_ok d' ((tree, leaf) :: used).
Proof.
  intros Hat Hu. pose proof (reserved_at_le _ _ _ _ Hat) as Hle.
  destruct Hat as (row & E & <- & _ & ->). split.
  - intros (row' & E' & Hl)%Hu. simplify_eq. lia.
  - intros t i [[= -> ->]|Hin]%elem_of_cons; [|by eapply used_ok_le].
    rewrite lookup_insert_eq. eexists. split; [done|]. cbn. lia.
Qed.

Lemma signer_run_inv s1 s2 e h o d used : (h < 32)%nat → signer_run s1 s2 e h o d used →
  used_ok d used ∧ ∀ sg, o = Some sg → signer_ok (seeds_of s1 s2) h sg.
Proof.
  intros Hh. induction 1 as [|o d used io r s _ [IH _] Hr|sg d used op io r w _ [IH1 IH2] Hr].
  - split; [|done]. by intros ?? ?%not_elem_of_nil.
  - split.
    + eapply used_ok_le; [|exact IH]. pose proof (with_height_durable_le s1 s2 e h (Build_Sql d io)) as Hle.
      by rewrite Hr in Hle.
    + intros sg Hsg. destruct r as [sg'| |]; [|discriminate..]. injection Hsg as ->.
      by apply with_height_durable_ok in Hr as [? _].
  - destruct (run_sign_cases _ _ _ _ _ _ (IH2 sg eq_refl : signer_ok _ _ (sw_signer {|
      sw_signer := sg; sw_db := Build_Sql d io |})) Hr) as (R1 & _ & R3 & R4).
    split; [|by intros sg' [= <-]].
    destruct r as [[sig leaf]| |]; try (by eapply used_ok_le).
    destruct (R4 sig leaf eq_refl) as (m & _ & _ & Hat). by eapply reserved_at_used.
Qed.

(** C33. The durable signer never signs twice with one leaf: over any life of its
    database - restarts at any point, failing or dying statements, panicking
    message closures - a leaf it signs with was never signed with before in that
    tree, and the signature carries its epoch and leaf and verifies, under the
    tree's published root, for exactly the message the caller built for that
    leaf. *)
Theorem signer_leaf_once state_seed clear_seed e h sg d used op io sig leaf w :
  (h < 32)%nat → signer_run state_seed clear_seed e h (Some sg) d used →
  run_sign op {| sw_signer := sg; sw_db := Build_Sql d io |} = (Ok (sig, leaf), w) →
  ((op_tree op, leaf) ∉ used) ∧ (0 ≤ leaf < 2 ^ h)%Z ∧
  ∃ message, op_message op leaf = Ok message ∧
    xmss_leaf_index sig = leaf ∧ xmss_epoch sig = tree_epoch (op_tree op) sg ∧
    @xmss_verify _ string (tree_root (op_tree op) sg) message sig = Ok true.
Proof.
  intros Hh Hrun Hs. destruct (signer_run_inv _ _ _ _ _ _ _ Hh Hrun) as [Hu Hok].
  destruct (run_sign_cases _ _ _ _ _ _ (Hok sg eq_refl : signer_ok _ _ (sw_signer {|
    sw_signer := sg; sw_db := Build_Sql d io |})) Hs) as (_ & _ & _ & R).
  destruct (R sig leaf eq_refl) as (m & Em & (Hl & S1 & S2 & _ & _ & S3 & _) & Hat).
  split; [by eapply reserved_at_used|]. split; [done|]. by exists m.
Qed.

(** A counter that is there, belongs to the signer and has a leaf left. *)
Definition leaf_ready (h : nat) sg (tree : SignerTree) (d : SignerTable) (next : Z) : Prop :=
  ∃ row, d !! as_str tree = Some row ∧ sr_epoch row = tree_epoch tree sg ∧
    sr_root row = to_hex (tree_root tree sg) ∧ sr_next_leaf row = next ∧ (0 ≤ next < 2 ^ h)%Z.

Definition bump (tree : SignerTree) (d : SignerTable) : SignerTable :=
  alter (λ row, {| sr_epoch := sr_epoch row; sr_root := sr_root row;
                   sr_next_leaf := sr_next_leaf row + 1 |}) (as_str tree) d.

Lemma leaf_ready_bump h sg sg' tree d next :
  leaf_ready h sg tree d next → same_signer sg sg' → (next + 1 < 2 ^ h)%Z →
  leaf_ready h sg' tree (bump tree d) (next + 1).
Proof.
  intros (row & E & E1 & E2 & <- & Hn) [He Hr] Hlt. unfold leaf_ready, bump.
  rewrite lookup_alter_eq, E. eexists. split; [reflexivity|]. cbn [sr_epoch sr_root sr_next_leaf].
  rewrite He, Hr. split; [done|]. split; [done|]. split; [done|lia].
Qed.

Lemma reserve_leaf_quiet seeds h sg tree d next :
  signer_ok seeds h sg → leaf_ready h sg tree d next →
  reserve_leaf tree (tree_epoch tree sg) (tree_root tree sg) (capacity (keypair tree sg))
    (Build_Sql d []) = (Ok next, Build_Sql (bump tree d) []).
Proof.
  intros Hsg (row & E & E1 & E2 & <- & Hn). rewrite (keypair_capacity _ _ _ _ Hsg).
  assert (2 ^ h ≤ 2 ^ 32)%Z.
  { apply Z.pow_le_mono_r; [lia|]. pose proof (ko_small _ _ _ (go_keys _ _ _ Hsg tree)). lia. }
  unfold reserve_leaf, db_err, catch_err, no_effect, query, select_tree, query, put_row.
  unfold mbind, M_mbind, lift, try_u32, fail. rewrite !statement_quiet. cbn [map_err]. rewrite E.
  cbn [ok_or map_err]. rewrite E1, E2, bool_decide_true by done. cbn [negb].
  rewrite bool_decide_true by (split; lia).
  assert ((2 ^ h <=? sr_next_leaf row)%Z = false) as -> by (apply Z.leb_gt; lia).
  rewrite !statement_quiet. cbn [map_err]. unfold mret, M_mret. do 2 f_equal. unfold bump.
  apply map_eq. intros k. destruct (decide (k = as_str tree)) as [->|Hk].
  - rewrite lookup_insert_eq, lookup_alter_eq, E. cbn. by rewrite E1, E2.
  - by rewrite lookup_insert_ne, lookup_alter_ne by done.
Qed.

(** A signing call that finds the lock free and a leaf left. *)
Lemma sign_body_quiet seeds h sg tree d next build message :
  signer_ok seeds h sg → leaf_ready h sg tree d next → build next = Ok message →
  ∃ sig sg', sign_body tree build {| sw_signer := sg; sw_db := Build_Sql d [] |} =
      (Ok (sig, next, message), {| sw_signer := sg'; sw_db := Build_Sql (bump tree d) [] |}) ∧
    signed seeds h sg tree sig next message ∧ signer_ok seeds h sg' ∧ same_signer sg sg' ∧
    sg_poisoned sg' = sg_poisoned sg.
Proof.
  intros Hsg Hready Hb. unfold sign_body. rewrite get_bind. cbv zeta. cbn [sw_signer].
  rewrite (go_durable _ _ _ Hsg), !M_bind_assoc. unfold mbind at 1, M_mbind at 1, on_db, zoom at 1.
  cbn [sw_db]. rewrite (reserve_leaf_quiet _ _ _ _ _ _ Hsg Hready), M_bind_assoc.
  unfold mbind at 1, M_mbind at 1, lift at 1. rewrite Hb, M_bind_assoc.
  assert (0 ≤ next < 2 ^ h)%Z as Hl by (by destruct Hready as (? & _ & _ & _ & _ & ?)).
  destruct (sign_reserved_world seeds h tree (set_db (Build_Sql (bump tree d) [])
    {| sw_signer := sg; sw_db := Build_Sql d [] |}) next message Hsg Hl)
    as (sig & w2 & S1 & S2 & S3 & S4 & S5 & S6).
  rewrite (M_bind_Ok _ _ _ _ _ S1). destruct w2 as [sg' d']. cbn [sw_db sw_signer set_db] in *. subst d'.
  by exists (set_epoch (tree_epoch tree sg) sig), sg'.
Qed.

Lemma sign_next_state_quiet seeds h sg d next build message :
  signer_ok seeds h sg → sg_poisoned sg = false → leaf_ready h sg State d next →
  build next = Ok message →
  ∃ sig sg', sign_next_state build {| sw_signer := sg; sw_db := Build_Sql d [] |} =
      (Ok (sig, next, message), {| sw_signer := sg'; sw_db := Build_Sql (bump State d) [] |}) ∧
    signed seeds h sg State sig next message ∧ signer_ok seeds h sg' ∧ same_signer sg sg' ∧
    sg_poisoned sg' = false.
Proof.
  intros Hsg Hp Hready Hb.
  destruct (sign_body_quiet _ _ _ _ _ _ _ _ Hsg Hready Hb) as (sig & sg' & E & H1 & H2 & H3 & H4).
  exists sig, sg'. unfold sign_next_state, locked, with_lock. cbn [sw_signer]. rewrite Hp, E.
  rewrite Hp in H4. done.
Qed.

Lemma sign_clearance_quiet seeds h sg d next message :
  signer_ok seeds h sg → sg_poisoned sg = false → leaf_ready h sg Clear d next →
  ∃ sig sw, sign_clearance message {| sw_signer := sg; sw_db := Build_Sql d [] |} =
      (Ok (sig, next), sw).
Proof.
  intros Hsg Hp Hready.
  destruct (sign_body_quiet _ _ _ _ _ _ (λ _, Ok message) message Hsg Hready eq_refl)
    as (sig & sg' & E & _).
  eexists _, _. unfold sign_clearance, locked, with_lock. cbn [sw_signer]. rewrite Hp.
  by rewrite (M_bind_Ok _ _ _ _ _ E).
Qed.

Definition fresh_table sg : SignerTable :=
  <[as_str Clear := {| sr_epoch := tree_epoch Clear sg; sr_root := to_hex (tree_root Clear sg);
                       sr_next_leaf := 0 |}]>
  {[as_str State := {| sr_epoch := tree_epoch State sg; sr_root := to_hex (tree_root State sg);
                       sr_next_leaf := 0 |}]}.

(** A first start on an empty database is up and has every leaf. *)
Lemma with_height_durable_fresh s1 s2 e h : (h < 32)%nat →
  ∃ sg, with_height_durable s1 s2 e h (Build_Sql ∅ []) = (Ok sg, Build_Sql (fresh_table sg) []) ∧
    signer_ok (seeds_of s1 s2) h sg ∧ sg_poisoned sg = false ∧
    (∀ tree, tree_epoch tree sg = e) ∧ ∀ tree, leaf_ready h sg tree (fresh_table sg) 0.
Proof.
  intros Hh. destruct (generate_ok ServerError s1 h Hh) as (k1 & G1 & K1 & _).
  destruct (generate_ok ServerError s2 h Hh) as (k2 & G2 & K2 & _).
  exists {| sg_state_keypair := k1; sg_clear_keypair := k2; sg_state_epoch := e;
            sg_clear_epoch := e; sg_durable := true; sg_poisoned := false |}.
  split.
  { unfold with_height_durable. rewrite !lift_bind, G1, lift_bind, G2. unfold SignerStateStore_new.
    unfold db_err, catch_err, no_effect, ensure_tree, db_err, catch_err, query, put_row.
    unfold mbind, M_mbind. rewrite !statement_quiet. cbn [map_err].
    rewrite lookup_empty, !statement_quiet. cbn [map_err].
    rewrite lookup_insert_ne, lookup_empty, statement_quiet by done. done. }
  split; [split; [done|by intros []]|]. split; [done|]. split; [by intros []|].
  pose proof (ko_next _ _ _ K1). intros tree. unfold leaf_ready, fresh_table. destruct tree.
  - rewrite lookup_insert_ne, lookup_singleton_eq by done. eexists. split; [done|]. split; [done|].
    split; [done|]. split; [done|lia].
  - rewrite lookup_insert_eq. eexists. split; [done|]. split; [done|]. split; [done|]. split; [done|lia].
Qed.

Lemma sign_next_state_panic seeds h sg d next build :
  signer_ok seeds h sg → sg_poisoned sg = false → leaf_ready h sg State d next →
  build next = Panic →
  sign_next_state build {| sw_signer := sg; sw_db := Build_Sql d [] |} =
    (Panic, poison (set_db (Build_Sql (bump State d) [])
       {| sw_signer := sg; sw_db := Build_Sql d [] |})).
Proof.
  intros Hsg Hp Hready Hb. unfold sign_next_state, locked, with_lock. cbn [sw_signer]. rewrite Hp.
  unfold sign_body. rewrite get_bind. cbv zeta. cbn [sw_signer].
  rewrite (go_durable _ _ _ Hsg), !M_bind_assoc. unfold mbind at 1, M_mbind at 1, on_db, zoom at 1.
  cbn [sw_db]. rewrite (reserve_leaf_quiet _ _ _ _ _ _ Hsg Hready), M_bind_assoc.
  unfold mbind at 1, M_mbind at 1, lift at 1. by rewrite Hb.
Qed.

(** A panic in the caller's closure disables the signer: the operation lock
    is poisoned, the durable leaf is already burned, and from then on every
    signing operation of both trees answers an internal error and signs
    nothing, until a restart. *)
Theorem signer_panic_poisons seeds h sg d next build :
  signer_ok seeds h sg → sg_poisoned sg = false → leaf_ready h sg State d next →
  build next = Panic →
  ∃ w', sign_next_state build {| sw_signer := sg; sw_db := Build_Sql d [] |} = (Panic, w') ∧
    sw_db w' = Build_Sql (bump State d) [] ∧ sg_poisoned (sw_signer w') = true ∧
    ∀ op, run_sign op w' = (Err lock_poisoned, w').
Proof.
  intros Hsg Hp Hready Hb.
  exists (poison (set_db (Build_Sql (bump State d) []) {| sw_signer := sg; sw_db := Build_Sql d [] |})).
  split; [|split; [done|]; split; [done|]].
  - by apply (sign_next_state_panic seeds h sg d next).
  - intros op. destruct (run_sign_body op) as (X & body & f & Hrun & _). by rewrite Hrun.
Qed.
End histories.

(** ** Witnesses: trees of four leaves on a fresh database *)

Definition toy_clear_seed : @SF ToyStark := fof (F := @SF ToyStark) 8.

Lemma toy_signer_up : ∃ sg d,
  signer_run (SK := ToyStark) toy_seed toy_clear_seed 3 2 (Some sg) d [] ∧
  signer_ok (SK := ToyStark) (seeds_of toy_seed toy_clear_seed) 2 sg ∧ sg_poisoned sg = false ∧
  leaf_ready (SK := ToyStark) 2 sg State d 0.
Proof.
  destruct (with_height_durable_fresh (SK := ToyStark) toy_seed toy_clear_seed 3 2 ltac:(lia))
    as (sg & Hup & Hok & Hp & _ & Hready).
  exists sg, (fresh_table sg). split; [|split; [done|split; [done|apply Hready]]].
  exact (run_restart _ _ _ _ None ∅ [] [] _ _ (run_fresh _ _ _ _) Hup).
Qed.

Lemma toy_signed_once : ∃ sg d,
  signer_run (SK := ToyStark) toy_seed toy_clear_seed 3 2 (Some sg) d [(State, 0%Z)] ∧
  signer_ok (SK := ToyStark) (seeds_of toy_seed toy_clear_seed) 2 sg ∧ sg_poisoned sg = false ∧
  leaf_ready (SK := ToyStark) 2 sg State d 1.
Proof.
  destruct toy_signer_up as (sg & d & Hrun & Hok & Hp & Hready).
  destruct (sign_next_state_quiet _ _ _ _ _ (λ i, Ok (toy_build i)) _ Hok Hp Hready eq_refl)
    as (sig & sg' & Hs & _ & Hok' & [He Hr] & Hp').
  exists sg', (bump State d). split; [|split; [done|split; [done|]]].
  - refine (run_signs _ _ _ _ sg d [] (SNext (λ i, Ok (toy_build i))) [] (Ok (sig, 0%Z))
      {| sw_signer := sg'; sw_db := Build_Sql (bump State d) [] |} Hrun _).
    cbn [run_sign]. by rewrite (M_bind_Ok _ _ _ _ _ Hs).
  - apply (leaf_ready_bump 2 sg sg' State d 0 Hready); [by split|done].
Qed.

Lemma signer_leaf_once_witness : ∃ sg d sig w,
  signer_run (SK := ToyStark) toy_seed toy_clear_seed 3 2 (Some sg) d [(State, 0%Z)] ∧
  run_sign (SNext (λ i, Ok (toy_build i))) {| sw_signer := sg; sw_db := Build_Sql d [] |}
    = (Ok (sig, 1%Z), w) ∧
  ((State, 1%Z) ∉ [(State, 0%Z)]) ∧
  @xmss_verify ToyStark string (state_root sg) (toy_build 1) sig = Ok true.
Proof.
  destruct toy_signed_once as (sg & d & Hrun & Hok & Hp & Hready).
  destruct (sign_next_state_quiet _ _ _ _ _ (λ i, Ok (toy_build i)) _ Hok Hp Hready eq_refl)
    as (sig & sg' & Hs & _).
  assert (run_sign (SNext (λ i, Ok (toy_build i))) {| sw_signer := sg; sw_db := Build_Sql d [] |}
    = (Ok (sig, 1%Z), {| sw_signer := sg'; sw_db := Build_Sql (bump State d) [] |})) as Hs'
    by (cbn [run_sign]; by rewrite (M_bind_Ok _ _ _ _ _ Hs)).
  exists sg, d, sig, {| sw_signer := sg'; sw_db := Build_Sql (bump State d) [] |}.
  split; [exact Hrun|]. split; [exact Hs'|].
  destruct (signer_leaf_once (SK := ToyStark) toy_seed toy_clear_seed 3 2 sg d [(State, 0%Z)]
    (SNext (λ i, Ok (toy_build i))) [] sig 1 _ ltac:(lia) Hrun Hs') as (H1 & _ & m & Em & _ & _ & H2).
  split; [exact H1|]. injection Em as <-. exact H2.
Defined.

Lemma signer_panic_poisons_witness : ∃ sg d w,
  leaf_ready (SK := ToyStark) 2 sg State d 0 ∧
  sign_next_state (λ _, Panic) {| sw_signer := sg; sw_db := Build_Sql d [] |} = (Panic, w) ∧
  ∀ op, run_sign op w = (Err lock_poisoned, w).
Proof.
  destruct toy_signer_up as (sg & d & _ & Hok & Hp & Hready).
  destruct (signer_panic_poisons (SK := ToyStark) (seeds_of toy_seed toy_clear_seed) 2 sg d 0
    (λ _, Panic) Hok Hp Hready eq_refl) as (w & H1 & _ & _ & H2).
  exists sg, d, w. split; [exact Hready|]. split; [exact H1|exact H2].
Defined.
