(* ===== verification/Processor.v ===== *)
(** * The request processor ([zkapi-server]: processor.rs)

    Request, clearance and recovery handlers, from the checks to the finalized
    transcript, composed of the store, the signer, the Pedersen update and the
    version 1 messages.  Proof verification and base64 are not in this
    repository and are arguments, as are the clock and the provider. *)
From S2P Require Import Prelude Felt Types Group Ark Starknet CoreV1 Pedersen Wots Xmss.
From S2P Require Import ServerBase Store Signer.

(** [base64]'s standard engine, and [ScarbStwoProver::verify_artifact] on a
    directory and an artifact of this output hash and these proof bytes. *)
Class ProofLibs : Type := {
  base64_standard_decode : string → result string (list byte);
  stwo_verify_artifact : string → Felt252 → list byte → result string ();
}.

Section processor.
Context {SK : Stark} {KC : Keccak} {GN : Generators} {PL : ProofLibs} {AP : ApiProvider}.
Implicit Types (cfg : ServerConfig) (r : ApiRequest).

(** [RequestProcessor]: the store, the signer and the current root. *)
Record ServerWorld : Type := {
  pw_store : Sql Rows;
  pw_signer : SignerWorld;
  pw_root : Felt252;
}.

Abbreviation SV := (M ServerWorld ServerError).

Definition on_store {A} (m : M (Sql Rows) ServerError A) : SV A :=
  zoom pw_store (λ s w, {| pw_store := s; pw_signer := pw_signer w; pw_root := pw_root w |}) m.
Definition on_signer {A} (m : M SignerWorld ServerError A) : SV A :=
  zoom pw_signer (λ s w, {| pw_store := pw_store w; pw_signer := s; pw_root := pw_root w |}) m.

Definition update_root (new_root : Felt252) : SV () := λ w,
  (Ok tt, {| pw_store := pw_store w; pw_signer := pw_signer w; pw_root := new_root |}).

(** ** Helpers *)

Definition empty_xmss_sig : XmssSignature :=
  {| xmss_epoch := 0; xmss_leaf_index := 0; wots_sig := replicate WOTS_LEN ZERO;
     auth_path := replicate XMSS_TREE_HEIGHT ZERO |}.

Definition build_response_from_record (record : TranscriptRecord) (client_request_id : string)
  : RequestResponse := {|
  rr_status := "ok";
  rr_client_request_id := client_request_id;
  rr_request_nullifier := tr_nullifier record;
  rr_response_code := default 200%Z (tr_response_code record);
  rr_response_payload := default "" (tr_response_payload record);
  rr_response_hash := default ZERO (tr_response_hash record);
  rr_charge_applied := default 0%Z (tr_charge_applied record);
  rr_next_commitment := {| cp_x := default ZERO (tr_next_commitment_x record);
                           cp_y := default ZERO (tr_next_commitment_y record) |};
  rr_next_anchor := default ZERO (tr_next_anchor record);
  rr_blind_delta_srv := default ZERO (tr_blind_delta_srv record);
  rr_next_state_sig_epoch := default 0%Z (tr_next_state_sig_epoch record);
  rr_next_state_sig_root := default ZERO (tr_next_state_sig_root record);
  rr_next_state_sig := default empty_xmss_sig (tr_next_state_sig record);
  rr_policy_reason_code := tr_policy_reason_code record;
  rr_policy_evidence_hash := tr_policy_evidence_hash record |}.

Definition build_recovery_response (record : TranscriptRecord) : RecoveryResponse := {|
  rc_status := "ok";
  rc_nullifier_status :=
    match tr_status record with
    | Reserved => "reserved"
    | Finalized => "finalized"
    | ClearanceReserved => "clearance_reserved"
    end;
  rc_request_response :=
    if bool_decide (tr_status record = Finalized)
    then Some (build_response_from_record record (default "" (tr_client_request_id record)))
    else None |}.

Definition reconstruct_affine_point {E} (x y : Felt252) : result E StarkG :=
  expect (from_affine (felt_to_field x) (felt_to_field y)).

Definition validate_state_sig_root cfg (signer : ServerSigner) (epoch : Z) (root : Felt252)
  : result ServerError () :=
  if (epoch =? 0)%Z then
    if negb (is_zero root) then Err (InvalidRequest "genesis state_sig_root must be zero")
    else Ok tt
  else if bool_decide (root = state_root signer) then Ok tt
  else if bool_decide (lookup_state_root (sc_trusted_epoch_roots cfg) epoch = Some root) then Ok tt
  else Err (InvalidRequest "state_sig_root is not trusted for state_sig_epoch").

Definition generate_server_rng (nullifier : Felt252) : Felt252 :=
  poseidon_hash DOMAIN_ANCHOR nullifier (from_u64 1).
Definition generate_server_rng2 (nullifier : Felt252) : Felt252 :=
  poseidon_hash DOMAIN_BLIND nullifier (from_u64 2).

Definition required_charge_cap cfg : Z :=
  if sc_policy_enabled cfg then sc_policy_charge_cap cfg else sc_request_charge_cap cfg.

Definition verify_request_proof_artifact cfg r : result ServerError (list byte) :=
  let artifact := ar_proof r in
  if negb (bool_decide (pa_backend artifact = StwoCairo))
  then Err (InvalidProof "unsupported proof backend")
  else
    expected_hash ← request_public_output_hash (ar_public_inputs r);
    if negb (bool_decide (pa_public_output_hash artifact = expected_hash))
    then Err (InvalidProof "proof public_output_hash does not match request public inputs")
    else
      proof_bytes ← map_err (λ e, InvalidProof ("invalid base64 proof: " +:+ e))
        (base64_standard_decode (pa_proof artifact));
      let 'StwoScarb cairo_dir := sc_proof_mode cfg in
      _ ← map_err InvalidProof
        (stwo_verify_artifact cairo_dir (pa_public_output_hash artifact) proof_bytes);
      Ok proof_bytes.

(** ** [process_request] *)

(** Steps 1 to 9: nothing is written before they pass. *)
Definition check_request cfg (now : Z) (root : Felt252) (signer : ServerSigner) r
  : result ServerError (list byte) :=
  let pi := ar_public_inputs r in
  actual_payload_hash ← canonical_payload_hash (str_bytes (ar_payload r));
  _ ← guard_err (bool_decide (ar_payload_hash r ≠ actual_payload_hash))
        (InvalidRequest "payload_hash does not match actual payload bytes");
  _ ← guard_err (negb (rp_protocol_version pi =? sc_protocol_version cfg)%Z)
        (ProtocolMismatch ("expected protocol_version=" +:+ pretty (sc_protocol_version cfg) +:+
                           ", got " +:+ pretty (rp_protocol_version pi)));
  _ ← guard_err (negb (rp_chain_id pi =? sc_chain_id cfg)%Z)
        (ProtocolMismatch ("expected chain_id=" +:+ pretty (sc_chain_id cfg) +:+
                           ", got " +:+ pretty (rp_chain_id pi)));
  _ ← guard_err (bool_decide (rp_contract_address pi ≠ sc_contract_address cfg))
        (ProtocolMismatch ("contract_address mismatch: expected " +:+
                           to_hex (sc_contract_address cfg) +:+ ", got " +:+
                           to_hex (rp_contract_address pi)));
  _ ← guard_err (bool_decide (rp_active_root pi ≠ root)) (StaleRoot (to_hex root));
  _ ← guard_err (rp_expiry_ts pi <=? now)%Z NoteExpired;
  _ ← guard_err (rp_solvency_bound pi <? required_charge_cap cfg)%Z
        (InvalidRequest ("solvency_bound " +:+ pretty (rp_solvency_bound pi) +:+
                         " is less than request_charge_cap " +:+
                         pretty (required_charge_cap cfg)));
  _ ← guard_err (negb (rp_statement_type pi =? STATEMENT_TYPE_REQUEST)%Z)
        (InvalidRequest ("expected statement_type=" +:+ pretty STATEMENT_TYPE_REQUEST +:+
                         ", got " +:+ pretty (rp_statement_type pi)));
  _ ← validate_state_sig_root cfg signer (rp_state_sig_epoch pi) (rp_state_sig_root pi);
  verify_request_proof_artifact cfg r.

(** The state the closure builds for a leaf: next commitment, anchor, blinding
    delta, and the message to sign. *)
Record NextState : Type := {
  nx_cx : Felt252; nx_cy : Felt252; nx_anchor : Felt252; nx_blind_delta : Felt252;
  nx_message : Felt252;
}.

Definition build_next_state cfg (nullifier : Felt252) (anon_point : StarkG) (charge leaf_index : Z)
  : result ServerError NextState :=
  let server_rng := generate_server_rng nullifier in
  let server_rng2 := generate_server_rng2 nullifier in
  let blind_delta := compute_blind_delta server_rng2 nullifier leaf_index in
  let updated := server_update anon_point charge (felt_to_field blind_delta) in
  '(cx, cy) ← to_affine updated;
  let next_cx := field_to_felt cx in
  let next_cy := field_to_felt cy in
  let next_anchor := compute_next_anchor server_rng nullifier next_cx next_cy leaf_index in
  Ok {| nx_cx := next_cx; nx_cy := next_cy; nx_anchor := next_anchor;
        nx_blind_delta := blind_delta;
        nx_message := compute_state_message (sc_protocol_version cfg) (sc_chain_id cfg)
          (sc_contract_address cfg) next_cx next_cy next_anchor |}.

Definition transcript_of r (now : Z) (pv : ProviderResponse) (response_hash : Felt252)
  (st : NextState) (state_sig : XmssSignature) (root : Felt252) (proof_bytes : list byte)
  : TranscriptRecord := {|
  tr_nullifier := rp_request_nullifier (ar_public_inputs r); tr_status := Finalized;
  tr_client_request_id := Some (ar_client_request_id r);
  tr_payload_hash := Some (ar_payload_hash r);
  tr_charge_applied := Some (pv_charge_applied pv);
  tr_response_code := Some (pv_status_code pv);
  tr_response_payload := Some (pv_payload pv);
  tr_response_hash := Some response_hash;
  tr_next_commitment_x := Some (nx_cx st); tr_next_commitment_y := Some (nx_cy st);
  tr_next_anchor := Some (nx_anchor st); tr_blind_delta_srv := Some (nx_blind_delta st);
  tr_next_state_sig_epoch := Some (xmss_epoch state_sig);
  tr_next_state_sig_root := Some root; tr_next_state_sig := Some state_sig;
  tr_policy_reason_code := pv_policy_reason_code pv;
  tr_policy_evidence_hash := pv_policy_evidence_hash pv;
  tr_proof_blob := Some proof_bytes;
  tr_request_inputs_json := Some (ar_public_inputs r);
  tr_created_at := now; tr_finalized_at := Some now |}.

Definition response_of r (pv : ProviderResponse) (response_hash : Felt252) (st : NextState)
  (state_sig : XmssSignature) (root : Felt252) : RequestResponse := {|
  rr_status := "ok"; rr_client_request_id := ar_client_request_id r;
  rr_request_nullifier := rp_request_nullifier (ar_public_inputs r);
  rr_response_code := pv_status_code pv; rr_response_payload := pv_payload pv;
  rr_response_hash := response_hash; rr_charge_applied := pv_charge_applied pv;
  rr_next_commitment := {| cp_x := nx_cx st; cp_y := nx_cy st |};
  rr_next_anchor := nx_anchor st; rr_blind_delta_srv := nx_blind_delta st;
  rr_next_state_sig_epoch := xmss_epoch state_sig; rr_next_state_sig_root := root;
  rr_next_state_sig := state_sig; rr_policy_reason_code := pv_policy_reason_code pv;
  rr_policy_evidence_hash := pv_policy_evidence_hash pv |}.

(** Steps 11 to 18. *)
Definition execute_request cfg (now : Z) r (proof_bytes : list byte) : SV RequestResponse :=
  let pi := ar_public_inputs r in
  let nullifier := rp_request_nullifier pi in
  pv ← lift (execute (ar_client_request_id r) (ar_payload r) (ar_payload_hash r));
  response_hash ← lift (canonical_response_hash (str_bytes (pv_payload pv)));
  let charge := pv_charge_applied pv in
  _ ← lift (guard_err (required_charge_cap cfg <? charge)%Z
        (Internal ("provider charge " +:+ pretty charge +:+ " exceeds cap " +:+
                   pretty (required_charge_cap cfg))));
  anon_point ← lift (reconstruct_affine_point (rp_anon_commitment_x pi) (rp_anon_commitment_y pi));
  '(state_sig, leaf_index, _) ← on_signer (sign_next_state (λ leaf_index,
     nx_message <$> build_next_state cfg nullifier anon_point charge leaf_index));
  (* [signed_state], which the closure set for the leaf it was given *)
  st ← lift (build_next_state cfg nullifier anon_point charge leaf_index);
  w ← get;
  let root := state_root (sw_signer (pw_signer w)) in
  _ ← on_store (catch_err
        (λ e, Internal ("failed to finalize transcript: " +:+ ServerError_display e))
        (finalize now nullifier
           (transcript_of r now pv response_hash st state_sig root proof_bytes)));
  mret (response_of r pv response_hash st state_sig root).

Definition same_request r (record : TranscriptRecord) : bool :=
  bool_decide (tr_client_request_id record = Some (ar_client_request_id r) ∧
               tr_payload_hash record = Some (ar_payload_hash r)).

Definition process_request cfg (now : Z) r : SV RequestResponse :=
  let nullifier := rp_request_nullifier (ar_public_inputs r) in
  w ← get;
  proof_bytes ← lift (check_request cfg now (pw_root w) (sw_signer (pw_signer w)) r);
  existing ← on_store (lookup_by_nullifier nullifier);
  match existing with
  | Some existing =>
      if same_request r existing && bool_decide (tr_status existing = Finalized)
      then mret (build_response_from_record existing (ar_client_request_id r))
      else if same_request r existing && bool_decide (tr_status existing = Reserved)
      then execute_request cfg now r proof_bytes
      else fail Replay
  | None =>
      _ ← on_store (reserve now nullifier (ar_client_request_id r) (ar_payload_hash r));
      execute_request cfg now r proof_bytes
  end.

(** ** Clearance and recovery *)

Definition process_clearance cfg (now : Z) (q : ClearanceRequest) : SV ClearanceResponse :=
  let nullifier := crq_withdrawal_nullifier q in
  existing ← on_store (lookup_by_nullifier nullifier);
  match existing with
  | Some _ => fail NullifierUsed
  | None =>
      let clear_msg := compute_clearance_message (sc_protocol_version cfg) (sc_chain_id cfg)
        (sc_contract_address cfg) nullifier in
      '(clear_sig, _) ← on_signer (sign_clearance clear_msg);
      _ ← on_store (reserve_clearance now nullifier);
      w ← get;
      mret {| cr_status := "ok"; cr_withdrawal_nullifier := nullifier;
              cr_clear_sig_epoch := xmss_epoch clear_sig;
              cr_clear_sig_root := clear_root (sw_signer (pw_signer w));
              cr_clear_sig := clear_sig |}
  end.

Definition not_found : RecoveryResponse :=
  {| rc_status := "not_found"; rc_nullifier_status := "unknown"; rc_request_response := None |}.

Definition recover_by_client_id (client_request_id : string) : SV RecoveryResponse :=
  record ← on_store (lookup_by_client_id client_request_id);
  mret (match record with Some record => build_recovery_response record | None => not_found end).

Definition recover_by_nullifier (nullifier : Felt252) : SV RecoveryResponse :=
  record ← on_store (lookup_by_nullifier nullifier);
  mret (match record with Some record => build_recovery_response record | None => not_found end).
End processor.

(** ** Lemmas *)

Section lemmas.
Context {SK : Stark} {KC : Keccak} {GN : Generators} {PL : ProofLibs}.
Implicit Types (cfg : ServerConfig) (r : ApiRequest) (w : ServerWorld).

(** What passing the checks means. *)
Definition request_checked cfg (now : Z) (root : Felt252) (signer : ServerSigner) r
  (proof_bytes : list byte) : Prop :=
  let pi := ar_public_inputs r in
  @canonical_payload_hash _ ServerError (str_bytes (ar_payload r)) = Ok (ar_payload_hash r) ∧
  rp_protocol_version pi = sc_protocol_version cfg ∧ rp_chain_id pi = sc_chain_id cfg ∧
  rp_contract_address pi = sc_contract_address cfg ∧ rp_active_root pi = root ∧
  (now < rp_expiry_ts pi)%Z ∧ (required_charge_cap cfg ≤ rp_solvency_bound pi)%Z ∧
  rp_statement_type pi = STATEMENT_TYPE_REQUEST ∧
  (if (rp_state_sig_epoch pi =? 0)%Z then rp_state_sig_root pi = ZERO
   else rp_state_sig_root pi = state_root signer ∨
        lookup_state_root (sc_trusted_epoch_roots cfg) (rp_state_sig_epoch pi)
        = Some (rp_state_sig_root pi)) ∧
  pa_backend (ar_proof r) = StwoCairo ∧
  @request_public_output_hash _ ServerError pi = Ok (pa_public_output_hash (ar_proof r)) ∧
  base64_standard_decode (pa_proof (ar_proof r)) = Ok proof_bytes ∧
  let 'StwoScarb cairo_dir := sc_proof_mode cfg in
  stwo_verify_artifact cairo_dir (pa_public_output_hash (ar_proof r)) proof_bytes = Ok tt.

Lemma validate_state_sig_root_Ok cfg signer epoch root u :
  validate_state_sig_root cfg signer epoch root = Ok u →
  if (epoch =? 0)%Z then root = ZERO
  else root = state_root signer ∨
       lookup_state_root (sc_trusted_epoch_roots cfg) epoch = Some root.
Proof.
  unfold validate_state_sig_root. destruct (epoch =? 0)%Z.
  - destruct (is_zero root) eqn:E; [|done]. intros _. by apply is_zero_ZERO.
  - case_bool_decide; [by left|]. case_bool_decide; [by right|done].
Qed.

Lemma verify_request_proof_artifact_Ok cfg r bytes :
  verify_request_proof_artifact cfg r = Ok bytes →
  pa_backend (ar_proof r) = StwoCairo ∧
  @request_public_output_hash _ ServerError (ar_public_inputs r)
    = Ok (pa_public_output_hash (ar_proof r)) ∧
  base64_standard_decode (pa_proof (ar_proof r)) = Ok bytes ∧
  let 'StwoScarb cairo_dir := sc_proof_mode cfg in
  stwo_verify_artifact cairo_dir (pa_public_output_hash (ar_proof r)) bytes = Ok tt.
Proof.
  unfold verify_request_proof_artifact. case_bool_decide as E1; [|done]. cbn [negb]. intros H. res_inv.
  case_bool_decide as E2; [|done]. cbn [negb] in H. res_inv. destruct (sc_proof_mode cfg) as [dir].
  res_inv. repeat match goal with u : () |- _ => destruct u end. subst. by repeat split.
Qed.

Lemma check_request_facts cfg now root signer r bytes :
  check_request cfg now root signer r = Ok bytes → request_checked cfg now root signer r bytes.
Proof.
  unfold check_request, request_checked. intros H. res_inv.
  apply verify_request_proof_artifact_Ok in H.
  repeat match goal with
  | H : validate_state_sig_root _ _ _ _ = Ok _ |- _ => apply validate_state_sig_root_Ok in H
  end.
  bool_facts.
  repeat (split; [by try congruence|]). exact H.
Qed.

(** ** The state of the server *)

Abbreviation rows_of w := (sql_data (pw_store w)).
Abbreviation signer_of w := (sw_signer (pw_signer w)).
Abbreviation table_of w := (sql_data (sw_db (pw_signer w))).

Record server_ok (seeds : SignerTree → SF) (h : nat) w : Prop := {
  so_keys : keys_unique (rows_of w);
  so_signer : signer_ok seeds h (signer_of w);
}.

Section execute.
Context {AP : ApiProvider}.

(** What a successful execution did. *)
Definition executed (seeds : SignerTree → SF) (h : nat) cfg (now : Z) r (bytes : list byte) w
  (resp : RequestResponse) w' : Prop :=
  let n := rp_request_nullifier (ar_public_inputs r) in
  let root := state_root (signer_of w) in
  ∃ pv hash point leaf sig st row,
    execute (ar_client_request_id r) (ar_payload r) (ar_payload_hash r) = Ok pv ∧
    @canonical_response_hash _ ServerError (str_bytes (pv_payload pv)) = Ok hash ∧
    (pv_charge_applied pv ≤ required_charge_cap cfg)%Z ∧
    @reconstruct_affine_point _ ServerError (rp_anon_commitment_x (ar_public_inputs r))
      (rp_anon_commitment_y (ar_public_inputs r)) = Ok point ∧
    build_next_state cfg n point (pv_charge_applied pv) leaf = Ok st ∧
    signed seeds h (signer_of w) State sig leaf (nx_message st) ∧
    reserved_at State leaf (table_of w) (table_of w') ∧
    row_at (to_hex n) (rows_of w) = Some row ∧ row_status row = status_to_str Reserved ∧
    rows_of w' = update_row (to_hex n) (transcript_of r now pv hash st sig root bytes) now <$> rows_of w ∧
    resp = response_of r pv hash st sig root.

(** [sign_next_state] on the server's signer. *)
Lemma sign_next_state_cases seeds h build sw res sw' :
  signer_ok seeds h (sw_signer sw) → sign_next_state build sw = (res, sw') →
  signer_ok seeds h (sw_signer sw') ∧ same_signer (sw_signer sw) (sw_signer sw') ∧
  tables_le (sql_data (sw_db sw)) (sql_data (sw_db sw')) ∧
  ∀ sig leaf message, res = Ok (sig, leaf, message) →
    build leaf = Ok message ∧ signed seeds h (sw_signer sw) State sig leaf message ∧
    reserved_at State leaf (sql_data (sw_db sw)) (sql_data (sw_db sw')).
Proof.
  intros Hw H. apply locked_cases in H as [(_ & -> & ->)|(_ & w1 & Eb & Hend)].
  { split; [done|]. split; [done|]. split; [reflexivity|done]. }
  destruct (sign_body_cases _ _ _ _ _ _ _ Hw Eb) as (B1 & B2 & _ & B4 & B5).
  destruct Hend as [[-> _]|[-> ->]]; [done|].
  split; [by apply poison_ok|]. split; [|done]. destruct B2 as [E1 E2].
  split; intros []; [apply (E1 State)|apply (E1 Clear)|apply (E2 State)|apply (E2 Clear)].
Qed.

Lemma execute_request_inv seeds h cfg now r bytes w resp w' :
  server_ok seeds h w → execute_request cfg now r bytes w = (Ok resp, w') →
  executed seeds h cfg now r bytes w resp w' ∧ server_ok seeds h w' ∧
  same_signer (signer_of w) (signer_of w') ∧ pw_root w' = pw_root w.
Proof.
  intros [Hu Hs] H. unfold execute_request in H.
  run_inv H. run_inv H. run_inv H. run_inv H. rename x into pv, x0 into hash, x2 into point.
  apply guard_err_Ok, Z.ltb_ge in R1.
  apply M_bind_inv in H as ([[sig leaf] msg] & w1 & Rs & H).
  apply zoom_inv in Rs as (sw1 & Rs & ->).
  destruct (sign_next_state_cases _ _ _ _ _ _ Hs Rs) as (Hok & Hsame & _ & Hsign).
  destruct (Hsign _ _ _ eq_refl) as (Eb & Hsig & Hat).
  run_inv H. rename x into st. rewrite R3 in Eb. injection Eb as Eb.
  apply M_bind_inv in H as (w2 & w3 & [= <- <-] & H).
  apply M_bind_inv in H as ([] & w3 & Rf & H). injection H as <- <-.
  apply zoom_inv in Rf as (s1 & Rf%catch_err_inv & ->). cbn [pw_signer pw_store pw_root] in *.
  apply finalize_cases in Rf as [(_ & row & F1 & F2 & F3)|[[] _]]; [|done..].
  destruct Hsame as [He Hr]. rewrite (Hr State : state_root _ = state_root _) in *.
  split; [|split; [split|split]]; cbn [pw_signer pw_store pw_root].
  - exists pv, hash, point, leaf, sig, st, row. subst msg.
    repeat (split; [eassumption|]). reflexivity.
  - rewrite F3. unfold keys_unique. by rewrite update_keys.
  - exact Hok.
  - exact (conj He Hr).
  - reflexivity.
Qed.

(** The request is reserved in a row that reads as its own. *)
Definition reserved_for r (rows : Rows) : Prop :=
  ∃ row rec, row_at (to_hex (rp_request_nullifier (ar_public_inputs r))) rows = Some row ∧
    (∀ E, @row_to_record E row = Ok rec) ∧
    tr_nullifier rec = rp_request_nullifier (ar_public_inputs r) ∧ same_request r rec = true.

(** The request is finalized, and its row reads as this response. *)
Definition stored_as r (resp : RequestResponse) (rows : Rows) : Prop :=
  ∃ row rec, row_at (to_hex (rp_request_nullifier (ar_public_inputs r))) rows = Some row ∧
    row_status row = status_to_str Finalized ∧ (∀ E, @row_to_record E row = Ok rec) ∧
    tr_status rec = Finalized ∧ same_request r rec = true ∧
    build_response_from_record rec (ar_client_request_id r) = resp.

Definition provider_ok (pv : ProviderResponse) : Prop :=
  fits 63 (pv_charge_applied pv) ∧ fits 16 (pv_status_code pv) ∧
  from_option (fits 32) True (pv_policy_reason_code pv) ∧ opt_canonical (pv_policy_evidence_hash pv).

Lemma next_state_canonical cfg n point charge leaf st :
  build_next_state cfg n point charge leaf = Ok st →
  canonical (nx_cx st) ∧ canonical (nx_cy st) ∧ canonical (nx_anchor st) ∧ canonical (nx_blind_delta st).
Proof.
  unfold build_next_state. intros H. apply result_bind_Ok in H as ([cx cy] & _ & H). injection H as <-.
  cbn [nx_cx nx_cy nx_anchor nx_blind_delta].
  split; [apply v1_field_to_felt_canonical|]. split; [apply v1_field_to_felt_canonical|].
  split; apply poseidon_hash_chain_canonical.
Qed.

Lemma transcript_of_ok seeds h sg r now pv hash st sig leaf message root bytes :
  provider_ok pv → canonical hash →
  canonical (nx_cx st) ∧ canonical (nx_cy st) ∧ canonical (nx_anchor st) ∧ canonical (nx_blind_delta st) →
  signed seeds h sg State sig leaf message → fits 32 (tree_epoch State sg) → canonical root →
  transcript_ok (transcript_of r now pv hash st sig root bytes).
Proof.
  intros (P1 & P2 & P3 & P4) Hh (N1 & N2 & N3 & N4) (_ & _ & S1 & _ & S2 & _) He Hroot.
  split; cbn; try done.
  - eapply fits_weaken; [|exact P1]. lia.
  - by rewrite S1.
Qed.

(** Once finalized, the row of a request reads as its response. *)
Lemma finalized_row r now pv hash st sig root bytes rows row :
  let n := rp_request_nullifier (ar_public_inputs r) in
  let t := transcript_of r now pv hash st sig root bytes in
  keys_unique rows → row_at (to_hex n) rows = Some row → row_status row = status_to_str Reserved →
  row_at (to_hex n) (update_row (to_hex n) t now <$> rows) = Some (finalize_row t now row).
Proof.
  cbv zeta. intros Hu Hr Hs. rewrite row_at_update, Hr. cbn. f_equal. unfold update_row, finalizable.
  rewrite bool_decide_true; [done|]. split; [|done].
  assert (row ∈ select (to_hex (rp_request_nullifier (ar_public_inputs r))) rows)
    as [? _]%select_elem; [|done]. rewrite (select_unique _ _ _ Hu Hr). left.
Qed.

Lemma finalized_stored r now pv hash st sig root bytes rows row rec :
  let n := rp_request_nullifier (ar_public_inputs r) in
  let t := transcript_of r now pv hash st sig root bytes in
  keys_unique rows → row_at (to_hex n) rows = Some row → row_status row = status_to_str Reserved →
  (∀ E, @row_to_record E row = Ok rec) → tr_nullifier rec = n → same_request r rec = true →
  provider_ok pv → transcript_ok t → fits 64 now →
  stored_as r (response_of r pv hash st sig root) (update_row (to_hex n) t now <$> rows).
Proof.
  cbv zeta. intros Hu Hr Hs Hrec Hn Hsame (Hc & _) Ht Hnow. eexists _, _.
  split; [by apply finalized_row|]. split; [done|]. split; [intros E; by apply finalize_read|].
  split; [done|]. unfold same_request in *. cbn [tr_client_request_id tr_payload_hash].
  split; [done|]. unfold build_response_from_record, response_of. cbn.
  by rewrite Hn, stored_charge_small.
Qed.

Lemma executed_stored seeds h cfg now r bytes w resp w' :
  server_ok seeds h w → executed seeds h cfg now r bytes w resp w' →
  reserved_for r (rows_of w) → fits 64 now → fits 32 (tree_epoch State (signer_of w)) →
  (∀ pv, execute (ar_client_request_id r) (ar_payload r) (ar_payload_hash r) = Ok pv → provider_ok pv) →
  stored_as r resp (rows_of w').
Proof.
  intros [Hu _] (pv & hash & point & leaf & sig & st & row & X1 & X2 & X3 & X4 & X5 & X6 & X7 & X8 &
    X9 & X10 & ->) (row' & rec & Hr & Hrec & Hn & Hsame) Hnow He Hpv.
  rewrite X8 in Hr. injection Hr as <-. apply Hpv in X1. rewrite X10.
  eapply finalized_stored; [exact Hu|exact X8|exact X9|exact Hrec|exact Hn|exact Hsame|exact X1| |exact Hnow].
  eapply transcript_of_ok; [exact X1| |by eapply next_state_canonical|exact X6|exact He|].
  - by apply hash_bytes_to_felt_canonical in X2.
  - apply v1_field_to_felt_canonical.
Qed.

Lemma same_request_spec r rec : same_request r rec = true ↔
  tr_client_request_id rec = Some (ar_client_request_id r) ∧
  tr_payload_hash rec = Some (ar_payload_hash r).
Proof. apply bool_decide_eq_true. Qed.

(** The ways [process_request] succeeds: a stored response, or an execution from
    the state in which the request holds its reservation. *)
Lemma process_request_inv seeds h cfg now r w resp w' :
  server_ok seeds h w → process_request cfg now r w = (Ok resp, w') →
  canonical (rp_request_nullifier (ar_public_inputs r)) → fits 64 now →
  ∃ bytes, check_request cfg now (pw_root w) (signer_of w) r = Ok bytes ∧
    server_ok seeds h w' ∧ same_signer (signer_of w) (signer_of w') ∧ pw_root w' = pw_root w ∧
    ((∃ row rec, row_at (to_hex (rp_request_nullifier (ar_public_inputs r))) (rows_of w) = Some row ∧
        (∀ E, @row_to_record E row = Ok rec) ∧ tr_status rec = Finalized ∧
        same_request r rec = true ∧ pw_signer w' = pw_signer w ∧ rows_of w' = rows_of w ∧
        resp = build_response_from_record rec (ar_client_request_id r)) ∨
     (∃ w1, executed seeds h cfg now r bytes w1 resp w' ∧ server_ok seeds h w1 ∧
        pw_signer w1 = pw_signer w ∧ reserved_for r (rows_of w1) ∧
        (rows_of w1 = rows_of w ∨
         (row_at (to_hex (rp_request_nullifier (ar_public_inputs r))) (rows_of w) = None ∧
          rows_of w1 = rows_of w ++ [reserved_row (rp_request_nullifier (ar_public_inputs r))
                         (ar_client_request_id r) (ar_payload_hash r) now])))).
Proof.
  intros Hw H Hn Hnow. unfold process_request in H.
  apply M_bind_inv in H as (w0 & w1 & [= <- <-] & H). run_inv H. rename x into bytes.
  exists bytes. split; [done|].
  apply check_request_facts in R as (Hph%hash_bytes_to_felt_canonical & _).
  apply M_bind_inv in H as (existing & w1 & Rl & H). apply zoom_inv in Rl as (s1 & Rl & ->).
  destruct Hw as [Hu Hs].
  destruct existing as [existing|].
  - apply lookup_inv in Rl as (row & L1 & L2 & L3).
    destruct (same_request r existing) eqn:Hsame; [|discriminate H].
    destruct (decide (tr_status existing = Finalized)) as [Hf|Hf].
    + rewrite bool_decide_true in H by done. injection H as <- <-. cbn [pw_store pw_signer pw_root].
      split; [by split; cbn; rewrite ?L3|]. split; [by split|]. split; [done|]. left.
      exists row, existing. done.
    + rewrite bool_decide_false in H by done. cbn [andb] in H. case_bool_decide as Hr; [|done].
      apply (execute_request_inv seeds h) in H as (X1 & X2 & X3 & X4); [|by split; cbn; rewrite ?L3].
      split; [done|]. split; [done|]. split; [done|]. right. eexists. split; [exact X1|].
      split; [by split; cbn; rewrite ?L3|]. split; [done|]. cbn [pw_store]. rewrite L3.
      split; [|by left]. exists row, existing. split; [done|]. split; [done|]. split; [|done].
      eapply row_to_record_key; [apply (L2 string)| |done].
      assert (row ∈ select (to_hex (rp_request_nullifier (ar_public_inputs r))) (rows_of w))
        as [? _]%select_elem; [|done]. rewrite (select_unique _ _ _ Hu L1). left.
  - pose proof (query_row_data _ _ _ _ Rl) as L3.
    apply M_bind_inv in H as ([] & w2 & Rr & H). apply zoom_inv in Rr as (s2 & Rr & ->).
    cbn [pw_store pw_signer pw_root] in *.
    apply reserve_cases in Rr as [(_ & E1 & E2)|[[] _]]; [|done]. rewrite L3 in E1, E2.
    fold (reserved_row (rp_request_nullifier (ar_public_inputs r)) (ar_client_request_id r)
      (ar_payload_hash r) now) in E2.
    assert (server_ok seeds h {| pw_store := s2; pw_signer := pw_signer w; pw_root := pw_root w |}) as Hw2.
    { split; [cbn; rewrite E2; by apply keys_unique_snoc|done]. }
    apply (execute_request_inv seeds h) in H as (X1 & X2 & X3 & X4); [|done].
    split; [done|]. split; [done|]. split; [done|]. right. eexists. split; [exact X1|].
    split; [done|]. split; [done|]. cbn [pw_store]. rewrite E2. split; [|by right].
    destruct (@read_reserved string _ (ar_client_request_id r) _ now Hn Hph Hnow)
      as (rec & Hrec & E3 & _ & E4 & E5 & _).
    exists (reserved_row (rp_request_nullifier (ar_public_inputs r)) (ar_client_request_id r)
      (ar_payload_hash r) now), rec.
    split; [by rewrite row_at_snoc, E1, bool_decide_true|].
    split; [intros E; by eapply row_to_record_any|]. split; [done|]. by apply same_request_spec.
Qed.
End execute.
End lemmas.
