(* ===== verification/Server.v ===== *)
(** * The server as a whole ([zkapi-server]: routes.rs, watcher.rs)

    The HTTP handlers and the challenge planner, and what the processor, the
    store and the signer give together: accepted requests, retries, clearances,
    challenges, and the failures. *)
From S2P Require Import Prelude Felt Types Group Ark Starknet CoreV1 Pedersen Wots Xmss.
From S2P Require Import ServerBase Store Signer Processor.

(** ** watcher.rs *)

Record ChallengeAction : Type := {
  ch_note_id : Z;
  ch_request_inputs : RequestPublicInputs;
  ch_proof_artifact : list byte;
  ch_siblings : vec Felt252 MERKLE_DEPTH;
}.

(** [serde_json::from_str] on archived inputs. *)
Definition json_inputs (p : RequestPublicInputs) : result string RequestPublicInputs :=
  contract_address ← json_felt (rp_contract_address p);
  active_root ← json_felt (rp_active_root p);
  state_sig_root ← json_felt (rp_state_sig_root p);
  request_nullifier ← json_felt (rp_request_nullifier p);
  anon_commitment_x ← json_felt (rp_anon_commitment_x p);
  anon_commitment_y ← json_felt (rp_anon_commitment_y p);
  Ok {| rp_statement_type := rp_statement_type p; rp_protocol_version := rp_protocol_version p;
        rp_chain_id := rp_chain_id p; rp_contract_address := contract_address;
        rp_active_root := active_root; rp_state_sig_epoch := rp_state_sig_epoch p;
        rp_state_sig_root := state_sig_root; rp_request_nullifier := request_nullifier;
        rp_anon_commitment_x := anon_commitment_x; rp_anon_commitment_y := anon_commitment_y;
        rp_expiry_ts := rp_expiry_ts p; rp_solvency_bound := rp_solvency_bound p |}.

Definition finalized_transcript (nullifier : Felt252) : M (Sql Rows) string (option TranscriptRecord) :=
  record ← lookup_by_nullifier nullifier;
  mret (record ≫= λ record,
        if bool_decide (tr_status record = Finalized) then Some record else None).

Definition build_challenge_action (note_id : Z) (nullifier : Felt252)
  (siblings : vec Felt252 MERKLE_DEPTH) : M (Sql Rows) string ChallengeAction :=
  record ← finalized_transcript nullifier;
  record ← lift (ok_or record "no finalized transcript for nullifier");
  json ← lift (ok_or (tr_request_inputs_json record) "missing archived request inputs");
  request_inputs ← lift (map_err (λ e, "invalid archived request inputs: " +:+ e) (json_inputs json));
  _ ← lift (guard_err (bool_decide (rp_request_nullifier request_inputs ≠ nullifier))
              "archived request nullifier mismatch");
  proof_artifact ← lift (ok_or (tr_proof_blob record) "missing archived proof blob");
  mret {| ch_note_id := note_id; ch_request_inputs := request_inputs;
          ch_proof_artifact := proof_artifact; ch_siblings := siblings |}.

(** ** routes.rs *)

(** [StatusCode] by number. *)
Definition status_code (e : ServerError) : Z :=
  match e with
  | InvalidProof _ | InvalidRequest _ | ProtocolMismatch _ => 400
  | StaleRoot _ => 409
  | Replay | NullifierUsed => 409
  | NoteExpired => 410
  | CapacityExhausted => 503
  | Internal _ | Database _ => 500
  end.

Section routes.
Context {SK : Stark} {KC : Keccak} {GN : Generators} {PL : ProofLibs} {AP : ApiProvider}.

(** [now_ms] is the clock; the root is read when the error is answered. *)
Definition error_to_response (e : ServerError) (client_request_id : string) (root : Felt252)
  (now_ms : Z) : Z * ErrorResponse :=
  (status_code e,
   {| er_status := "error"; er_client_request_id := client_request_id;
      er_error_code := error_code e; er_error_message := ServerError_display e;
      er_retriable := is_retriable e;
      er_latest_root := match e with StaleRoot _ => Some root | _ => None end;
      er_server_time_ms := Some now_ms; er_retry_after_seconds := None |}).

(** A handler: the processor's answer, errors turned into a status and a body. *)
Definition respond {A} (client_request_id : string) (now_ms : Z) (m : M ServerWorld ServerError A)
  : M ServerWorld (Z * ErrorResponse) A := λ w,
  let '(r, w') := m w in
  (map_err (λ e, error_to_response e client_request_id (pw_root w') now_ms) r, w').

Definition handle_request (cfg : ServerConfig) (now now_ms : Z) (r : ApiRequest) :=
  respond (ar_client_request_id r) now_ms (process_request cfg now r).

Definition handle_clearance (cfg : ServerConfig) (now now_ms : Z) (q : ClearanceRequest) :=
  respond (to_hex (crq_withdrawal_nullifier q)) now_ms (process_clearance cfg now q).

Definition handle_recovery_by_id (now_ms : Z) (client_request_id : string) :=
  respond client_request_id now_ms (recover_by_client_id client_request_id).

Definition handle_recovery_by_nullifier (now_ms : Z) (nullifier_hex : string) :=
  respond nullifier_hex now_ms
    (nullifier ← lift (map_err (λ e, InvalidRequest ("invalid nullifier hex: " +:+ e))
                         (from_hex nullifier_hex));
     recover_by_nullifier nullifier).

(** [run_server] up to the router: the store, the durable signer on the same
    database, and the initial root. *)
Definition run_server (cfg : ServerConfig) : M ServerWorld ServerError () :=
  _ ← on_store NullifierStore_new;
  signer ← on_signer (on_db (with_height_durable (felt_to_field (sc_state_seed cfg))
              (felt_to_field (sc_clear_seed cfg)) (sc_epoch cfg) (sc_xmss_height cfg)));
  _ ← on_signer (λ sw, (Ok tt, set_signer signer sw));
  update_root (sc_initial_root cfg).
End routes.

(** ** Properties *)

Section properties.
Context {SK : Stark} {KC : Keccak} {GN : Generators} {PL : ProofLibs}.
Implicit Types (cfg : ServerConfig) (r : ApiRequest) (w : ServerWorld).

Abbreviation rows_of w := (sql_data (pw_store w)).
Abbreviation signer_of w := (sw_signer (pw_signer w)).
Abbreviation table_of w := (sql_data (sw_db (pw_signer w))).
Abbreviation nullifier_of r := (rp_request_nullifier (ar_public_inputs r)).

(** The gate of [process_request]: it writes nothing - no reservation, no
    provider call, no leaf - and accepts nothing unless the request passes every
    check: payload hash, protocol, chain and contract of the configuration, the
    current root, an expiry in the future, a solvency bound that covers the
    charge cap, the statement type, a trusted signing root, and a proof artifact
    for exactly these public inputs that the verifier accepts. *)
Theorem request_gate {AP : ApiProvider} cfg now r w res w' :
  process_request cfg now r w = (res, w') →
  (w' = w ∧ ∀ resp, res ≠ Ok resp) ∨
  ∃ bytes, request_checked cfg now (pw_root w) (signer_of w) r bytes.
Proof.
  unfold process_request. rewrite get_bind, lift_bind.
  destruct (check_request cfg now (pw_root w) (signer_of w) r) as [bytes|e|] eqn:E.
  - intros _. right. exists bytes. by apply check_request_facts.
  - intros [= <- <-]. left. split; [reflexivity|discriminate].
  - intros [= <- <-]. left. split; [reflexivity|discriminate].
Qed.

(** The next commitment of a response opens to the balance less the charge. *)
Lemma next_state_opens cfg n point charge leaf st balance blinding :
  build_next_state cfg n point charge leaf = Ok st → point = commit balance blinding →
  fits 128 balance → fits 128 charge → (charge ≤ balance)%Z →
  from_affine (felt_to_field (nx_cx st)) (felt_to_field (nx_cy st)) =
    Some (commit (balance - charge) (add_blinding blinding (felt_to_field (nx_blind_delta st)))).
Proof.
  unfold build_next_state. intros H -> Hb Hc Hle. apply result_bind_Ok in H as ([cx cy] & Ha & H).
  injection H as <-. cbn [nx_cx nx_cy nx_blind_delta]. rewrite !v1_felt_to_field_to_felt.
  unfold to_affine in Ha. apply expect_Ok in Ha. apply from_affine_to in Ha. rewrite Ha.
  by rewrite server_update_commit.
Qed.

(** C25. What a new accepted request obtains, whatever the database did (from a
    provider that charges less than [2^63] each time): the charge is within the
    cap the proof's solvency bound covers; the next state's signature carries the
    server's epoch, verifies under its state root for the
    next commitment and anchor of the response, and used a leaf that was not yet
    reserved; and if the anonymous commitment opens to a balance that covers the
    charge, the next commitment opens to the balance less the charge under the
    blinding the client computes from the response. *)
Theorem accepted_request {AP : ApiProvider} seeds h cfg now r w resp w' :
  server_ok seeds h w → canonical (nullifier_of r) → fits 64 now →
  (∀ id payload ph pv, execute id payload ph = Ok pv → provider_ok pv) →
  row_at (to_hex (nullifier_of r)) (rows_of w) = None →
  process_request cfg now r w = (Ok resp, w') →
  let next := rr_next_commitment resp in
  (rr_charge_applied resp ≤ required_charge_cap cfg ≤ rp_solvency_bound (ar_public_inputs r))%Z ∧
  rr_next_state_sig_root resp = state_root (signer_of w) ∧
  rr_next_state_sig_epoch resp = epoch (signer_of w) ∧
  @xmss_verify _ string (rr_next_state_sig_root resp)
    (compute_state_message (sc_protocol_version cfg) (sc_chain_id cfg) (sc_contract_address cfg)
       (cp_x next) (cp_y next) (rr_next_anchor resp)) (rr_next_state_sig resp) = Ok true ∧
  reserved_at State (xmss_leaf_index (rr_next_state_sig resp)) (table_of w) (table_of w') ∧
  ∀ balance blinding,
    @reconstruct_affine_point _ ServerError (rp_anon_commitment_x (ar_public_inputs r))
      (rp_anon_commitment_y (ar_public_inputs r)) = Ok (commit balance blinding) →
    fits 128 balance → (rr_charge_applied resp ≤ balance)%Z →
    from_affine (felt_to_field (cp_x next)) (felt_to_field (cp_y next)) =
      Some (commit (balance - rr_charge_applied resp)
              (add_blinding blinding (felt_to_field (rr_blind_delta_srv resp)))).
Proof.
  intros Hw Hn Hnow Hpv Habs H. cbv zeta.
  destruct (process_request_inv seeds h cfg now r w resp w' Hw H Hn Hnow)
    as (bytes & Hc & _ & _ & _ & [(row & rec & Hrow & _)|(w1 & Hx & _ & Hsig & _)]); [congruence|].
  apply check_request_facts in Hc as (_ & _ & _ & _ & _ & _ & Hb & _).
  destruct Hx as (pv & hash & point & leaf & sig & st & row & X1 & X2 & X3 & X4 & X5 & X6 & X7 &
    X8 & X9 & X10 & ->).
  rewrite Hsig in *. unfold response_of. cbn. destruct X6 as (_ & S1 & S2 & _ & _ & S3 & _).
  split; [exact (conj X3 Hb)|]. split; [done|]. split; [exact S2|]. split.
  { pose proof X5 as Hst. unfold build_next_state in Hst. apply result_bind_Ok in Hst as ([cx cy] & _ & Hst).
    injection Hst as <-. apply S3. }
  split; [by rewrite S1|]. intros balance blinding Ha Hbal Hle. rewrite X4 in Ha. injection Ha as Ha.
  eapply next_state_opens; [exact X5|exact Ha|done| |done].
  destruct (Hpv _ _ _ _ X1) as [Hf _]. eapply fits_weaken; [|exact Hf]. lia.
Qed.

(** A finalized request is answered from the table, to [process_request] and to
    recovery alike, with no other effect. *)
Lemma lookup_stored E r resp w :
  stored_as r resp (rows_of w) → sql_io (pw_store w) = [] →
  ∃ rec, @lookup_by_nullifier E (nullifier_of r) (pw_store w) = (Ok (Some rec), pw_store w) ∧
    tr_status rec = Finalized ∧ same_request r rec = true ∧
    build_response_from_record rec (ar_client_request_id r) = resp.
Proof.
  intros (row & rec & Hrow & _ & Hrec & Hs & Hsame & Hresp) Hio. exists rec.
  split; [|exact (conj Hs (conj Hsame Hresp))].
  destruct (pw_store w) as [d io]. cbn in Hio, Hrow. subst io. by eapply lookup_row.
Qed.

Lemma on_store_quiet {A} (m : M (Sql Rows) ServerError A) w a :
  m (pw_store w) = (Ok a, pw_store w) → on_store m w = (Ok a, w).
Proof. unfold on_store, zoom. intros ->. by destruct w. Qed.

Lemma retry_stored {AP : ApiProvider} cfg now r resp w bytes :
  stored_as r resp (rows_of w) → sql_io (pw_store w) = [] →
  check_request cfg now (pw_root w) (signer_of w) r = Ok bytes →
  process_request cfg now r w = (Ok resp, w).
Proof.
  intros Hst Hio Hc. unfold process_request. rewrite get_bind, lift_bind, Hc.
  destruct (lookup_stored ServerError _ _ _ Hst Hio) as (rec & Hl & Hs & Hsame & Hresp).
  rewrite (M_bind_Ok _ _ _ _ _ (on_store_quiet _ w (Some rec) Hl)).
  rewrite Hsame, bool_decide_true by done. cbn [andb]. by rewrite Hresp.
Qed.

Lemma recover_stored r resp w :
  stored_as r resp (rows_of w) → sql_io (pw_store w) = [] →
  recover_by_nullifier (nullifier_of r) w =
    (Ok {| rc_status := "ok"; rc_nullifier_status := "finalized";
           rc_request_response := Some resp |}, w).
Proof.
  intros Hst Hio. unfold recover_by_nullifier.
  destruct (lookup_stored ServerError _ _ _ Hst Hio) as (rec & Hl & Hs & Hsame & Hresp).
  rewrite (M_bind_Ok _ _ _ _ _ (on_store_quiet _ w (Some rec) Hl)).
  unfold build_recovery_response. rewrite Hs, bool_decide_true by done.
  apply same_request_spec in Hsame as [Hid _].
  assert (default "" (tr_client_request_id rec) = ar_client_request_id r) as -> by by rewrite Hid.
  by rewrite Hresp.
Qed.

Lemma accepted_stored {AP : ApiProvider} seeds h cfg now r w resp w' :
  server_ok seeds h w → canonical (nullifier_of r) → fits 64 now → fits 32 (epoch (signer_of w)) →
  (∀ id payload ph pv, execute id payload ph = Ok pv → provider_ok pv) →
  process_request cfg now r w = (Ok resp, w') →
  stored_as r resp (rows_of w') ∧ server_ok seeds h w'.
Proof.
  intros Hw Hn Hnow He Hpv H.
  destruct (process_request_inv seeds h cfg now r w resp w' Hw H Hn Hnow)
    as (bytes & Hc & Hw' & _ & _ & [(row & rec & H1 & H2 & H3 & H4 & _ & H5 & ->)|
        (w1 & Hx & Hw1 & Hsig & Hres & _)]); (split; [|exact Hw']).
  - exists row, rec. rewrite H5. split; [exact H1|].
    split; [|exact (conj H2 (conj H3 (conj H4 eq_refl)))].
    apply str_to_status_Finalized. by rewrite <- (row_to_record_status _ _ (H2 string)).
  - eapply executed_stored; [exact Hw1|exact Hx|exact Hres|exact Hnow|by rewrite Hsig|].
    intros pv. apply Hpv.
Qed.

Lemma stored_evolves r resp rows rows' : keys_unique rows → rows_evolve rows rows' →
  stored_as r resp rows → stored_as r resp rows'.
Proof.
  intros Hu Hev (row & rec & H1 & H2 & H3). destruct (Hev Hu) as [_ Hk].
  destruct (Hk _ _ H1) as (row' & E & [->|(E' & _)]); [by exists row, rec|]. by rewrite H2 in E'.
Qed.

Lemma gate_refuses {AP : ApiProvider} cfg now r w res :
  check_request cfg now (pw_root w) (signer_of w) r = res →
  match res with
  | Ok _ => True
  | Err e => process_request cfg now r w = (Err e, w)
  | Panic => process_request cfg now r w = (Panic, w)
  end.
Proof. intros <-. unfold process_request. rewrite get_bind, lift_bind. by destruct (check_request _ _ _ _ _). Qed.

(** C26. An accepted request is idempotent while it passes the gate: after its
    response (with charges below [2^63]), whatever other store operations run,
    fail or restart in between, recovery by nullifier returns that response, and
    the same request - even with another provider behind the server - gets it
    again as long as it still passes the checks (the root has not moved, the
    note has not expired, its signing root and proof are still accepted), with no
    new provider call, signature, leaf or change of the table; a retry that no
    longer passes is refused with the check's error and changes nothing. *)
Theorem accepted_request_idempotent {AP AP' : ApiProvider} seeds h cfg now r w resp w1 tr rows w2 :
  server_ok seeds h w → canonical (nullifier_of r) → fits 64 now → fits 32 (epoch (signer_of w)) →
  (∀ id payload ph pv, @execute AP id payload ph = Ok pv → provider_ok pv) →
  @process_request _ _ _ _ AP cfg now r w = (Ok resp, w1) →
  history (rows_of w1) tr rows → pw_store w2 = Build_Sql rows [] →
  recover_by_nullifier (nullifier_of r) w2 =
    (Ok {| rc_status := "ok"; rc_nullifier_status := "finalized";
           rc_request_response := Some resp |}, w2) ∧
  ∀ now', match check_request cfg now' (pw_root w2) (signer_of w2) r with
          | Ok _ => @process_request _ _ _ _ AP' cfg now' r w2 = (Ok resp, w2)
          | Err e => @process_request _ _ _ _ AP' cfg now' r w2 = (Err e, w2)
          | Panic => @process_request _ _ _ _ AP' cfg now' r w2 = (Panic, w2)
          end.
Proof.
  intros Hw Hn Hnow He Hpv H Hh Hw2.
  destruct (accepted_stored seeds h cfg now r w resp w1 Hw Hn Hnow He Hpv H) as [Hst [Hu _]].
  apply (stored_evolves r resp _ rows Hu) in Hst; [|by eapply history_evolves].
  assert (stored_as r resp (rows_of w2)) as Hst2 by by rewrite Hw2.
  assert (sql_io (pw_store w2) = []) as Hio by by rewrite Hw2.
  split; [by apply recover_stored|]. intros now'.
  destruct (check_request cfg now' (pw_root w2) (signer_of w2) r) as [bytes|e|] eqn:Hc;
    [by eapply retry_stored|exact (gate_refuses cfg now' r w2 _ Hc)..].
Qed.

(** ** Runs on a working database *)

Definition quiet w : Prop := sql_io (pw_store w) = [] ∧ sql_io (sw_db (pw_signer w)) = [].

(** The signer can sign for this server. *)
Definition can_sign (seeds : SignerTree → SF) (h : nat) w (next : Z) : Prop :=
  signer_ok seeds h (signer_of w) ∧ sg_poisoned (signer_of w) = false ∧
  leaf_ready h (signer_of w) State (table_of w) next.

(** Everything of an execution before the signature. *)
Definition executable {AP : ApiProvider} cfg r (pv : ProviderResponse) (hash : Felt252)
  (point : StarkG) : Prop :=
  execute (ar_client_request_id r) (ar_payload r) (ar_payload_hash r) = Ok pv ∧
  @canonical_response_hash _ ServerError (str_bytes (pv_payload pv)) = Ok hash ∧
  (pv_charge_applied pv ≤ required_charge_cap cfg)%Z ∧
  @reconstruct_affine_point _ ServerError (rp_anon_commitment_x (ar_public_inputs r))
    (rp_anon_commitment_y (ar_public_inputs r)) = Ok point.

Lemma execute_request_prefix {AP : ApiProvider} cfg now r bytes w pv hash point :
  executable cfg r pv hash point →
  execute_request cfg now r bytes w =
  ('(state_sig, leaf_index, _) ← on_signer (sign_next_state (λ leaf_index,
     nx_message <$> build_next_state cfg (nullifier_of r) point (pv_charge_applied pv) leaf_index));
   st ← lift (build_next_state cfg (nullifier_of r) point (pv_charge_applied pv) leaf_index);
   w ← get;
   let root := state_root (sw_signer (pw_signer w)) in
   _ ← on_store (catch_err
         (λ e, Internal ("failed to finalize transcript: " +:+ ServerError_display e))
         (finalize now (nullifier_of r) (transcript_of r now pv hash st state_sig root bytes)));
   mret (response_of r pv hash st state_sig root)) w.
Proof.
  intros (E1 & E2 & E3 & E4). unfold execute_request. rewrite lift_bind, E1, lift_bind, E2, lift_bind.
  assert ((required_charge_cap cfg <? pv_charge_applied pv)%Z = false) as -> by by apply Z.ltb_ge.
  cbn [guard_err]. by rewrite lift_bind, E4.
Qed.

Lemma execute_request_quiet {AP : ApiProvider} seeds h cfg now r bytes w pv hash point next st row :
  quiet w → keys_unique (rows_of w) → can_sign seeds h w next → executable cfg r pv hash point →
  build_next_state cfg (nullifier_of r) point (pv_charge_applied pv) next = Ok st →
  row_at (to_hex (nullifier_of r)) (rows_of w) = Some row → row_status row = status_to_str Reserved →
  ∃ sig w', execute_request cfg now r bytes w =
      (Ok (response_of r pv hash st sig (state_root (signer_of w))), w') ∧
    table_of w' = bump State (table_of w) ∧
    row_at (to_hex (nullifier_of r)) (rows_of w') = Some (finalize_row
      (transcript_of r now pv hash st sig (state_root (signer_of w)) bytes) now row).
Proof.
  intros [Hio1 Hio2] Hu (Hok & Hp & Hready) Hex Hst Hrow Hs.
  rewrite (execute_request_prefix _ _ _ _ _ _ _ _ Hex).
  destruct w as [[rows io1] [sg [d io2]] root]. cbn in Hio1, Hio2. subst io1 io2.
  cbn [pw_store pw_signer sw_signer sw_db sql_data] in *.
  destruct (sign_next_state_quiet seeds h sg d next (λ leaf, nx_message <$>
    build_next_state cfg (nullifier_of r) point (pv_charge_applied pv) leaf) (nx_message st) Hok Hp Hready)
    as (sig & sg' & Hsign & _ & _ & [_ Hroot] & _); [by rewrite Hst|].
  destruct (finalize_quiet now (nullifier_of r)
    (transcript_of r now pv hash st sig (state_root sg) bytes) rows row Hu Hrow Hs) as [Hf1 Hf2].
  exists sig. eexists. split.
  - unfold mbind at 1, M_mbind at 1, on_signer, zoom at 1. cbn [pw_signer]. rewrite Hsign.
    rewrite lift_bind, Hst, get_bind. cbn [pw_signer sw_signer].
    rewrite (Hroot State : state_root _ = state_root _).
    unfold mbind, M_mbind, on_store, zoom, catch_err. cbn [pw_store]. rewrite Hf1. reflexivity.
  - split; [reflexivity|exact Hf2].
Qed.

(** A new request on a working server. *)
Lemma process_request_new {AP : ApiProvider} seeds h cfg now r w bytes pv hash point next st :
  server_ok seeds h w → quiet w → can_sign seeds h w next →
  check_request cfg now (pw_root w) (signer_of w) r = Ok bytes →
  executable cfg r pv hash point →
  build_next_state cfg (nullifier_of r) point (pv_charge_applied pv) next = Ok st →
  row_at (to_hex (nullifier_of r)) (rows_of w) = None →
  ∃ sig w' row, process_request cfg now r w =
      (Ok (response_of r pv hash st sig (state_root (signer_of w))), w') ∧
    table_of w' = bump State (table_of w) ∧
    row_at (to_hex (nullifier_of r)) (rows_of w') = Some row ∧
    row_status row = status_to_str Finalized.
Proof.
  intros [Hu _] Hq Hcan Hc Hex Hst Habs. unfold process_request. rewrite get_bind, lift_bind, Hc.
  pose proof Hq as [Hio1 Hio2].
  set (w1 := {| pw_store := Build_Sql (rows_of w ++ [reserved_row (nullifier_of r)
    (ar_client_request_id r) (ar_payload_hash r) now]) []; pw_signer := pw_signer w;
    pw_root := pw_root w |}).
  destruct (execute_request_quiet seeds h cfg now r bytes w1 pv hash point next st
    (reserved_row (nullifier_of r) (ar_client_request_id r) (ar_payload_hash r) now))
    as (sig & w' & E1 & E2 & E3); try assumption; [split; [done|exact Hio2]| | |done|].
  { cbn. by apply keys_unique_snoc. }
  { cbn. by rewrite row_at_snoc, Habs, bool_decide_true. }
  exists sig, w'. eexists. split; [|split; [exact E2|split; [exact E3|done]]].
  etransitivity; [|exact E1].
  destruct w as [[rows io1] sw root]. cbn in Hio1, Habs |- *. subst io1.
  unfold mbind at 1, M_mbind at 1, on_store at 1, zoom at 1. cbn [pw_store].
  rewrite lookup_absent by done. unfold mbind, M_mbind, on_store, zoom. cbn [pw_store].
  by rewrite reserve_quiet.
Qed.

(** C27. Requests get through, first time or after a crash: on a working server
    with a free signer and a leaf left, a request that passes the checks, for a
    nullifier that is unknown or reserved by this same request (an earlier
    attempt that died before finalizing), whose provider call stays within the
    cap and whose next commitment is a finite point, is answered, its transcript
    is finalized and one leaf is used. *)
Theorem request_live {AP : ApiProvider} seeds h cfg now r w bytes pv hash point next st :
  server_ok seeds h w → quiet w → can_sign seeds h w next →
  canonical (nullifier_of r) → fits 64 now →
  check_request cfg now (pw_root w) (signer_of w) r = Ok bytes →
  executable cfg r pv hash point →
  build_next_state cfg (nullifier_of r) point (pv_charge_applied pv) next = Ok st →
  (row_at (to_hex (nullifier_of r)) (rows_of w) = None ∨
   ∃ row rec, row_at (to_hex (nullifier_of r)) (rows_of w) = Some row ∧
     (∀ E, @row_to_record E row = Ok rec) ∧ row_status row = status_to_str Reserved ∧
     same_request r rec = true) →
  ∃ sig w' row, process_request cfg now r w =
      (Ok (response_of r pv hash st sig (state_root (signer_of w))), w') ∧
    table_of w' = bump State (table_of w) ∧
    row_at (to_hex (nullifier_of r)) (rows_of w') = Some row ∧
    row_status row = status_to_str Finalized.
Proof.
  intros Hw Hq Hcan Hn Hnow Hc Hex Hst [Habs|(row & rec & H1 & H2 & H3 & H4)];
    [by eapply process_request_new|].
  pose proof Hw as [Hu _]. pose proof Hq as [Hio1 Hio2].
  unfold process_request. rewrite get_bind, lift_bind, Hc.
  destruct (execute_request_quiet seeds h cfg now r bytes w pv hash point next st row)
      as (sig & w' & E1 & E2 & E3); try assumption.
    exists sig, w'. eexists. split; [|split; [exact E2|split; [exact E3|done]]].
    etransitivity; [|exact E1].
    assert (@lookup_by_nullifier ServerError (nullifier_of r) (pw_store w) = (Ok (Some rec), pw_store w)) as Hl.
    { destruct w as [[rows io1] sw root]. cbn in *. subst io1. by eapply lookup_row. }
    rewrite (M_bind_Ok _ _ _ _ _ (on_store_quiet _ w (Some rec) Hl)), H4.
    assert (tr_status rec = Reserved) as -> by by rewrite (row_to_record_status _ _ (H2 string)), H3.
    reflexivity.
Qed.

(** Spending a whole balance under the blinding that cancels the server's delta
    gives the point at infinity, which has no affine coordinates. *)
Lemma next_state_infinity cfg n charge blinding leaf :
  fits 128 charge →
  ((fint blinding + fint (felt_to_field (compute_blind_delta (generate_server_rng2 n) n leaf)))
     mod STARK_ORDER = 0)%Z →
  build_next_state cfg n (commit charge blinding) charge leaf = Panic.
Proof.
  intros Hc Hb. unfold build_next_state. rewrite server_update_commit by done.
  rewrite Z.sub_diag, commit_zmul, fint_add_blinding, Hb, !zmul_0, gadd_zero_r by by split.
  unfold to_affine. by rewrite (proj2 (point_to_affine_None _) eq_refl).
Qed.

Lemma sign_poisoned sw op : sg_poisoned (sw_signer sw) = true → run_sign op sw = (Err lock_poisoned, sw).
Proof.
  intros Hp. destruct (run_sign_body op) as (X & body & f & Hrun & _). rewrite Hrun.
  unfold locked, with_lock. by rewrite Hp.
Qed.

(** A clearance refused by a poisoned signer. *)
Lemma clearance_poisoned cfg now q w :
  sql_io (pw_store w) = [] → sg_poisoned (signer_of w) = true →
  row_at (to_hex (crq_withdrawal_nullifier q)) (rows_of w) = None →
  process_clearance cfg now q w = (Err lock_poisoned, w).
Proof.
  intros Hio Hp Habs. unfold process_clearance.
  assert (@lookup_by_nullifier ServerError (crq_withdrawal_nullifier q) (pw_store w)
    = (Ok None, pw_store w)) as Hl.
  { destruct w as [[rows io] sw root]. cbn in *. subst io. by apply lookup_absent. }
  rewrite (M_bind_Ok _ _ _ _ _ (on_store_quiet _ w None Hl)).
  unfold mbind at 1, M_mbind at 1, on_signer at 1, zoom at 1.
  pose proof (sign_poisoned (pw_signer w) (SClear (compute_clearance_message
    (sc_protocol_version cfg) (sc_chain_id cfg) (sc_contract_address cfg)
    (crq_withdrawal_nullifier q))) Hp) as Hs. cbn [run_sign] in Hs. rewrite Hs.
  by destruct w.
Qed.

(** C31. One request can stop the server from signing: a request that passes every
    check, whose anonymous commitment opens to exactly the charge under a
    blinding that cancels the delta the server is about to derive (from the
    nullifier and its leaf index, both predictable), makes the closure under the
    signer's lock convert the point at infinity.  The handler panics, the
    nullifier stays reserved, the leaf is burned, and from then on every signing
    operation fails, so that no clearance is granted either. *)
Theorem infinity_stops_server {AP : ApiProvider} seeds h cfg now r w bytes pv hash blinding next :
  server_ok seeds h w → quiet w → can_sign seeds h w next →
  check_request cfg now (pw_root w) (signer_of w) r = Ok bytes →
  executable cfg r pv hash (commit (pv_charge_applied pv) blinding) →
  fits 128 (pv_charge_applied pv) →
  ((fint blinding + fint (felt_to_field (compute_blind_delta (generate_server_rng2 (nullifier_of r))
     (nullifier_of r) next))) mod STARK_ORDER = 0)%Z →
  row_at (to_hex (nullifier_of r)) (rows_of w) = None →
  ∃ w', process_request cfg now r w = (Panic, w') ∧
    rows_of w' = rows_of w ++ [reserved_row (nullifier_of r) (ar_client_request_id r)
                                 (ar_payload_hash r) now] ∧
    table_of w' = bump State (table_of w) ∧
    (∀ op, run_sign op (pw_signer w') = (Err lock_poisoned, pw_signer w')) ∧
    ∀ cfg' now' q, row_at (to_hex (crq_withdrawal_nullifier q)) (rows_of w') = None →
      process_clearance cfg' now' q w' = (Err lock_poisoned, w').
Proof.
  intros [Hu _] [Hio1 Hio2] (Hok & Hp & Hready) Hc Hex Hch Hb Habs.
  set (w1 := {| pw_store := Build_Sql (rows_of w ++ [reserved_row (nullifier_of r)
      (ar_client_request_id r) (ar_payload_hash r) now]) []; pw_signer := poison (set_db
      (Build_Sql (bump State (table_of w)) []) (pw_signer w)); pw_root := pw_root w |}).
  exists w1. split; [|split; [done|split; [done|split]]].
  - unfold process_request. rewrite get_bind, lift_bind, Hc.
    pose proof (next_state_infinity cfg (nullifier_of r) (pv_charge_applied pv) blinding next Hch Hb)
      as Hinf.
    destruct w as [[rows io1] [sg [d io2]] root]. cbn in Hio1, Hio2, Habs |- *. subst io1 io2.
    unfold mbind at 1, M_mbind at 1, on_store at 1, zoom at 1. cbn [pw_store].
    rewrite lookup_absent by done. unfold mbind at 1, M_mbind at 1, on_store at 1, zoom at 1.
    cbn [pw_store pw_signer pw_root]. rewrite reserve_quiet by done.
    rewrite (execute_request_prefix _ _ _ _ _ _ _ _ Hex).
    unfold mbind at 1, M_mbind at 1, on_signer, zoom at 1. cbn [pw_signer].
    rewrite (sign_next_state_panic seeds h sg d next); [done|done|done|exact Hready|].
    by rewrite Hinf.
  - intros op. by apply sign_poisoned.
  - intros cfg' now' q Hq. by apply clearance_poisoned.
Qed.

(** A nullifier that has a row is refused, and the rows stay: by the lookup, or,
    when the lookup fails, by the insertion. *)
Lemma clearance_refused seeds h cfg now q w res w' row :
  server_ok seeds h w → process_clearance cfg now q w = (res, w') →
  row_at (to_hex (crq_withdrawal_nullifier q)) (rows_of w) = Some row →
  (∀ resp, res ≠ Ok resp) ∧ rows_of w' = rows_of w.
Proof.
  intros [Hu Hs] H Hrow. unfold process_clearance, mbind, M_mbind in H.
  destruct (on_store _ w) as [r1 w1] eqn:E1. apply zoom_inv in E1 as (s1 & E1 & ->).
  pose proof (query_row_data _ _ _ _ E1) as Hd.
  destruct r1 as [[rec|]|e|]; [by injection H as <- <-| |by injection H as <- <-..].
  destruct (on_signer _ _) as [r2 w2] eqn:E2. apply zoom_inv in E2 as (sw & E2 & ->).
  destruct r2 as [[sig leaf]|e|]; [|by injection H as <- <-..].
  destruct (on_store _ _) as [r3 w3] eqn:E3. apply zoom_inv in E3 as (s3 & E3 & ->).
  cbn [pw_store] in E3. apply reserve_clearance_cases in E3 as [(_ & Hnone & _)|[Hr Hd3]];
    [rewrite Hd in Hnone; congruence|].
  destruct r3 as [[]|e|]; [done|by injection H as <- <-; cbn; split; [|congruence]..].
Qed.

Lemma clearance_looked_up cfg now q w row rec :
  row_at (to_hex (crq_withdrawal_nullifier q)) (rows_of w) = Some row →
  (∀ E, @row_to_record E row = Ok rec) → sql_io (pw_store w) = [] →
  process_clearance cfg now q w = (Err NullifierUsed, w).
Proof.
  intros Hrow Hrec Hio. unfold process_clearance.
  assert (@lookup_by_nullifier ServerError (crq_withdrawal_nullifier q) (pw_store w)
    = (Ok (Some rec), pw_store w)) as Hl.
  { destruct (pw_store w) as [d io]. cbn in Hio, Hrow. subst io. by eapply lookup_row. }
  by rewrite (M_bind_Ok _ _ _ _ _ (on_store_quiet _ w (Some rec) Hl)).
Qed.

(** What a granted clearance is, and what it leaves. *)
Lemma clearance_granted seeds h cfg now q w resp w' :
  server_ok seeds h w → canonical (crq_withdrawal_nullifier q) → fits 64 now →
  process_clearance cfg now q w = (Ok resp, w') →
  row_at (to_hex (crq_withdrawal_nullifier q)) (rows_of w) = None ∧
  cr_withdrawal_nullifier resp = crq_withdrawal_nullifier q ∧
  @xmss_verify _ string (cr_clear_sig_root resp)
    (compute_clearance_message (sc_protocol_version cfg) (sc_chain_id cfg) (sc_contract_address cfg)
       (crq_withdrawal_nullifier q)) (cr_clear_sig resp) = Ok true ∧
  cr_clear_sig_root resp = clear_root (signer_of w) ∧
  ∀ tr rows w2, history (rows_of w') tr rows → pw_store w2 = Build_Sql rows [] →
    (∀ AP cfg' now' r bytes, nullifier_of r = crq_withdrawal_nullifier q →
       check_request cfg' now' (pw_root w2) (signer_of w2) r = Ok bytes →
       @process_request _ _ _ _ AP cfg' now' r w2 = (Err Replay, w2)) ∧
    ∀ cfg' now', process_clearance cfg' now' q w2 = (Err NullifierUsed, w2).
Proof.
  intros [Hu Hs] Hn Hnow H. unfold process_clearance in H.
  apply M_bind_inv in H as (existing & w1 & Rl & H). apply zoom_inv in Rl as (s1 & Rl & ->).
  pose proof (query_row_data _ _ _ _ Rl) as Hd. destruct existing as [|]; [discriminate H|].
  apply M_bind_inv in H as ([sig leaf] & w2 & Rs & H). apply zoom_inv in Rs as (sw & Rs & ->).
  apply M_bind_inv in H as ([] & w3 & Rc & H). apply zoom_inv in Rc as (s2 & Rc & ->).
  rewrite get_bind in H. injection H as <- <-. cbn [pw_store pw_signer pw_root] in *.
  apply (run_sign_cases seeds h (SClear _)) in Rs as (_ & [He Hr] & _ & Hsig); [|exact Hs].
  destruct (Hsig _ _ eq_refl) as (m & [= <-] & (_ & _ & _ & _ & _ & Hv & _) & _).
  cbn [pw_signer] in *.
  apply reserve_clearance_cases in Rc as [(_ & E1 & E2)|[[] _]]; [|done]. rewrite Hd in E1, E2.
  split; [exact E1|]. split; [done|]. rewrite (Hr Clear : clear_root _ = clear_root _). split; [apply Hv|]. split; [done|].
  intros tr rows w2 Hh Hw2. rewrite E2 in Hh.
  destruct (history_evolves _ _ _ (keys_unique_snoc _ (new_row _ _ _ _ _) Hu E1) Hh
    (keys_unique_snoc _ (new_row _ _ _ _ _) Hu E1)) as [Hu' Hk].
  destruct (Hk (to_hex (crq_withdrawal_nullifier q)) (new_row (to_hex (crq_withdrawal_nullifier q))
    (status_to_str ClearanceReserved) None None (as_signed 64 now))) as (row & Hrow & [->|(Es & _)]);
    [by rewrite row_at_snoc, E1, bool_decide_true| |discriminate].
  destruct (read_clearance (crq_withdrawal_nullifier q) now Hn Hnow) as (rec & Hrec & Hst & Hid).
  assert (∀ E, @lookup_by_nullifier E (crq_withdrawal_nullifier q) (pw_store w2)
    = (Ok (Some rec), pw_store w2)) as Hl.
  { intros E. rewrite Hw2. by eapply lookup_row. }
  split.
  - intros AP cfg' now' r bytes Hnr Hc. unfold process_request. rewrite get_bind, lift_bind, Hc, Hnr.
    rewrite (M_bind_Ok _ _ _ _ _ (on_store_quiet _ w2 (Some rec) (Hl _))).
    assert (same_request r rec = false) as ->.
    { apply not_true_iff_false. intros [E _]%same_request_spec. by rewrite Hid in E. }
    done.
  - intros cfg' now'. unfold process_clearance.
    by rewrite (M_bind_Ok _ _ _ _ _ (on_store_quiet _ w2 (Some rec) (Hl _))).
Qed.

(** C29. Clearance and requests exclude each other.  A nullifier with any row -
    reserved, finalized or cleared - is granted no clearance, whatever the
    database does, and its row stays as it is; when the lookup works the refusal
    changes nothing and signs nothing.  A granted clearance is for a nullifier
    without a row, is signed by the clearance tree for exactly that nullifier,
    and leaves a row that from then on, whatever other store operations run,
    turns every request for the nullifier away as a replay. *)
Theorem clearance_exclusive seeds h cfg now q w res w' :
  server_ok seeds h w → canonical (crq_withdrawal_nullifier q) → fits 64 now →
  process_clearance cfg now q w = (res, w') →
  (∀ row, row_at (to_hex (crq_withdrawal_nullifier q)) (rows_of w) = Some row →
     (∀ resp, res ≠ Ok resp) ∧ rows_of w' = rows_of w ∧
     ∀ rec, (∀ E, @row_to_record E row = Ok rec) → sql_io (pw_store w) = [] →
       res = Err NullifierUsed ∧ w' = w) ∧
  ∀ resp, res = Ok resp →
  row_at (to_hex (crq_withdrawal_nullifier q)) (rows_of w) = None ∧
  cr_withdrawal_nullifier resp = crq_withdrawal_nullifier q ∧
  @xmss_verify _ string (cr_clear_sig_root resp)
    (compute_clearance_message (sc_protocol_version cfg) (sc_chain_id cfg) (sc_contract_address cfg)
       (crq_withdrawal_nullifier q)) (cr_clear_sig resp) = Ok true ∧
  cr_clear_sig_root resp = clear_root (signer_of w) ∧
  ∀ tr rows w2, history (rows_of w') tr rows → pw_store w2 = Build_Sql rows [] →
    (∀ AP cfg' now' r bytes, nullifier_of r = crq_withdrawal_nullifier q →
       check_request cfg' now' (pw_root w2) (signer_of w2) r = Ok bytes →
       @process_request _ _ _ _ AP cfg' now' r w2 = (Err Replay, w2)) ∧
    ∀ cfg' now', process_clearance cfg' now' q w2 = (Err NullifierUsed, w2).
Proof.
  intros Hw Hn Hnow H. split.
  - intros row Hrow. destruct (clearance_refused _ _ _ _ _ _ _ _ _ Hw H Hrow) as [H1 H2].
    split; [exact H1|split; [exact H2|]]. intros rec Hrec Hio.
    rewrite (clearance_looked_up cfg now q w row rec Hrow Hrec Hio) in H. by injection H as <- <-.
  - intros resp ->. by eapply clearance_granted.
Qed.

Definition inputs_canonical (p : RequestPublicInputs) : Prop :=
  canonical (rp_contract_address p) ∧ canonical (rp_active_root p) ∧ canonical (rp_state_sig_root p) ∧
  canonical (rp_request_nullifier p) ∧ canonical (rp_anon_commitment_x p) ∧
  canonical (rp_anon_commitment_y p).

Lemma json_inputs_id p : inputs_canonical p → json_inputs p = Ok p.
Proof.
  intros (H1 & H2 & H3 & H4 & H5 & H6). unfold json_inputs.
  rewrite !json_felt_id, !result_Ok_bind by done. by destruct p.
Qed.

(** The archive of a finalized request. *)
Lemma challenge_from_record n note_id siblings rows rec p bytes row :
  row_at (to_hex n) rows = Some row → (∀ E, @row_to_record E row = Ok rec) →
  tr_status rec = Finalized → tr_request_inputs_json rec = Some p → tr_proof_blob rec = Some bytes →
  inputs_canonical p → rp_request_nullifier p = n →
  build_challenge_action note_id n siblings (Build_Sql rows []) =
    (Ok {| ch_note_id := note_id; ch_request_inputs := p; ch_proof_artifact := bytes;
           ch_siblings := siblings |}, Build_Sql rows []).
Proof.
  intros Hrow Hrec Hs Hj Hb Hp Hn. unfold build_challenge_action, finalized_transcript.
  rewrite M_bind_assoc, (M_bind_Ok _ _ _ _ _ (lookup_row n rows row rec Hrow Hrec)).
  cbn [mbind option_bind]. rewrite Hs, bool_decide_true by done.
  unfold mbind, M_mbind, mret, M_mret, lift. cbn [ok_or]. rewrite Hj. cbn [ok_or].
  rewrite (json_inputs_id _ Hp). cbn [map_err]. rewrite Hn, bool_decide_false by auto.
  cbn [guard_err]. by rewrite Hb.
Qed.

(** Every request the server charged for can be used against a stale
    withdrawal: once a new request is answered, the challenge planner, at any
    later time and whatever other store operations run, rebuilds for its
    nullifier the very public inputs and the proof bytes the server verified. *)
Theorem challenge_available {AP : ApiProvider} seeds h cfg now r w resp w' tr rows note_id siblings :
  server_ok seeds h w → inputs_canonical (ar_public_inputs r) → fits 64 now →
  fits 32 (epoch (signer_of w)) →
  (∀ id payload ph pv, execute id payload ph = Ok pv → provider_ok pv) →
  row_at (to_hex (nullifier_of r)) (rows_of w) = None →
  process_request cfg now r w = (Ok resp, w') → history (rows_of w') tr rows →
  ∃ bytes, request_checked cfg now (pw_root w) (signer_of w) r bytes ∧
    build_challenge_action note_id (nullifier_of r) siblings (Build_Sql rows []) =
      (Ok {| ch_note_id := note_id; ch_request_inputs := ar_public_inputs r;
             ch_proof_artifact := bytes; ch_siblings := siblings |}, Build_Sql rows []).
Proof.
  intros Hw Hcan Hnow He Hpv Habs H Hh. pose proof Hcan as (_ & _ & _ & Hn & _).
  destruct (process_request_inv seeds h cfg now r w resp w' Hw H Hn Hnow)
    as (bytes & Hc & [Hu' _] & _ & _ & [(row & rec & Hrow & _)|(w1 & Hx & [Hu1 _] & Hsig & Hres & _)]);
    [congruence|].
  exists bytes. split; [by apply check_request_facts|].
  destruct Hx as (pv & hash & point & leaf & sig & st & row & X1 & X2 & X3 & X4 & X5 & X6 & X7 &
    X8 & X9 & X10 & ->). destruct Hres as (row' & rec & E1 & E2 & _). rewrite X8 in E1. injection E1 as <-.
  assert (transcript_ok (transcript_of r now pv hash st sig (state_root (signer_of w1)) bytes)) as Ht.
  { eapply transcript_of_ok; [by eapply Hpv| |by eapply next_state_canonical|exact X6|by rewrite Hsig|].
    - by apply hash_bytes_to_felt_canonical in X2.
    - apply v1_field_to_felt_canonical. }
  assert (row_at (to_hex (nullifier_of r)) (rows_of w') = Some (finalize_row
    (transcript_of r now pv hash st sig (state_root (signer_of w1)) bytes) now row)) as Hfin.
  { rewrite X10. by apply finalized_row. }
  destruct (history_evolves _ _ _ Hu' Hh Hu') as [_ Hk].
  destruct (Hk _ _ Hfin) as (row2 & Hrow2 & [->|(Es & _)]); [|discriminate].
  eapply challenge_from_record; [exact Hrow2|intros E; by apply finalize_read|done..].
Qed.

(** The HTTP errors: the latest root is sent exactly for a stale root; an error is
    retriable exactly when its status is 500 or it is a stale root; 409 is a
    spent nullifier or a stale root; and the error code decides the status. *)
Theorem error_response_spec e id root now_ms :
  let '(status, body) := error_to_response e id root now_ms in
  er_error_code body = error_code e ∧
  (er_latest_root body = Some root ↔ ∃ latest, e = StaleRoot latest) ∧
  (er_retriable body = true ↔ status = 500%Z ∨ ∃ latest, e = StaleRoot latest) ∧
  (status = 409%Z ↔ e = Replay ∨ e = NullifierUsed ∨ ∃ latest, e = StaleRoot latest) ∧
  ∀ e', error_code e' = error_code e → status_code e' = status.
Proof.
  unfold error_to_response. cbn. split; [done|].
  assert (∀ e', error_code e' = error_code e → status_code e' = status_code e) as Hc
    by (destruct e; intros []; cbn; congruence).
  split; [|split; [|split; [|exact Hc]]]; clear Hc; destruct e; cbn; split; intros H;
    repeat match goal with
    | H : _ ∨ _ |- _ => destruct H as [H|H]
    | H : ∃ _, _ |- _ => destruct H as [? H]
    end; try discriminate; eauto.
Qed.
End properties.

(** ** Witnesses: a server with trees of two leaves and an accepting verifier *)
#[local] Existing Instance ToyStark.
#[local] Existing Instance toy_generators.

#[local] Existing Instance toy_keccak.

Definition toy_libs : ProofLibs :=
  {| base64_standard_decode := λ s, Ok (str_bytes s); stwo_verify_artifact := λ _ _ _, Ok tt |}.
#[local] Existing Instance toy_libs.

Definition toy_echo : ApiProvider := EchoProvider 1.

Definition toy_world : ServerWorld :=
  match with_height_durable toy_seed toy_clear_seed 1 1 (Build_Sql ∅ []) with
  | (Ok sg, d) => {| pw_store := Build_Sql [] []; pw_signer := {| sw_signer := sg; sw_db := d |};
                     pw_root := ZERO |}
  | (_, d) => {| pw_store := Build_Sql [] [];
                 pw_signer := {| sw_signer := Build_ServerSigner toy_keypair toy_keypair 0 0 false true;
                                 sw_db := d |};
                 pw_root := ZERO |}
  end.

Lemma toy_world_ok :
  server_ok (seeds_of toy_seed toy_clear_seed) 1 toy_world ∧ quiet toy_world ∧
  can_sign (seeds_of toy_seed toy_clear_seed) 1 toy_world 0 ∧ epoch (sw_signer (pw_signer toy_world)) = 1%Z ∧
  sql_data (pw_store toy_world) = [].
Proof.
  destruct (with_height_durable_fresh toy_seed toy_clear_seed 1 1 ltac:(lia))
    as (sg & Hup & Hok & Hp & He & Hready).
  unfold toy_world. rewrite Hup. split; [split; [apply NoDup_nil_2|exact Hok]|].
  split; [by split|]. split; [split; [exact Hok|split; [exact Hp|apply Hready]]|].
  split; [exact (He State)|done].
Qed.

Definition toy_hash (r : result string Felt252) : Felt252 := default ZERO (result_ok r).

Definition toy_inputs (anon_x : Felt252) : RequestPublicInputs := {|
  rp_statement_type := STATEMENT_TYPE_REQUEST; rp_protocol_version := 1; rp_chain_id := 1;
  rp_contract_address := ZERO; rp_active_root := ZERO; rp_state_sig_epoch := 0;
  rp_state_sig_root := ZERO; rp_request_nullifier := from_u64 42; rp_anon_commitment_x := anon_x;
  rp_anon_commitment_y := ONE; rp_expiry_ts := 100; rp_solvency_bound := 1000000 |}.

Definition toy_request (anon_x : Felt252) : ApiRequest := {|
  ar_client_request_id := "req-1"; ar_payload := "hello";
  ar_payload_hash := toy_hash (canonical_payload_hash (str_bytes "hello"));
  ar_public_inputs := toy_inputs anon_x;
  ar_proof := {| pa_backend := StwoCairo;
                 pa_public_output_hash := toy_hash (request_public_output_hash (toy_inputs anon_x));
                 pa_proof := "proof" |} |}.

Definition toy_req : ApiRequest := toy_request (from_u64 7).

Lemma toy_provider_ok id payload ph pv : @execute toy_echo id payload ph = Ok pv → provider_ok pv.
Proof. intros [= <-]. by repeat split. Qed.

Lemma toy_checked sg : check_request ServerConfig_default 50 ZERO sg toy_req = Ok (str_bytes "proof").
Proof. vm_compute. reflexivity. Qed.

Lemma toy_world_root : pw_root toy_world = ZERO.
Proof. unfold toy_world. by destruct (with_height_durable _ _ _ _ _) as [[| |] d]. Qed.

Definition toy_point : StarkG := modint_of STARK_ORDER_pos (fint (felt_to_field (from_u64 7))).
Definition toy_response_hash : Felt252 := toy_hash (canonical_response_hash (str_bytes "hello")).
Definition toy_pv : ProviderResponse :=
  {| pv_status_code := 200; pv_payload := "hello"; pv_charge_applied := 1;
     pv_policy_reason_code := None; pv_policy_evidence_hash := None |}.

Lemma toy_executable : executable (AP := toy_echo) ServerConfig_default toy_req toy_pv
  toy_response_hash toy_point.
Proof. split; [reflexivity|]. split; [vm_compute; reflexivity|]. split; [done|]. reflexivity. Qed.

Lemma toy_next_state : ∃ st, build_next_state ServerConfig_default (from_u64 42) toy_point 1 0 = Ok st.
Proof. apply is_ok_value. vm_compute. reflexivity. Qed.

Lemma toy_world_checked : check_request ServerConfig_default 50 (pw_root toy_world)
  (sw_signer (pw_signer toy_world)) toy_req = Ok (str_bytes "proof").
Proof. rewrite toy_world_root. apply toy_checked. Qed.

(** The first request of the toy server, answered. *)
Lemma toy_run : ∃ resp w', process_request (AP := toy_echo) ServerConfig_default 50 toy_req toy_world
  = (Ok resp, w').
Proof.
  destruct toy_world_ok as (H1 & H2 & H3 & _ & H5), toy_next_state as [st Hst].
  destruct (process_request_new (AP := toy_echo) _ _ ServerConfig_default 50 toy_req toy_world _ toy_pv
    toy_response_hash toy_point 0 st H1 H2 H3 toy_world_checked toy_executable Hst) as (sig & w' & _ & H & _).
  - by rewrite H5.
  - eauto.
Qed.

Lemma toy_canonical : canonical (from_u64 42).
Proof. apply (bool_decide_unpack _). vm_compute. exact I. Qed.

Lemma toy_inputs_canonical : inputs_canonical (ar_public_inputs toy_req).
Proof. repeat split; apply (bool_decide_unpack _); vm_compute; exact I. Qed.

Lemma toy_absent : row_at (to_hex (from_u64 42)) (sql_data (pw_store toy_world)) = None.
Proof. destruct toy_world_ok as (_ & _ & _ & _ & H5). by rewrite H5. Qed.

Lemma toy_epoch_fits : fits 32 (epoch (sw_signer (pw_signer toy_world))).
Proof. destruct toy_world_ok as (_ & _ & _ & H4 & _). rewrite H4. by split. Qed.

Lemma request_gate_witness : ∃ resp w',
  process_request (AP := toy_echo) ServerConfig_default 50 toy_req toy_world = (Ok resp, w') ∧
  ∃ bytes, request_checked ServerConfig_default 50 (pw_root toy_world)
    (sw_signer (pw_signer toy_world)) toy_req bytes.
Proof.
  destruct toy_run as (resp & w' & Hrun). exists resp, w'. split; [exact Hrun|].
  destruct (request_gate (AP := toy_echo) ServerConfig_default 50 toy_req toy_world _ _ Hrun)
    as [[_ H]|H]; [destruct (H resp eq_refl)|exact H].
Defined.

Lemma accepted_request_witness : ∃ resp w',
  process_request (AP := toy_echo) ServerConfig_default 50 toy_req toy_world = (Ok resp, w') ∧
  rr_next_state_sig_root resp = state_root (sw_signer (pw_signer toy_world)).
Proof.
  destruct toy_run as (resp & w' & Hrun). exists resp, w'. split; [exact Hrun|].
  destruct (accepted_request (AP := toy_echo) _ 1 ServerConfig_default 50 toy_req toy_world resp w'
    (proj1 toy_world_ok) toy_canonical ltac:(by split) toy_provider_ok toy_absent Hrun) as (_ & H & _).
  exact H.
Defined.

Lemma accepted_request_idempotent_witness : ∃ resp w1 w2,
  process_request (AP := toy_echo) ServerConfig_default 50 toy_req toy_world = (Ok resp, w1) ∧
  process_request (AP := EchoProvider 5) ServerConfig_default 50 toy_req w2 = (Ok resp, w2).
Proof.
  destruct toy_run as (resp & w1 & Hrun).
  set (w2 := {| pw_store := Build_Sql (sql_data (pw_store w1)) []; pw_signer := pw_signer toy_world;
                pw_root := pw_root toy_world |}).
  exists resp, w1, w2. split; [exact Hrun|].
  destruct (accepted_request_idempotent (AP := toy_echo) (AP' := EchoProvider 5) _ 1
    ServerConfig_default 50 toy_req toy_world resp w1 [] (sql_data (pw_store w1)) w2
    (proj1 toy_world_ok) toy_canonical ltac:(by split) toy_epoch_fits toy_provider_ok Hrun
    (history_nil _) eq_refl) as [_ H].
  specialize (H 50%Z). change (pw_root w2) with (pw_root toy_world) in H.
  change (pw_signer w2) with (pw_signer toy_world) in H. by rewrite toy_world_checked in H.
Defined.

Lemma request_live_witness : ∃ resp w',
  process_request (AP := toy_echo) ServerConfig_default 50 toy_req toy_world = (Ok resp, w').
Proof.
  destruct toy_world_ok as (H1 & H2 & H3 & _ & _), toy_next_state as [st Hst].
  destruct (request_live (AP := toy_echo) _ _ ServerConfig_default 50 toy_req toy_world _ toy_pv
    toy_response_hash toy_point 0 st H1 H2 H3 toy_canonical ltac:(by split) toy_world_checked
    toy_executable Hst (or_introl toy_absent)) as (sig & w' & _ & H & _).
  eexists _, w'. exact H.
Defined.

Lemma challenge_available_witness : ∃ resp w' bytes,
  process_request (AP := toy_echo) ServerConfig_default 50 toy_req toy_world = (Ok resp, w') ∧
  build_challenge_action 9 (from_u64 42) (vreplicate MERKLE_DEPTH ZERO)
    (Build_Sql (sql_data (pw_store w')) []) =
  (Ok {| ch_note_id := 9; ch_request_inputs := ar_public_inputs toy_req; ch_proof_artifact := bytes;
         ch_siblings := vreplicate MERKLE_DEPTH ZERO |}, Build_Sql (sql_data (pw_store w')) []).
Proof.
  destruct toy_run as (resp & w' & Hrun).
  destruct (challenge_available (AP := toy_echo) _ 1 ServerConfig_default 50 toy_req toy_world resp w'
    [] (sql_data (pw_store w')) 9 (vreplicate MERKLE_DEPTH ZERO) (proj1 toy_world_ok)
    toy_inputs_canonical ltac:(by split) toy_epoch_fits toy_provider_ok toy_absent Hrun (history_nil _))
    as (bytes & _ & H).
  exists resp, w', bytes. split; [exact Hrun|exact H].
Defined.

(** The blinding that cancels the delta of leaf 0, and the request that has it. *)
Definition toy_cancel : Z := Eval vm_compute in
  (STARK_ORDER - fint (felt_to_field (compute_blind_delta (generate_server_rng2 (from_u64 42))
     (from_u64 42) 0)))%Z.
Definition toy_blinding : @SF ToyStark := fof (F := @SF ToyStark) toy_cancel.
Definition toy_infinity_req : ApiRequest :=
  toy_request (Felt (be_bytes 32 (mval (commit 1 toy_blinding)))).

Lemma toy_infinity_checked sg :
  check_request ServerConfig_default 50 ZERO sg toy_infinity_req = Ok (str_bytes "proof").
Proof. vm_compute. reflexivity. Qed.

Lemma infinity_stops_server_witness : ∃ w',
  process_request (AP := toy_echo) ServerConfig_default 50 toy_infinity_req toy_world = (Panic, w') ∧
  ∀ op, run_sign op (pw_signer w') = (Err lock_poisoned, pw_signer w').
Proof.
  destruct toy_world_ok as (H1 & H2 & H3 & _ & _).
  assert (check_request ServerConfig_default 50 (pw_root toy_world)
    (sw_signer (pw_signer toy_world)) toy_infinity_req = Ok (str_bytes "proof")) as Hc.
  { rewrite toy_world_root. apply toy_infinity_checked. }
  assert (executable (AP := toy_echo) ServerConfig_default toy_infinity_req toy_pv toy_response_hash
    (commit 1 toy_blinding)) as Hex.
  { split; [reflexivity|]. split; [vm_compute; reflexivity|]. split; [done|].
    unfold reconstruct_affine_point. cbn [expect from_affine ToyStark].
    apply (f_equal (@Ok ServerError _)), (modint_eq (p := Z.pos STARK_ORDER_pos)). vm_compute. reflexivity. }
  destruct (infinity_stops_server (AP := toy_echo) _ _ ServerConfig_default 50 toy_infinity_req
    toy_world _ toy_pv toy_response_hash toy_blinding 0 H1 H2 H3 Hc Hex ltac:(by split)
    ltac:(vm_compute; reflexivity) toy_absent) as (w' & E & _ & _ & H & _).
  exists w'. split; [exact E|exact H].
Defined.

(** A clearance on the same server. *)
Definition toy_clearance : ClearanceRequest := {| crq_withdrawal_nullifier := from_u64 42 |}.

Lemma toy_cleared : ∃ resp w',
  process_clearance ServerConfig_default 50 toy_clearance toy_world = (Ok resp, w').
Proof.
  destruct (with_height_durable_fresh toy_seed toy_clear_seed 1 1 ltac:(lia))
    as (sg & Hup & Hok & Hp & He & Hready).
  unfold toy_world. rewrite Hup. unfold process_clearance.
  unfold mbind at 1, M_mbind at 1, on_store at 1, zoom at 1. cbn [pw_store].
  rewrite lookup_absent by done. unfold mbind at 1, M_mbind at 1, on_signer at 1, zoom at 1.
  cbn [pw_store pw_signer pw_root].
  destruct (sign_clearance_quiet _ _ _ _ 0 (compute_clearance_message
    (sc_protocol_version ServerConfig_default) (sc_chain_id ServerConfig_default)
    (sc_contract_address ServerConfig_default) (crq_withdrawal_nullifier toy_clearance))
    Hok Hp (Hready Clear)) as (sig & sw & ->).
  eexists _, _. unfold mbind, M_mbind, on_store, zoom, reserve_clearance, catch_err.
  cbn [pw_store]. rewrite statement_quiet. reflexivity.
Qed.

Lemma clearance_exclusive_witness : ∃ resp w' w2,
  process_clearance ServerConfig_default 50 toy_clearance toy_world = (Ok resp, w') ∧
  process_request (AP := toy_echo) ServerConfig_default 50 toy_req w2 = (Err Replay, w2).
Proof.
  destruct toy_cleared as (resp & w' & Hrun).
  set (w2 := {| pw_store := Build_Sql (sql_data (pw_store w')) []; pw_signer := pw_signer toy_world;
                pw_root := pw_root toy_world |}).
  exists resp, w', w2. split; [exact Hrun|].
  destruct (clearance_exclusive _ 1 ServerConfig_default 50 toy_clearance toy_world (Ok resp) w'
    (proj1 toy_world_ok) toy_canonical ltac:(by split) Hrun) as [_ Hg].
  destruct (Hg resp eq_refl) as (_ & _ & _ & _ & H).
  destruct (H [] _ w2 (history_nil _) eq_refl) as [H1 _].
  exact (H1 toy_echo ServerConfig_default 50%Z toy_req _ eq_refl toy_world_checked).
Defined.
