(* ===== verification/RoundV1.v ===== *)
(** * One version-1 request, from the wallet through the server and back

    The wallet of [WalletV1] against the handlers of [Server]: the request the
    wallet prepares passes the server's gate, the wallet accepts what the server
    answers, and after a crash it recovers the same state from the archive. *)
From S2P Require Import Prelude Felt Types Group Ark CoreV2 Starknet CoreV1 Pedersen Wots Xmss.
From S2P Require Import Client ClientFiles WalletV1 ServerBase Store Signer Processor Server.

(** The texts the HTTP and JSON libraries make: a status line, a body, the parse
    error of an error body read as a recovery, a closed connection. *)
Class HttpText : Type := {
  status_text : Z → string;
  body_text : ErrorResponse → string;
  not_a_recovery : ErrorResponse → string;
  closed : string;
}.

Section round.
Context {A : Ark} {SK : Stark} {KC : Keccak} {GN : Generators} {PT : ProofTools} {PB : ProofBuilders}.
Context {PL : ProofLibs} {AP : ApiProvider} {HT : HttpText}.
Context (ccfg : ClientConfig) (cairo_dir : string) (scfg : ServerConfig).
Implicit Types (s n : NoteStateV1) (w : ServerWorld) (p : PreparedV1) (resp : RequestResponse).

(** ** The wire

    What an HTTP client sees of a handler's result: a value is a success, an
    error a status with a body that parses; a panic closes the connection. *)
Definition http_post (r : result (Z * ErrorResponse) RequestResponse)
  : PostOutcome RequestResponse :=
  match r with
  | Ok resp => PostSuccess (Ok resp)
  | Err (status, body) => PostFailure (status_text status) (body_text body) (Some body)
  | Panic => PostSendError closed
  end.

(** The body of an error has no [nullifier_status]. *)
Definition http_get (r : result (Z * ErrorResponse) RecoveryResponse) : RecoveryOutcomeV1 :=
  match r with
  | Ok resp => RecoverBody (Ok resp)
  | Err (_, body) => RecoverBody (Err (not_a_recovery body))
  | Panic => RecoverSendError closed
  end.

(** The wallet process with no system call failing. *)
Definition running (d : DiskOf NoteStateV1) (s : NoteStateV1) : WorldOf NoteStateV1 :=
  {| w_disk := d; w_mem := Some s; w_io := [] |}.

(** The wallet and the server are configured for the same deployment, and the
    wallet's registry has the server's current root. *)
Record agree s (signer : ServerSigner) : Prop := {
  ag_protocol : n1_protocol_version s = sc_protocol_version scfg;
  ag_chain : n1_chain_id s = sc_chain_id scfg;
  ag_contract : n1_contract_address s = sc_contract_address scfg;
  ag_cap : max_charge ccfg = required_charge_cap scfg;
  ag_epoch : epoch signer ≠ 0%Z;
  ag_root : is_zero (state_root signer) = false;
  ag_published : lookup_state_root (cfg_trusted_epoch_roots ccfg) (epoch signer)
                 = Some (state_root signer);
  ag_registry : ∀ e root, lookup_state_root (cfg_trusted_epoch_roots ccfg) e = Some root →
    root = state_root signer ∨ lookup_state_root (sc_trusted_epoch_roots scfg) e = Some root;
}.

(** ** The server's side *)

Lemma hash_any {E1 E2} domain payload f :
  @hash_bytes_to_felt _ E1 domain payload = Ok f → @hash_bytes_to_felt _ E2 domain payload = Ok f.
Proof. by rewrite !hash_bytes_to_felt_spec. Qed.

(** The request passes the gate once the server accepts its proof. *)
Lemma prepared_checked s env payload ph root sibs p signer bytes now :
  state_ok_v1 ccfg s → agree s signer →
  build_request_v1 ccfg cairo_dir s env payload ph root sibs = Ok p →
  @canonical_payload_hash _ ClientError (str_bytes payload) = Ok ph →
  verify_request_proof_artifact scfg (p1_request p) = Ok bytes → (now < n1_expiry_ts s)%Z →
  check_request scfg now root signer (p1_request p) = Ok bytes.
Proof.
  intros Hs Ha Hb Hph Hv Hnow.
  apply build_request_v1_inv in Hb as (_ & x & anon & ep & sroot & proof & _ & _ & _ & _ & _ & Hbind & Hr & _).
  unfold check_request. rewrite Hr in *. cbn [ar_public_inputs ar_payload ar_payload_hash public_inputs_v1
    rp_statement_type rp_protocol_version rp_chain_id rp_contract_address rp_active_root
    rp_expiry_ts rp_solvency_bound rp_state_sig_epoch rp_state_sig_root].
  rewrite (hash_any (E2 := ServerError) _ _ _ Hph : canonical_payload_hash _ = _). ok_step.
  destruct Ha as [A1 A2 A3 A4 A5 A6 A7 A8]. rewrite A1, A2, A3, !Z.eqb_refl.
  rewrite !bool_decide_false by (intros E; by apply E). ok_step. ok_step. ok_step. ok_step. ok_step.
  rewrite (proj2 (Z.leb_gt _ _) Hnow). ok_step.
  change (solvency_of ccfg s) with (max_charge ccfg). rewrite A4, Z.ltb_irrefl. ok_step.
  ok_step. unfold validate_state_sig_root, state_sig_binding in *.
  destruct (n1_is_genesis s) eqn:Hg.
  - injection Hbind as <- <-. cbn. exact Hv.
  - destruct (s1_signed _ s Hs Hg) as (e & r & sig & E1 & E2 & _ & H1 & H2 & _ & _ & H3 & _).
    rewrite E1, E2 in Hbind. injection Hbind as <- <-. rewrite (proj2 (Z.eqb_neq _ _) H1).
    case_bool_decide as E; [exact Hv|]. destruct (A8 _ _ H3) as [->|H4]; [done|].
    rewrite bool_decide_true by done. exact Hv.
Qed.

(** Looking a row up by the request's id. *)
Lemma lookup_id_row {E} id k rows row rec :
  keys_unique rows → row_at k rows = Some row → row_client_request_id row = Some id →
  (∀ row', row' ∈ rows → row_client_request_id row' = Some id → row_nullifier row' = k) →
  (∀ E, @row_to_record E row = Ok rec) →
  @lookup_by_client_id E id (Build_Sql rows []) = (Ok (Some rec), Build_Sql rows []).
Proof.
  intros Hu Hr Hid Hothers Hrec. unfold lookup_by_client_id, query_row, query. rewrite statement_quiet.
  assert (∀ r, r ∈ filter (λ r, bool_decide (row_client_request_id r = Some id) = true) rows → r = row)
    as Hall.
  { intros r [H1%bool_decide_eq_true H2]%list_elem_of_filter.
    assert (r ∈ select k rows) as Hin by by apply select_elem; eauto.
    rewrite (select_unique _ _ _ Hu Hr) in Hin. by apply list_elem_of_singleton in Hin. }
  assert (row ∈ filter (λ r, bool_decide (row_client_request_id r = Some id) = true) rows) as Hin.
  { apply list_elem_of_filter. split; [by apply bool_decide_eq_true|].
    assert (row ∈ select k rows) as [_ ?]%select_elem; [|done].
    rewrite (select_unique _ _ _ Hu Hr). left. }
  destruct (filter _ rows) as [|r l]; [by apply not_elem_of_nil in Hin|].
  rewrite (Hall r) by left. by rewrite Hrec.
Qed.

Lemma recover_id_stored now_ms (r : ApiRequest) resp w :
  keys_unique (sql_data (pw_store w)) → sql_io (pw_store w) = [] →
  stored_as r resp (sql_data (pw_store w)) →
  (∀ row, row ∈ sql_data (pw_store w) → row_client_request_id row = Some (ar_client_request_id r) →
     row_nullifier row = to_hex (rp_request_nullifier (ar_public_inputs r))) →
  handle_recovery_by_id now_ms (ar_client_request_id r) w =
    (Ok {| rc_status := "ok"; rc_nullifier_status := "finalized";
           rc_request_response := Some resp |}, w).
Proof.
  intros Hu Hio (row & rec & Hrow & _ & Hrec & Hs & Hsame & Hresp) Hothers.
  apply same_request_spec in Hsame as [Hid _].
  assert (row_client_request_id row = Some (ar_client_request_id r)) as Hid'.
  { rewrite <- Hid. symmetry. exact (row_to_record_id _ _ (Hrec string)). }
  unfold handle_recovery_by_id, respond, recover_by_client_id.
  assert (@lookup_by_client_id ServerError (ar_client_request_id r) (pw_store w)
    = (Ok (Some rec), pw_store w)) as Hl.
  { destruct (pw_store w) as [rows io]. cbn in *. subst io. by eapply lookup_id_row. }
  rewrite (M_bind_Ok _ _ _ _ _ (on_store_quiet _ w (Some rec) Hl)).
  unfold build_recovery_response. rewrite Hs, bool_decide_true by done.
  assert (default "" (tr_client_request_id rec) = ar_client_request_id r) as -> by by rewrite Hid.
  by rewrite Hresp.
Qed.

(** ** The wallet's side *)

(** The files after a completed round. *)
Definition installed (n : NoteStateV1) (d : DiskOf NoteStateV1) : WorldOf NoteStateV1 :=
  running {| d_state := Some n; d_journal := None; d_archive := d_archive d |} n.

Lemma install_quiet s resp anon x rho n d j :
  d_journal d = Some j → verify_request_response ccfg (Some s) resp anon = Ok tt →
  next_state_v1 s resp x rho = Ok n →
  install_response ccfg s resp anon x rho (running d s) = (Ok tt, installed n d).
Proof.
  intros Hj Hv Hn. unfold install_response. rewrite get_bind. cbn [running w_mem].
  rewrite lift_bind, Hv, lift_bind, Hn.
  unfold save_file, atomic_write, syscall, set_mem, Journal_clear, get, mbind, M_mbind. cbn.
  rewrite Hj. reflexivity.
Qed.

(** Up to the post: the journal is written and the request is on its way. *)
Lemma flow_posts s env payload ph root sibs post p d :
  d_journal d = None → @canonical_payload_hash _ ClientError (str_bytes payload) = Ok ph →
  build_request_v1 ccfg cairo_dir s env payload ph root sibs = Ok p →
  request_flow_v1 ccfg cairo_dir env post payload ph root sibs (running d s)
  = answered ccfg s p (post (p1_request p)) (running (put_journal (Some (p1_journal p)) d) s).
Proof.
  intros Hj Hph Hb. unfold request_flow_v1.
  assert (Journal_read (running d s) = (Ok None, running d s)) as E
    by (unfold Journal_read, get, mbind, M_mbind; cbn; by rewrite Hj).
  rewrite (M_bind_Ok _ _ _ _ _ E). cbn. rewrite lift_bind. cbn. rewrite lift_bind, Hph.
  rewrite lift_bind, bool_decide_true by done. cbn. rewrite get_bind, lift_bind. cbn.
  rewrite lift_bind, Hb.
  by rewrite (M_bind_Ok _ _ _ tt (running (put_journal (Some (p1_journal p)) d) s)) by done.
Qed.

Lemma flow_quiet s env payload ph root sibs post p resp n d :
  d_journal d = None → @canonical_payload_hash _ ClientError (str_bytes payload) = Ok ph →
  build_request_v1 ccfg cairo_dir s env payload ph root sibs = Ok p →
  post (p1_request p) = PostSuccess (Ok resp) →
  verify_request_response ccfg (Some s) resp (p1_anon p) = Ok tt →
  next_state_v1 s resp (p1_blinding p) (p1_rerandomization p) = Ok n →
  request_flow_v1 ccfg cairo_dir env post payload ph root sibs (running d s)
  = (Ok resp, installed n d).
Proof.
  intros Hj Hph Hb Hpost Hv Hn. rewrite (flow_posts _ _ _ _ _ _ _ p d Hj Hph Hb), Hpost.
  unfold answered. cbn [map_err]. rewrite lift_bind.
  by rewrite (M_bind_Ok _ _ _ _ _ (install_quiet s resp _ _ _ n
    (put_journal (Some (p1_journal p)) d) _ eq_refl Hv Hn)).
Qed.

(** A refusal other than [stale_root] leaves the journal. *)
Lemma flow_refused s env payload ph root sibs post p status text body d :
  d_journal d = None → @canonical_payload_hash _ ClientError (str_bytes payload) = Ok ph →
  build_request_v1 ccfg cairo_dir s env payload ph root sibs = Ok p →
  post (p1_request p) = PostFailure status text (Some body) → er_error_code body ≠ "stale_root" →
  request_flow_v1 ccfg cairo_dir env post payload ph root sibs (running d s)
  = (Err (Client.ServerError (er_error_code body +:+ ": " +:+ er_error_message body)),
     running (put_journal (Some (p1_journal p)) d) s).
Proof.
  intros Hj Hph Hb Hpost Hcode. rewrite (flow_posts _ _ _ _ _ _ _ p d Hj Hph Hb), Hpost.
  unfold answered. by rewrite bool_decide_false by done.
Qed.

Lemma recover_quiet s resp x rho n d j fetch :
  d_journal d = Some j → journal_readable j →
  fetch (pj_client_request_id j) = RecoverBody (Ok {| rc_status := "ok";
    rc_nullifier_status := "finalized"; rc_request_response := Some resp |}) →
  pj_user_rerandomization j = field_to_felt rho → parse_blinding (n1_balance_blinding s) = Ok x →
  verify_request_response ccfg (Some s) resp
    (commit (n1_current_balance s) (add_blinding x rho)) = Ok tt →
  next_state_v1 s resp x rho = Ok n →
  recover_v1 ccfg fetch (running d s) = (Ok (Some resp), installed n d).
Proof.
  intros Hj Hread Hfetch Hrho Hx Hv Hn. unfold recover_v1.
  rewrite (M_bind_Ok _ _ _ _ _ (journal_read_ok (running d s) j Hj Hread eq_refl)), Hfetch.
  cbn [map_err]. rewrite lift_bind. cbn [rc_nullifier_status rc_request_response].
  rewrite bool_decide_true by done. cbn [ok_or]. rewrite lift_bind, get_bind, lift_bind.
  cbn [ok_or running w_mem]. rewrite lift_bind, Hx, Hrho, v1_felt_to_field_to_felt.
  by rewrite (M_bind_Ok _ _ _ _ _ (install_quiet _ _ _ _ _ _ _ j Hj Hv Hn)).
Qed.

(** What the wallet prepared reads back from its journal. *)
Lemma journal_written s env payload ph root sibs p :
  canonical ph → build_request_v1 ccfg cairo_dir s env payload ph root sibs = Ok p →
  journal_readable (p1_journal p).
Proof.
  intros Hph. unfold build_request_v1. intros H. res_inv. destruct x3 as [epoch sroot]. res_inv.
  subst p. split; [done|]. unfold reload_journal. cbn [p1_journal pj_nullifier pj_payload_hash
    pj_user_rerandomization pj_prepared_request reload_option].
  rewrite (reload_felt_canonical (compute_nullifier _ _)) by apply hash_domain_canonical. ok_step.
  rewrite (reload_felt_canonical ph) by exact Hph. ok_step.
  by rewrite (reload_felt_canonical (field_to_felt _)) by apply v1_field_to_felt_canonical.
Qed.

(** ** The round *)

Abbreviation rows_of w := (sql_data (pw_store w)).
Abbreviation signer_of w := (sw_signer (pw_signer w)).
Abbreviation nullifier_v1 s := (compute_nullifier (n1_secret_s s) (n1_current_anchor s)).

(** The wallet's checks hold of a response the server executed. *)
Lemma executed_accepted seeds h s x rho env payload ph root sibs p now bytes w resp w' :
  state_ok_v1 ccfg s → agree s (signer_of w) →
  build_request_v1 ccfg cairo_dir s env payload ph root sibs = Ok p →
  executed seeds h scfg now (p1_request p) bytes w resp w' →
  is_zero (rr_next_anchor resp) = false →
  p1_blinding p = x → p1_rerandomization p = rho →
  response_checked ccfg s resp (commit (n1_current_balance s) (add_blinding x rho)).
Proof.
  intros Hs [A1 A2 A3 A4 A5 A6 A7 A8] Hb Hx Hz <- <-.
  apply build_request_v1_inv in Hb as (_ & x0 & anon & ep & sroot & proof & _ & E1 & _ & E3 & E4 & _ & Hr & _).
  destruct Hx as (pv & hash & point & leaf & sig & st & row & X1 & X2 & X3 & X4 & X5 & X6 & _ & _ & _ & _ & ->).
  destruct X6 as (_ & _ & S1 & _ & _ & S2 & _).
  rewrite Hr in X4, X5. cbn [ar_public_inputs public_inputs_v1 rp_anon_commitment_x
    rp_anon_commitment_y rp_request_nullifier] in X4, X5.
  unfold reconstruct_affine_point in X4. rewrite !v1_felt_to_field_to_felt in X4.
  apply expect_Ok in X4. destruct anon as [ax ay]. cbn [fst snd] in X4. rewrite (from_affine_to _ _ _ E4) in X4.
  injection X4 as <-. rewrite E3 in *. subst x0.
  unfold response_of in *. cbn in Hz. unfold response_checked. cbn.
  unfold build_next_state in X5. apply result_bind_Ok in X5 as ([cx cy] & Ha & X5).
  apply expect_Ok in Ha. injection X5 as <-. cbn in *. rewrite S1.
  split_and!; [by apply (hash_any (E1 := ServerError))|by rewrite A4|exact Hz|..].
  - exists cx, cy. split_and!; [exact Ha|reflexivity..].
  - exact A5.
  - exact A6.
  - exact A7.
  - reflexivity.
  - rewrite A1, A2, A3. apply S2.
Qed.

Lemma executed_response_ok seeds h now r bytes w resp w' :
  executed seeds h scfg now r bytes w resp w' →
  (∀ pv, execute (ar_client_request_id r) (ar_payload r) (ar_payload_hash r) = Ok pv → provider_ok pv) →
  response_ok_v1 resp.
Proof.
  intros (pv & hash & point & leaf & sig & st & row & X1 & _ & _ & _ & X5 & X6 & _ & _ & _ & _ & ->) Hpv.
  destruct X6 as (_ & _ & _ & _ & S & _). apply next_state_canonical in X5 as (_ & _ & Ha & _).
  destruct (Hpv _ X1) as ([Hc _] & _). unfold response_of. split; cbn; try done.
  apply v1_field_to_felt_canonical.
Qed.

(** The request's id stays with its row. *)
Lemma executed_id_unique seeds h now r bytes w w1 resp w' :
  executed seeds h scfg now r bytes w1 resp w' →
  rows_of w1 = rows_of w ++ [reserved_row (rp_request_nullifier (ar_public_inputs r))
                               (ar_client_request_id r) (ar_payload_hash r) now] →
  (∀ row, row ∈ rows_of w → row_client_request_id row ≠ Some (ar_client_request_id r)) →
  ∀ row, row ∈ rows_of w' → row_client_request_id row = Some (ar_client_request_id r) →
    row_nullifier row = to_hex (rp_request_nullifier (ar_public_inputs r)).
Proof.
  intros (pv & hash & point & leaf & sig & st & row & _ & _ & _ & _ & _ & _ & _ & _ & _ & -> & _) -> Hid.
  intros r' (r0 & -> & H)%list_elem_of_fmap. rewrite update_row_key.
  assert (row_client_request_id (update_row (to_hex (rp_request_nullifier (ar_public_inputs r)))
    (transcript_of r now pv hash st sig (state_root (signer_of w1)) bytes) now r0)
    = row_client_request_id r0) as -> by (unfold update_row; by destruct (finalizable _ r0)).
  apply elem_of_app in H as [H|H%list_elem_of_singleton]; [intros E; by destruct (Hid _ H)|].
  by rewrite H.
Qed.

(** The server's half: the request is executed and its response stored. *)
Lemma request_served seeds h now now_ms (r : ApiRequest) w bytes pv hash anon st next :
  server_ok seeds h w → quiet w → can_sign seeds h w next → fits 64 now → fits 32 (epoch (signer_of w)) →
  check_request scfg now (pw_root w) (signer_of w) r = Ok bytes → executable scfg r pv hash anon →
  canonical (rp_request_nullifier (ar_public_inputs r)) → provider_ok pv →
  build_next_state scfg (rp_request_nullifier (ar_public_inputs r)) anon (pv_charge_applied pv) next = Ok st →
  row_at (to_hex (rp_request_nullifier (ar_public_inputs r))) (rows_of w) = None →
  (∀ row, row ∈ rows_of w → row_client_request_id row ≠ Some (ar_client_request_id r)) →
  ∃ sig w1 w', let resp := response_of r pv hash st sig (state_root (signer_of w)) in
    handle_request scfg now now_ms r w = (Ok resp, w') ∧ pw_signer w1 = pw_signer w ∧
    executed seeds h scfg now r bytes w1 resp w' ∧ response_ok_v1 resp ∧
    ∀ w2, pw_store w2 = Build_Sql (rows_of w') [] →
      handle_recovery_by_id now_ms (ar_client_request_id r) w2 =
        (Ok {| rc_status := "ok"; rc_nullifier_status := "finalized";
               rc_request_response := Some resp |}, w2).
Proof.
  intros Hw Hq Hcan Hnow He Hc Hex Hn Hok Hst Habs Hid.
  assert (∀ pv', execute (ar_client_request_id r) (ar_payload r) (ar_payload_hash r) = Ok pv' →
    provider_ok pv') as Hprov by (destruct Hex as [-> _]; by intros ? [= <-]).
  destruct (process_request_new seeds h scfg now r w bytes pv hash anon next st
    Hw Hq Hcan Hc Hex Hst Habs) as (sig & w' & row & Hrun & _).
  set (resp := response_of r pv hash st sig (state_root (signer_of w))) in *.
  destruct (process_request_inv seeds h scfg now r w resp w' Hw Hrun) as
    (bytes' & Hc' & Hw' & _ & _ & [(row' & rec & Hrow & _)|(w1 & Hx1 & Hw1 & Hsig & Hres & Hrows)]);
    [done|done|congruence|].
  rewrite Hc in Hc'. injection Hc' as <-.
  destruct Hrows as [Hrows|[_ Hrows]].
  { destruct Hres as (row' & rec & Hrow & _). by rewrite Hrows, Habs in Hrow. }
  exists sig, w1, w'. split; [unfold handle_request, respond; by rewrite Hrun|].
  split; [done|]. split; [exact Hx1|]. split; [by eapply executed_response_ok|].
  intros w2 Hw2. apply recover_id_stored; rewrite ?Hw2; [apply Hw'|done| |].
  - rewrite <- Hsig in He. by eapply (executed_stored seeds h scfg now r).
  - by eapply executed_id_unique.
Qed.

(** C22. One version-1 request end to end: from a valid state of a note that has
    not expired, with the server's current root, for an unspent nullifier and a
    fresh request id, on a working server configured for the same deployment,
    whose verifier accepts the proof and whose provider charges within the cap
    and less than [2^63] (a larger charge reads back from the store as another
    number), unless the next commitment is infinite or the next anchor zero, the
    request is answered; the wallet accepts the answer and holds a valid state
    with the balance less the charge; and a wallet that died after writing its
    journal recovers exactly the same files later. *)
Theorem round_v1 seeds h now now_ms s d w env payload ph sibs p bytes pv hash st next :
  server_ok seeds h w → quiet w → can_sign seeds h w next → fits 64 now → fits 32 (epoch (signer_of w)) →
  state_ok_v1 ccfg s → d_journal d = None → agree s (signer_of w) → (now < n1_expiry_ts s)%Z →
  @canonical_payload_hash _ ClientError (str_bytes payload) = Ok ph →
  build_request_v1 ccfg cairo_dir s env payload ph (pw_root w) sibs = Ok p →
  verify_request_proof_artifact scfg (p1_request p) = Ok bytes →
  execute (e1_uuid env) payload ph = Ok pv → provider_ok pv →
  @canonical_response_hash _ ServerError (str_bytes (pv_payload pv)) = Ok hash →
  (pv_charge_applied pv ≤ required_charge_cap scfg)%Z →
  build_next_state scfg (nullifier_v1 s) (p1_anon p) (pv_charge_applied pv) next = Ok st →
  is_zero (nx_anchor st) = false →
  row_at (to_hex (nullifier_v1 s)) (rows_of w) = None →
  (∀ row, row ∈ rows_of w → row_client_request_id row ≠ Some (e1_uuid env)) →
  ∃ resp w' n, handle_request scfg now now_ms (p1_request p) w = (Ok resp, w') ∧
    state_ok_v1 ccfg n ∧ next_of_v1 ccfg s resp n ∧ rr_charge_applied resp = pv_charge_applied pv ∧
    request_flow_v1 ccfg cairo_dir env (λ r, http_post (handle_request scfg now now_ms r w).1)
      payload ph (pw_root w) sibs (running d s) = (Ok resp, installed n d) ∧
    ∀ w2, pw_store w2 = Build_Sql (rows_of w') [] →
      recover_v1 ccfg (λ id, http_get (handle_recovery_by_id now_ms id w2).1)
        (running (put_journal (Some (p1_journal p)) d) s) = (Ok (Some resp), installed n d).
Proof.
  intros Hw Hq Hcan Hnow He Hs Hj Ha Hexp Hph Hb Hv Hpv Hpvok Hhash Hcap Hst Hz Habs Hid.
  pose proof (build_request_v1_inv _ _ _ _ _ _ _ _ _ Hb) as (Hsolv & x & anon & ep & sroot & proof &
    Hx & B1 & B2 & B3 & B4 & _ & Br & Bj & _ & Brho).
  pose proof (prepared_checked _ _ _ _ _ _ _ _ _ _ Hs Ha Hb Hph Hv Hexp) as Hc.
  assert (executable scfg (p1_request p) pv hash (p1_anon p)) as Hex.
  { unfold executable, reconstruct_affine_point. rewrite Br. destruct anon as [ax ay]. cbn.
    rewrite !v1_felt_to_field_to_felt, (from_affine_to _ _ _ B4).
    split_and!; [exact Hpv|exact Hhash|exact Hcap|reflexivity]. }
  assert (rp_request_nullifier (ar_public_inputs (p1_request p)) = nullifier_v1 s) as En by by rewrite Br.
  assert (ar_client_request_id (p1_request p) = e1_uuid env) as Eid by by rewrite Br.
  assert (canonical (rp_request_nullifier (ar_public_inputs (p1_request p)))) as Hcn
    by (rewrite En; apply hash_domain_canonical).
  rewrite <- En in Hst, Habs. rewrite <- Eid in Hid.
  destruct (request_served seeds h now now_ms (p1_request p) w bytes pv hash (p1_anon p) st next
    Hw Hq Hcan Hnow He Hc Hex Hcn Hpvok Hst Habs Hid)
    as (sig & w1 & w' & Hhandle & Hsig & Hx1 & Hrok & Hrec).
  set (resp := response_of _ _ _ _ _ _) in *. rewrite <- Hsig in Ha.
  pose proof (executed_accepted _ _ _ _ _ _ _ _ _ _ _ _ _ _ _ _ Hs Ha Hb Hx1 Hz B1 eq_refl) as Hck.
  destruct (next_state_v1_total s resp x (p1_rerandomization p)) as [n Hn].
  { change (rr_charge_applied resp) with (pv_charge_applied pv).
    rewrite <- (ag_cap _ _ Ha) in Hcap. change (solvency_of ccfg s) with (max_charge ccfg) in Hsolv. lia. }
  destruct (next_state_v1_sound _ _ _ _ _ _ Hs Hrok Hx Hck Hn) as [Hnok Hnext].
  apply verify_response_iff in Hck.
  exists resp, w', n. split_and!; [exact Hhandle|exact Hnok|exact Hnext|done|..].
  - eapply flow_quiet; [done|exact Hph|exact Hb|cbn; by rewrite Hhandle|by rewrite B3|by rewrite B1].
  - intros w2 Hw2. change (installed n d) with (installed n (put_journal (Some (p1_journal p)) d)).
    apply (recover_quiet s resp x (p1_rerandomization p) n _ (p1_journal p));
      [reflexivity| | |exact Brho|exact Hx|exact Hck|exact Hn].
    + eapply journal_written; [|exact Hb]. by eapply hash_bytes_to_felt_canonical.
    + by rewrite Bj, <- Eid, (Hrec w2 Hw2).
Qed.

(** ** When the root moves *)

Lemma prepared_stale s env payload ph root sibs p signer now r0 :
  n1_protocol_version s = sc_protocol_version scfg → n1_chain_id s = sc_chain_id scfg →
  n1_contract_address s = sc_contract_address scfg →
  build_request_v1 ccfg cairo_dir s env payload ph root sibs = Ok p →
  @canonical_payload_hash _ ClientError (str_bytes payload) = Ok ph → root ≠ r0 →
  check_request scfg now r0 signer (p1_request p) = Err (StaleRoot (to_hex r0)).
Proof.
  intros A1 A2 A3 Hb Hph Hr0.
  apply build_request_v1_inv in Hb as (_ & x & anon & ep & sroot & proof & _ & _ & _ & _ & _ & _ & Hr & _).
  unfold check_request. rewrite Hr. cbn [ar_public_inputs ar_payload ar_payload_hash public_inputs_v1
    rp_protocol_version rp_chain_id rp_contract_address rp_active_root].
  rewrite (hash_any (E2 := ServerError) _ _ _ Hph : canonical_payload_hash _ = _). ok_step.
  rewrite A1, A2, A3, !Z.eqb_refl, (bool_decide_false (ph ≠ ph)),
    (bool_decide_false (sc_contract_address scfg ≠ _)) by (intros E; by apply E).
  ok_step. ok_step. ok_step. ok_step. by rewrite bool_decide_true by done.
Qed.

Lemma lookup_id_absent {E} id rows :
  (∀ row, row ∈ rows → row_client_request_id row ≠ Some id) →
  @lookup_by_client_id E id (Build_Sql rows []) = (Ok None, Build_Sql rows []).
Proof.
  intros Hno. unfold lookup_by_client_id, query_row, query. rewrite statement_quiet.
  destruct (filter _ rows) as [|r l] eqn:Ef; [done|].
  assert (r ∈ filter (λ r, bool_decide (row_client_request_id r = Some id) = true) rows) as Hin
    by (rewrite Ef; left).
  apply list_elem_of_filter in Hin as [H%bool_decide_eq_true Hin]. by destruct (Hno r Hin).
Qed.

(** C23. A version-1 wallet whose root has moved: the server refuses the prepared
    request with the code STALE_ROOT and changes nothing, but the wallet compares
    with stale_root, so the journal stays; every later request is then refused as
    pending, and recovery, which finds no such request, fails too. *)
Theorem stale_root_blocks_v1 now now_ms s d w env payload ph root sibs p :
  n1_protocol_version s = sc_protocol_version scfg → n1_chain_id s = sc_chain_id scfg →
  n1_contract_address s = sc_contract_address scfg → d_journal d = None →
  @canonical_payload_hash _ ClientError (str_bytes payload) = Ok ph →
  build_request_v1 ccfg cairo_dir s env payload ph root sibs = Ok p → root ≠ pw_root w →
  sql_io (pw_store w) = [] →
  (∀ row, row ∈ rows_of w → row_client_request_id row ≠ Some (e1_uuid env)) →
  let after := running (put_journal (Some (p1_journal p)) d) s in
  ∃ message body, handle_request scfg now now_ms (p1_request p) w = (Err (409%Z, body), w) ∧
    er_error_code body = "STALE_ROOT" ∧ er_latest_root body = Some (pw_root w) ∧
    request_flow_v1 ccfg cairo_dir env (λ r, http_post (handle_request scfg now now_ms r w).1)
      payload ph root sibs (running d s) = (Err (Client.ServerError message), after) ∧
    (∀ env' post payload' ph' root' sibs',
      request_flow_v1 ccfg cairo_dir env' post payload' ph' root' sibs' after
      = (Err PendingRequest, after)) ∧
    recover_v1 ccfg (λ id, http_get (handle_recovery_by_id now_ms id w).1) after
      = (Err (InvalidResponse "unexpected nullifier_status: unknown"), after).
Proof.
  intros A1 A2 A3 Hj Hph Hb Hroot Hio Hid after.
  pose proof (prepared_stale _ _ _ _ _ _ _ (signer_of w) now (pw_root w) A1 A2 A3 Hb Hph Hroot) as Hc.
  assert (journal_readable (p1_journal p)) as Hread
    by (eapply journal_written; [by eapply hash_bytes_to_felt_canonical|exact Hb]).
  assert (@Journal_read NoteStateV1 after = (Ok (Some (p1_journal p)), after)) as Hjr
    by exact (journal_read_ok after _ eq_refl Hread eq_refl).
  assert (∃ body, handle_request scfg now now_ms (p1_request p) w = (Err (409%Z, body), w) ∧
    er_error_code body = "STALE_ROOT" ∧ er_latest_root body = Some (pw_root w)) as (body & Hh & Hcode & Hl).
  { unfold handle_request, respond, process_request. rewrite get_bind, lift_bind, Hc. eexists. split; [reflexivity|]. by split. }
  eexists _, body. split; [exact Hh|]. split; [exact Hcode|]. split; [exact Hl|]. split; [|split].
  - eapply flow_refused; [exact Hj|exact Hph|exact Hb|by cbn; rewrite Hh|]. by rewrite Hcode.
  - intros. unfold request_flow_v1. by rewrite (M_bind_Ok _ _ _ _ _ Hjr).
  - unfold recover_v1. rewrite (M_bind_Ok _ _ _ _ _ Hjr).
    apply build_request_v1_inv in Hb as (_ & ? & ? & ? & ? & ? & _ & _ & _ & _ & _ & _ & _ & Bj & _).
    assert (@lookup_by_client_id ServerError (e1_uuid env) (pw_store w) = (Ok None, pw_store w)) as Hlk.
    { destruct (pw_store w) as [rows io]. cbn in *. subst io. by apply lookup_id_absent. }
    rewrite Bj. unfold handle_recovery_by_id, respond, recover_by_client_id.
    by rewrite (M_bind_Ok _ _ _ _ _ (on_store_quiet _ w None Hlk)).
Qed.
End round.

(** ** Witness: the toy wallet and the toy server *)
#[local] Existing Instance Toy.
#[local] Existing Instance ToyStark.
#[local] Existing Instance toy_generators.
#[local] Existing Instance toy_keccak.
#[local] Existing Instance toy_tools.
#[local] Existing Instance toy_builders.
#[local] Existing Instance toy_libs.
#[local] Existing Instance toy_echo.

Definition toy_text : HttpText := {|
  status_text := λ s, pretty s; body_text := er_error_message;
  not_a_recovery := λ _, "missing field"; closed := "connection closed" |}.
#[local] Existing Instance toy_text.

Abbreviation toy_signer := (sw_signer (pw_signer toy_world)).

Definition toy_roots : list EpochRoots :=
  [{| er_epoch := 1; er_state_root := state_root toy_signer; er_clear_root := ZERO |}].

Definition toy_env : RequestEnvV1 :=
  {| e1_draw := be_bytes 32 99; e1_uuid := "req-1"; e1_now_ms := 50000 |}.

Definition toy_payload_hash : Felt252 := toy_hash (canonical_payload_hash (str_bytes "hello")).

(** The registry plays no part in preparing a request. *)
Abbreviation toy_prepared roots root :=
  (build_request_v1 (toy_client roots) "cairo" toy_note toy_env "hello" toy_payload_hash root
    (replicate MERKLE_DEPTH ZERO)).

Lemma toy_prepared_roots roots s env payload ph root sibs :
  build_request_v1 (toy_client roots) "cairo" s env payload ph root sibs
  = build_request_v1 (toy_client []) "cairo" s env payload ph root sibs.
Proof. reflexivity. Qed.

Lemma toy_prepared_checked : ∃ p st, toy_prepared [] ZERO = Ok p ∧
  verify_request_proof_artifact ServerConfig_default (p1_request p) = Ok (str_bytes "proof") ∧
  build_next_state ServerConfig_default (compute_nullifier (n1_secret_s toy_note) (n1_current_anchor toy_note))
    (p1_anon p) 1 0 = Ok st ∧ is_zero (nx_anchor st) = false.
Proof.
  assert ((p ← toy_prepared [] ZERO;
    b ← map_err (λ _, PendingRequest) (verify_request_proof_artifact ServerConfig_default (p1_request p));
    st ← map_err (λ _, PendingRequest) (build_next_state ServerConfig_default
      (compute_nullifier (n1_secret_s toy_note) (n1_current_anchor toy_note)) (p1_anon p) 1 0);
    Ok (bool_decide (b = str_bytes "proof"), is_zero (nx_anchor st))) = Ok (true, false)) as H
    by (vm_compute; reflexivity).
  res_inv. bool_facts. subst. do 2 eexists. split; [done|]. split_and!; by eauto using map_err_Ok.
Qed.

Lemma toy_root_nonzero seeds sg : signer_ok seeds 1 sg → is_zero (state_root sg) = false.
Proof.
  intros Hsg. destruct (go_keys _ _ _ Hsg State) as [_ _ _ [T1 T2] _ Hr _].
  destruct (T1 0%nat 0%Z ltac:(lia) ltac:(done)) as [a Ha].
  destruct (T1 0%nat 1%Z ltac:(lia) ltac:(done)) as [b Hb].
  rewrite (T2 0%nat 0%Z a b ltac:(lia) ltac:(done) Ha Hb) in Hr. injection Hr as Hr.
  apply not_true_iff_false. intros E%is_zero_ZERO. unfold state_root, root_felt in E.
  apply (f_equal felt_val) in E. rewrite v1_felt_val_field_to_felt in E.
  rewrite <- Hr in E. exact (toy_stark_hash_nonzero _ E).
Qed.

Lemma toy_note_fields : n1_protocol_version toy_note = 1%Z ∧ n1_chain_id toy_note = 1%Z ∧
  n1_contract_address toy_note = ZERO ∧ n1_current_balance toy_note = 5000000%Z ∧
  n1_expiry_ts toy_note = 100%Z.
Proof. unfold toy_note. by destruct (point_to_affine _) as [[cx cy]|]. Qed.

Lemma toy_agree : agree (toy_client toy_roots) ServerConfig_default toy_note toy_signer.
Proof.
  destruct toy_world_ok as ([_ Hsg] & _ & _ & He & _).
  assert (∀ e root, lookup_state_root toy_roots e = Some root → root = state_root toy_signer) as Hroots.
  { intros e root ([i x] & E & ->)%fmap_Some.
    apply list_find_Some in E as (E%list_elem_of_lookup_2%list_elem_of_singleton & _). by subst x. }
  destruct toy_note_fields as (N1 & N2 & N3 & _).
  split; [exact N1|exact N2|exact N3|reflexivity| |exact (toy_root_nonzero _ _ Hsg)| |intros e root H; left; exact (Hroots e root H)];
    by rewrite He.
Qed.

Lemma row_at_nil k : row_at k [] = None.
Proof. reflexivity. Qed.

Lemma toy_hello_hash :
  @canonical_payload_hash _ ClientError (str_bytes "hello") = Ok toy_payload_hash.
Proof. vm_compute. reflexivity. Qed.

Lemma toy_hello_response :
  @canonical_response_hash _ ServerError (str_bytes (pv_payload toy_pv)) = Ok toy_response_hash.
Proof. vm_compute. reflexivity. Qed.

Lemma round_v1_witness : ∃ p resp w' n,
  toy_prepared toy_roots ZERO = Ok p ∧
  handle_request ServerConfig_default 50 50000 (p1_request p) toy_world = (Ok resp, w') ∧
  n1_current_balance n = 4999999%Z ∧
  request_flow_v1 (toy_client toy_roots) "cairo" toy_env
    (λ r, http_post (handle_request ServerConfig_default 50 50000 r toy_world).1) "hello"
    toy_payload_hash ZERO (replicate MERKLE_DEPTH ZERO) (running toy_empty toy_note)
  = (Ok resp, installed n toy_empty).
Proof.
  destruct toy_prepared_checked as (p & st & Hb & Hv & Hst & Hz), toy_world_ok as (H1 & H2 & H3 & H4 & H5).
  destruct toy_note_fields as (_ & _ & _ & Hbal & Hexp).
  assert (50 < n1_expiry_ts toy_note)%Z as Hexp' by by rewrite Hexp.
  assert (pv_charge_applied toy_pv ≤ required_charge_cap ServerConfig_default)%Z as Hcap by done.
  assert (row_at (to_hex (compute_nullifier (n1_secret_s toy_note) (n1_current_anchor toy_note)))
    (sql_data (pw_store toy_world)) = None) as Habs by (rewrite H5; exact (row_at_nil _)).
  assert (∀ row, row ∈ sql_data (pw_store toy_world) →
    row_client_request_id row ≠ Some (e1_uuid toy_env)) as Hid
    by (rewrite H5; intros row []%not_elem_of_nil).
  pose proof toy_world_root as Hroot.
  rewrite <- (toy_prepared_roots toy_roots), <- Hroot in Hb.
  destruct (round_v1 (toy_client toy_roots) "cairo" ServerConfig_default
    (seeds_of toy_seed toy_clear_seed) 1 50 50000 toy_note toy_empty toy_world toy_env "hello"
    toy_payload_hash (replicate MERKLE_DEPTH ZERO) p (str_bytes "proof") toy_pv toy_response_hash st 0
    H1 H2 H3 ltac:(by split) toy_epoch_fits (toy_note_ok _) eq_refl toy_agree Hexp' toy_hello_hash Hb Hv eq_refl
    (toy_provider_ok "req-1" "hello" toy_payload_hash toy_pv eq_refl) toy_hello_response Hcap Hst Hz Habs Hid)
    as (resp & w' & n & Hrun & _ & Hn & Hc & Hflow & _).
  exists p, resp, w', n. rewrite <- Hroot. split; [exact Hb|]. split; [exact Hrun|]. split; [|exact Hflow].
  by rewrite (n1n_balance _ _ _ _ Hn), Hc, Hbal.
Defined.

(** The same wallet one root later: the server is at the root [ONE]. *)
Definition toy_moved : ServerWorld :=
  {| pw_store := Build_Sql [] []; pw_signer := pw_signer toy_world; pw_root := ONE |}.

Lemma stale_root_blocks_v1_witness : ∃ p message,
  toy_prepared [] ZERO = Ok p ∧
  request_flow_v1 (toy_client []) "cairo" toy_env
    (λ r, http_post (handle_request ServerConfig_default 50 50000 r toy_moved).1) "hello"
    toy_payload_hash ZERO (replicate MERKLE_DEPTH ZERO) (running toy_empty toy_note)
  = (Err (Client.ServerError message), running (put_journal (Some (p1_journal p)) toy_empty) toy_note).
Proof.
  destruct toy_prepared_checked as (p & _ & Hb & _), toy_note_fields as (N1 & N2 & N3 & _).
  assert (ZERO ≠ ONE) as Hroot by (intros E%(f_equal is_zero); by vm_compute in E).
  assert (∀ row, row ∈ sql_data (pw_store toy_moved) →
    row_client_request_id row ≠ Some (e1_uuid toy_env)) as Hid by by intros row []%not_elem_of_nil.
  destruct (stale_root_blocks_v1 (toy_client []) "cairo" ServerConfig_default 50 50000 toy_note toy_empty
    toy_moved toy_env "hello" toy_payload_hash ZERO (replicate MERKLE_DEPTH ZERO) p N1 N2 N3 eq_refl
    toy_hello_hash Hb Hroot eq_refl Hid) as (message & body & _ & _ & _ & Hflow & _).
  exists p, message. split; [exact Hb|exact Hflow].
Defined.
