(* ===== verification/Interleave.v ===== *)
(** * Programs that interleave

    A handler as a tree of atomic actions on a shared state, for code that runs
    on several threads with a lock held only inside each action.  [run] is the
    handler running alone; [prog_step] lets a scheduler choose who acts next.
    [wp] is a rely-guarantee logic: a thread owns a piece of ghost state [G],
    every action it takes must be a transition [T] the others accept, and what
    it knows must survive the steps [R] the others take. *)
From S2P Require Import Prelude.

Section prog.
Context {S E : Type}.

Inductive prog (A : Type) : Type :=
| Done (r : result E A)
| Act {B : Type} (m : M S E B) (k : result E B → prog A).
Arguments Done {A} r.
Arguments Act {A B} m k.

Fixpoint prog_bind {A B} (f : A → prog B) (p : prog A) : prog B :=
  match p with
  | Done (Ok a) => f a
  | Done (Err e) => Done (Err e)
  | Done Panic => Done Panic
  | Act m k => Act m (λ r, prog_bind f (k r))
  end.

#[export] Instance prog_mret : MRet prog := λ A a, Done (Ok a).
#[export] Instance prog_mbind : MBind prog := λ A B f p, prog_bind f p.

(** One atomic action. *)
Definition act {A} (m : M S E A) : prog A := Act m Done.

(** The handler without other threads. *)
Fixpoint run {A} (p : prog A) : M S E A := λ s,
  match p with
  | Done r => (r, s)
  | Act m k => let '(r, s') := m s in run (k r) s'
  end.

Definition prog_step {A} (p : prog A) (s : S) : option (prog A * S) :=
  match p with
  | Done _ => None
  | Act m k => let '(r, s') := m s in Some (k r, s')
  end.

Lemma run_bind {A B} (p : prog A) (f : A → prog B) s :
  run (p ≫= f) s = (run p ≫= λ a, run (f a)) s.
Proof.
  unfold mbind, prog_mbind, M_mbind. revert s. induction p as [[a|e|]|C m k IH]; intros s; cbn; try done.
  destruct (m s) as [r s']. apply IH.
Qed.

Lemma run_act_bind {A B} (m : M S E A) (f : A → prog B) s :
  run (act m ≫= f) s = (m ≫= λ a, run (f a)) s.
Proof. rewrite run_bind. unfold mbind, M_mbind. cbn. by destruct (m s) as [[] s']. Qed.

Lemma run_pure_bind {A B} (r : result E A) (f : A → prog B) s :
  run (Done r ≫= f) s = (lift r ≫= λ a, run (f a)) s.
Proof. by destruct r. Qed.

Lemma M_bind_ext {A B} (m : M S E A) (f g : A → M S E B) s :
  (∀ a s', f a s' = g a s') → (m ≫= f) s = (m ≫= g) s.
Proof. intros H. unfold mbind, M_mbind. by destruct (m s) as [[] s']. Qed.

Section wp.
Context {G : Type} (I : S → Prop) (R : relation S) (T : G → S → G → S → Prop).

Fixpoint wp {A} (Q : G → result E A → S → Prop) (p : prog A) (g : G) (s : S) : Prop :=
  I s →
  match p with
  | Done r => Q g r s
  | Act m k => let '(r, s') := m s in
      ∃ g', T g s g' s' ∧ ∀ s'', R s' s'' → wp Q (k r) g' s''
  end.

Lemma wp_intro {A} (Q : G → result E A → S → Prop) p g s : (I s → wp Q p g s) → wp Q p g s.
Proof. destruct p; cbn; intros H Hs; by apply H. Qed.

Lemma wp_bind {A B} (Q : G → result E B → S → Prop) (p : prog A) (f : A → prog B) g s :
  wp (λ g r s, match r with
               | Ok a => wp Q (f a) g s
               | Err e => Q g (Err e) s
               | Panic => Q g Panic s
               end) p g s →
  wp Q (p ≫= f) g s.
Proof.
  unfold mbind, prog_mbind. revert g s. induction p as [[a|e|]|C m k IH]; intros g s H; cbn in *.
  - apply wp_intro. exact H.
  - exact H.
  - exact H.
  - intros Hs. specialize (H Hs). destruct (m s) as [r s'], H as (g' & HT & H). eauto.
Qed.

(** An action: its transition, and what follows from every result. *)
Lemma wp_act {A B} (Q : G → result E B → S → Prop) (m : M S E A) (f : A → prog B) g s :
  (I s → ∀ r s', m s = (r, s') → ∃ g', T g s g' s' ∧ ∀ s'', R s' s'' → I s'' →
    match r with
    | Ok a => wp Q (f a) g' s''
    | Err e => Q g' (Err e) s''
    | Panic => Q g' Panic s''
    end) →
  wp Q (act m ≫= f) g s.
Proof.
  intros H. apply wp_bind. cbn. intros Hs. destruct (m s) as [r s'] eqn:Em.
  destruct (H Hs r s' eq_refl) as (g' & HT & Hk). exists g'. split; [exact HT|]. cbn.
  intros s'' HR HI. by apply Hk.
Qed.

Lemma wp_pure {A B} (Q : G → result E B → S → Prop) (r : result E A) (f : A → prog B) g s :
  (∀ a, r = Ok a → wp Q (f a) g s) → (∀ r, (∀ b, r ≠ Ok b) → Q g r s) → wp Q (Done r ≫= f) g s.
Proof.
  intros H HQ. destruct r; [by apply H|cbn; intros _; apply HQ; done..].
Qed.

(** One step of a thread. *)
Lemma wp_step {A} (Q : G → result E A → S → Prop) p g s p' s' :
  wp Q p g s → I s → prog_step p s = Some (p', s') →
  ∃ g', T g s g' s' ∧ ∀ s'', R s' s'' → wp Q p' g' s''.
Proof.
  destruct p as [r|B m k]; cbn; [done|]. intros H Hs. specialize (H Hs).
  destruct (m s) as [r s1]. by intros [= <- <-].
Qed.
End wp.
End prog.
Arguments prog S E A : clear implicits.
Arguments Done {S E A} r.
Arguments Act {S E A B} m k.
