(* ===== verification/Threads.v ===== *)
(** * Concurrent handlers

    The server runs its handlers on many threads and locks only inside single
    store, signer and root accesses.  Here a handler is a program of such
    accesses ([Interleave.prog]); run alone it is the handler of Processor.v.
    [pool_step] interleaves any number of them with root updates, process
    deaths and restarts, and the theorem says what may be released to clients
    over the whole life of the database. *)
From S2P Require Import Prelude Felt Types Group Ark Starknet CoreV1 Pedersen Wots Xmss.
From S2P Require Import ServerBase Store Signer Processor Server Interleave.

(** ** The handlers, one shared access at a time *)

Section handlers.
Context {SK : Stark} {KC : Keccak} {GN : Generators} {PL : ProofLibs}.
Implicit Types (cfg : ServerConfig) (r : ApiRequest) (w : ServerWorld).

Abbreviation handler := (prog ServerWorld ServerError).

Definition execute_steps {AP : ApiProvider} cfg (now : Z) r (proof_bytes : list byte)
  : handler RequestResponse :=
  let pi := ar_public_inputs r in
  let nullifier := rp_request_nullifier pi in
  pv ← Done (execute (ar_client_request_id r) (ar_payload r) (ar_payload_hash r));
  response_hash ← Done (canonical_response_hash (str_bytes (pv_payload pv)));
  let charge := pv_charge_applied pv in
  _ ← Done (guard_err (required_charge_cap cfg <? charge)%Z
        (Internal ("provider charge " +:+ pretty charge +:+ " exceeds cap " +:+
                   pretty (required_charge_cap cfg))));
  anon_point ← Done (reconstruct_affine_point (rp_anon_commitment_x pi) (rp_anon_commitment_y pi));
  '(state_sig, leaf_index, _) ← act (on_signer (sign_next_state (λ leaf_index,
     nx_message <$> build_next_state cfg nullifier anon_point charge leaf_index)));
  st ← Done (build_next_state cfg nullifier anon_point charge leaf_index);
  w ← act get;
  let root := state_root (sw_signer (pw_signer w)) in
  _ ← act (on_store (catch_err
        (λ e, Internal ("failed to finalize transcript: " +:+ ServerError_display e))
        (finalize now nullifier
           (transcript_of r now pv response_hash st state_sig root proof_bytes))));
  mret (response_of r pv response_hash st state_sig root).

Definition request_steps {AP : ApiProvider} cfg (now : Z) r : handler RequestResponse :=
  let nullifier := rp_request_nullifier (ar_public_inputs r) in
  w ← act get;
  proof_bytes ← Done (check_request cfg now (pw_root w) (sw_signer (pw_signer w)) r);
  existing ← act (on_store (lookup_by_nullifier nullifier));
  match existing with
  | Some existing =>
      if same_request r existing && bool_decide (tr_status existing = Finalized)
      then mret (build_response_from_record existing (ar_client_request_id r))
      else if same_request r existing && bool_decide (tr_status existing = Reserved)
      then execute_steps cfg now r proof_bytes
      else Done (Err Replay)
  | None =>
      _ ← act (on_store (reserve now nullifier (ar_client_request_id r) (ar_payload_hash r)));
      execute_steps cfg now r proof_bytes
  end.

Definition clearance_steps cfg (now : Z) (q : ClearanceRequest) : handler ClearanceResponse :=
  let nullifier := crq_withdrawal_nullifier q in
  existing ← act (on_store (lookup_by_nullifier nullifier));
  match existing with
  | Some _ => Done (Err NullifierUsed)
  | None =>
      let clear_msg := compute_clearance_message (sc_protocol_version cfg) (sc_chain_id cfg)
        (sc_contract_address cfg) nullifier in
      '(clear_sig, _) ← act (on_signer (sign_clearance clear_msg));
      _ ← act (on_store (reserve_clearance now nullifier));
      w ← act get;
      mret {| cr_status := "ok"; cr_withdrawal_nullifier := nullifier;
              cr_clear_sig_epoch := xmss_epoch clear_sig;
              cr_clear_sig_root := clear_root (sw_signer (pw_signer w));
              cr_clear_sig := clear_sig |}
  end.

Definition recovery_steps (nullifier : Felt252) : handler RecoveryResponse :=
  act (recover_by_nullifier nullifier).

(** ** The pool of threads *)

(** What a client is told. *)
Inductive answer : Type :=
| Answered (r : ApiRequest) (res : result ServerError RequestResponse)
| Cleared (q : ClearanceRequest) (res : result ServerError ClearanceResponse)
| Recovered (n : Felt252) (res : result ServerError RecoveryResponse).

Inductive job : Type :=
| Job {A : Type} (p : handler A) (tell : result ServerError A → answer).

Definition job_step (j : job) w : option (job * ServerWorld) :=
  match j with
  | Job p tell => match prog_step p w with Some (p', w') => Some (Job p' tell, w') | None => None end
  end.

Definition job_answer (j : job) : option answer :=
  match j with Job (Done res) tell => Some (tell res) | _ => None end.

(** [pl_up]: the process is serving; [pl_log]: the answers sent, in order. *)
Record Pool : Type := {
  pl_world : ServerWorld;
  pl_up : bool;
  pl_jobs : list job;
  pl_log : list answer;
}.

Definition spawn (j : job) (s : Pool) : Pool :=
  {| pl_world := pl_world s; pl_up := pl_up s; pl_jobs := pl_jobs s ++ [j]; pl_log := pl_log s |}.

(** The database with new outcomes ahead. *)
Definition reconnect (ios iow : list SqlEvent) w : ServerWorld :=
  {| pw_store := Build_Sql (sql_data (pw_store w)) ios;
     pw_signer := set_db (Build_Sql (sql_data (sw_db (pw_signer w))) iow) (pw_signer w);
     pw_root := pw_root w |}.

(** Requests come as the wire reader leaves them, with canonical nullifiers;
    every request may see another of the providers that [behind] describes. *)
Inductive pool_step (behind : ApiProvider → Prop) cfg (s : Pool) : Pool → Prop :=
| step_request (AP : ApiProvider) now r :
    pl_up s = true → canonical (rp_request_nullifier (ar_public_inputs r)) → fits 64 now →
    behind AP →
    pool_step behind cfg s (spawn (Job (request_steps cfg now r) (Answered r)) s)
| step_clearance now q :
    pl_up s = true → canonical (crq_withdrawal_nullifier q) → fits 64 now →
    pool_step behind cfg s (spawn (Job (clearance_steps cfg now q) (Cleared q)) s)
| step_recovery n :
    pl_up s = true → canonical n →
    pool_step behind cfg s (spawn (Job (recovery_steps n) (Recovered n)) s)
| step_act i j j' w' :
    pl_jobs s !! i = Some j → job_step j (pl_world s) = Some (j', w') →
    pool_step behind cfg s {| pl_world := w'; pl_up := pl_up s; pl_jobs := <[i := j']> (pl_jobs s);
                       pl_log := pl_log s |}
| step_answer i j a :
    pl_jobs s !! i = Some j → job_answer j = Some a →
    pool_step behind cfg s {| pl_world := pl_world s; pl_up := pl_up s; pl_jobs := delete i (pl_jobs s);
                       pl_log := pl_log s ++ [a] |}
| step_root root :
    pool_step behind cfg s {| pl_world := (update_root root (pl_world s)).2; pl_up := pl_up s;
                       pl_jobs := pl_jobs s; pl_log := pl_log s |}
| step_death :
    pool_step behind cfg s {| pl_world := pl_world s; pl_up := false; pl_jobs := []; pl_log := pl_log s |}
| step_boot ios iow res w' :
    pl_up s = false → run_server cfg (reconnect ios iow (pl_world s)) = (res, w') →
    pool_step behind cfg s {| pl_world := w'; pl_up := is_ok res; pl_jobs := []; pl_log := pl_log s |}.

(** Before the first start. *)
Definition fresh_pool (s : Pool) : Prop :=
  sql_data (pw_store (pl_world s)) = [] ∧ pl_up s = false ∧ pl_jobs s = [] ∧ pl_log s = [].
End handlers.

Section lemmas.
Context {SK : Stark} {KC : Keccak} {GN : Generators} {PL : ProofLibs}.
Implicit Types (cfg : ServerConfig) (r : ApiRequest) (w : ServerWorld).

(** ** Alone, the steps are the handlers *)

Lemma run_execute_steps {AP : ApiProvider} cfg now r bytes w :
  run (execute_steps cfg now r bytes) w = execute_request cfg now r bytes w.
Proof.
  unfold execute_steps, execute_request. cbv zeta.
  do 4 (rewrite run_pure_bind; apply M_bind_ext; intros ? ?).
  rewrite run_act_bind. apply M_bind_ext. intros [[sig leaf] msg] ?.
  rewrite run_pure_bind. apply M_bind_ext. intros st ?.
  do 2 (rewrite run_act_bind; apply M_bind_ext; intros ? ?). reflexivity.
Qed.

Lemma run_request_steps {AP : ApiProvider} cfg now r w :
  run (request_steps cfg now r) w = process_request cfg now r w.
Proof.
  unfold request_steps, process_request. cbv zeta.
  rewrite run_act_bind. apply M_bind_ext. intros ? ?.
  rewrite run_pure_bind. apply M_bind_ext. intros bytes ?.
  rewrite run_act_bind. apply M_bind_ext. intros [rec|] ?.
  - destruct (_ && _); [done|]. destruct (_ && _); [apply run_execute_steps|done].
  - rewrite run_act_bind. apply M_bind_ext. intros ? ?. apply run_execute_steps.
Qed.

Lemma run_clearance_steps cfg now q w :
  run (clearance_steps cfg now q) w = process_clearance cfg now q w.
Proof.
  unfold clearance_steps, process_clearance. cbv zeta.
  rewrite run_act_bind. apply M_bind_ext. intros [rec|] ?; [done|].
  rewrite run_act_bind. apply M_bind_ext. intros [sig leaf] ?.
  do 2 (rewrite run_act_bind; apply M_bind_ext; intros ? ?). reflexivity.
Qed.

(** ** What the table remembers *)

Abbreviation rows_of w := (sql_data (pw_store w)).
Abbreviation signer_of w := (sw_signer (pw_signer w)).
Abbreviation table_of w := (sql_data (sw_db (pw_signer w))).
Abbreviation nullifier_of r := (rp_request_nullifier (ar_public_inputs r)).

Definition row_leaf (row : Row) : option Z := xmss_leaf_index <$> row_next_state_sig_json row.
Definition leaves (rows : Rows) : list Z := omap row_leaf rows.

(** Exactly the finalized rows have a signature, and it reads back. *)
Definition row_sig_ok (row : Row) : Prop :=
  if bool_decide (row_status row = status_to_str Finalized)
  then ∃ s, row_next_state_sig_json row = Some s ∧
            Forall canonical (wots_sig s) ∧ Forall canonical (auth_path s)
  else row_next_state_sig_json row = None.

Definition rows_ok (rows : Rows) : Prop := keys_unique rows ∧ Forall row_sig_ok rows.

(** The finalized row of a nullifier, and the response it stands for. *)
Definition entry (n : Felt252) (row : Row) (rec : TranscriptRecord) (resp : RequestResponse)
  (rows : Rows) : Prop :=
  row_at (to_hex n) rows = Some row ∧ row_status row = status_to_str Finalized ∧
  (∀ E, @row_to_record E row = Ok rec) ∧
  build_response_from_record rec (default "" (tr_client_request_id rec)) = resp ∧
  row_leaf row = Some (xmss_leaf_index (rr_next_state_sig resp)).

(** What an answer that was sent means for the table, from then on. *)
Definition answer_ok (a : answer) (rows : Rows) : Prop :=
  match a with
  | Answered r (Ok resp) => canonical (nullifier_of r) ∧
      ∃ row rec, entry (nullifier_of r) row rec resp rows ∧ same_request r rec = true
  | Cleared q (Ok _) => canonical (crq_withdrawal_nullifier q) ∧
      ∃ row, row_at (to_hex (crq_withdrawal_nullifier q)) rows = Some row ∧
             row_status row = status_to_str ClearanceReserved
  | Recovered n (Ok rc) => canonical n ∧
      ∀ resp, rc_request_response rc = Some resp → ∃ row rec, entry n row rec resp rows
  | _ => True
  end.

Lemma row_at_elem k rows row : row_at k rows = Some row → row ∈ rows ∧ row_nullifier row = k.
Proof.
  intros H. assert (row ∈ select k rows) as [? ?]%select_elem; [|done].
  unfold row_at in H. destruct (select k rows); [done|]. injection H as ->. left.
Qed.

(** A row that is no longer reserved stays as it is. *)
Lemma frozen_row k rows rows' row : keys_unique rows → rows_evolve rows rows' →
  row_at k rows = Some row → row_status row ≠ status_to_str Reserved → row_at k rows' = Some row.
Proof.
  intros Hu Hev Hr Hs. destruct (Hev Hu) as [_ Hk].
  destruct (Hk _ _ Hr) as (row' & Hr' & [->|[Hres _]]); done.
Qed.

Lemma entry_evolves n row rec resp rows rows' : keys_unique rows → rows_evolve rows rows' →
  entry n row rec resp rows → entry n row rec resp rows'.
Proof.
  intros Hu Hev (H1 & H2 & H3). split; [|done]. eapply frozen_row; [done..|]. by rewrite H2.
Qed.

Lemma answer_ok_evolves a rows rows' : keys_unique rows → rows_evolve rows rows' →
  answer_ok a rows → answer_ok a rows'.
Proof.
  intros Hu Hev. destruct a as [r [resp|e|]|q [c|e|]|n [rc|e|]]; cbn; try done.
  - intros [Hn (row & rec & He & Hs)]. split; [done|]. exists row, rec. split; [|done].
    by eapply entry_evolves.
  - intros [Hn (row & Hr & Hs)]. split; [done|]. exists row. split; [|done].
    eapply frozen_row; [done..|]. by rewrite Hs.
  - intros [Hn H]. split; [done|]. intros resp (row & rec & He)%H. exists row, rec.
    by eapply entry_evolves.
Qed.

Lemma json_signature_leaf s s' : json_signature s = Ok s' → xmss_leaf_index s' = xmss_leaf_index s.
Proof. unfold json_signature. intros H. res_inv. by subst s'. Qed.

Lemma row_to_record_sig {E} row rec : @row_to_record E row = Ok rec →
  @opt_signature E (row_next_state_sig_json row) = Ok (tr_next_state_sig rec).
Proof. unfold row_to_record. intros H. res_inv. by subst rec. Qed.

(** A finalized row is an entry. *)
Lemma finalized_entry n rows row rec : Forall row_sig_ok rows →
  row_at (to_hex n) rows = Some row → (∀ E, @row_to_record E row = Ok rec) →
  tr_status rec = Finalized →
  entry n row rec (build_response_from_record rec (default "" (tr_client_request_id rec))) rows.
Proof.
  intros Hok Hr Hrec Hs. rewrite (row_to_record_status _ _ (Hrec string)) in Hs.
  apply str_to_status_Finalized in Hs. split; [done|]. split; [done|]. split; [done|]. split; [done|].
  destruct (row_at_elem _ _ _ Hr) as [Hin _]. rewrite Forall_forall in Hok. specialize (Hok _ Hin).
  unfold row_sig_ok in Hok. rewrite bool_decide_true in Hok by done.
  destruct Hok as (s & Es & Hc). pose proof (row_to_record_sig _ _ (Hrec string)) as Hsig.
  rewrite Es in Hsig. rewrite opt_signature_id in Hsig by done. injection Hsig as Hsig.
  unfold row_leaf. rewrite Es. cbn. by rewrite <- Hsig.
Qed.

(** Of two rows with a leaf in common there is one. *)
Lemma NoDup_omap_eq {X Y} (f : X → option Y) l x1 x2 y :
  NoDup (omap f l) → x1 ∈ l → x2 ∈ l → f x1 = Some y → f x2 = Some y → x1 = x2.
Proof.
  induction l as [|x l IH]; [intros _ []%not_elem_of_nil|]. intros Hnd H1 H2 E1 E2.
  change (omap f (x :: l)) with (match f x with Some z => z :: omap f l | None => omap f l end) in Hnd.
  assert (∀ z, z ∈ l → f z = Some y → f x = Some y → False) as Hno.
  { intros z Hz Ez Ex. rewrite Ex in Hnd. apply NoDup_cons in Hnd as [Hn _]. apply Hn.
    apply list_elem_of_omap. eauto. }
  apply elem_of_cons in H1 as [->|H1], H2 as [->|H2]; [done| | |].
  - by destruct (Hno x2).
  - by destruct (Hno x1).
  - apply IH; [|done..]. destruct (f x); [by apply NoDup_cons in Hnd as [_ ?]|done].
Qed.

(** What two answers on one table have to do with each other. *)
Lemma entries_agree n row1 rec1 resp1 row2 rec2 resp2 rows :
  entry n row1 rec1 resp1 rows → entry n row2 rec2 resp2 rows → rec1 = rec2 ∧ resp1 = resp2.
Proof.
  intros (E1 & _ & R1 & B1 & _) (E2 & _ & R2 & B2 & _). rewrite E1 in E2. injection E2 as <-.
  specialize (R1 string). specialize (R2 string). rewrite R1 in R2. injection R2 as <-.
  split; [done|congruence].
Qed.

Lemma entries_leaves n1 row1 rec1 resp1 n2 row2 rec2 resp2 rows :
  NoDup (leaves rows) → canonical n1 → canonical n2 → n1 ≠ n2 →
  entry n1 row1 rec1 resp1 rows → entry n2 row2 rec2 resp2 rows →
  xmss_leaf_index (rr_next_state_sig resp1) ≠ xmss_leaf_index (rr_next_state_sig resp2).
Proof.
  intros Hnd C1 C2 Hne (E1 & _ & _ & _ & L1) (E2 & _ & _ & _ & L2) Heq. rewrite Heq in L1.
  apply row_at_elem in E1 as [I1 K1], E2 as [I2 K2]. apply Hne, to_hex_canonical_inj; [done..|].
  rewrite <- K1, <- K2. f_equal. by eapply NoDup_omap_eq.
Qed.

(** ** The rules the threads keep to *)

Definition seeds_for cfg : SignerTree → SF :=
  seeds_of (felt_to_field (sc_state_seed cfg)) (felt_to_field (sc_clear_seed cfg)).

Definition serving cfg w : Prop :=
  rows_ok (rows_of w) ∧ signer_ok (seeds_for cfg) (sc_xmss_height cfg) (signer_of w) ∧
  tree_epoch State (signer_of w) = sc_epoch cfg.

Definition evolves w w' : Prop := rows_evolve (rows_of w) (rows_of w').

(** A thread owns the leaf it signed with until the leaf is in the table. *)
Definition trans cfg (own : option Z) w (own' : option Z) w' : Prop :=
  serving cfg w' ∧ evolves w w' ∧ tables_le (table_of w) (table_of w') ∧
  ((own' = own ∧ leaves (rows_of w') = leaves (rows_of w)) ∨
   (∃ l, own' = Some l ∧ reserved_at State l (table_of w) (table_of w') ∧
         leaves (rows_of w') = leaves (rows_of w)) ∨
   (∃ l, own = Some l ∧ own' = None ∧ leaves (rows_of w') ≡ₚ l :: leaves (rows_of w))).

Lemma trans_same cfg own w w' : serving cfg w →
  rows_of w' = rows_of w → pw_signer w' = pw_signer w → trans cfg own w own w'.
Proof.
  intros (H1 & H2 & H3) Er Es. unfold trans, serving, evolves. rewrite Er, Es.
  repeat (split; [done || reflexivity|]). by left.
Qed.

Lemma trans_insert cfg own w w' row : serving cfg w →
  row_at (row_nullifier row) (rows_of w) = None → row_sig_ok row → row_leaf row = None →
  rows_of w' = rows_of w ++ [row] → pw_signer w' = pw_signer w → trans cfg own w own w'.
Proof.
  intros ([Hu Hok] & H2 & H3) Hn Hs Hl Er Es. unfold trans, serving, evolves. rewrite Er, Es.
  split; [split; [|done]|].
  - split; [by apply keys_unique_snoc|]. apply Forall_app. by split; [|constructor].
  - split; [by apply insert_evolves|]. split; [reflexivity|]. left. split; [done|].
    unfold leaves. rewrite omap_app. cbn. by rewrite Hl, app_nil_r.
Qed.

(** Finalizing moves the thread's leaf into the table. *)
Lemma leaves_finalize k t now rows row sig : rows_ok rows → row_at k rows = Some row →
  row_status row = status_to_str Reserved → tr_next_state_sig t = Some sig →
  leaves (update_row k t now <$> rows) ≡ₚ xmss_leaf_index sig :: leaves rows.
Proof.
  intros [Hu Hok] Hr Hs Ht. apply row_at_elem in Hr as [Hin Hk].
  apply list_elem_of_split in Hin as (l1 & l2 & ->). unfold leaves.
  assert (∀ l : Rows, (∀ x, x ∈ l → row_nullifier x ≠ k) → update_row k t now <$> (l : Rows) = l) as Hother.
  { induction l as [|x l IH]; intros Hx; [done|]. rewrite fmap_cons, IH by (intros; apply Hx; by right).
    f_equal. unfold update_row, finalizable. rewrite bool_decide_false; [done|]. intros [E _].
    destruct (Hx x); [left|done]. }
  unfold keys_unique in Hu. rewrite fmap_app, fmap_cons, NoDup_app, NoDup_cons in Hu.
  destruct Hu as (_ & Hd & Hn & _). rewrite fmap_app, fmap_cons, !Hother.
  2: { intros x Hx E. apply Hn. rewrite Hk, <- E. by apply list_elem_of_fmap_2. }
  2: { intros x Hx E. apply (Hd k); [rewrite <- E; by apply list_elem_of_fmap_2|]. rewrite Hk. left. }
  apply Forall_app in Hok as [_ [Hrow _]%Forall_cons]. unfold row_sig_ok in Hrow.
  rewrite Hs, bool_decide_false in Hrow by done. rewrite !omap_app.
  unfold update_row, finalizable. rewrite bool_decide_true by done.
  assert (row_leaf row = None) as E1 by (unfold row_leaf; by rewrite Hrow).
  assert (row_leaf (finalize_row t now row) = Some (xmss_leaf_index sig)) as E2
    by (unfold row_leaf; cbn; by rewrite Ht).
  cbn [omap list_omap]. rewrite E1, E2. by rewrite Permutation_middle.
Qed.

Lemma update_sig_ok k t now rows : Forall row_sig_ok rows →
  (∃ s, tr_next_state_sig t = Some s ∧ Forall canonical (wots_sig s) ∧ Forall canonical (auth_path s)) →
  Forall row_sig_ok (update_row k t now <$> rows).
Proof.
  intros Hok Ht. apply Forall_fmap. eapply Forall_impl; [exact Hok|]. intros x Hx.
  unfold compose, update_row, finalizable. case_bool_decide; done.
Qed.

Lemma trans_finalize cfg w w' k t now row sig : serving cfg w →
  row_at k (rows_of w) = Some row → row_status row = status_to_str Reserved →
  tr_next_state_sig t = Some sig → Forall canonical (wots_sig sig) ∧ Forall canonical (auth_path sig) →
  rows_of w' = update_row k t now <$> rows_of w → pw_signer w' = pw_signer w →
  trans cfg (Some (xmss_leaf_index sig)) w None w'.
Proof.
  intros ([Hu Hok] & H2 & H3) Hr Hs Ht Hc Er Es. unfold trans, serving, evolves. rewrite Er, Es.
  split; [split; [|done]|].
  - split; [unfold keys_unique; by rewrite update_keys|]. apply update_sig_ok; eauto.
  - split; [apply update_evolves|]. split; [reflexivity|]. right. right. eexists.
    split; [done|]. split; [done|]. by eapply leaves_finalize.
Qed.

(** A signing call, whatever its result. *)
Lemma trans_sign cfg own w sw' : serving cfg w →
  signer_ok (seeds_for cfg) (sc_xmss_height cfg) (sw_signer sw') →
  same_signer (signer_of w) (sw_signer sw') → tables_le (table_of w) (sql_data (sw_db sw')) →
  let w' := {| pw_store := pw_store w; pw_signer := sw'; pw_root := pw_root w |} in
  trans cfg own w own w' ∧
  ∀ l, reserved_at State l (table_of w) (table_of w') → trans cfg own w (Some l) w'.
Proof.
  intros (H1 & H2 & H3) Hok [He Hr] Hle w'.
  assert (serving cfg w' ∧ evolves w w') as [Hs Hev].
  { split; [split; [done|split; [done|]]|unfold evolves; cbn; reflexivity]. cbn.
    by rewrite (He State : sg_state_epoch _ = _). }
  split; [|intros l Hl]; (split; [done|split; [done|split; [done|]]]); [by left|].
  right. left. by exists l.
Qed.

(** ** The handlers keep the rules *)

(** The request's reservation: some row that read as it, maybe finalized since. *)
Definition promised r (rows : Rows) : Prop :=
  ∃ row0 rec row, row_at (to_hex (nullifier_of r)) rows = Some row ∧ row_evolves row0 row ∧
    (∀ E, @row_to_record E row0 = Ok rec) ∧ tr_nullifier rec = nullifier_of r ∧
    same_request r rec = true.

Lemma promised_evolves r rows rows' : keys_unique rows → rows_evolve rows rows' →
  promised r rows → promised r rows'.
Proof.
  intros Hu Hev (row0 & rec & row & Hr & H0 & Hp). destruct (Hev Hu) as [_ Hk].
  destruct (Hk _ _ Hr) as (row' & Hr' & H1). exists row0, rec, row'. split; [done|].
  split; [by etrans|done].
Qed.

Abbreviation told cfg tell :=
  (wp (serving cfg) evolves (trans cfg) (λ _ res w, answer_ok (tell res) (rows_of w))).

Lemma answer_not_ok r res rows : (∀ a, res ≠ Ok a) → answer_ok (Answered r res) rows.
Proof. destruct res as [a|e|]; [intros H; by destruct (H a)|done..]. Qed.

Lemma told_finalize cfg now r pv hash st sig leaf message sg root bytes w resp :
  resp = response_of r pv hash st sig root →
  provider_ok pv → canonical hash →
  canonical (nx_cx st) ∧ canonical (nx_cy st) ∧ canonical (nx_anchor st) ∧ canonical (nx_blind_delta st) →
  signed (seeds_for cfg) (sc_xmss_height cfg) sg State sig leaf message →
  tree_epoch State sg = sc_epoch cfg → fits 32 (sc_epoch cfg) → canonical root → fits 64 now →
  canonical (nullifier_of r) → promised r (rows_of w) →
  told cfg (Answered r) (
    _ ← act (on_store (catch_err
          (λ e, Internal ("failed to finalize transcript: " +:+ ServerError_display e))
          (finalize now (nullifier_of r) (transcript_of r now pv hash st sig root bytes))));
    mret resp) (Some leaf) w.
Proof.
  intros -> Hpv Hh Hst Hsig He Hf Hroot Hnow Hn (row0 & rec & row & Hr & Hev & Hrec & Hnul & Hsame).
  apply wp_act. intros Hw res w' Hrun. pose proof Hw as ([Hu Hok] & _).
  apply zoom_inv in Hrun as (s' & Hrun & ->). unfold catch_err in Hrun.
  destruct (finalize _ _ _ _) as [r0 s1] eqn:Ef. injection Hrun as <- <-.
  apply finalize_cases in Ef; [|done].
  destruct Ef as [(-> & row1 & F1 & F2 & F3)|[Hr0 F]].
  - assert (row = row0) as -> by (rewrite Hr in F1; injection F1 as ->;
      by destruct Hev as [->|(_ & t & tm & ->)]).
    rewrite Hr in F1. injection F1 as <-.
    pose proof Hsig as (_ & <- & _ & _ & Hsc & _). eexists.
    split; [eapply trans_finalize; [exact Hw|exact Hr|exact F2| |exact Hsc|exact F3|]; done|].
    intros w'' Hev'' _. cbn. intros [[Hu' Hok'] _]. split; [done|].
    assert (transcript_ok (transcript_of r now pv hash st sig root bytes)) as Ht
      by (eapply transcript_of_ok; [exact Hpv|exact Hh|exact Hst|exact Hsig|by rewrite He|exact Hroot]).
    destruct (finalized_stored r now pv hash st sig root bytes _ _ rec Hu Hr F2 Hrec Hnul Hsame Hpv Ht Hnow)
      as (row2 & rec2 & S1 & S2 & S3 & S4 & S5 & S6).
    exists row2, rec2. split; [|done]. rewrite <- F3 in S1.
    assert (row_at (to_hex (nullifier_of r)) (rows_of w'') = Some row2) as S1''.
    { eapply (frozen_row _ (sql_data s1)); [|exact Hev''|exact S1|by rewrite S2].
      rewrite F3. unfold keys_unique. by rewrite update_keys. }
    pose proof (finalized_entry _ _ _ _ Hok' S1'' S3 S4) as Hent. apply same_request_spec in S5 as [Hid _].
    rewrite Hid in Hent. rewrite <- S6. exact Hent.
  - exists (Some leaf). split; [by apply trans_same|]. intros w'' _ _.
    destruct r0 as [[]|e|]; [done|done|done].
Qed.

Section request.
Context {AP : ApiProvider} (cfg : ServerConfig) (now : Z) (r : ApiRequest).
Hypothesis provider_answers : ∀ id payload ph pv, execute id payload ph = Ok pv → provider_ok pv.
Hypothesis nullifier_canonical : canonical (nullifier_of r).
Hypothesis now_fits : fits 64 now.
Hypothesis epoch_fits : fits 32 (sc_epoch cfg).

Lemma serving_evolves_promised w w' : serving cfg w → evolves w w' →
  promised r (rows_of w) → promised r (rows_of w').
Proof. intros ([Hu _] & _). by apply promised_evolves. Qed.

Lemma told_execute bytes own w : promised r (rows_of w) →
  told cfg (Answered r) (execute_steps cfg now r bytes) own w.
Proof.
  intros Hp. unfold execute_steps. cbv zeta.
  apply wp_pure; [intros pv Hpv|intros; by apply answer_not_ok].
  apply wp_pure; [intros hash Hh%hash_bytes_to_felt_canonical|intros; by apply answer_not_ok].
  apply wp_pure; [intros _ _|intros; by apply answer_not_ok].
  apply wp_pure; [intros point _|intros; by apply answer_not_ok].
  apply wp_act. intros Hw res w' Hrun. apply zoom_inv in Hrun as (sw' & Hrun & ->).
  pose proof Hw as (Hrows & Hs & He).
  destruct (sign_next_state_cases _ _ _ _ _ _ Hs Hrun) as (Hs' & Hsame & Hle & Hsign).
  destruct (trans_sign cfg own w sw' Hw Hs' Hsame Hle) as [Hstay Hmove].
  set (w' := {| pw_store := pw_store w; pw_signer := sw'; pw_root := pw_root w |}) in *.
  destruct res as [[[sig leaf] msg]|e|]; [|exists own; by split..].
  destruct (Hsign _ _ _ eq_refl) as (_ & Hsig & Hat). exists (Some leaf).
  split; [by apply Hmove|]. intros w1 Hev1 Hw1.
  assert (promised r (rows_of w1)) as Hp1
    by (apply (serving_evolves_promised w'); [exact (proj1 Hstay)|exact Hev1|exact Hp]).
  apply wp_pure; [intros st Hst|intros; by apply answer_not_ok].
  apply wp_act. intros _ res w2 [= <- <-]. exists (Some leaf).
  split; [by apply trans_same|]. intros w3 Hev3 _.
  eapply told_finalize; [reflexivity|by eapply provider_answers|exact Hh|by eapply next_state_canonical|
    exact Hsig|exact He|exact epoch_fits|apply v1_field_to_felt_canonical|exact now_fits|
    exact nullifier_canonical|by apply (serving_evolves_promised w1)].
Qed.

Lemma told_request own w : told cfg (Answered r) (request_steps cfg now r) own w.
Proof.
  unfold request_steps. cbv zeta. apply wp_act. intros Hw0 res w1 [= <- <-].
  exists own. split; [by apply trans_same|]. intros w0 _ _.
  apply wp_pure; [intros bytes Hc|intros; by apply answer_not_ok].
  apply check_request_facts in Hc as (Hph%hash_bytes_to_felt_canonical & _).
  apply wp_act. intros Hw res w1 Hrun. apply zoom_inv in Hrun as (s1 & Hrun & ->).
  pose proof (query_row_data _ _ _ _ Hrun) as Hd.
  set (w1 := {| pw_store := s1; pw_signer := pw_signer w0; pw_root := pw_root w0 |}).
  exists own. split; [by apply trans_same|]. intros w2 Hev Hw2.
  pose proof Hw as ([Hu _] & _). assert (keys_unique (rows_of w1)) as Hu1 by (cbn; by rewrite Hd).
  destruct res as [[rec|]|e|]; [| |done..].
  - apply lookup_inv in Hrun as (row & L1 & L2 & _).
    assert (row_at (to_hex (nullifier_of r)) (rows_of w1) = Some row) as L1' by (cbn; by rewrite Hd).
    destruct (same_request r rec) eqn:Hsame; [|done]. cbn [andb].
    destruct (decide (tr_status rec = Finalized)) as [Hf|Hf].
    + rewrite bool_decide_true by done. intros ([Hu2 Hok2] & _). split; [done|].
      pose proof Hf as Hs. rewrite (row_to_record_status _ _ (L2 string)) in Hs.
      apply str_to_status_Finalized in Hs.
      assert (row_at (to_hex (nullifier_of r)) (rows_of w2) = Some row) as L1''
        by (eapply frozen_row; [exact Hu1|exact Hev|exact L1'|by rewrite Hs]).
      exists row, rec. split; [|done]. apply same_request_spec in Hsame as [Hid _].
      pose proof (finalized_entry _ _ _ _ Hok2 L1'' L2 Hf) as Hent. rewrite Hid in Hent. exact Hent.
    + rewrite bool_decide_false by done. case_bool_decide as Hr; [|done].
      apply told_execute. apply (promised_evolves r (rows_of w1)); [exact Hu1|exact Hev|].
      exists row, rec, row. split; [done|]. split; [reflexivity|]. split; [done|]. split; [|done].
      apply row_at_elem in L1 as [_ Hk]. by eapply row_to_record_key; [apply (L2 string)|..].
  - apply wp_act. intros _ res w3 Hres. apply zoom_inv in Hres as (s3 & Hres & ->).
    apply reserve_cases in Hres as [(-> & E1 & E2)|[Hno E2]].
    + exists own. split; [by apply (trans_insert cfg own w2 _ (reserved_row (nullifier_of r)
        (ar_client_request_id r) (ar_payload_hash r) now))|].
      intros w4 Hev4 _. apply told_execute. eapply promised_evolves; [|exact Hev4|].
      { cbn. rewrite E2. apply keys_unique_snoc; [|exact E1]. by destruct Hw2 as [[? _] _]. }
      destruct (@read_reserved string _ (ar_client_request_id r) _ now nullifier_canonical Hph now_fits)
        as (rec & Hrec & E3 & _ & E4 & E5 & _).
      exists (reserved_row (nullifier_of r) (ar_client_request_id r) (ar_payload_hash r) now), rec.
      eexists. cbn [pw_store]. rewrite E2, row_at_snoc, E1, bool_decide_true by done.
      split; [reflexivity|]. split; [reflexivity|].
      split; [intros E; by eapply row_to_record_any|]. split; [done|]. by apply same_request_spec.
    + exists own. split; [by apply trans_same|]. intros w4 _ _. by destruct res as [[]| |].
Qed.
End request.

Lemma told_clearance cfg now q own w :
  canonical (crq_withdrawal_nullifier q) →
  told cfg (Cleared q) (clearance_steps cfg now q) own w.
Proof.
  intros Hn. unfold clearance_steps. cbv zeta.
  apply wp_act. intros Hw res w1 Hrun. apply zoom_inv in Hrun as (s1 & Hrun & ->).
  pose proof (query_row_data _ _ _ _ Hrun) as Hd. exists own.
  split; [by apply trans_same|]. intros w2 _ _. destruct res as [[rec|]|e|]; [done| |done..].
  apply wp_act. intros Hw2 res w3 Hs. apply zoom_inv in Hs as (sw & Hs & ->).
  pose proof Hw2 as (_ & Hok & _).
  apply (run_sign_cases _ _ (SClear _) _ _ _ Hok) in Hs as (Hok' & Hsame & Hle & _).
  destruct (trans_sign cfg own w2 sw Hw2 Hok' Hsame Hle) as [Hstay _].
  exists own. split; [done|]. intros w4 _ _. destruct res as [[sig leaf]|e|]; [|done..].
  apply wp_act. intros Hw4 res w5 Hc. apply zoom_inv in Hc as (s5 & Hc & ->).
  apply reserve_clearance_cases in Hc as [(-> & E1 & E2)|[Hno E2]].
  - exists own. split; [by apply (trans_insert cfg own w4 _ (new_row
      (to_hex (crq_withdrawal_nullifier q)) (status_to_str ClearanceReserved) None None
      (as_signed 64 now)))|].
    intros w6 Hev6 Hw6. apply wp_act. intros _ res w7 [= <- <-]. exists own.
    split; [by apply trans_same|]. intros w8 Hev8 _. cbn. intros _. split; [done|].
    assert (evolves {| pw_store := s5; pw_signer := pw_signer w4; pw_root := pw_root w4 |} w8) as Hev
      by (unfold evolves in *; by etrans).
    eexists. split; [eapply frozen_row; [|exact Hev|cbn; rewrite E2, row_at_snoc, E1, bool_decide_true;
      [reflexivity|done]|done]|done].
    cbn. rewrite E2. apply keys_unique_snoc; [|exact E1]. by destruct Hw4 as [[? _] _].
  - exists own. split; [by apply trans_same|]. intros w6 _ _. by destruct res as [[]| |].
Qed.

Lemma told_recovery cfg n own w : canonical n → told cfg (Recovered n) (recovery_steps n) own w.
Proof.
  intros Hn. cbn. intros Hw. destruct (recover_by_nullifier n w) as [res w'] eqn:Hrun.
  unfold recover_by_nullifier, mbind, M_mbind in Hrun.
  destruct (on_store _ w) as [r1 w1] eqn:E1. apply zoom_inv in E1 as (s1 & E1 & ->).
  pose proof (query_row_data _ _ _ _ E1) as Hd.
  exists own. destruct r1 as [o|e|]; injection Hrun as <- <-; (split; [by apply trans_same|]); [|done..].
  intros w2 Hev ([Hu2 Hok2] & _). split; [done|]. intros resp Hresp.
  destruct o as [rec|]; [|discriminate Hresp]. apply lookup_inv in E1 as (row & L1 & L2 & _).
  unfold build_recovery_response in Hresp. cbn [rc_request_response] in Hresp.
  case_bool_decide as Hf; [|discriminate Hresp]. injection Hresp as <-. exists row, rec.
  apply finalized_entry; [done| |done|done].
  pose proof Hf as Hs. rewrite (row_to_record_status _ _ (L2 string)) in Hs.
  apply str_to_status_Finalized in Hs. destruct Hw as [[Hu _] _].
  eapply frozen_row; [|exact Hev|cbn; by rewrite Hd|by rewrite Hs]. cbn. by rewrite Hd.
Qed.

(** ** The whole pool *)

Definition job_ok cfg (own : option Z) (j : job) w : Prop :=
  match j with Job p tell => told cfg tell p own w end.

(** The leaves that signed something still of use. *)
Definition held (owns : list (option Z)) : list Z := omap (λ o : option Z, o) owns.
Definition spent (owns : list (option Z)) (rows : Rows) : list Z := held owns ++ leaves rows.

Lemma held_app l1 l2 : held (l1 ++ l2) = held l1 ++ held l2.
Proof. apply omap_app. Qed.

Record pool_ok cfg (s : Pool) (owns : list (option Z)) : Prop := {
  po_rows : rows_ok (rows_of (pl_world s));
  po_log : Forall (λ a, answer_ok a (rows_of (pl_world s))) (pl_log s);
  po_up : if pl_up s then serving cfg (pl_world s) else pl_jobs s = [];
  po_jobs : Forall2 (λ j own, ∀ w, evolves (pl_world s) w → job_ok cfg own j w) (pl_jobs s) owns;
  po_leaves : NoDup (spent owns (rows_of (pl_world s)));
  po_table : used_ok (table_of (pl_world s)) (pair State <$> spent owns (rows_of (pl_world s)));
}.

Lemma owns_split owns i own : owns !! i = Some own →
  ∃ rest, held owns ≡ₚ option_list own ++ rest ∧ held (delete i owns) = rest ∧
    ∀ own', held (<[i := own']> owns) ≡ₚ option_list own' ++ rest.
Proof.
  intros Hi. exists (held (delete i owns)).
  assert (∀ l1 l2 (o : option Z), held (l1 ++ o :: l2) ≡ₚ option_list o ++ held (l1 ++ l2)) as Hp.
  { intros l1 l2 o. rewrite !held_app. destruct o as [l|]; cbn; [by rewrite Permutation_middle|done]. }
  assert (i < length owns)%nat as Hlt by by eapply lookup_lt_Some.
  split; [|split; [done|]].
  - rewrite <- (take_drop_middle owns i own Hi) at 1. rewrite Hp. by rewrite delete_take_drop.
  - intros own'. rewrite insert_take_drop, Hp by done. by rewrite delete_take_drop.
Qed.

Lemma used_ok_sub d l l' : (∀ x, x ∈ l' → x ∈ l) → used_ok d (pair State <$> l) →
  used_ok d (pair State <$> l').
Proof.
  intros Hsub Hu tree leaf (x & [= -> ->] & Hx)%list_elem_of_fmap. apply Hu.
  apply list_elem_of_fmap. eauto.
Qed.

Lemma used_ok_perm d l l' : l ≡ₚ l' → used_ok d (pair State <$> l) → used_ok d (pair State <$> l').
Proof. intros Hp. apply used_ok_sub. intros x. by rewrite Hp. Qed.

(** A transition of the thread at [i] leaves the leaves apart. *)
Lemma trans_spent cfg own w own' w' owns i : trans cfg own w own' w' → owns !! i = Some own →
  NoDup (spent owns (rows_of w)) → used_ok (table_of w) (pair State <$> spent owns (rows_of w)) →
  NoDup (spent (<[i := own']> owns) (rows_of w')) ∧
  used_ok (table_of w') (pair State <$> spent (<[i := own']> owns) (rows_of w')).
Proof.
  intros (_ & _ & Hle & Hcase) Hi Hnd Hu. unfold spent in *.
  destruct (owns_split _ _ _ Hi) as (rest & Hp & _ & Hp'). specialize (Hp' own').
  destruct Hcase as [(-> & ->)|[(l & -> & Hat & ->)|(l & -> & -> & Hl)]].
  - rewrite list_insert_id by done. split; [done|]. by eapply used_ok_le.
  - assert (used_ok (table_of w) (pair State <$> rest ++ leaves (rows_of w))) as Hu1.
    { eapply used_ok_sub; [|exact Hu]. intros x. rewrite Hp, !elem_of_app. tauto. }
    destruct (reserved_at_used _ _ _ _ _ Hat Hu1) as [Hnew Hu'].
    rewrite Hp in Hnd. rewrite <- app_assoc in Hnd. apply NoDup_app in Hnd as (_ & _ & Hnd).
    split.
    + rewrite Hp'. cbn. apply NoDup_cons. split; [|done]. intros Hin. apply Hnew.
      apply list_elem_of_fmap. eauto.
    + eapply (used_ok_perm _ (l :: rest ++ leaves (rows_of w))); [by rewrite Hp'|exact Hu'].
  - assert (held owns ++ leaves (rows_of w) ≡ₚ
      held (<[i := None]> owns) ++ leaves (rows_of w')) as Hall.
    { rewrite Hp, Hp', Hl. cbn. by rewrite Permutation_middle. }
    split; [by rewrite <- Hall|]. eapply used_ok_perm; [exact Hall|]. by eapply used_ok_le.
Qed.

Lemma job_step_ok cfg own j w j' w' : job_ok cfg own j w → serving cfg w →
  job_step j w = Some (j', w') →
  ∃ own', trans cfg own w own' w' ∧ ∀ w'', evolves w' w'' → job_ok cfg own' j' w''.
Proof.
  destruct j as [A p tell]. cbn. intros Hj Hw.
  destruct (prog_step p w) as [[p' w1]|] eqn:E; [|done]. intros [= <- <-].
  by destruct (wp_step _ _ _ _ _ _ _ _ _ Hj Hw E) as (own' & H1 & H2); exists own'.
Qed.

Lemma job_answer_ok cfg own j w a : job_ok cfg own j w → serving cfg w →
  job_answer j = Some a → answer_ok a (rows_of w).
Proof. destruct j as [A [res|B m k] tell]; cbn; intros H Hw; [|done]. intros [= <-]. by apply H. Qed.

(** What others see of a change of the world. *)
Lemma pool_world cfg s owns w' : pool_ok cfg s owns → evolves (pl_world s) w' →
  Forall (λ a, answer_ok a (rows_of w')) (pl_log s) ∧
  Forall2 (λ j own, ∀ w, evolves w' w → job_ok cfg own j w) (pl_jobs s) owns.
Proof.
  intros [[Hu _] Hlog _ Hjobs _ _] Hev. split.
  - eapply Forall_impl; [exact Hlog|]. intros a. by apply answer_ok_evolves.
  - eapply Forall2_impl; [exact Hjobs|]. intros j own H w Hw. apply H. unfold evolves in *. by etrans.
Qed.

Lemma spawn_ok cfg s owns j : pl_up s = true → pool_ok cfg s owns →
  (∀ own w, job_ok cfg own j w) → pool_ok cfg (spawn j s) (owns ++ [None]).
Proof.
  intros Hup [H1 H2 H3 H4 H5 H6] Hj.
  assert (spent (owns ++ [None]) (rows_of (pl_world s)) = spent owns (rows_of (pl_world s))) as Hs.
  { unfold spent. rewrite held_app. cbn. by rewrite app_nil_r. }
  split; cbn; rewrite ?Hup, ?Hs in *; try done.
  apply Forall2_app; [done|]. constructor; [by intros|done].
Qed.

(** Starting the server. *)
Lemma run_server_rows cfg w : rows_of (run_server cfg w).2 = rows_of w ∧
  tables_le (table_of w) (table_of (run_server cfg w).2).
Proof.
  unfold run_server, mbind, M_mbind.
  destruct (on_store NullifierStore_new w) as [r1 w1] eqn:E1. apply zoom_inv in E1 as (s1 & E1 & ->).
  pose proof (open_data (pw_store w)) as Hd. rewrite E1 in Hd. cbn in Hd.
  destruct r1 as [[]|e|]; [|cbn; rewrite Hd; split; reflexivity..].
  destruct (on_signer _ _) as [r2 w2] eqn:E2. apply zoom_inv in E2 as (sw2 & E2 & ->).
  apply zoom_inv in E2 as (d2 & E2 & ->). cbn [pw_signer] in *.
  pose proof (with_height_durable_le (felt_to_field (sc_state_seed cfg))
    (felt_to_field (sc_clear_seed cfg)) (sc_epoch cfg) (sc_xmss_height cfg) (sw_db (pw_signer w))) as Hle.
  rewrite E2 in Hle. by destruct r2 as [sg|e|]; cbn; rewrite Hd.
Qed.

Lemma run_server_serving cfg w u w' : (sc_xmss_height cfg < 32)%nat → rows_ok (rows_of w) →
  run_server cfg w = (Ok u, w') → serving cfg w'.
Proof.
  intros Hh Hok H. pose proof (run_server_rows cfg w) as [Hd _]. rewrite H in Hd. cbn in Hd.
  unfold run_server in H. apply M_bind_inv in H as (? & w1 & _ & H).
  apply M_bind_inv in H as (sg & w2 & R0 & H). apply zoom_inv in R0 as (sw & R0 & ->).
  apply zoom_inv in R0 as (d & R0 & ->). apply M_bind_inv in H as (? & w3 & R1 & H).
  injection H as _ <-. injection R1 as _ <-.
  apply with_height_durable_ok in R0 as (Hsg & _ & He); [|done].
  split; [by rewrite Hd|]. split; [exact Hsg|exact (He State)].
Qed.

(** Providers whose charges the store's signed column holds. *)
Definition moderate (AP : ApiProvider) : Prop :=
  ∀ id payload ph pv, execute id payload ph = Ok pv → provider_ok pv.

Lemma pool_step_ok behind cfg s owns s' : (∀ AP, behind AP → moderate AP) → fits 32 (sc_epoch cfg) → (sc_xmss_height cfg < 32)%nat →
  pool_ok cfg s owns → pool_step behind cfg s s' → ∃ owns', pool_ok cfg s' owns'.
Proof.
  intros Hb Hf Hh Hs Hstep. destruct Hstep as
    [AP now r Hup Hn Hnow Hpv|now q Hup Hn Hnow|n Hup Hn|i j j' w' Hj Hstep|i j a Hj Ha|root| |ios iow res w' Hup Hrun].
  - eexists. apply spawn_ok; [done..|]. intros own w. apply told_request; [exact (Hb AP Hpv)|done..].
  - eexists. apply spawn_ok; [done..|]. intros own w. by apply told_clearance.
  - eexists. apply spawn_ok; [done..|]. intros own w. by apply told_recovery.
  - destruct (pl_up s) eqn:Hup; pose proof (po_up _ _ _ Hs) as Hw; rewrite Hup in Hw; [|by rewrite Hw in Hj].
    destruct (Forall2_lookup_l _ _ _ _ _ (po_jobs _ _ _ Hs) Hj) as (own & Hown & Hok).
    destruct (job_step_ok cfg own j _ _ _ (Hok _ (reflexivity _ : rows_evolve _ _)) Hw Hstep)
      as (own' & Ht & Hj'). pose proof Ht as (Hw' & Hev & _).
    destruct (trans_spent _ _ _ _ _ _ _ Ht Hown (po_leaves _ _ _ Hs) (po_table _ _ _ Hs)) as [L1 L2].
    destruct (pool_world _ _ _ _ Hs Hev) as [Hlog Hjobs]. exists (<[i := own']> owns).
    split; cbn; try done; [by destruct Hw'|]. by apply Forall2_insert.
  - destruct (pl_up s) eqn:Hup; pose proof (po_up _ _ _ Hs) as Hw; rewrite Hup in Hw; [|by rewrite Hw in Hj].
    destruct (Forall2_lookup_l _ _ _ _ _ (po_jobs _ _ _ Hs) Hj) as (own & Hown & Hok).
    specialize (Hok _ (reflexivity _ : rows_evolve _ _)).
    destruct Hs as [H1 H2 _ H4 H5 H6]. exists (delete i owns).
    destruct (owns_split _ _ _ Hown) as (rest & Hp & Hdel & _).
    assert (spent owns (rows_of (pl_world s)) ≡ₚ option_list own ++ spent (delete i owns) (rows_of (pl_world s)))
      as Hsp by (unfold spent; by rewrite Hp, Hdel, app_assoc).
    split; cbn; rewrite ?Hup; try done.
    + apply Forall_app. split; [done|]. constructor; [by eapply job_answer_ok|done].
    + by apply Forall2_delete.
    + rewrite Hsp in H5. by apply NoDup_app in H5 as (_ & _ & ?).
    + eapply used_ok_sub; [|exact H6]. intros x Hx. rewrite Hsp. apply elem_of_app. by right.
  - exists owns. by destruct Hs.
  - exists []. destruct Hs as [H1 H2 H3 H4 H5 H6]. split; cbn; try done.
    + by apply NoDup_app in H5 as (_ & _ & ?).
    + eapply used_ok_sub; [|exact H6]. intros x Hx. apply elem_of_app. by right.
  - exists []. pose proof (run_server_rows cfg (reconnect ios iow (pl_world s))) as [Hd Hle].
    rewrite Hrun in Hd, Hle. cbn in Hd, Hle. destruct Hs as [H1 H2 _ H4 H5 H6].
    split; cbn; rewrite ?Hd; try done.
    + destruct res as [u|e|]; cbn; [|done..]. eapply run_server_serving; [exact Hh| |exact Hrun]. exact H1.
    + by apply NoDup_app in H5 as (_ & _ & ?).
    + eapply used_ok_le; [exact Hle|]. eapply used_ok_sub; [|exact H6]. intros x Hx.
      apply elem_of_app. by right.
Qed.

Lemma pool_run_ok behind cfg s s' : (∀ AP, behind AP → moderate AP) → fits 32 (sc_epoch cfg) → (sc_xmss_height cfg < 32)%nat →
  fresh_pool s → rtc (pool_step behind cfg) s s' → ∃ owns, pool_ok cfg s' owns.
Proof.
  intros Hb Hf Hh (F1 & F2 & F3 & F4) Hrun.
  assert (∃ owns, pool_ok cfg s owns) as [owns Hs].
  { exists []. split; rewrite ?F1, ?F2, ?F3, ?F4.
    - split; [apply NoDup_nil_2|apply Forall_nil_2].
    - apply Forall_nil_2.
    - done.
    - apply Forall2_nil_2.
    - apply NoDup_nil_2.
    - by intros ?? ?%not_elem_of_nil. }
  clear F1 F2 F3 F4. revert owns Hs. induction Hrun as [s|s s1 s2 H1 _ IH]; intros owns Hs; [eauto|].
  destruct (pool_step_ok _ _ _ _ _ Hb Hf Hh Hs H1) as [owns' Hs']. by eapply IH.
Qed.

(** ** Properties *)

(** C28. What leaves the server, however its threads interleave: when the
    providers behind it charge less than [2^63] each time (what the store's
    signed column holds; a larger charge is answered once and reads back as
    another number), then along any run of any number of concurrent requests,
    retries, clearances and recoveries, with root updates, database failures,
    deaths and restarts at any point, two answers for one nullifier are the same
    response to the same request, and a recovery that returns a response returns
    that one; answers for different nullifiers carry signatures by different
    leaves; and no clearance is given out for a nullifier that was answered. *)
Theorem concurrent_answers (behind : ApiProvider → Prop) cfg s0 s :
  (∀ AP, behind AP → ∀ id payload ph pv, execute id payload ph = Ok pv → provider_ok pv) →
  fits 32 (sc_epoch cfg) → (sc_xmss_height cfg < 32)%nat → fresh_pool s0 →
  rtc (pool_step behind cfg) s0 s →
  ∀ r a, Answered r (Ok a) ∈ pl_log s →
  (∀ r' a', Answered r' (Ok a') ∈ pl_log s →
     if decide (nullifier_of r' = nullifier_of r)
     then a' = a ∧ ar_client_request_id r' = ar_client_request_id r ∧
          ar_payload_hash r' = ar_payload_hash r
     else xmss_leaf_index (rr_next_state_sig a') ≠ xmss_leaf_index (rr_next_state_sig a)) ∧
  (∀ rc a', Recovered (nullifier_of r) (Ok rc) ∈ pl_log s → rc_request_response rc = Some a' → a' = a) ∧
  ∀ q c, Cleared q (Ok c) ∈ pl_log s → crq_withdrawal_nullifier q ≠ nullifier_of r.
Proof.
  intros Hb Hf Hh H0 Hrun. destruct (pool_run_ok _ _ _ _ Hb Hf Hh H0 Hrun) as [owns [_ Hlog _ _ Hnd _]].
  rewrite Forall_forall in Hlog. apply NoDup_app in Hnd as (_ & _ & Hnd).
  intros r a Ha. destruct (Hlog _ Ha) as [Hn (row & rec & He & Hs)]. split; [|split].
  - intros r' a' Ha'. destruct (Hlog _ Ha') as [Hn' (row' & rec' & He' & Hs')].
    destruct (decide (nullifier_of r' = nullifier_of r)) as [E|E].
    + rewrite E in He'. destruct (entries_agree _ _ _ _ _ _ _ _ He He') as [<- <-].
      apply same_request_spec in Hs as [I1 P1], Hs' as [I2 P2].
      rewrite I1 in I2. rewrite P1 in P2. injection I2 as I2. injection P2 as P2. done.
    + eapply entries_leaves; [exact Hnd|exact Hn'|exact Hn|exact E|exact He'|exact He].
  - intros rc a' Hr Ha'. destruct (Hlog _ Hr) as [_ H]. destruct (H _ Ha') as (row' & rec' & He').
    by destruct (entries_agree _ _ _ _ _ _ _ _ He He') as [_ <-].
  - intros q c Hc E. destruct (Hlog _ Hc) as [_ (row' & Hr & Hst)]. rewrite E in Hr.
    destruct He as (E1 & E2 & _). rewrite E1 in Hr. injection Hr as <-. by rewrite E2 in Hst.
Qed.

(** ** Running a schedule *)

(** A job that is the only one, up to its end. *)
Lemma alone_steps behind cfg {A} (p : prog ServerWorld ServerError A) tell : ∀ w up log res w',
  run p w = (res, w') →
  rtc (pool_step behind cfg) {| pl_world := w; pl_up := up; pl_jobs := [Job p tell]; pl_log := log |}
    {| pl_world := w'; pl_up := up; pl_jobs := [Job (Done res) tell]; pl_log := log |}.
Proof.
  induction p as [r|B m k IH]; intros w up log res w'; cbn; [by intros [= -> ->]|].
  destruct (m w) as [r1 w1] eqn:E. intros Hrun. eapply rtc_l; [|by eapply IH].
  apply (step_act behind cfg {| pl_world := w; pl_up := up; pl_jobs := [Job (Act m k) tell]; pl_log := log |} 0
    (Job (Act m k) tell) (Job (k r1) tell) w1); [done|]. cbn. by rewrite E.
Qed.

Lemma served behind cfg {A} (p : prog ServerWorld ServerError A) tell w log res w' :
  (∀ s, pl_up s = true → pool_step behind cfg s (spawn (Job p tell) s)) → run p w = (res, w') →
  rtc (pool_step behind cfg) {| pl_world := w; pl_up := true; pl_jobs := []; pl_log := log |}
    {| pl_world := w'; pl_up := true; pl_jobs := []; pl_log := log ++ [tell res] |}.
Proof.
  intros Hsp Hrun. eapply rtc_l; [by apply Hsp|]. cbn. eapply rtc_r; [by apply alone_steps|].
  by apply (step_answer behind cfg {| pl_world := w'; pl_up := true; pl_jobs := [Job (Done res) tell];
    pl_log := log |} 0 (Job (Done res) tell) (tell res)).
Qed.

Lemma run_server_up cfg w rows sg d :
  pw_store w = Build_Sql rows [] →
  with_height_durable (felt_to_field (sc_state_seed cfg)) (felt_to_field (sc_clear_seed cfg))
    (sc_epoch cfg) (sc_xmss_height cfg) (sw_db (pw_signer w)) = (Ok sg, d) →
  run_server cfg w = (Ok tt, {| pw_store := Build_Sql rows [];
    pw_signer := {| sw_signer := sg; sw_db := d |}; pw_root := sc_initial_root cfg |}).
Proof.
  destruct w as [st [sg0 d0] root]. cbn. intros -> Hup.
  unfold run_server, mbind, M_mbind, on_store, on_signer, on_db, zoom.
  cbn [pw_store]. change (NullifierStore_new (Build_Sql rows [])) with (@Ok ServerError _ tt, Build_Sql rows []).
  cbn -[with_height_durable]. by rewrite Hup.
Qed.
End lemmas.

(** ** Witnesses *)

#[local] Existing Instance ToyStark.
#[local] Existing Instance toy_generators.
#[local] Existing Instance toy_keccak.
#[local] Existing Instance toy_libs.

Definition toy_down : ServerWorld :=
  {| pw_store := Build_Sql [] [];
     pw_signer := {| sw_signer := Build_ServerSigner toy_keypair toy_keypair 0 0 false true;
                     sw_db := Build_Sql ∅ [] |};
     pw_root := ZERO |}.

Definition toy_pool : Pool := {| pl_world := toy_down; pl_up := false; pl_jobs := []; pl_log := [] |}.

Lemma toy_boot : ∃ w, run_server ServerConfig_default toy_down = (Ok tt, w) ∧
  server_ok (seeds_for ServerConfig_default) XMSS_TREE_HEIGHT w ∧ quiet w ∧
  can_sign (seeds_for ServerConfig_default) XMSS_TREE_HEIGHT w 0 ∧
  sql_data (pw_store w) = [] ∧ pw_root w = ZERO.
Proof.
  destruct (with_height_durable_fresh (felt_to_field (sc_state_seed ServerConfig_default))
    (felt_to_field (sc_clear_seed ServerConfig_default)) 1 XMSS_TREE_HEIGHT
    ltac:(unfold XMSS_TREE_HEIGHT; lia)) as (sg & Hup & Hok & Hp & He & Hready).
  exists {| pw_store := Build_Sql [] []; pw_signer := {| sw_signer := sg;
    sw_db := Build_Sql (fresh_table sg) [] |}; pw_root := ZERO |}. split.
  - exact (run_server_up ServerConfig_default toy_down [] sg _ eq_refl Hup).
  - split; [split; [apply NoDup_nil_2|exact Hok]|]. split; [split; reflexivity|].
    split; [|split; reflexivity]. split; [exact Hok|split; [exact Hp|apply Hready]].
Qed.

(** A first start and an answered request. *)
Lemma toy_served : ∃ resp w, rtc (pool_step moderate ServerConfig_default) toy_pool
  {| pl_world := w; pl_up := true; pl_jobs := []; pl_log := [Answered toy_req (Ok resp)] |}.
Proof.
  destruct toy_boot as (w & Hboot & Hok & Hq & Hcan & Hrows & Hroot), toy_next_state as [st Hst].
  destruct (process_request_new (AP := toy_echo) _ _ ServerConfig_default 50 toy_req w (str_bytes "proof")
    toy_pv toy_response_hash toy_point 0 st Hok Hq Hcan) as (sig & w' & _ & H & _).
  - rewrite Hroot. apply toy_checked.
  - exact toy_executable.
  - exact Hst.
  - by rewrite Hrows.
  - eexists _, w'. eapply rtc_l; [apply (step_boot _ _ toy_pool [] [] (Ok tt) w); [done|exact Hboot]|].
    cbn. rewrite <- (run_request_steps (AP := toy_echo)) in H.
    apply (served _ _ (request_steps (AP := toy_echo) ServerConfig_default 50 toy_req) (Answered toy_req) w []);
      [|exact H].
    intros s Hs. apply step_request; [done|exact toy_canonical|by split|exact toy_provider_ok].
Qed.

Lemma concurrent_answers_witness : ∃ resp w, rtc (pool_step moderate ServerConfig_default) toy_pool
  {| pl_world := w; pl_up := true; pl_jobs := []; pl_log := [Answered toy_req (Ok resp)] |} ∧
  ∀ q c, Cleared q (Ok c) ∈ [Answered toy_req (Ok resp)] →
    crq_withdrawal_nullifier q ≠ rp_request_nullifier (ar_public_inputs toy_req).
Proof.
  destruct toy_served as (resp & w & Hrun). exists resp, w. split; [exact Hrun|].
  apply (concurrent_answers moderate ServerConfig_default toy_pool _ (λ AP H, H) ltac:(by split)
    ltac:(cbn; unfold XMSS_TREE_HEIGHT; lia) (conj eq_refl (conj eq_refl (conj eq_refl eq_refl))) Hrun
    toy_req resp). left.
Defined.
