(* ===== verification/Routes.v ===== *)
(** * The HTTP surface ([zkapi-server]: routes.rs)

    The route table, the dispatch of a request to the handlers of [Server] and
    the process that serves a sequence of them.  Path patterns, extractors and
    their rejections are axum's: [Axum] lists what the table uses of them. *)
From S2P Require Import Prelude Felt Types Group Ark Starknet CoreV1 Pedersen Wots Xmss.
From S2P Require Import ServerBase Store Signer Processor Server Interleave Threads.

Inductive HttpMethod : Type := GET | HEAD | POST | OtherMethod (name : string).
#[export] Instance HttpMethod_eq_dec : EqDecision HttpMethod.
Proof. solve_decision. Defined.

Record HttpRequest : Type := {
  hq_method : HttpMethod;
  hq_path : string;
  hq_headers : list (string * string);
  hq_body : list byte;
}.

(** What comes back: a handler's value, its error, an extractor's rejection, the
    router's own answers, or nothing (a handler that panicked).  [NoBody] is the
    answer to HEAD. *)
Inductive Reply : Type :=
| ReplyRequest (body : RequestResponse)
| ReplyClearance (body : ClearanceResponse)
| ReplyRecovery (body : RecoveryResponse)
| ReplyError (status : Z) (body : ErrorResponse)
| ReplyRejected (status : Z) (text : string)
| ReplyNotFound
| ReplyMethodNotAllowed
| ReplyDropped
| NoBody (reply : Reply).

(** axum: a pattern matches a path and captures its parameters; a pattern with
    no parameter matches itself only; a last segment [{name}] captures one
    non-empty segment. *)
Class Axum : Type := {
  match_path : string → string → option (list string);
  match_literal p path :
    x7b ∉ str_bytes p → match_path p path = (if decide (p = path) then Some [] else None);
  match_segment prefix name path captured :
    x7b ∉ str_bytes prefix → (∃ q, prefix = q +:+ "/") → x7d ∉ str_bytes name →
    match_path (prefix +:+ "{" +:+ name +:+ "}") path = Some captured ↔
    ∃ seg, path = prefix +:+ seg ∧ seg ≠ "" ∧ (x2f ∉ str_bytes seg) ∧ captured = [seg];
  (** [Json<T>]: the content type and the body. *)
  json_api_request : HttpRequest → result (Z * string) ApiRequest;
  json_clearance_request : HttpRequest → result (Z * string) ClearanceRequest;
  (** [Path<String>]: percent-decoding. *)
  path_string : list string → result (Z * string) string;
}.

Section routes.
Context {SK : Stark} {KC : Keccak} {GN : Generators} {PL : ProofLibs} {AP : ApiProvider} {AX : Axum}.

(** The seconds and milliseconds of the clock while a request is served. *)
Record Clock : Type := { ck_secs : Z; ck_ms : Z }.

Definition Handler : Type := Clock → HttpRequest → list string → ServerWorld → Reply * ServerWorld.

(** A handler behind an extractor. *)
Definition extracted {T A} (extract : HttpRequest → list string → result (Z * string) T)
  (wrap : A → Reply) (h : Clock → T → M ServerWorld (Z * ErrorResponse) A) : Handler :=
  λ ck req captured w,
  match extract req captured with
  | Err (status, text) => (ReplyRejected status text, w)
  | Panic => (ReplyDropped, w)
  | Ok t =>
      let '(r, w') := h ck t w in
      (match r with
       | Ok a => wrap a
       | Err (status, body) => ReplyError status body
       | Panic => ReplyDropped
       end, w')
  end.

Definition create_router (cfg : ServerConfig) : list (string * (HttpMethod * Handler)) :=
  [("/v1/requests",
    (POST, extracted (λ req _, json_api_request req) ReplyRequest
             (λ ck, handle_request cfg (ck_secs ck) (ck_ms ck))));
   ("/v1/withdraw/clearance",
    (POST, extracted (λ req _, json_clearance_request req) ReplyClearance
             (λ ck, handle_clearance cfg (ck_secs ck) (ck_ms ck))));
   ("/v1/requests/{client_request_id}",
    (GET, extracted (λ _ captured, path_string captured) ReplyRecovery
            (λ ck, handle_recovery_by_id (ck_ms ck))));
   ("/v1/nullifiers/{nullifier}",
    (GET, extracted (λ _ captured, path_string captured) ReplyRecovery
            (λ ck, handle_recovery_by_nullifier (ck_ms ck))))].

(** [get(..)] also serves HEAD, without the body. *)
Definition dispatch (cfg : ServerConfig) (ck : Clock) (req : HttpRequest) (w : ServerWorld)
  : Reply * ServerWorld :=
  match list_find (λ route, is_Some (match_path route.1 (hq_path req))) (create_router cfg) with
  | None => (ReplyNotFound, w)
  | Some (_, (pattern, (method, handler))) =>
      let captured := default [] (match_path pattern (hq_path req)) in
      if decide (hq_method req = method) then handler ck req captured w
      else if decide (hq_method req = HEAD ∧ method = GET) then
        let '(reply, w') := handler ck req captured w in (NoBody reply, w')
      else (ReplyMethodNotAllowed, w)
  end.

(** [axum::serve]: the requests of the process's life, in the order they arrive. *)
Fixpoint serve (cfg : ServerConfig) (reqs : list (Clock * HttpRequest)) (w : ServerWorld)
  : list Reply * ServerWorld :=
  match reqs with
  | [] => ([], w)
  | (ck, req) :: reqs =>
      let '(reply, w1) := dispatch cfg ck req w in
      let '(replies, w2) := serve cfg reqs w1 in
      (reply :: replies, w2)
  end.
End routes.

(** ** What the surface lets through *)

Section properties.
Context {SK : Stark} {KC : Keccak} {GN : Generators} {PL : ProofLibs} {AP : ApiProvider} {AX : Axum}.
Implicit Types (cfg : ServerConfig) (w : ServerWorld) (req : HttpRequest).

(** The root stays. *)
Definition same_root w w' : Prop := pw_root w' = pw_root w.
(** Nothing is written: the tables, the signer and the root stay. *)
Definition only_read w w' : Prop :=
  sql_data (pw_store w') = sql_data (pw_store w) ∧ pw_signer w' = pw_signer w ∧ same_root w w'.

#[local] Instance same_root_preorder : PreOrder same_root.
Proof. split; [by intros w|]. intros w1 w2 w3 H1 H2. unfold same_root in *. congruence. Qed.
#[local] Instance only_read_preorder : PreOrder only_read.
Proof.
  split; [by intros w|]. intros w1 w2 w3 (H1 & H2 & H3) (H4 & H5 & H6).
  unfold only_read, same_root in *. split_and!; congruence.
Qed.

Lemma same_root_store {A} (m : M (Sql Rows) ServerError A) : steps same_root (on_store m).
Proof. intros w. unfold on_store, zoom. by destruct (m (pw_store w)). Qed.
Lemma same_root_signer {A} (m : M SignerWorld ServerError A) : steps same_root (on_signer m).
Proof. intros w. unfold on_signer, zoom. by destruct (m (pw_signer w)). Qed.
#[local] Hint Resolve same_root_store same_root_signer same_root_preorder : steps.

Lemma only_read_store {A} (m : M (Sql Rows) ServerError A) :
  (∀ s, sql_data (m s).2 = sql_data s) → steps only_read (on_store m).
Proof. intros Hm w. specialize (Hm (pw_store w)). unfold on_store, zoom. by destruct (m (pw_store w)). Qed.

Lemma query_row_reads {E} p s : sql_data (@query_row E p s).2 = sql_data s.
Proof. destruct (query_row p s) as [r s'] eqn:H. by apply query_row_data in H. Qed.

Ltac root_steps := repeat (intros; match goal with
  | |- steps _ (_ ≫= _) => apply steps_bind; [apply _| |]
  | |- steps _ (let '(_, _) := ?x in _) => destruct x
  | |- steps _ (match ?x with _ => _ end) => destruct x
  | |- steps _ _ => solve [eauto with steps typeclass_instances]
  end).

Lemma root_request cfg now r : steps same_root (process_request cfg now r).
Proof. unfold process_request, execute_request. root_steps. Qed.
Lemma root_clearance cfg now q : steps same_root (process_clearance cfg now q).
Proof. unfold process_clearance. root_steps. Qed.
Lemma reads_by_id id : steps only_read (recover_by_client_id id).
Proof.
  unfold recover_by_client_id. apply steps_bind; [apply _| |intros; apply steps_ret, _].
  apply only_read_store, query_row_reads.
Qed.
Lemma reads_by_nullifier n : steps only_read (recover_by_nullifier n).
Proof.
  unfold recover_by_nullifier. apply steps_bind; [apply _| |intros; apply steps_ret, _].
  apply only_read_store, query_row_reads.
Qed.

Lemma steps_respond {A} R id now_ms (m : M ServerWorld ServerError A) :
  steps R m → steps R (respond id now_ms m).
Proof. intros Hm w. specialize (Hm w). unfold respond. by destruct (m w). Qed.

Lemma extracted_steps {T A} R `{!PreOrder R} (extract : _ → _ → result _ T) wrap
  (h : Clock → T → M ServerWorld (Z * ErrorResponse) A) ck req captured w :
  (∀ t, steps R (h ck t)) → R w (extracted extract wrap h ck req captured w).2.
Proof.
  intros Hh. unfold extracted. destruct (extract req captured) as [t|[s e]|]; [|reflexivity..].
  specialize (Hh t w). destruct (h ck t w) as [[a|[s b]|] w']; exact Hh.
Qed.

(** A value behind an extractor was made by the handler. *)
Lemma extracted_value {T A} (extract : _ → _ → result _ T) (wrap : A → Reply)
  (h : Clock → T → M ServerWorld (Z * ErrorResponse) A) ck req captured w reply w' :
  extracted extract wrap h ck req captured w = (reply, w') →
  (∃ t a, extract req captured = Ok t ∧ h ck t w = (Ok a, w') ∧ reply = wrap a) ∨
  (∃ s b, reply = ReplyError s b) ∨ (∃ s e, reply = ReplyRejected s e) ∨ reply = ReplyDropped.
Proof.
  unfold extracted. destruct (extract req captured) as [t|[s e]|]; [|intros [= <- <-]; eauto 6..].
  destruct (h ck t w) as [[a|[s b]|] w1] eqn:E; intros [= <- <-]; eauto 8.
Qed.

(** What an answer with a value says about the request. *)
Definition justified cfg (root : Felt252) (q : Clock * HttpRequest) (reply : Reply) : Prop :=
  match reply with
  | ReplyRequest _ =>
      hq_method q.2 = POST ∧ hq_path q.2 = "/v1/requests" ∧
      ∃ r signer bytes, json_api_request q.2 = Ok r ∧
        request_checked cfg (ck_secs q.1) root signer r bytes
  | ReplyClearance _ => hq_method q.2 = POST ∧ hq_path q.2 = "/v1/withdraw/clearance"
  | ReplyRecovery _ => hq_method q.2 = GET
  | _ => True
  end.

Lemma literal_matched p path : x7b ∉ str_bytes p → is_Some (match_path p path) → path = p.
Proof. intros Hp [l H]. rewrite match_literal in H by done. by case_decide. Qed.

Ltac no_brace := apply (bool_decide_unpack _); vm_compute; exact I.

Lemma route_steps cfg i pattern method handler ck req captured w :
  create_router cfg !! i = Some (pattern, (method, handler)) →
  same_root w (handler ck req captured w).2 ∧
  (method = GET → only_read w (handler ck req captured w).2).
Proof.
  intros H. destruct i as [|[|[|[|i]]]]; cbn in H; simplify_eq; split; intros;
    try discriminate; apply extracted_steps; try apply _; intros t; apply steps_respond;
    [apply root_request|apply root_clearance| |apply reads_by_id|..].
  - intros w0. apply (reads_by_id t).
  - apply steps_bind; [apply _|apply steps_lift, _|]. intros n w0. apply (reads_by_nullifier n).
  - apply steps_bind; [apply _|apply steps_lift, _|]. intros n. apply reads_by_nullifier.
Qed.

Lemma route_justified cfg i pattern method handler ck req w reply w' :
  create_router cfg !! i = Some (pattern, (method, handler)) →
  is_Some (match_path pattern (hq_path req)) → hq_method req = method →
  handler ck req (default [] (match_path pattern (hq_path req))) w = (reply, w') →
  justified cfg (pw_root w) (ck, req) reply.
Proof.
  intros H Hm Hmeth E.
  destruct i as [|[|[|[|i]]]]; cbn in H; simplify_eq;
    apply extracted_value in E as [(t & a & Ht & E & ->)|[(s & b & ->)|[(s & e & ->)| ->]]];
    try exact I; cbn.
  - apply literal_matched in Hm; [|no_brace]. split; [done|]. split; [exact Hm|]. exists t.
    unfold handle_request, respond in E. destruct (process_request cfg (ck_secs ck) t w) as [r w1] eqn:Ep.
    injection E as E <-. apply map_err_Ok in E. subst r.
    apply request_gate in Ep as [[_ Hno]|[bytes Hc]]; [by destruct (Hno a)|]. eauto.
  - apply literal_matched in Hm; [|no_brace]. by split.
  - done.
  - done.
Qed.

Lemma dispatch_ok cfg ck req w reply w' :
  dispatch cfg ck req w = (reply, w') →
  same_root w w' ∧ (hq_method req ≠ POST → only_read w w') ∧ justified cfg (pw_root w) (ck, req) reply.
Proof.
  unfold dispatch. destruct (list_find _ _) as [[i [pattern [method handler]]]|] eqn:Ef.
  2:{ intros [= <- <-]. split; [reflexivity|]. split; [intros _; reflexivity|exact I]. }
  apply list_find_Some in Ef as (Hi & Hm & _). cbn in Hm.
  set (captured := default [] (match_path pattern (hq_path req))).
  pose proof (route_steps _ _ _ _ _ ck req captured w Hi) as [Hr Hg].
  destruct (handler ck req captured w) as [reply0 w0] eqn:E. cbn in Hr, Hg.
  assert (method = GET ∨ method = POST) as Hmethod.
  { destruct i as [|[|[|[|i]]]]; cbn in Hi; simplify_eq; eauto. }
  destruct (decide (hq_method req = method)) as [Heq|_].
  - intros [= <- <-]. split; [exact Hr|]. split; [|by eapply route_justified].
    intros Hp. apply Hg. destruct Hmethod as [|Hx]; [done|]. by rewrite <- Hx in Hp.
  - destruct (decide _) as [[_ Hget]|_]; intros [= <- <-].
    + split; [exact Hr|]. split; [intros _; by apply Hg|exact I].
    + split; [reflexivity|]. split; [intros _; reflexivity|exact I].
Qed.
Lemma serve_ok cfg reqs w replies w' :
  serve cfg reqs w = (replies, w') →
  same_root w w' ∧ (Forall (λ q, hq_method q.2 ≠ POST) reqs → only_read w w') ∧
  Forall2 (justified cfg (pw_root w)) reqs replies.
Proof.
  revert w replies w'. induction reqs as [|[ck req] reqs IH]; intros w replies w'; cbn.
  { intros [= <- <-]. split; [reflexivity|]. split; [intros _; reflexivity|constructor]. }
  destruct (dispatch cfg ck req w) as [reply w1] eqn:E.
  destruct (serve cfg reqs w1) as [rest w2] eqn:Es. intros [= <- <-].
  apply dispatch_ok in E as (H1 & H2 & H3). apply IH in Es as (H4 & H5 & H6).
  split; [by etrans|]. split.
  - intros [Hq Hqs]%Forall_cons. etrans; [by apply H2|by apply H5].
  - constructor; [exact H3|]. by rewrite <- (H1 : pw_root w1 = pw_root w).
Qed.

(** C30. A started server, over any sequence of HTTP requests of any method, path
    and body: its root stays the initial root of the configuration; requests
    that are not POST write nothing, neither in the store nor in the signer; a
    request is answered with a next state only when it was posted to
    /v1/requests, parses, and passes every check of the gate against that
    initial root, and a clearance only when posted to its own path. *)
Theorem deployed_surface cfg w0 w reqs replies w' :
  run_server cfg w0 = (Ok tt, w) → serve cfg reqs w = (replies, w') →
  pw_root w' = sc_initial_root cfg ∧
  (Forall (λ q, hq_method q.2 ≠ POST) reqs →
     sql_data (pw_store w') = sql_data (pw_store w) ∧ pw_signer w' = pw_signer w) ∧
  Forall2 (justified cfg (sc_initial_root cfg)) reqs replies.
Proof.
  intros Hrun Hserve. apply serve_ok in Hserve as (H1 & H2 & H3).
  assert (pw_root w = sc_initial_root cfg) as Hroot.
  { unfold run_server in Hrun. apply M_bind_inv in Hrun as (? & w1 & _ & Hrun).
    apply M_bind_inv in Hrun as (sg & w2 & _ & Hrun). apply M_bind_inv in Hrun as (? & w3 & _ & Hrun).
    by injection Hrun as <-. }
  unfold same_root in H1. rewrite Hroot in H1, H3. split; [exact H1|]. split; [|exact H3].
  intros Hq. by destruct (H2 Hq) as (H4 & H5 & _).
Qed.
End properties.

(** ** Witness: the toy server behind a toy router *)
#[local] Existing Instance ToyStark.
#[local] Existing Instance toy_generators.
#[local] Existing Instance toy_keccak.
#[local] Existing Instance toy_libs.
#[local] Existing Instance toy_echo.

(** Patterns with at most one parameter, at their end. *)
Fixpoint toy_match (p path : string) : option (list string) :=
  match p, path with
  | EmptyString, EmptyString => Some []
  | EmptyString, String _ _ => None
  | String c p', _ =>
      if decide (Ascii.byte_of_ascii c = x7b) then
        if decide (path ≠ "" ∧ x2f ∉ str_bytes path) then Some [path] else None
      else match path with
           | EmptyString => None
           | String d path' => if decide (c = d) then toy_match p' path' else None
           end
  end.

Lemma toy_match_literal p path :
  x7b ∉ str_bytes p → toy_match p path = (if decide (p = path) then Some [] else None).
Proof.
  revert path. induction p as [|c p IH]; intros [|d path]; cbn; intros H; try done.
  - rewrite (decide_False (P := Ascii.byte_of_ascii c = x7b)); [done|].
    intros E. apply H. rewrite <- E. left.
  - rewrite decide_False by (intros E; apply H; rewrite <- E; left).
    destruct (decide (c = d)) as [<-|Hne].
    + rewrite IH by (intros Hin; apply H; by right).
      destruct (decide (p = path)) as [->|]; [by rewrite decide_True|]. rewrite decide_False; congruence.
    + rewrite decide_False; congruence.
Qed.

Lemma toy_match_segment prefix name path captured : x7b ∉ str_bytes prefix →
  toy_match (prefix +:+ "{" +:+ name +:+ "}") path = Some captured ↔
  ∃ seg, path = prefix +:+ seg ∧ seg ≠ "" ∧ (x2f ∉ str_bytes seg) ∧ captured = [seg].
Proof.
  revert path. induction prefix as [|c prefix IH]; intros path H.
  - assert (toy_match ("" +:+ "{" +:+ name +:+ "}") path
      = if decide (path ≠ "" ∧ x2f ∉ str_bytes path) then Some [path] else None) as -> by by destruct path.
    destruct (decide _) as [Hseg|Hseg]; split.
    + intros [= <-]. exists path. by destruct Hseg.
    + by intros (seg & -> & _ & _ & ->).
    + done.
    + intros (seg & -> & H1 & H2 & _). by destruct Hseg.
  - assert (x7b ∉ str_bytes prefix) as Hp by (intros Hin; apply H; by right).
    change (String c prefix +:+ ?s) with (String c (prefix +:+ s)).
    destruct path as [|d path]; cbn [toy_match]; rewrite (decide_False (P := Ascii.byte_of_ascii c = x7b))
      by (intros E; apply H; cbn; rewrite <- E; left).
    { split; [done|by intros (seg & [=] & _)]. }
    destruct (decide (c = d)) as [<-|Hne].
    + etrans; [apply (IH path Hp)|]. split; intros (seg & E & Hs); exists seg; [by rewrite E|].
      injection E as E. by rewrite E.
    + split; [done|]. intros (seg & E & _). injection E as E _. congruence.
Qed.

(** One body, the toy request. *)
Definition toy_axum : Axum.
Proof.
  refine {| match_path := toy_match;
            json_api_request := λ q, if decide (hq_body q = []) then Err (400%Z, "EOF") else Ok toy_req;
            json_clearance_request := λ _, Err (400%Z, "EOF");
            path_string := λ l, Ok (default "" (head l)) |}.
  - abstract (intros p path; apply toy_match_literal).
  - abstract (intros prefix name path captured H _ _; by apply toy_match_segment).
Defined.
#[local] Existing Instance toy_axum.

Definition toy_http (method : HttpMethod) (path : string) (body : list byte) : Clock * HttpRequest :=
  ({| ck_secs := 50; ck_ms := 50000 |},
   {| hq_method := method; hq_path := path; hq_headers := []; hq_body := body |}).

Lemma toy_dispatch w :
  dispatch ServerConfig_default {| ck_secs := 50; ck_ms := 50000 |} (toy_http POST "/v1/requests" [x31]).2 w
  = let '(r, w1) := handle_request ServerConfig_default 50 50000 toy_req w in
    (match r with Ok a => ReplyRequest a | Err (s, b) => ReplyError s b | Panic => ReplyDropped end, w1).
Proof.
  unfold dispatch, create_router. cbn [list_find fst hq_path toy_http snd].
  assert (is_Some (match_path "/v1/requests" "/v1/requests")) as Hm by by eexists.
  destruct (decide _) as [_|Hno]; [|by destruct Hno].
  destruct (decide (hq_method _ = POST)) as [_|Hno]; [|by destruct Hno].
  unfold extracted. change (json_api_request _) with (@Ok (Z * string) _ toy_req).
  cbn [ck_secs ck_ms]. destruct (handle_request _ _ _ _ w) as [[a|[s b]|] w1]; reflexivity.
Qed.

Lemma deployed_surface_witness : ∃ w replies w',
  run_server ServerConfig_default toy_down = (Ok tt, w) ∧
  serve ServerConfig_default [toy_http POST "/v1/requests" [x31]; toy_http GET "/v2/requests" [];
    toy_http GET "/v1/requests" []] w = (replies, w') ∧
  (∃ resp, replies = [ReplyRequest resp; ReplyNotFound; ReplyMethodNotAllowed]) ∧ pw_root w' = ZERO.
Proof.
  destruct toy_boot as (w & Hboot & Hok & Hq & Hcan & Hrows & Hroot), toy_next_state as [st Hst].
  destruct (process_request_new (AP := toy_echo) _ _ ServerConfig_default 50 toy_req w (str_bytes "proof")
    toy_pv toy_response_hash toy_point 0 st Hok Hq Hcan) as (sig & w' & _ & H & _).
  { rewrite Hroot. apply toy_checked. }
  { exact toy_executable. }
  { exact Hst. }
  { by rewrite Hrows. }
  assert (∃ resp, serve ServerConfig_default [toy_http POST "/v1/requests" [x31];
    toy_http GET "/v2/requests" []; toy_http GET "/v1/requests" []] w
    = ([ReplyRequest resp; ReplyNotFound; ReplyMethodNotAllowed], w')) as [resp Hs].
  { eexists. unfold serve. change (toy_http ?m ?p ?b) with ({| ck_secs := 50; ck_ms := 50000 |}, (toy_http m p b).2).
    cbv iota beta. rewrite (toy_dispatch w). unfold handle_request, respond. rewrite H.
    reflexivity. }
  exists w, [ReplyRequest resp; ReplyNotFound; ReplyMethodNotAllowed], w'. split; [exact Hboot|]. split; [exact Hs|]. split; [by eexists|].
  exact (proj1 (deployed_surface ServerConfig_default toy_down w _ _ w' Hboot Hs)).
Defined.
