(* ===== verification/Cli.v ===== *)
(** * The command line ([zkapi-cli]: main.rs)

    What each command prints and what it does next.  clap's parsing and the
    runtime are outside: a command arrives parsed, and starting the server or
    waiting for Ctrl-C is an action of the process ([Routes] serves). *)
From S2P Require Import Prelude Felt Types Group Ark CoreV2 Starknet CoreV1 Pedersen Wots Xmss.
From S2P Require Import ServerBase Store Signer Processor Server Routes.

Inductive Commands : Type :=
| Keygen
| CmdDeposit (amount : Z)
| CmdConfirmDeposit (note_id amount expiry_ts : Z)
| CmdRequest (payload : string)
| CmdWithdraw (destination : string)
| CmdEscapeWithdraw (destination : string)
| CmdRecover
| CmdStatus
| CmdServer (listen db_path state_seed clear_seed : string) (epoch : Z) (xmss_height : nat)
    (initial_root : string)
| CmdIndexer (listen : string).

Record Cli : Type := {
  cli_state_dir : string;
  cli_server_url : string;
  cli_command : Commands;
}.

(** How [main] goes on after printing: it returns, with an error or not,
    panics, runs the server, or waits for Ctrl-C. *)
Inductive Action : Type :=
| Exit
| ExitError (message : string)
| ExitPanic
| RunServer (config : ServerConfig)
| WaitCtrlC.

(** [Felt252] of 31 random bytes, below [2^248]. *)
Definition keygen_secret (bytes : vec byte 31) : Felt252 := Felt (x00 ::: bytes).

(** The [ServerConfig] the [Server] command builds over the defaults. *)
Definition cli_server_config (listen db_path : string) (state_seed clear_seed : Felt252)
  (epoch : Z) (xmss_height : nat) (initial_root : Felt252) : ServerConfig := {|
  sc_protocol_version := sc_protocol_version ServerConfig_default;
  sc_chain_id := sc_chain_id ServerConfig_default;
  sc_contract_address := sc_contract_address ServerConfig_default;
  sc_request_charge_cap := sc_request_charge_cap ServerConfig_default;
  sc_policy_charge_cap := sc_policy_charge_cap ServerConfig_default;
  sc_policy_enabled := sc_policy_enabled ServerConfig_default;
  sc_listen_addr := listen;
  sc_db_path := db_path;
  sc_recovery_timeout_ms := sc_recovery_timeout_ms ServerConfig_default;
  sc_state_seed := state_seed;
  sc_clear_seed := clear_seed;
  sc_epoch := epoch;
  sc_xmss_height := xmss_height;
  sc_initial_root := initial_root;
  sc_trusted_epoch_roots := sc_trusted_epoch_roots ServerConfig_default;
  sc_proof_mode := sc_proof_mode ServerConfig_default |}.

Section cli.
Context {A : Ark}.

(** [bytes] are the random draw of [Keygen]; [debug] prints a path with [{:?}]. *)
Definition cli_main (debug : string → string) (bytes : vec byte 31) (cli : Cli)
  : list string * Action :=
  match cli_command cli with
  | Keygen =>
      let secret := keygen_secret bytes in
      let commitment := compute_registration_commitment secret in
      (["Secret:     " +:+ to_hex secret; "Commitment: " +:+ to_hex commitment; "";
        "Save the secret securely. Use the commitment for on-chain deposit."], Exit)
  | CmdDeposit amount =>
      (["To deposit " +:+ pretty amount +:+ " tokens:";
        "1. Run `zkapi keygen` to get a commitment";
        "2. Call ZkApiVault.deposit(commitment, amount, siblings) on-chain";
        "3. After tx confirms, run `zkapi confirm-deposit --note-id <id> --amount " +:+
          pretty amount +:+ " --expiry-ts <ts>`"], Exit)
  | CmdConfirmDeposit note_id amount expiry_ts =>
      (["Note " +:+ pretty note_id +:+ " confirmed: amount=" +:+ pretty amount +:+
          ", expiry=" +:+ pretty expiry_ts;
        "Wallet state saved. You can now make API requests."], Exit)
  | CmdRequest payload =>
      let l := str_bytes payload in
      match str_slice (E := string) l 0 (min (length l) 50) with
      | Ok preview =>
          (["Sending request with payload: " +:+ str_of preview +:+ "...";
            "(Mock mode: request would be sent to " +:+ cli_server_url cli +:+ ")"], Exit)
      | _ => ([], ExitPanic)
      end
  | CmdWithdraw destination => (["Initiating mutual-close withdrawal to " +:+ destination], Exit)
  | CmdEscapeWithdraw destination => (["Initiating escape-hatch withdrawal to " +:+ destination], Exit)
  | CmdRecover => (["Checking for pending requests..."; "No pending requests found."], Exit)
  | CmdStatus =>
      (["Wallet state directory: " +:+ debug (cli_state_dir cli);
        "No active note found. Run `zkapi deposit` to get started."], Exit)
  | CmdServer listen db_path state_seed clear_seed epoch xmss_height initial_root =>
      let parsed : result string ServerConfig :=
        state_seed ← map_err (λ e, "invalid --state-seed: " +:+ e) (from_hex state_seed);
        clear_seed ← map_err (λ e, "invalid --clear-seed: " +:+ e) (from_hex clear_seed);
        initial_root ← map_err (λ e, "invalid --initial-root: " +:+ e) (from_hex initial_root);
        Ok (cli_server_config listen db_path state_seed clear_seed epoch xmss_height initial_root) in
      (["Starting zkAPI server on " +:+ listen +:+ " with DB at " +:+ db_path],
       match parsed with
       | Ok config => RunServer config
       | Err e => ExitError e
       | Panic => ExitPanic
       end)
  | CmdIndexer listen =>
      (["Starting zkAPI indexer on " +:+ listen; "Indexer running (mock mode)."], WaitCtrlC)
  end.

(** ** What the commands give *)

(** The secret [Keygen] prints reads back, below the field modulus. *)
Lemma keygen_readable bytes : from_hex (to_hex (keygen_secret bytes)) = Ok (keygen_secret bytes).
Proof.
  rewrite from_hex_to_hex, try_from_bytes_be_spec. fold (felt_val (keygen_secret bytes)).
  rewrite (proj2 (Z.ltb_lt _ _)); [done|].
  rewrite (felt_val_pad 1 31 eq_refl bytes (keygen_secret bytes) eq_refl).
  pose proof (be_val_bound bytes) as [_ H]. rewrite length_vec_to_list in H.
  eapply Z.lt_trans; [exact H|]. done.
Qed.

(** The preview of a long payload stops inside a character. *)
Lemma request_panics debug bytes cli payload : cli_command cli = CmdRequest payload →
  (cli_main debug bytes cli).2 = ExitPanic ↔
  ∃ b, str_bytes payload !! 50%nat = Some b ∧ is_cont b = true.
Proof.
  intros Hc. unfold cli_main. rewrite Hc. set (l := str_bytes payload). unfold str_slice.
  rewrite bool_decide_true by lia. cbn [andb is_char_boundary].
  destruct (decide (50 < length l)%nat) as [Hlt|Hge].
  - rewrite Nat.min_r by lia. destruct (lookup_lt_is_Some_2 l 50 Hlt) as [b Hb].
    cbn [is_char_boundary]. rewrite Hb. destruct (is_cont b) eqn:E; cbn; split; try done; eauto.
    intros (b' & [= <-] & ?). congruence.
  - rewrite Nat.min_l by lia. assert (is_char_boundary l (length l) = true) as ->.
    { destruct l as [|c l]; [done|]. cbn [is_char_boundary length].
      rewrite lookup_ge_None_2 by (cbn; lia). by apply bool_decide_eq_true. }
    split; [done|]. intros (b & Hb & _). apply lookup_lt_Some in Hb. lia.
Qed.

(** The defaults of the [Server] command. *)
Definition default_server : Commands :=
  CmdServer "0.0.0.0:3000" "zkapi-server.db" "0x1" "0x2" 1 XMSS_TREE_HEIGHT "0x0".

Lemma default_server_runs debug bytes dir url :
  ∃ config, cli_main debug bytes {| cli_state_dir := dir; cli_server_url := url; cli_command := default_server |}
    = (["Starting zkAPI server on 0.0.0.0:3000 with DB at zkapi-server.db"], RunServer config) ∧
  sc_initial_root config = ZERO ∧ sc_contract_address config = ZERO ∧ sc_chain_id config = 1%Z ∧
  sc_trusted_epoch_roots config = [].
Proof. by eexists. Qed.
End cli.
