(* ===== verification/Evm.v ===== *)
(** * The vault's Solidity vocabulary (contracts/src: libraries/Types.sol,
    Errors.sol, Events.sol, interfaces/IZkApiProofAdapter.sol)

    Unsigned integers are [Z]; checked arithmetic panics, as the compiler makes
    it; an address is its [uint160] value and a [bytes32] its [uint256] value. *)
From S2P Require Import Prelude.

(** ** Arithmetic of the machine *)

Definition checked {E} (w z : Z) : result E Z := if decide (fits w z) then Ok z else Panic.
Definition checked_add {E} (w a b : Z) : result E Z := checked w (a + b).
Definition checked_sub {E} (w a b : Z) : result E Z := checked w (a - b).
Definition checked_mul {E} (w a b : Z) : result E Z := checked w (a * b).

Definition addmod (a b m : Z) : Z := ((a + b) mod m)%Z.
Definition mulmod (a b m : Z) : Z := ((a * b) mod m)%Z.

Lemma checked_Ok {E} w z x : @checked E w z = Ok x ↔ x = z ∧ fits w z.
Proof. unfold checked. case_decide; naive_solver. Qed.

Lemma checked_ok {E} w z : fits w z → @checked E w z = Ok z.
Proof. intros. by apply checked_Ok. Qed.

(** The modulus both libraries state. *)
Definition SCALAR_MODULUS : Z :=
  21888242871839275222246405745257275088548364400416034343698204186575808495617.

Module sol.

Inductive Error : Type :=
| InvalidNativeValue | NativeTransferFailed | InvalidProof | StaleRoot | ReplayedNullifier
| NoteNotActive | NotePendingWithdrawal | NoteExpired | NoteNotExpired | InsufficientDeposit
| InvalidCommitment | InvalidBalance | ChallengeExpired | ChallengeNotExpired
| NotPendingWithdrawal | InvalidDeploymentBinding | InvalidSiblings | ZeroAmount | Paused
| Unauthorized | InvalidFelt
(** Reverts of the code the vault inherits or calls: the token wrapper, the
    owner check, and the decoder of the call data. *)
| SafeERC20FailedOperation | OwnableUnauthorizedAccount | OwnableInvalidOwner | BadCalldata.

Inductive NoteStatus : Type := Uninitialized | Active | PendingWithdrawal | Closed.
#[export] Instance NoteStatus_eq_dec : EqDecision NoteStatus.
Proof. solve_decision. Defined.

Record Note : Type := {
  commitment : Z;
  depositAmount : Z;
  expiryTs : Z;
  status : NoteStatus;
}.

Record PendingWithdrawalData : Type := {
  exists_ : bool;
  pActiveRoot : Z;
  pWithdrawalNullifier : Z;
  pFinalBalance : Z;
  pDestination : Z;
  challengeDeadline : Z;
}.

(** What a mapping answers for a key that was never written, or deleted. *)
Definition no_note : Note :=
  {| commitment := 0; depositAmount := 0; expiryTs := 0; status := Uninitialized |}.
Definition no_pending : PendingWithdrawalData :=
  {| exists_ := false; pActiveRoot := 0; pWithdrawalNullifier := 0; pFinalBalance := 0;
     pDestination := 0; challengeDeadline := 0 |}.

Record RequestPublicInputs : Type := {
  rProtocolVersion : Z;
  rChainId : Z;
  rContractAddress : Z;
  rActiveRoot : Z;
  rStateSigningKeyX : Z;
  rStateSigningKeyY : Z;
  requestTime : Z;
  solvencyBound : Z;
  requestNullifier : Z;
  authorizationTag : Z;
  anonymousCommitmentX : Z;
  anonymousCommitmentY : Z;
}.

Record WithdrawalPublicInputs : Type := {
  protocolVersion : Z;
  chainId : Z;
  contractAddress : Z;
  activeRoot : Z;
  stateSigningKeyX : Z;
  stateSigningKeyY : Z;
  clearanceSigningKeyX : Z;
  clearanceSigningKeyY : Z;
  noteId : Z;
  finalBalance : Z;
  destination : Z;
  withdrawalNullifier : Z;
  hasClearance : bool;
  withdrawalTag : Z;
}.

(** What the decoder of the call data accepts. *)
Definition request_inputs_ok (i : RequestPublicInputs) : bool :=
  bool_decide (fits 16 (rProtocolVersion i) ∧ fits 64 (rChainId i) ∧ fits 160 (rContractAddress i) ∧
    fits 256 (rActiveRoot i) ∧ fits 256 (rStateSigningKeyX i) ∧ fits 256 (rStateSigningKeyY i) ∧
    fits 64 (requestTime i) ∧ fits 128 (solvencyBound i) ∧ fits 256 (requestNullifier i) ∧
    fits 256 (authorizationTag i) ∧ fits 256 (anonymousCommitmentX i) ∧
    fits 256 (anonymousCommitmentY i)).

Definition withdrawal_inputs_ok (i : WithdrawalPublicInputs) : bool :=
  bool_decide (fits 16 (protocolVersion i) ∧ fits 64 (chainId i) ∧ fits 160 (contractAddress i) ∧
    fits 256 (activeRoot i) ∧ fits 256 (stateSigningKeyX i) ∧ fits 256 (stateSigningKeyY i) ∧
    fits 256 (clearanceSigningKeyX i) ∧ fits 256 (clearanceSigningKeyY i) ∧ fits 32 (noteId i) ∧
    fits 128 (finalBalance i) ∧ fits 160 (destination i) ∧ fits 256 (withdrawalNullifier i) ∧
    fits 256 (withdrawalTag i)).

Inductive Event : Type :=
| NoteDeposited (noteId commitment amount expiryTs newRoot : Z)
| MutualClose (noteId nullifier finalBalance destination : Z)
| EscapeWithdrawalInitiated
    (noteId nullifier finalBalance destination challengeDeadline newRoot : Z)
| EscapeWithdrawalChallenged (noteId nullifier restoredRoot : Z)
| EscapeWithdrawalFinalized (noteId nullifier finalBalance destination : Z)
| ExpiredClaimed (noteId depositAmount newRoot : Z)
| ProofAdapterSet (newAdapter : Z)
| TreasurySet (newTreasury : Z).
End sol.

(** [IZkApiProofAdapter]: the two view calls; each returns or reverts. *)
Class ProofAdapter : Type := {
  assertValidRequest : sol.RequestPublicInputs → list byte → result sol.Error ();
  assertValidWithdrawal : sol.WithdrawalPublicInputs → list byte → result sol.Error ();
}.
