(* ===== verification/SolPoseidon.v ===== *)
(** * Poseidon and Merkle paths in the vault (contracts/src/libraries:
    Bn254Poseidon.sol, MerkleUpdateLib.sol, NoteLeafLib.sol)

    The contract computes the protocol's hashes in its own straight-line code on
    256-bit words.  [ref_sponge] is the textbook duplex sponge over the prime
    field, which the arkworks crate implements ([PoseidonLaw]); the lemmas show
    that the contract's hashes, leaves and paths are those of [CoreV2] and
    [Merkle]. *)
From S2P Require Import Prelude Felt Types Group Ark CoreV2 Merkle Evm.
Import sol.

(** ** Bn254Poseidon.sol *)

Module sol_poseidon.

(** The byte string [ROUND_CONSTANTS], as the 32-byte words [_constant] reads. *)
Definition ROUND_CONSTANTS : list Z := [
   0x0ee9a592ba9a9518d05986d656f40c2114c4993c11bb29938d21d47304cd8e6e;
   0x00f1445235f2148c5986587169fc1bcd887b08d4d00868df5696fff40956e864;
   0x08dff3487e8ac99e1f29a058d0fa80b930c728730b7ab36ce879f3890ecf73f5;
   0x2f27be690fdaee46c3ce28f7532b13c856c35342c84bda6e20966310fadc01d0;
   0x2b2ae1acf68b7b8d2416bebf3d4f6234b763fe04b8043ee48b8327bebca16cf2;
   0x0319d062072bef7ecca5eac06f97d4d55952c175ab6b03eae64b44c7dbf11cfa;
   0x28813dcaebaeaa828a376df87af4a63bc8b7bf27ad49c6298ef7b387bf28526d;
   0x2727673b2ccbc903f181bf38e1c1d40d2033865200c352bc150928adddf9cb78;
   0x234ec45ca27727c2e74abd2b2a1494cd6efbd43e340587d6b8fb9e31e65cc632;
   0x15b52534031ae18f7f862cb2cf7cf760ab10a8150a337b1ccd99ff6e8797d428;
   0x0dc8fad6d9e4b35f5ed9a3d186b79ce38e0e8a8d1b58b132d701d4eecf68d1f6;
   0x1bcd95ffc211fbca600f705fad3fb567ea4eb378f62e1fec97805518a47e4d9c;
   0x10520b0ab721cadfe9eff81b016fc34dc76da36c2578937817cb978d069de559;
   0x1f6d48149b8e7f7d9b257d8ed5fbbaf42932498075fed0ace88a9eb81f5627f6;
   0x1d9655f652309014d29e00ef35a2089bfff8dc1c816f0dc9ca34bdb5460c8705;
   0x04df5a56ff95bcafb051f7b1cd43a99ba731ff67e47032058fe3d4185697cc7d;
   0x0672d995f8fff640151b3d290cedaf148690a10a8c8424a7f6ec282b6e4be828;
   0x099952b414884454b21200d7ffafdd5f0c9a9dcc06f2708e9fc1d8209b5c75b9;
   0x052cba2255dfd00c7c483143ba8d469448e43586a9b4cd9183fd0e843a6b9fa6;
   0x0b8badee690adb8eb0bd74712b7999af82de55707251ad7716077cb93c464ddc;
   0x119b1590f13307af5a1ee651020c07c749c15d60683a8050b963d0a8e4b2bdd1;
   0x03150b7cd6d5d17b2529d36be0f67b832c4acfc884ef4ee5ce15be0bfb4a8d09;
   0x2cc6182c5e14546e3cf1951f173912355374efb83d80898abe69cb317c9ea565;
   0x005032551e6378c450cfe129a404b3764218cadedac14e2b92d2cd73111bf0f9;
   0x233237e3289baa34bb147e972ebcb9516469c399fcc069fb88f9da2cc28276b5;
   0x05c8f4f4ebd4a6e3c980d31674bfbe6323037f21b34ae5a4e80c2d4c24d60280;
   0x0a7b1db13042d396ba05d818a319f25252bcf35ef3aeed91ee1f09b2590fc65b;
   0x2a73b71f9b210cf5b14296572c9d32dbf156e2b086ff47dc5df542365a404ec0;
   0x1ac9b0417abcc9a1935107e9ffc91dc3ec18f2c4dbe7f22976a760bb5c50c460;
   0x12c0339ae08374823fabb076707ef479269f3e4d6cb104349015ee046dc93fc0;
   0x0b7475b102a165ad7f5b18db4e1e704f52900aa3253baac68246682e56e9a28e;
   0x037c2849e191ca3edb1c5e49f6e8b8917c843e379366f2ea32ab3aa88d7f8448;
   0x05a6811f8556f014e92674661e217e9bd5206c5c93a07dc145fdb176a716346f;
   0x29a795e7d98028946e947b75d54e9f044076e87a7b2883b47b675ef5f38bd66e;
   0x20439a0c84b322eb45a3857afc18f5826e8c7382c8a1585c507be199981fd22f;
   0x2e0ba8d94d9ecf4a94ec2050c7371ff1bb50f27799a84b6d4a2a6f2a0982c887;
   0x143fd115ce08fb27ca38eb7cce822b4517822cd2109048d2e6d0ddcca17d71c8;
   0x0c64cbecb1c734b857968dbbdcf813cdf8611659323dbcbfc84323623be9caf1;
   0x028a305847c683f646fca925c163ff5ae74f348d62c2b670f1426cef9403da53;
   0x2e4ef510ff0b6fda5fa940ab4c4380f26a6bcb64d89427b824d6755b5db9e30c;
   0x0081c95bc43384e663d79270c956ce3b8925b4f6d033b078b96384f50579400e;
   0x2ed5f0c91cbd9749187e2fade687e05ee2491b349c039a0bba8a9f4023a0bb38;
   0x30509991f88da3504bbf374ed5aae2f03448a22c76234c8c990f01f33a735206;
   0x1c3f20fd55409a53221b7c4d49a356b9f0a1119fb2067b41a7529094424ec6ad;
   0x10b4e7f3ab5df003049514459b6e18eec46bb2213e8e131e170887b47ddcb96c;
   0x2a1982979c3ff7f43ddd543d891c2abddd80f804c077d775039aa3502e43adef;
   0x1c74ee64f15e1db6feddbead56d6d55dba431ebc396c9af95cad0f1315bd5c91;
   0x07533ec850ba7f98eab9303cace01b4b9e4f2e8b82708cfa9c2fe45a0ae146a0;
   0x21576b438e500449a151e4eeaf17b154285c68f42d42c1808a11abf3764c0750;
   0x2f17c0559b8fe79608ad5ca193d62f10bce8384c815f0906743d6930836d4a9e;
   0x2d477e3862d07708a79e8aae946170bc9775a4201318474ae665b0b1b7e2730e;
   0x162f5243967064c390e095577984f291afba2266c38f5abcd89be0f5b2747eab;
   0x2b4cb233ede9ba48264ecd2c8ae50d1ad7a8596a87f29f8a7777a70092393311;
   0x2c8fbcb2dd8573dc1dbaf8f4622854776db2eece6d85c4cf4254e7c35e03b07a;
   0x1d6f347725e4816af2ff453f0cd56b199e1b61e9f601e9ade5e88db870949da9;
   0x204b0c397f4ebe71ebc2d8b3df5b913df9e6ac02b68d31324cd49af5c4565529;
   0x0c4cb9dc3c4fd8174f1149b3c63c3c2f9ecb827cd7dc25534ff8fb75bc79c502;
   0x174ad61a1448c899a25416474f4930301e5c49475279e0639a616ddc45bc7b54;
   0x1a96177bcf4d8d89f759df4ec2f3cde2eaaa28c177cc0fa13a9816d49a38d2ef;
   0x066d04b24331d71cd0ef8054bc60c4ff05202c126a233c1a8242ace360b8a30a;
   0x2a4c4fc6ec0b0cf52195782871c6dd3b381cc65f72e02ad527037a62aa1bd804;
   0x13ab2d136ccf37d447e9f2e14a7cedc95e727f8446f6d9d7e55afc01219fd649;
   0x1121552fca26061619d24d843dc82769c1b04fcec26f55194c2e3e869acc6a9a;
   0x00ef653322b13d6c889bc81715c37d77a6cd267d595c4a8909a5546c7c97cff1;
   0x0e25483e45a665208b261d8ba74051e6400c776d652595d9845aca35d8a397d3;
   0x29f536dcb9dd7682245264659e15d88e395ac3d4dde92d8c46448db979eeba89;
   0x2a56ef9f2c53febadfda33575dbdbd885a124e2780bbea170e456baace0fa5be;
   0x1c8361c78eb5cf5decfb7a2d17b5c409f2ae2999a46762e8ee416240a8cb9af1;
   0x151aff5f38b20a0fc0473089aaf0206b83e8e68a764507bfd3d0ab4be74319c5;
   0x04c6187e41ed881dc1b239c88f7f9d43a9f52fc8c8b6cdd1e76e47615b51f100;
   0x13b37bd80f4d27fb10d84331f6fb6d534b81c61ed15776449e801b7ddc9c2967;
   0x01a5c536273c2d9df578bfbd32c17b7a2ce3664c2a52032c9321ceb1c4e8a8e4;
   0x2ab3561834ca73835ad05f5d7acb950b4a9a2c666b9726da832239065b7c3b02;
   0x1d4d8ec291e720db200fe6d686c0d613acaf6af4e95d3bf69f7ed516a597b646;
   0x041294d2cc484d228f5784fe7919fd2bb925351240a04b711514c9c80b65af1d;
   0x154ac98e01708c611c4fa715991f004898f57939d126e392042971dd90e81fc6;
   0x0b339d8acca7d4f83eedd84093aef51050b3684c88f8b0b04524563bc6ea4da4;
   0x0955e49e6610c94254a4f84cfbab344598f0e71eaff4a7dd81ed95b50839c82e;
   0x06746a6156eba54426b9e22206f15abca9a6f41e6f535c6f3525401ea0654626;
   0x0f18f5a0ecd1423c496f3820c549c27838e5790e2bd0a196ac917c7ff32077fb;
   0x04f6eeca1751f7308ac59eff5beb261e4bb563583ede7bc92a738223d6f76e13;
   0x2b56973364c4c4f5c1a3ec4da3cdce038811eb116fb3e45bc1768d26fc0b3758;
   0x123769dd49d5b054dcd76b89804b1bcb8e1392b385716a5d83feb65d437f29ef;
   0x2147b424fc48c80a88ee52b91169aacea989f6446471150994257b2fb01c63e9;
   0x0fdc1f58548b85701a6c5505ea332a29647e6f34ad4243c2ea54ad897cebe54d;
   0x12373a8251fea004df68abcf0f7786d4bceff28c5dbbe0c3944f685cc0a0b1f2;
   0x21e4f4ea5f35f85bad7ea52ff742c9e8a642756b6af44203dd8a1f35c1a90035;
   0x16243916d69d2ca3dfb4722224d4c462b57366492f45e90d8a81934f1bc3b147;
   0x1efbe46dd7a578b4f66f9adbc88b4378abc21566e1a0453ca13a4159cac04ac2;
   0x07ea5e8537cf5dd08886020e23a7f387d468d5525be66f853b672cc96a88969a;
   0x05a8c4f9968b8aa3b7b478a30f9a5b63650f19a75e7ce11ca9fe16c0b76c00bc;
   0x20f057712cc21654fbfe59bd345e8dac3f7818c701b9c7882d9d57b72a32e83f;
   0x04a12ededa9dfd689672f8c67fee31636dcd8e88d01d49019bd90b33eb33db69;
   0x27e88d8c15f37dcee44f1e5425a51decbd136ce5091a6767e49ec9544ccd101a;
   0x2feed17b84285ed9b8a5c8c5e95a41f66e096619a7703223176c41ee433de4d1;
   0x1ed7cc76edf45c7c404241420f729cf394e5942911312a0d6972b8bd53aff2b8;
   0x15742e99b9bfa323157ff8c586f5660eac6783476144cdcadf2874be45466b1a;
   0x1aac285387f65e82c895fc6887ddf40577107454c6ec0317284f033f27d0c785;
   0x25851c3c845d4790f9ddadbdb6057357832e2e7a49775f71ec75a96554d67c77;
   0x15a5821565cc2ec2ce78457db197edf353b7ebba2c5523370ddccc3d9f146a67;
   0x2411d57a4813b9980efa7e31a1db5966dcf64f36044277502f15485f28c71727;
   0x002e6f8d6520cd4713e335b8c0b6d2e647e9a98e12f4cd2558828b5ef6cb4c9b;
   0x2ff7bc8f4380cde997da00b616b0fcd1af8f0e91e2fe1ed7398834609e0315d2;
   0x00b9831b948525595ee02724471bcd182e9521f6b7bb68f1e93be4febb0d3cbe;
   0x0a2f53768b8ebf6a86913b0e57c04e011ca408648a4743a87d77adbf0c9c3512;
   0x00248156142fd0373a479f91ff239e960f599ff7e94be69b7f2a290305e1198d;
   0x171d5620b87bfb1328cf8c02ab3f0c9a397196aa6a542c2350eb512a2b2bcda9;
   0x170a4f55536f7dc970087c7c10d6fad760c952172dd54dd99d1045e4ec34a808;
   0x29aba33f799fe66c2ef3134aea04336ecc37e38c1cd211ba482eca17e2dbfae1;
   0x1e9bc179a4fdd758fdd1bb1945088d47e70d114a03f6a0e8b5ba650369e64973;
   0x1dd269799b660fad58f7f4892dfb0b5afeaad869a9c4b44f9c9e1c43bdaf8f09;
   0x22cdbc8b70117ad1401181d02e15459e7ccd426fe869c7c95d1dd2cb0f24af38;
   0x0ef042e454771c533a9f57a55c503fcefd3150f52ed94a7cd5ba93b9c7dacefd;
   0x11609e06ad6c8fe2f287f3036037e8851318e8b08a0359a03b304ffca62e8284;
   0x1166d9e554616dba9e753eea427c17b7fecd58c076dfe42708b08f5b783aa9af;
   0x2de52989431a859593413026354413db177fbf4cd2ac0b56f855a888357ee466;
   0x3006eb4ffc7a85819a6da492f3a8ac1df51aee5b17b8e89d74bf01cf5f71e9ad;
   0x2af41fbb61ba8a80fdcf6fff9e3f6f422993fe8f0a4639f962344c8225145086;
   0x119e684de476155fe5a6b41a8ebc85db8718ab27889e85e781b214bace4827c3;
   0x1835b786e2e8925e188bea59ae363537b51248c23828f047cff784b97b3fd800;
   0x28201a34c594dfa34d794996c6433a20d152bac2a7905c926c40e285ab32eeb6;
   0x083efd7a27d1751094e80fefaf78b000864c82eb571187724a761f88c22cc4e7;
   0x0b6f88a3577199526158e61ceea27be811c16df7774dd8519e079564f61fd13b;
   0x0ec868e6d15e51d9644f66e1d6471a94589511ca00d29e1014390e6ee4254f5b;
   0x2af33e3f866771271ac0c9b3ed2e1142ecd3e74b939cd40d00d937ab84c98591;
   0x0b520211f904b5e7d09b5d961c6ace7734568c547dd6858b364ce5e47951f178;
   0x0b2d722d0919a1aad8db58f10062a92ea0c56ac4270e822cca228620188a1d40;
   0x1f790d4d7f8cf094d980ceb37c2453e957b54a9991ca38bbe0061d1ed6e562d4;
   0x0171eb95dfbf7d1eaea97cd385f780150885c16235a2a6a8da92ceb01e504233;
   0x0c2d0e3b5fd57549329bf6885da66b9b790b40defd2c8650762305381b168873;
   0x1162fb28689c27154e5a8228b4e72b377cbcafa589e283c35d3803054407a18d;
   0x2f1459b65dee441b64ad386a91e8310f282c5a92a89e19921623ef8249711bc0;
   0x1e6ff3216b688c3d996d74367d5cd4c1bc489d46754eb712c243f70d1b53cfbb;
   0x01ca8be73832b8d0681487d27d157802d741a6f36cdc2a0576881f9326478875;
   0x1f7735706ffe9fc586f976d5bdf223dc680286080b10cea00b9b5de315f9650e;
   0x2522b60f4ea3307640a0c2dce041fba921ac10a3d5f096ef4745ca838285f019;
   0x23f0bee001b1029d5255075ddc957f833418cad4f52b6c3f8ce16c235572575b;
   0x2bc1ae8b8ddbb81fcaac2d44555ed5685d142633e9df905f66d9401093082d59;
   0x0f9406b8296564a37304507b8dba3ed162371273a07b1fc98011fcd6ad72205f;
   0x2360a8eb0cc7defa67b72998de90714e17e75b174a52ee4acb126c8cd995f0a8;
   0x15871a5cddead976804c803cbaef255eb4815a5e96df8b006dcbbc2767f88948;
   0x193a56766998ee9e0a8652dd2f3b1da0362f4f54f72379544f957ccdeefb420f;
   0x2a394a43934f86982f9be56ff4fab1703b2e63c8ad334834e4309805e777ae0f;
   0x1859954cfeb8695f3e8b635dcb345192892cd11223443ba7b4166e8876c0d142;
   0x04e1181763050e58013444dbcb99f1902b11bc25d90bbdca408d3819f4fed32b;
   0x0fdb253dee83869d40c335ea64de8c5bb10eb82db08b5e8b1f5e5552bfd05f23;
   0x058cbe8a9a5027bdaa4efb623adead6275f08686f1c08984a9d7c5bae9b4f1c0;
   0x1382edce9971e186497eadb1aeb1f52b23b4b83bef023ab0d15228b4cceca59a;
   0x03464990f045c6ee0819ca51fd11b0be7f61b8eb99f14b77e1e6634601d9e8b5;
   0x23f7bfc8720dc296fff33b41f98ff83c6fcab4605db2eb5aaa5bc137aeb70a58;
   0x0a59a158e3eec2117e6e94e7f0e9decf18c3ffd5e1531a9219636158bbaf62f2;
   0x06ec54c80381c052b58bf23b312ffd3ce2c4eba065420af8f4c23ed0075fd07b;
   0x118872dc832e0eb5476b56648e867ec8b09340f7a7bcb1b4962f0ff9ed1f9d01;
   0x13d69fa127d834165ad5c7cba7ad59ed52e0b0f0e42d7fea95e1906b520921b1;
   0x169a177f63ea681270b1c6877a73d21bde143942fb71dc55fd8a49f19f10c77b;
   0x04ef51591c6ead97ef42f287adce40d93abeb032b922f66ffb7e9a5a7450544d;
   0x256e175a1dc079390ecd7ca703fb2e3b19ec61805d4f03ced5f45ee6dd0f69ec;
   0x30102d28636abd5fe5f2af412ff6004f75cc360d3205dd2da002813d3e2ceeb2;
   0x10998e42dfcd3bbf1c0714bc73eb1bf40443a3fa99bef4a31fd31be182fcc792;
   0x193edd8e9fcf3d7625fa7d24b598a1d89f3362eaf4d582efecad76f879e36860;
   0x18168afd34f2d915d0368ce80b7b3347d1c7a561ce611425f2664d7aa51f0b5d;
   0x29383c01ebd3b6ab0c017656ebe658b6a328ec77bc33626e29e2e95b33ea6111;
   0x10646d2f2603de39a1f4ae5e7771a64a702db6e86fb76ab600bf573f9010c711;
   0x0beb5e07d1b27145f575f1395a55bf132f90c25b40da7b3864d0242dcb1117fb;
   0x16d685252078c133dc0d3ecad62b5c8830f95bb2e54b59abdffbf018d96fa336;
   0x0a6abd1d833938f33c74154e0404b4b40a555bbbec21ddfafd672dd62047f01a;
   0x1a679f5d36eb7b5c8ea12a4c2dedc8feb12dffeec450317270a6f19b34cf1860;
   0x0980fb233bd456c23974d50e0ebfde4726a423eada4e8f6ffbc7592e3f1b93d6;
   0x161b42232e61b84cbf1810af93a38fc0cece3d5628c9282003ebacb5c312c72b;
   0x0ada10a90c7f0520950f7d47a60d5e6a493f09787f1564e5d09203db47de1a0b;
   0x1a730d372310ba82320345a29ac4238ed3f07a8a2b4e121bb50ddb9af407f451;
   0x2c8120f268ef054f817064c369dda7ea908377feaba5c4dffbda10ef58e8c556;
   0x1c7c8824f758753fa57c00789c684217b930e95313bcb73e6e7b8649a4968f70;
   0x2cd9ed31f5f8691c8e39e4077a74faa0f400ad8b491eb3f7b47b27fa3fd1cf77;
   0x23ff4f9d46813457cf60d92f57618399a5e022ac321ca550854ae23918a22eea;
   0x09945a5d147a4f66ceece6405dddd9d0af5a2c5103529407dff1ea58f180426d;
   0x188d9c528025d4c2b67660c6b771b90f7c7da6eaa29d3f268a6dd223ec6fc630;
   0x3050e37996596b7f81f68311431d8734dba7d926d3633595e0c0d8ddf4f0f47f;
   0x15af1169396830a91600ca8102c35c426ceae5461e3f95d89d829518d30afd78;
   0x1da6d09885432ea9a06d9f37f873d985dae933e351466b2904284da3320d8acc;
   0x2796ea90d269af29f5f8acf33921124e4e4fad3dbe658945e546ee411ddaa9cb;
   0x202d7dd1da0f6b4b0325c8b3307742f01e15612ec8e9304a7cb0319e01d32d60;
   0x096d6790d05bb759156a952ba263d672a2d7f9c788f4c831a29dace4c0f8be5f;
   0x054efa1f65b0fce283808965275d877b438da23ce5b13e1963798cb1447d25a4;
   0x1b162f83d917e93edb3308c29802deb9d8aa690113b2e14864ccf6e18e4165f1;
   0x21e5241e12564dd6fd9f1cdd2a0de39eedfefc1466cc568ec5ceb745a0506edc;
   0x1cfb5662e8cf5ac9226a80ee17b36abecb73ab5f87e161927b4349e10e4bdf08;
   0x0f21177e302a771bbae6d8d1ecb373b62c99af346220ac0129c53f666eb24100;
   0x1671522374606992affb0dd7f71b12bec4236aede6290546bcef7e1f515c2320;
   0x0fa3ec5b9488259c2eb4cf24501bfad9be2ec9e42c5cc8ccd419d2a692cad870;
   0x193c0e04e0bd298357cb266c1506080ed36edce85c648cc085e8c57b1ab54bba;
   0x102adf8ef74735a27e9128306dcbc3c99f6f7291cd406578ce14ea2adaba68f8;
   0x0fe0af7858e49859e2a54d6f1ad945b1316aa24bfbdd23ae40a6d0cb70c3eab1;
   0x216f6717bbc7dedb08536a2220843f4e2da5f1daa9ebdefde8a5ea7344798d22;
   0x1da55cc900f0d21f4a3e694391918a1b3c23b2ac773c6b3ef88e2e4228325161
  ]%Z.

Definition MDS : list (list Z) := [
  [0x109b7f411ba0e4c9b2b70caf5c36a7b194be7c11ad24378bfedb68592ba8118b;
   0x16ed41e13bb9c0c66ae119424fddbcbc9314dc9fdbdeea55d6c64543dc4903e0;
   0x2b90bba00fca0589f617e7dcbfe82e0df706ab640ceb247b791a93b74e36736d];
  [0x2969f27eed31a480b9c36c764379dbca2cc8fdd1415c3dded62940bcde0bd771;
   0x2e2419f9ec02ec394c9871c832963dc1b89d743c8c7b964029b2311687b1fe23;
   0x101071f0032379b697315876690f053d148d4e109f5fb065c8aacc55a0f89bfa];
  [0x143021ec686a3f330d5f9e654638065ce6cd79e28c5b3753326244ee65a1b1a7;
   0x176cc029695ad02582a70eff08a6fd99d057e12e58e7d7b6b16cdfabc8ee2911;
   0x19a3fc0a56702bf417ba7fee3802593fa644470307043f7773279cd71d25d5e0]]%Z.

(** [uint256[3] memory state]. *)
Record State : Type := St { st0 : Z; st1 : Z; st2 : Z }.

Definition constant (index : nat) : Z := nth index ROUND_CONSTANTS 0%Z.

Definition pow5 (value : Z) : Z :=
  let square := mulmod value value SCALAR_MODULUS in
  mulmod (mulmod square square SCALAR_MODULUS) value SCALAR_MODULUS.

(** One line of the matrix product. *)
Definition row (m : list Z) (x y z : Z) : Z :=
  addmod (addmod (mulmod x (nth 0 m 0%Z) SCALAR_MODULUS) (mulmod y (nth 1 m 0%Z) SCALAR_MODULUS)
            SCALAR_MODULUS)
    (mulmod z (nth 2 m 0%Z) SCALAR_MODULUS) SCALAR_MODULUS.

Definition round (state : State) (round : nat) (full : bool) : State :=
  let offset := (round * 3)%nat in
  let x := pow5 (addmod (st0 state) (constant offset) SCALAR_MODULUS) in
  let y := addmod (st1 state) (constant (offset + 1)) SCALAR_MODULUS in
  let z := addmod (st2 state) (constant (offset + 2)) SCALAR_MODULUS in
  let y := if full then pow5 y else y in
  let z := if full then pow5 z else z in
  St (row (nth 0 MDS []) x y z) (row (nth 1 MDS []) x y z) (row (nth 2 MDS []) x y z).

(** [n] turns of one of the loops, from round [r]. *)
Fixpoint rounds (n r : nat) (full : bool) (state : State) : State :=
  match n with
  | O => state
  | S n => rounds n (S r) full (round state r full)
  end.

Definition permute (state : State) : State :=
  rounds 4 61 true (rounds 57 4 false (rounds 4 0 true state)).

Definition add1 (state : State) (c : Z) : State :=
  St (st0 state) (addmod (st1 state) c SCALAR_MODULUS) (st2 state).
Definition add2 (state : State) (d : Z) : State :=
  St (st0 state) (st1 state) (addmod (st2 state) d SCALAR_MODULUS).

Definition hash3 (a b c : Z) : Z :=
  let state := permute (St 0 a b) in
  st1 (permute (add1 state c)).

Definition hash5 (a b c d e : Z) : Z :=
  let state := permute (St 0 a b) in
  let state := permute (add2 (add1 state c) d) in
  st1 (permute (add1 state e)).

(** The loop of [hash3PairPath32], from a given level: one turn, and all. *)
Definition pair_step (domain index : Z) (level : nat) (roots : Z * Z) (sibling : Z) : Z * Z :=
  if (Z.land (Z.shiftr index level) 1 =? 0)%Z
  then (hash3 domain roots.1 sibling, hash3 domain roots.2 sibling)
  else (hash3 domain sibling roots.1, hash3 domain sibling roots.2).

Fixpoint pair_path_from (domain index : Z) (level : nat) (roots : Z * Z)
  (siblings : list Z) {struct siblings} : Z * Z :=
  match siblings with
  | [] => roots
  | sibling :: siblings =>
      pair_path_from domain index (S level) (pair_step domain index level roots sibling) siblings
  end.

Definition hash3PairPath32 (domain index oldLeaf newLeaf : Z) (siblings : vec Z 32) : Z * Z :=
  pair_path_from domain index 0 (oldLeaf, newLeaf) siblings.
End sol_poseidon.
Import sol_poseidon.

(** ** MerkleUpdateLib.sol and NoteLeafLib.sol *)

Module MerkleUpdateLib.
Definition DOMAIN_NODE : Z := 0x7a6b6170692e76322e6e6f6465.

Definition poseidonNodeHash (left right : Z) : Z := hash3 DOMAIN_NODE left right.

Definition root_step (index : Z) (level : nat) (root sibling : Z) : Z :=
  if (Z.land (Z.shiftr index level) 1 =? 0)%Z
  then poseidonNodeHash root sibling else poseidonNodeHash sibling root.

Fixpoint computeRoot_from (index : Z) (level : nat) (root : Z) (siblings : list Z)
  {struct siblings} : Z :=
  match siblings with
  | [] => root
  | sibling :: siblings =>
      computeRoot_from index (S level) (root_step index level root sibling) siblings
  end.

Definition computeRoot (index leaf : Z) (siblings : vec Z 32) : Z :=
  computeRoot_from index 0 leaf siblings.

Definition verifyAndUpdate (currentRoot index oldLeaf newLeaf : Z) (siblings : vec Z 32) :
  result Error Z :=
  let '(computedOldRoot, newRoot) := hash3PairPath32 DOMAIN_NODE index oldLeaf newLeaf siblings in
  if decide (computedOldRoot = currentRoot) then Ok newRoot else Err StaleRoot.
End MerkleUpdateLib.

Module NoteLeafLib.
Definition DOMAIN_LEAF : Z := 0x7a6b6170692e76322e6c656166.

Definition computeLeaf (noteId commitment depositAmount expiryTs : Z) : Z :=
  hash5 DOMAIN_LEAF noteId commitment depositAmount expiryTs.
End NoteLeafLib.

(** The first vector of Bn254Poseidon.t.sol. *)
Example rust_vector :
  hash3 1 2 3 = 0x1e706b0afc828a5262be1773734e80df7fa9c0aa25c8fd5dfb008122a62e65ca%Z.
Proof. vm_compute. reflexivity. Qed.

(** ** The textbook sponge *)

Section reference.
Context {F : Type} {PF : PrimeField F}.

Fixpoint fpow (x : F) (n : nat) : F :=
  match n with O => fone | S n => fmul x (fpow x n) end.

Definition apply_ark (constants state : list F) : list F := zip_with fadd state constants.

Definition apply_s_box (alpha : nat) (full : bool) (state : list F) : list F :=
  if full then (λ x, fpow x alpha) <$> state
  else match state with [] => [] | x :: state => fpow x alpha :: state end.

Definition inner (xs ys : list F) : F := foldr fadd fzero (zip_with fmul xs ys).

Definition apply_mds (mds : list (list F)) (state : list F) : list F :=
  (λ r, inner state r) <$> mds.

Definition ref_round (cfg : PoseidonConfig F) (full : bool) (state constants : list F) : list F :=
  apply_mds (pc_mds _ cfg)
    (apply_s_box (Z.to_nat (pc_alpha _ cfg)) full (apply_ark constants state)).

(** Half of the full rounds, the partial rounds, the other half. *)
Definition ref_permute (cfg : PoseidonConfig F) (state : list F) : list F :=
  let half := (pc_full_rounds _ cfg / 2)%nat in
  let start := take half (pc_ark _ cfg) in
  let middle := take (pc_partial_rounds _ cfg) (drop half (pc_ark _ cfg)) in
  let final := drop (half + pc_partial_rounds _ cfg) (pc_ark _ cfg) in
  foldl (ref_round cfg true)
    (foldl (ref_round cfg false) (foldl (ref_round cfg true) state start) middle) final.

(** Add a block of inputs to the rate part, after the capacity. *)
Definition add_block (cfg : PoseidonConfig F) (state block : list F) : list F :=
  let c := pc_capacity _ cfg in
  take c state ++ zip_with fadd (drop c state) (block ++ replicate (length state) fzero).

(** Absorb block after block, permuting in between; [n] bounds the blocks. *)
Fixpoint absorb (cfg : PoseidonConfig F) (n : nat) (state inputs : list F) : list F :=
  let rate := pc_rate _ cfg in
  let state := add_block cfg state (take rate inputs) in
  match n, drop rate inputs with
  | S n, (_ :: _) as inputs => absorb cfg n (ref_permute cfg state) inputs
  | _, _ => state
  end.

(** [new]; [absorb]; [squeeze_native_field_elements(1)[0]]. *)
Definition ref_sponge (cfg : PoseidonConfig F) (inputs : list F) : F :=
  let empty := replicate (pc_capacity _ cfg + pc_rate _ cfg) fzero in
  nth (pc_capacity _ cfg) (ref_permute cfg (absorb cfg (length inputs) empty inputs)) fzero.
End reference.

Definition field_rows {F} `{PrimeField F} (rows : list (list Z)) : list (list F) :=
  List.map (List.map fof) rows.

(** The constants of round [r]. *)
Definition round_row (r : nat) : list Z :=
  [constant (r * 3); constant (r * 3 + 1); constant (r * 3 + 2)].

(** What arkworks documents: its sponge is that one, and the parameters it
    generates for this field are those the contract was generated from. *)
Class PoseidonLaw {A : Ark} : Prop := {
  sponge_law cfg inputs : inputs ≠ [] → poseidon_sponge cfg inputs = ref_sponge cfg inputs;
  mds_law : pc_mds _ config = field_rows MDS;
  ark_law : pc_ark _ config = field_rows (List.map round_row (seq 0 65));
}.

(** ** The contract's hashes are the protocol's *)

Section field_ring.
Context {F : Type} {PF : PrimeField F}.

Lemma fadd_fof a b : fadd (fof a) (fof b) = fof (a + b) :> F.
Proof. apply fint_inj. unfold fadd. rewrite !fint_fof. by rewrite <- Zplus_mod. Qed.

Lemma fmul_fof a b : fmul (fof a) (fof b) = fof (a * b) :> F.
Proof. apply fint_inj. unfold fmul. rewrite !fint_fof. by rewrite <- Zmult_mod. Qed.

Lemma fadd_fzero_r x : fadd x fzero = x :> F.
Proof. rewrite <- (fof_fint x). unfold fzero. by rewrite fadd_fof, Z.add_0_r. Qed.

Lemma fadd_fzero_l x : fadd fzero x = x :> F.
Proof. rewrite <- (fof_fint x). unfold fzero. by rewrite fadd_fof. Qed.
End field_ring.

Section bridge.
Context {A : Ark}.

Lemma fof_addmod a b : fof (addmod a b SCALAR_MODULUS) = fadd (fof a) (fof b) :> Fr.
Proof. rewrite fadd_fof. unfold addmod. rewrite <- (fof_mod (F:=Fr) (a + b)). by rewrite Fr_modulus. Qed.

Lemma fof_mulmod a b : fof (mulmod a b SCALAR_MODULUS) = fmul (fof a) (fof b) :> Fr.
Proof. rewrite fmul_fof. unfold mulmod. rewrite <- (fof_mod (F:=Fr) (a * b)). by rewrite Fr_modulus. Qed.

(** A state of the contract, as the field elements it stands for. *)
Definition frs (s : State) : list Fr := [fof (st0 s); fof (st1 s); fof (st2 s)].

Lemma fof_pow5 x : fof (pow5 x) = fpow (fof x : Fr) 5.
Proof.
  unfold pow5. rewrite !fof_mulmod. cbn [fpow]. unfold fone. rewrite !fmul_fof. f_equal. ring.
Qed.

Lemma fof_row m x y z : length m = 3%nat →
  fof (row m x y z) = inner [fof x; fof y; fof z] (List.map fof m : list Fr).
Proof.
  destruct m as [|a [|b [|c [|]]]]; try done. intros _. unfold row, inner.
  rewrite !fof_addmod, !fof_mulmod. cbn [nth List.map zip_with foldr]. unfold fzero.
  rewrite !fmul_fof, !fadd_fof. f_equal. ring.
Qed.

Context {PL : PoseidonLaw}.

Lemma config_shape : pc_alpha _ config = 5%Z ∧ pc_full_rounds _ config = 8%nat ∧
  pc_partial_rounds _ config = 57%nat ∧ pc_rate _ config = 2%nat ∧ pc_capacity _ config = 1%nat.
Proof. unfold config. by destruct (find_poseidon_ark_and_mds _ _ _ _ _). Qed.

Lemma frs_round s r full :
  frs (round s r full) = ref_round config full (frs s) (List.map fof (round_row r)).
Proof.
  unfold ref_round. rewrite mds_law, (proj1 config_shape). change (Z.to_nat 5) with 5%nat.
  unfold frs, round. cbn zeta. cbn [st0 st1 st2].
  rewrite !fof_row by done. unfold apply_ark, round_row, apply_s_box, apply_mds, field_rows.
  cbn [List.map zip_with MDS nth fmap list_fmap].
  destruct full; cbn [fmap list_fmap]; rewrite ?fof_pow5, !fof_addmod; reflexivity.
Qed.

Lemma frs_rounds n r full s :
  frs (rounds n r full s) =
  foldl (ref_round config full) (frs s) (field_rows (List.map round_row (seq r n))).
Proof.
  revert r s. induction n as [|n IH]; intros r s; [done|].
  cbn [rounds seq List.map field_rows foldl]. by rewrite IH, frs_round.
Qed.

Lemma frs_permute s : frs (permute s) = ref_permute config (frs s).
Proof.
  destruct config_shape as (_ & Hf & Hp & _). unfold permute, ref_permute.
  rewrite Hf, Hp, ark_law, !frs_rounds. reflexivity.
Qed.

(** Words of the field: the last step of a round reduces. *)
Definition reduced (z : Z) : Prop := (0 ≤ z < SCALAR_MODULUS)%Z.

Lemma addmod_reduced a b : reduced (addmod a b SCALAR_MODULUS).
Proof. by apply Z.mod_pos_bound. Qed.

Lemma rounds_reduced n r full s : reduced (st1 (rounds (S n) r full s)).
Proof.
  revert r s. induction n as [|n IH]; intros r s.
  - cbn [rounds]. unfold round. cbn zeta. cbn [st1]. apply addmod_reduced.
  - exact (IH (S r) (round s r full)).
Qed.

Lemma permute_reduced s : reduced (st1 (permute s)).
Proof. apply rounds_reduced. Qed.

Lemma fint_reduced z : reduced z → fint (fof z : Fr) = z.
Proof. intros Hz. apply fint_small. by rewrite Fr_modulus. Qed.

Lemma absorb_more n state i j x inputs :
  absorb config (S n) state (i :: j :: x :: inputs)
  = absorb config n (ref_permute config (add_block config state [i; j])) (x :: inputs).
Proof.
  destruct config_shape as (_ & _ & _ & Hr & _).
  cbn [absorb]. rewrite Hr. reflexivity.
Qed.

Lemma absorb_last n state inputs : (length inputs ≤ 2)%nat →
  absorb config n state inputs = add_block config state inputs.
Proof.
  destruct config_shape as (_ & _ & _ & Hr & _). intros Hl.
  destruct n; cbn [absorb]; rewrite Hr, ?drop_ge, take_ge by done; reflexivity.
Qed.

Lemma add_block_one s c : add_block config (frs s) [fof c] = frs (add1 s c).
Proof.
  destruct config_shape as (_ & _ & _ & _ & Hc). unfold add_block. rewrite Hc.
  unfold frs, add1. cbn [take drop app zip_with length replicate st0 st1 st2].
  by rewrite fof_addmod, fadd_fzero_r.
Qed.

Lemma add_block_two s c d : add_block config (frs s) [fof c; fof d] = frs (add2 (add1 s c) d).
Proof.
  destruct config_shape as (_ & _ & _ & _ & Hc). unfold add_block. rewrite Hc.
  unfold frs, add1, add2. cbn [take drop app zip_with length replicate st0 st1 st2].
  by rewrite !fof_addmod.
Qed.

Lemma add_block_empty a b :
  add_block config (replicate (pc_capacity _ config + pc_rate _ config) fzero) [fof a; fof b]
  = frs (St 0 a b).
Proof.
  destruct config_shape as (_ & _ & _ & Hr & Hc). unfold add_block. rewrite Hr, Hc.
  unfold frs. cbn [take drop app zip_with length replicate st0 st1 st2 Nat.add].
  by rewrite !fadd_fzero_l.
Qed.

Lemma squeeze s : nth (pc_capacity _ config) (ref_permute config (frs s)) fzero = fof (st1 (permute s)).
Proof. destruct config_shape as (_ & _ & _ & _ & ->). by rewrite <- frs_permute. Qed.

Lemma hash3_sponge a b c : hash3 a b c = fint (hash_fields [fof a; fof b; fof c]).
Proof.
  unfold hash_fields, hash3. rewrite sponge_law by done. unfold ref_sponge. cbn [length].
  rewrite absorb_more, absorb_last, add_block_empty, <- frs_permute, add_block_one, squeeze by (cbn; lia).
  by rewrite fint_reduced by apply permute_reduced.
Qed.

Lemma hash5_sponge a b c d e :
  hash5 a b c d e = fint (hash_fields [fof a; fof b; fof c; fof d; fof e]).
Proof.
  unfold hash_fields, hash5. rewrite sponge_law by done. unfold ref_sponge. cbn [length].
  rewrite !absorb_more, absorb_last, add_block_empty, <- frs_permute, add_block_two, <- frs_permute,
    add_block_one, squeeze by (cbn; lia).
  by rewrite fint_reduced by apply permute_reduced.
Qed.

(** ** Leaves, nodes and paths *)

(** The felt of a word: its residue, canonically encoded. *)
Definition uint_felt (z : Z) : Felt252 := field_to_felt (fof z).

Lemma felt_to_field_uint z : felt_to_field (uint_felt z) = fof z.
Proof. unfold uint_felt. by rewrite felt_to_field_to_felt. Qed.

Lemma felt_val_uint z : reduced z → felt_val (uint_felt z) = z.
Proof. intros Hz. unfold uint_felt. by rewrite felt_val_field_to_felt, fint_reduced. Qed.

Lemma uint_felt_val f : canonical f → uint_felt (felt_val f) = f.
Proof. intros Hf. unfold uint_felt. rewrite <- felt_to_field_val. by apply field_to_felt_to_field. Qed.

Lemma uint_felt_0 : uint_felt 0 = ZERO.
Proof.
  assert (0%Z = felt_val ZERO) as -> by by vm_compute. apply uint_felt_val. by vm_compute.
Qed.

Lemma hash_reduced l : reduced (fint (hash_fields l)).
Proof. apply Fr_gt. Qed.

Lemma poseidonNodeHash_felt l r :
  uint_felt (MerkleUpdateLib.poseidonNodeHash l r) = merkle_node (uint_felt l) (uint_felt r).
Proof.
  unfold MerkleUpdateLib.poseidonNodeHash, uint_felt at 1. rewrite hash3_sponge, fof_fint.
  unfold merkle_node, hash_domain. cbn [fmap list_fmap]. by rewrite !felt_to_field_uint.
Qed.

Lemma computeLeaf_felt n c a e :
  fits 32 n → fits 128 a → fits 64 e →
  uint_felt (NoteLeafLib.computeLeaf n c a e) = note_leaf n (uint_felt c) a e.
Proof.
  intros Hn Ha He. assert (fits 64 n) as Hn' by (unfold fits in *; lia).
  unfold NoteLeafLib.computeLeaf, uint_felt at 1. rewrite hash5_sponge, fof_fint.
  unfold note_leaf, hash_domain. cbn [fmap list_fmap].
  rewrite felt_to_field_uint, felt_to_field_from_u64, felt_to_field_from_u128, felt_to_field_from_u64
    by done.
  reflexivity.
Qed.

Lemma computeLeaf_reduced n c a e : reduced (NoteLeafLib.computeLeaf n c a e).
Proof. unfold NoteLeafLib.computeLeaf. rewrite hash5_sponge. apply hash_reduced. Qed.
End bridge.

Section paths.
Context {A : Ark} {PL : PoseidonLaw}.
Import MerkleUpdateLib.

Lemma root_step_felt index level c s :
  uint_felt (root_step index level c s) =
  (if (Z.land (Z.shiftr index level) 1 =? 0)%Z
   then merkle_node (uint_felt c) (uint_felt s) else merkle_node (uint_felt s) (uint_felt c)).
Proof. unfold root_step. by destruct (_ =? _)%Z; rewrite poseidonNodeHash_felt. Qed.

Lemma computeRoot_from_felt index level c sibs :
  uint_felt (computeRoot_from index level c sibs) =
  merkle_root_from index level (uint_felt c) (uint_felt <$> sibs).
Proof.
  revert level c. induction sibs as [|s sibs IH]; intros level c; [done|].
  cbn [computeRoot_from fmap list_fmap merkle_root_from]. rewrite IH, root_step_felt. done.
Qed.

Lemma pair_path_roots index level roots sibs :
  pair_path_from DOMAIN_NODE index level roots sibs =
  (computeRoot_from index level roots.1 sibs, computeRoot_from index level roots.2 sibs).
Proof.
  revert level roots. induction sibs as [|s sibs IH]; intros level [o n]; [done|].
  cbn [pair_path_from computeRoot_from]. rewrite IH. unfold pair_step, root_step, poseidonNodeHash.
  by destruct (_ =? _)%Z.
Qed.

Lemma root_step_reduced index level c s : reduced (root_step index level c s).
Proof.
  unfold root_step, poseidonNodeHash. destruct (_ =? _)%Z; rewrite hash3_sponge; apply hash_reduced.
Qed.

Lemma computeRoot_from_reduced index level c sibs :
  reduced c → reduced (computeRoot_from index level c sibs).
Proof.
  revert level c. induction sibs as [|s sibs IH]; intros level c Hc; [done|].
  cbn [computeRoot_from]. apply IH, root_step_reduced.
Qed.

(** The siblings a call carries, as the felts the wallet computed them from. *)
Definition sibling_felts (siblings : vec Z 32) : vec Felt252 MERKLE_DEPTH := vmap uint_felt siblings.

Lemma computeRoot_felt index leaf siblings :
  reduced leaf →
  computeRoot index leaf siblings
  = felt_val (compute_root index (uint_felt leaf) (sibling_felts siblings)).
Proof.
  intros Hl. rewrite <- merkle_root_equiv. unfold merkle_root, sibling_felts.
  rewrite vec_to_list_map, <- computeRoot_from_felt, felt_val_uint; [done|].
  by apply computeRoot_from_reduced.
Qed.

(** [verifyAndUpdate] accepts exactly the siblings under which the old leaf is in
    the tree, and answers the root with the new leaf in its place. *)
Lemma verifyAndUpdate_spec root index old new siblings :
  reduced old → reduced new →
  verifyAndUpdate root index old new siblings =
  (let path leaf := felt_val (compute_root index (uint_felt leaf) (sibling_felts siblings)) in
   if decide (path old = root) then Ok (path new) else Err StaleRoot).
Proof.
  intros Ho Hn. unfold verifyAndUpdate, hash3PairPath32. rewrite pair_path_roots. cbn [fst snd].
  change (computeRoot_from index 0 ?leaf siblings) with (computeRoot index leaf siblings).
  by rewrite !computeRoot_felt.
Qed.

Lemma compute_root_canonical index leaf siblings : canonical (compute_root index leaf siblings).
Proof.
  unfold compute_root. assert (length (vec_to_list siblings) ≠ 0%nat) as Hl.
  { by rewrite length_vec_to_list. }
  revert Hl. generalize (vec_to_list siblings). clear siblings. intros sibs.
  revert index leaf. induction sibs as [|s sibs IH]; intros index leaf Hl; [done|].
  cbn [compute_root_from]. destruct sibs as [|s' sibs].
  - cbn [compute_root_from]. destruct (_ =? _)%Z; apply hash_domain_canonical.
  - by apply IH.
Qed.

(** Two paths from one leaf to one root are the same path, or show a collision. *)
Lemma siblings_binding idx c sib sib' :
  length sib = length sib' →
  compute_root_from idx c sib = compute_root_from idx c sib' →
  sib = sib' ∨ walk_collision idx c c sib sib'.
Proof.
  revert idx c sib'. induction sib as [|s sib IH]; intros idx c [|s' sib'] Hlen Hr; try done; [by left|].
  injection Hlen as Hlen. rewrite !compute_root_from_cons in Hr. cbn [walk_collision].
  destruct (decide (path_pair idx c s = path_pair idx c s')) as [E|E].
  - rewrite <- E in Hr |- *. apply IH in Hr as [->|Hc]; [left|by right; right|done].
    unfold path_pair in E. destruct (_ =? _)%Z; congruence.
  - right. apply walk_binding in Hr as [Hn|Hc]; [by left|by right|done].
Qed.

Lemma compute_root_siblings_binding idx c (sib sib' : vec Felt252 MERKLE_DEPTH) :
  compute_root idx c sib = compute_root idx c sib' →
  sib = sib' ∨ walk_collision idx c c sib sib'.
Proof.
  intros Hr. destruct (siblings_binding idx c sib sib') as [E|E];
    [by rewrite !length_vec_to_list|exact Hr|left; by apply vec_to_list_inj2|by right].
Qed.
End paths.

#[global] Opaque hash3 hash5.

(** C17. The contract and the Rust core hash alike: on any words, the node hash is
    that of the residues; on a note's fields, the leaf; and [verifyAndUpdate]
    accepts exactly the siblings that [verify_membership] accepts for the old
    leaf, and answers the root [compute_root] gives the new one, so the wallet's
    and the indexer's trees are the vault's. *)
Theorem onchain_hashes_agree `{PoseidonLaw} :
  (∀ l r, MerkleUpdateLib.poseidonNodeHash l r
          = felt_val (merkle_node (uint_felt l) (uint_felt r))) ∧
  (∀ n c a e, fits 32 n → fits 128 a → fits 64 e →
     NoteLeafLib.computeLeaf n c a e = felt_val (compute_note_leaf n (uint_felt c) a e)) ∧
  (∀ root index old new siblings, reduced root → reduced old → reduced new →
     MerkleUpdateLib.verifyAndUpdate root index old new siblings =
     if verify_membership (uint_felt root) index (uint_felt old) (sibling_felts siblings)
     then Ok (felt_val (compute_root index (uint_felt new) (sibling_felts siblings)))
     else Err StaleRoot).
Proof.
  split; [|split].
  - intros l r. rewrite <- poseidonNodeHash_felt, felt_val_uint; [reflexivity|].
    unfold MerkleUpdateLib.poseidonNodeHash. rewrite hash3_sponge. apply hash_reduced.
  - intros n c a e Hn Ha He. unfold compute_note_leaf.
    rewrite <- (computeLeaf_felt n c a e Hn Ha He). symmetry. apply felt_val_uint, computeLeaf_reduced.
  - intros root index old new siblings Hr Ho Hn. rewrite verifyAndUpdate_spec by done. cbn zeta.
    unfold verify_membership. case_decide as E; case_bool_decide as E'; try done.
    + destruct E'. rewrite <- E. symmetry. apply uint_felt_val, compute_root_canonical.
    + destruct E. by rewrite E', felt_val_uint.
Qed.

(** ** An instance with the real hash *)

#[local] Existing Instance toy_Fr.

(** [Toy], with the sponge and the parameters of the program. *)
Definition Real : Ark.
Proof.
  refine {|
    Fr := modint (Z.pos FIELD_MODULUS_pos); Fr_field := toy_Fr; Fr_modulus := eq_refl;
    Fr_inverse := @Fr_inverse Toy; Fr_sqrt := @Fr_sqrt Toy;
    Sc := @Sc Toy; Sc_field := @Sc_field Toy; Sc_modulus := @Sc_modulus Toy;
    EdG := @EdG Toy; EdG_group := @EdG_group Toy; EdG_eq_dec := @EdG_eq_dec Toy;
    generator := @generator Toy; mul_bigint := @mul_bigint Toy;
    COEFF_D := @COEFF_D Toy; COFACTOR := @COFACTOR Toy;
    into_affine := @into_affine Toy; into_group := @into_group Toy;
    is_on_curve := @is_on_curve Toy; is_in_correct_subgroup := @is_in_correct_subgroup Toy;
    find_poseidon_ark_and_mds := λ _ _ _ _ _,
      (field_rows (List.map round_row (seq 0 65)), field_rows MDS);
    poseidon_sponge := ref_sponge |}.
  - exact (@mul_bigint_zmul Toy).
  - exact (@generator_order Toy).
  - exact (@COFACTOR_nonneg Toy).
  - exact (@into_affine_zero Toy).
  - exact (@into_affine_on_curve Toy).
  - exact (@into_group_affine Toy).
  - exact (@into_affine_group Toy).
  - exact (@correct_subgroup Toy).
Defined.

#[export] Instance real_poseidon : @PoseidonLaw Real.
Proof. split; reflexivity || done. Qed.

(** The hash of the three numbers is the vector the Rust tests print. *)
Lemma onchain_hashes_agree_witness :
  MerkleUpdateLib.poseidonNodeHash 2 3
  = felt_val (@merkle_node Real (@uint_felt Real 2) (@uint_felt Real 3)).
Proof. exact (proj1 (@onchain_hashes_agree Real real_poseidon) 2%Z 3%Z). Defined.
