(* ===== verification/Vault.v ===== *)
(** * The vault contract (contracts/src/ZkApiVault.sol)

    The storage, and every external function with its guards in the order of
    the source.  A call that reverts or panics leaves the world as it was
    ([transact]).  The token, the recipients of native payments, and the proof
    adapter are outside: a payment's outcome comes from a schedule, and a
    recipient that runs code can call the vault back ([reenter]): the functions
    under [nonReentrant] revert then, the owner's functions do not. *)
From S2P Require Import Prelude Felt Types Group Ark CoreV2 Merkle Evm SolPoseidon.
Import sol.

Definition PROTOCOL_VERSION : Z := 2.
Definition DEFAULT_CHALLENGE_PERIOD : Z := 86400.
Definition EXPIRY_BUCKET : Z := 86400.
Definition MAX_NATIVE_UNITS : Z := 9007199254740991.
Definition GWEI : Z := 1000000000.

Module vault.

(** The immutables, and the contract's own address. *)
Record Immutables : Type := {
  billingToken : Z;
  nativeAssetWeiPerUnit : Z;
  noteTtl : Z;
  challengePeriod : Z;
  requestChargeCap : Z;
  vStateSigningKeyX : Z;
  vStateSigningKeyY : Z;
  vClearanceSigningKeyX : Z;
  vClearanceSigningKeyY : Z;
  this : Z;
}.

Record Storage : Type := {
  treasury : Z;
  paused : bool;
  currentRoot : Z;
  nextNoteId : Z;
  notes : gmap Z Note;
  pendingWithdrawals : gmap Z PendingWithdrawalData;
  usedNullifiers : gset Z;
}.

Definition note_of (s : Storage) (id : Z) : Note := default no_note (notes s !! id).
Definition pending_of (s : Storage) (id : Z) : PendingWithdrawalData :=
  default no_pending (pendingWithdrawals s !! id).

(** Assignments. *)
Definition set_treasury (a : Z) (s : Storage) : Storage :=
  {| treasury := a; paused := paused s; currentRoot := currentRoot s; nextNoteId := nextNoteId s;
     notes := notes s; pendingWithdrawals := pendingWithdrawals s;
     usedNullifiers := usedNullifiers s |}.
Definition set_paused (b : bool) (s : Storage) : Storage :=
  {| treasury := treasury s; paused := b; currentRoot := currentRoot s; nextNoteId := nextNoteId s;
     notes := notes s; pendingWithdrawals := pendingWithdrawals s;
     usedNullifiers := usedNullifiers s |}.
Definition set_root (r : Z) (s : Storage) : Storage :=
  {| treasury := treasury s; paused := paused s; currentRoot := r; nextNoteId := nextNoteId s;
     notes := notes s; pendingWithdrawals := pendingWithdrawals s;
     usedNullifiers := usedNullifiers s |}.
Definition set_next (n : Z) (s : Storage) : Storage :=
  {| treasury := treasury s; paused := paused s; currentRoot := currentRoot s; nextNoteId := n;
     notes := notes s; pendingWithdrawals := pendingWithdrawals s;
     usedNullifiers := usedNullifiers s |}.
Definition set_note (id : Z) (n : Note) (s : Storage) : Storage :=
  {| treasury := treasury s; paused := paused s; currentRoot := currentRoot s;
     nextNoteId := nextNoteId s; notes := <[id := n]> (notes s);
     pendingWithdrawals := pendingWithdrawals s; usedNullifiers := usedNullifiers s |}.
Definition set_pending (id : Z) (p : option PendingWithdrawalData) (s : Storage) : Storage :=
  {| treasury := treasury s; paused := paused s; currentRoot := currentRoot s;
     nextNoteId := nextNoteId s; notes := notes s;
     pendingWithdrawals := partial_alter (λ _, p) id (pendingWithdrawals s);
     usedNullifiers := usedNullifiers s |}.
Definition use_nullifier (n : Z) (s : Storage) : Storage :=
  {| treasury := treasury s; paused := paused s; currentRoot := currentRoot s;
     nextNoteId := nextNoteId s; notes := notes s; pendingWithdrawals := pendingWithdrawals s;
     usedNullifiers := {[n]} ∪ usedNullifiers s |}.

Definition with_status (n : Note) (st : NoteStatus) : Note :=
  {| commitment := commitment n; depositAmount := depositAmount n; expiryTs := expiryTs n;
     status := st |}.

(** What a transaction sees, with the answer of [owner()]. *)
Record Tx : Type := {
  msg_sender : Z;
  msg_value : Z;
  block_timestamp : Z;
  block_chainid : Z;
  owner : Z;
}.

(** The functions that are not under [nonReentrant]. *)
Inductive AdminCall : Type := SetTreasury (newTreasury : Z) | Pause | Unpause.

(** A payment fails, or succeeds after the recipient has made these calls,
    each from an address. *)
Definition Outcome : Type := option (list (Z * AdminCall)).

Record World : Type := {
  w_storage : Storage;
  (** What deposits brought in less what payments took out, in the asset's base
      unit. *)
  w_held : Z;
  w_log : list Event;
  w_paid : list (Z * Z);
  w_schedule : list Outcome;
}.

Definition w_assign (f : Storage → Storage) (w : World) : World :=
  {| w_storage := f (w_storage w); w_held := w_held w; w_log := w_log w;
     w_paid := w_paid w; w_schedule := w_schedule w |}.
Definition w_emit (ev : Event) (w : World) : World :=
  {| w_storage := w_storage w; w_held := w_held w; w_log := w_log w ++ [ev];
     w_paid := w_paid w; w_schedule := w_schedule w |}.
Definition w_receive (value : Z) (w : World) : World :=
  {| w_storage := w_storage w; w_held := (w_held w + value)%Z; w_log := w_log w;
     w_paid := w_paid w; w_schedule := w_schedule w |}.
Definition w_pay (destination value : Z) (w : World) : World :=
  {| w_storage := w_storage w; w_held := (w_held w - value)%Z; w_log := w_log w;
     w_paid := w_paid w ++ [(destination, value)]; w_schedule := w_schedule w |}.
Definition with_schedule (sch : list Outcome) (w : World) : World :=
  {| w_storage := w_storage w; w_held := w_held w; w_log := w_log w; w_paid := w_paid w;
     w_schedule := sch |}.

Definition V : Type → Type := M World Error.

Definition storage : V Storage := λ w, (Ok (w_storage w), w).
Definition change (f : World → World) : V () := λ w, (Ok tt, f w).
Definition assign (f : Storage → Storage) : V () := change (w_assign f).
Definition emit (ev : Event) : V () := change (w_emit ev).
Definition receive (value : Z) : V () := change (w_receive value).
Definition pay_out (destination value : Z) : V () := change (w_pay destination value).

(** [if (bad) revert e]. *)
Definition require_not (bad : bool) (e : Error) : V () := lift (guard_err bad e).

(** A call, as the chain runs it: what it did is undone unless it returns. *)
Definition transact (m : V ()) (w : World) : result Error () * World :=
  match m w with
  | (Ok _, w') => (Ok tt, w')
  | (r, _) => (r, w)
  end.

(** ** The owner's functions *)

Definition only_owner (tx : Tx) (sender : Z) : V () :=
  require_not (negb (sender =? owner tx)%Z) OwnableUnauthorizedAccount.

Definition setTreasury (tx : Tx) (sender newTreasury : Z) : V () :=
  _ ← only_owner tx sender;
  _ ← require_not (newTreasury =? 0)%Z Unauthorized;
  _ ← assign (set_treasury newTreasury);
  emit (TreasurySet newTreasury).

Definition pause (tx : Tx) (sender : Z) : V () :=
  _ ← only_owner tx sender; assign (set_paused true).
Definition unpause (tx : Tx) (sender : Z) : V () :=
  _ ← only_owner tx sender; assign (set_paused false).

Definition admin (tx : Tx) (sender : Z) (call : AdminCall) : V () :=
  match call with
  | SetTreasury a => setTreasury tx sender a
  | Pause => pause tx sender
  | Unpause => unpause tx sender
  end.

(** ** Payments *)

(** A call whose failure the caller ignores. *)
Definition attempt (m : V ()) : V () := λ w, (Ok tt, (transact m w).2).

(** The calls a recipient makes, one after the other. *)
Fixpoint reenter (tx : Tx) (calls : list (Z * AdminCall)) : V () :=
  match calls with
  | [] => mret tt
  | (sender, call) :: calls =>
      _ ← attempt (admin tx sender call);
      reenter tx calls
  end.

Definition external_call (tx : Tx) (failure : Error) : V () := λ w,
  match w_schedule w with
  | [] => (Ok tt, w)
  | None :: sch => (Err failure, with_schedule sch w)
  | Some calls :: sch => reenter tx calls (with_schedule sch w)
  end.

Definition transfer (d : Immutables) (tx : Tx) (destination amount : Z) : V () :=
  if (nativeAssetWeiPerUnit d =? 0)%Z then
    _ ← pay_out destination amount; external_call tx SafeERC20FailedOperation
  else
    value ← lift (checked_mul 256 amount (nativeAssetWeiPerUnit d));
    _ ← pay_out destination value; external_call tx NativeTransferFailed.

Definition pay (d : Immutables) (tx : Tx) (destination balance operatorShare : Z) : V () :=
  _ ← (if (balance =? 0)%Z then mret tt else transfer d tx destination balance);
  if (operatorShare =? 0)%Z then mret tt
  else s ← storage; transfer d tx (treasury s) operatorShare.

(** ** Guards *)

Definition consumeNullifier (nullifier : Z) : V () :=
  s ← storage;
  _ ← require_not (bool_decide (nullifier ∈ usedNullifiers s)) ReplayedNullifier;
  assign (use_nullifier nullifier).

Definition validateRequestBinding (d : Immutables) (tx : Tx) (inputs : RequestPublicInputs) : V () :=
  require_not
    (negb (rProtocolVersion inputs =? PROTOCOL_VERSION)%Z ||
     negb (rChainId inputs =? block_chainid tx)%Z ||
     negb (rContractAddress inputs =? this d)%Z ||
     negb (rStateSigningKeyX inputs =? vStateSigningKeyX d)%Z ||
     negb (rStateSigningKeyY inputs =? vStateSigningKeyY d)%Z)
    InvalidDeploymentBinding.

Definition validateWithdrawalBinding (d : Immutables) (tx : Tx) (inputs : WithdrawalPublicInputs) :
  V () :=
  require_not
    (negb (protocolVersion inputs =? PROTOCOL_VERSION)%Z ||
     negb (chainId inputs =? block_chainid tx)%Z ||
     negb (contractAddress inputs =? this d)%Z ||
     negb (stateSigningKeyX inputs =? vStateSigningKeyX d)%Z ||
     negb (stateSigningKeyY inputs =? vStateSigningKeyY d)%Z ||
     negb (clearanceSigningKeyX inputs =? vClearanceSigningKeyX d)%Z ||
     negb (clearanceSigningKeyY inputs =? vClearanceSigningKeyY d)%Z)
    InvalidDeploymentBinding.

Definition leaf_of (id : Z) (note : Note) : Z :=
  NoteLeafLib.computeLeaf id (commitment note) (depositAmount note) (expiryTs note).

Definition requireField (value : Z) : result Error () :=
  guard_err (SCALAR_MODULUS <=? value)%Z InvalidFelt.

Definition is_status (n : Note) (st : NoteStatus) : bool := bool_decide (status n = st).

(** ** The guarded functions *)

Section functions.
Context {PA : ProofAdapter} (d : Immutables) (tx : Tx).

Definition when_not_paused : V () := s ← storage; require_not (paused s) Paused.

(** [Errors.InvalidNativeValue]: the value sent must be the amount in wei. *)
Definition wrong_value (amount : Z) : bool :=
  if negb (nativeAssetWeiPerUnit d =? 0)%Z
  then (MAX_NATIVE_UNITS <? amount)%Z
       || negb (msg_value tx =? amount * nativeAssetWeiPerUnit d)%Z
  else negb (msg_value tx =? 0)%Z.

Definition bucketed_expiry : result Error Z :=
  rawExpiry ← checked_add 256 (block_timestamp tx) (noteTtl d);
  t ← checked_add 256 rawExpiry EXPIRY_BUCKET;
  t ← checked_sub 256 t 1;
  checked_mul 256 (t / EXPIRY_BUCKET) EXPIRY_BUCKET.

Definition deposit (commitment amount : Z) (siblings : vec Z 32) : V () :=
  _ ← when_not_paused;
  _ ← require_not (wrong_value amount) InvalidNativeValue;
  _ ← require_not (amount =? 0)%Z ZeroAmount;
  _ ← require_not (commitment =? 0)%Z InvalidCommitment;
  _ ← lift (requireField commitment);
  s ← storage;
  let noteId := nextNoteId s in
  bucketedExpiry ← lift bucketed_expiry;
  _ ← require_not (negb (bool_decide (fits 64 bucketedExpiry))) InvalidFelt;
  let expiry := bucketedExpiry in
  let newLeaf := NoteLeafLib.computeLeaf noteId commitment amount expiry in
  newRoot ← lift (MerkleUpdateLib.verifyAndUpdate (currentRoot s) noteId 0 newLeaf siblings);
  _ ← assign (set_root newRoot);
  _ ← assign (set_note noteId {| commitment := commitment; depositAmount := amount;
                                 expiryTs := expiry; status := Active |});
  next ← lift (checked_add 32 noteId 1);
  _ ← assign (set_next next);
  _ ← (if (nativeAssetWeiPerUnit d =? 0)%Z
       then _ ← receive amount; external_call tx SafeERC20FailedOperation
       else mret tt);
  emit (NoteDeposited noteId commitment amount expiry newRoot).

Definition closeActive (inputs : WithdrawalPublicInputs) (siblings : vec Z 32) : V () :=
  s ← storage;
  let note := note_of s (noteId inputs) in
  _ ← require_not (negb (is_status note Active)) NoteNotActive;
  _ ← require_not (depositAmount note <? finalBalance inputs)%Z InvalidBalance;
  _ ← consumeNullifier (withdrawalNullifier inputs);
  newRoot ← lift (MerkleUpdateLib.verifyAndUpdate (currentRoot s) (noteId inputs)
                    (leaf_of (noteId inputs) note) 0 siblings);
  operatorShare ← lift (checked_sub 128 (depositAmount note) (finalBalance inputs));
  _ ← assign (set_root newRoot);
  _ ← assign (set_note (noteId inputs) (with_status note Closed));
  pay d tx (destination inputs) (finalBalance inputs) operatorShare.

Definition mutualClose (inputs : WithdrawalPublicInputs) (proof : list byte)
  (siblings : vec Z 32) : V () :=
  _ ← when_not_paused;
  _ ← validateWithdrawalBinding d tx inputs;
  _ ← require_not (negb (hasClearance inputs)) InvalidDeploymentBinding;
  s ← storage;
  _ ← require_not (negb (activeRoot inputs =? currentRoot s)%Z) StaleRoot;
  _ ← lift (assertValidWithdrawal inputs proof);
  _ ← closeActive inputs siblings;
  emit (MutualClose (noteId inputs) (withdrawalNullifier inputs) (finalBalance inputs)
          (destination inputs)).

Definition initiateEscapeWithdrawal (inputs : WithdrawalPublicInputs) (proof : list byte)
  (siblings : vec Z 32) : V () :=
  _ ← when_not_paused;
  _ ← validateWithdrawalBinding d tx inputs;
  _ ← require_not (hasClearance inputs) InvalidDeploymentBinding;
  s ← storage;
  _ ← require_not (negb (activeRoot inputs =? currentRoot s)%Z) StaleRoot;
  _ ← lift (assertValidWithdrawal inputs proof);
  let id := noteId inputs in
  let note := note_of s id in
  _ ← require_not (negb (is_status note Active)) NoteNotActive;
  _ ← require_not (depositAmount note <? finalBalance inputs)%Z InvalidBalance;
  _ ← consumeNullifier (withdrawalNullifier inputs);
  let oldRoot := currentRoot s in
  newRoot ← lift (MerkleUpdateLib.verifyAndUpdate oldRoot id (leaf_of id note) 0 siblings);
  deadline ← lift (checked_add 64 (wrap 64 (block_timestamp tx)) (challengePeriod d));
  _ ← assign (set_root newRoot);
  _ ← assign (set_note id (with_status note PendingWithdrawal));
  _ ← assign (set_pending id (Some {| exists_ := true; pActiveRoot := oldRoot;
        pWithdrawalNullifier := withdrawalNullifier inputs; pFinalBalance := finalBalance inputs;
        pDestination := destination inputs; challengeDeadline := deadline |}));
  emit (EscapeWithdrawalInitiated id (withdrawalNullifier inputs) (finalBalance inputs)
          (destination inputs) deadline newRoot).

Definition not_pending (note : Note) (pending : PendingWithdrawalData) : bool :=
  negb (is_status note PendingWithdrawal) || negb (exists_ pending).

Definition challengeEscapeWithdrawal (id : Z) (inputs : RequestPublicInputs) (proof : list byte)
  (siblings : vec Z 32) : V () :=
  s ← storage;
  let note := note_of s id in
  let pending := pending_of s id in
  _ ← require_not (not_pending note pending) NotPendingWithdrawal;
  _ ← require_not (challengeDeadline pending <=? block_timestamp tx)%Z ChallengeExpired;
  _ ← validateRequestBinding d tx inputs;
  _ ← require_not (negb (requestNullifier inputs =? pWithdrawalNullifier pending)%Z)
        ReplayedNullifier;
  _ ← lift (assertValidRequest inputs proof);
  restoredRoot ← lift (MerkleUpdateLib.verifyAndUpdate (currentRoot s) id 0 (leaf_of id note) siblings);
  _ ← assign (set_root restoredRoot);
  _ ← assign (set_note id (with_status note Active));
  _ ← assign (set_pending id None);
  emit (EscapeWithdrawalChallenged id (pWithdrawalNullifier pending) restoredRoot).

Definition finalizeEscapeWithdrawal (id : Z) : V () :=
  s ← storage;
  let note := note_of s id in
  let pending := pending_of s id in
  _ ← require_not (not_pending note pending) NotPendingWithdrawal;
  _ ← require_not (block_timestamp tx <? challengeDeadline pending)%Z ChallengeNotExpired;
  operatorShare ← lift (checked_sub 128 (depositAmount note) (pFinalBalance pending));
  _ ← assign (set_note id (with_status note Closed));
  _ ← assign (set_pending id None);
  _ ← pay d tx (pDestination pending) (pFinalBalance pending) operatorShare;
  emit (EscapeWithdrawalFinalized id (pWithdrawalNullifier pending) (pFinalBalance pending)
          (pDestination pending)).

Definition claimExpired (id : Z) (siblings : vec Z 32) : V () :=
  s ← storage;
  let note := note_of s id in
  _ ← require_not (negb (is_status note Active)) NoteNotActive;
  _ ← require_not (block_timestamp tx <? expiryTs note)%Z NoteNotExpired;
  newRoot ← lift (MerkleUpdateLib.verifyAndUpdate (currentRoot s) id (leaf_of id note) 0 siblings);
  let amount := depositAmount note in
  _ ← assign (set_root newRoot);
  _ ← assign (set_note id (with_status note Closed));
  _ ← transfer d tx (treasury s) amount;
  emit (ExpiredClaimed id amount newRoot).

(** ** Transactions *)

Inductive Call : Type :=
| Deposit (commitment amount : Z) (siblings : vec Z 32)
| MutualCloseCall (inputs : WithdrawalPublicInputs) (proof : list byte) (siblings : vec Z 32)
| InitiateEscape (inputs : WithdrawalPublicInputs) (proof : list byte) (siblings : vec Z 32)
| ChallengeEscape (id : Z) (inputs : RequestPublicInputs) (proof : list byte)
    (siblings : vec Z 32)
| FinalizeEscape (id : Z)
| ClaimExpired (id : Z) (siblings : vec Z 32)
| Admin (call : AdminCall).

Definition siblings_ok (siblings : vec Z 32) : bool :=
  bool_decide (Forall (fits 256) (vec_to_list siblings)).

(** What the generated decoder checks before the body runs. *)
Definition calldata_ok (call : Call) : bool :=
  match call with
  | Deposit commitment amount siblings =>
      bool_decide (fits 256 commitment ∧ fits 128 amount) && siblings_ok siblings
  | MutualCloseCall inputs _ siblings | InitiateEscape inputs _ siblings =>
      withdrawal_inputs_ok inputs && siblings_ok siblings
  | ChallengeEscape id inputs _ siblings =>
      bool_decide (fits 32 id) && request_inputs_ok inputs && siblings_ok siblings
  | FinalizeEscape id => bool_decide (fits 32 id)
  | ClaimExpired id siblings => bool_decide (fits 32 id) && siblings_ok siblings
  | Admin (SetTreasury a) => bool_decide (fits 160 a)
  | Admin _ => true
  end.

Definition payable (call : Call) : bool := match call with Deposit _ _ _ => true | _ => false end.

Definition body (call : Call) : V () :=
  match call with
  | Deposit commitment amount siblings => deposit commitment amount siblings
  | MutualCloseCall inputs proof siblings => mutualClose inputs proof siblings
  | InitiateEscape inputs proof siblings => initiateEscapeWithdrawal inputs proof siblings
  | ChallengeEscape id inputs proof siblings => challengeEscapeWithdrawal id inputs proof siblings
  | FinalizeEscape id => finalizeEscapeWithdrawal id
  | ClaimExpired id siblings => claimExpired id siblings
  | Admin call => admin tx (msg_sender tx) call
  end.

Definition execute (call : Call) : V () :=
  _ ← require_not (negb (calldata_ok call)) BadCalldata;
  _ ← (if payable call then receive (msg_value tx)
       else require_not (negb (msg_value tx =? 0)%Z) BadCalldata);
  body call.
End functions.

(** ** Deployment *)

(** The loop of [_computeEmptyTreeRoot]. *)
Definition empty_root (levels : nat) : Z :=
  Nat.iter levels (λ root, MerkleUpdateLib.poseidonNodeHash root root) 0%Z.

Definition computeEmptyTreeRoot : Z := empty_root 32.

Definition zero_key (x y : Z) : bool := (x =? 0)%Z && (y =? 0)%Z.

Definition constructor (billingToken treasury noteTtl challengePeriod requestChargeCap proofAdapter
    stateSigningKeyX stateSigningKeyY clearanceSigningKeyX clearanceSigningKeyY owner this : Z) :
  result Error (Immutables * Storage) :=
  _ ← guard_err (owner =? 0)%Z OwnableInvalidOwner;
  _ ← guard_err ((treasury =? 0) || (proofAdapter =? 0) || (challengePeriod =? 0))%Z Unauthorized;
  _ ← requireField stateSigningKeyX;
  _ ← requireField stateSigningKeyY;
  _ ← requireField clearanceSigningKeyX;
  _ ← requireField clearanceSigningKeyY;
  _ ← guard_err (zero_key stateSigningKeyX stateSigningKeyY
                 || zero_key clearanceSigningKeyX clearanceSigningKeyY) InvalidDeploymentBinding;
  _ ← guard_err ((billingToken =? 0) && ((requestChargeCap =? 0) || (MAX_NATIVE_UNITS <? requestChargeCap)))%Z
        InvalidBalance;
  Ok ({| billingToken := billingToken;
         nativeAssetWeiPerUnit := if (billingToken =? 0)%Z then GWEI else 0;
         noteTtl := noteTtl; challengePeriod := challengePeriod;
         requestChargeCap := requestChargeCap;
         vStateSigningKeyX := stateSigningKeyX; vStateSigningKeyY := stateSigningKeyY;
         vClearanceSigningKeyX := clearanceSigningKeyX; vClearanceSigningKeyY := clearanceSigningKeyY;
         this := this |},
      {| treasury := treasury; paused := false; currentRoot := computeEmptyTreeRoot;
         nextNoteId := 0; notes := ∅; pendingWithdrawals := ∅; usedNullifiers := ∅ |}).

Definition deployed (s : Storage) : World :=
  {| w_storage := s; w_held := 0; w_log := []; w_paid := []; w_schedule := [] |}.

(** A history: each transaction with the outcomes of its payments. *)
Record Step : Type := { st_tx : Tx; st_call : Call; st_outcomes : list Outcome }.

Definition run_step `{ProofAdapter} (d : Immutables) (w : World) (st : Step) : World :=
  with_schedule [] (transact (execute d (st_tx st) (st_call st)) (with_schedule (st_outcomes st) w)).2.

Definition run_steps `{ProofAdapter} (d : Immutables) (w : World) (steps : list Step) : World :=
  foldl (run_step d) w steps.
End vault.
