(* ===== verification/VaultLedger.v ===== *)
(** * What the vault keeps

    [vault_ok] is the invariant of the vault: the money held is what the open
    notes were worth, every note has a state that fits its pending withdrawal,
    and a nullifier pays at most once.  The functions are first shown to be
    [move]s: changes of the world without the owner's fields and events
    ([norm]), which the theorems then reason about. *)
From S2P Require Import Prelude Felt Types Group Ark CoreV2 Merkle Evm SolPoseidon Vault.
Import sol vault.

(** The asset's base units per unit of account. *)
Definition unit_of (d : Immutables) : Z :=
  if (nativeAssetWeiPerUnit d =? 0)%Z then 1%Z else nativeAssetWeiPerUnit d.

Definition is_admin_event (ev : Event) : bool :=
  match ev with TreasurySet _ | ProofAdapterSet _ => true | _ => false end.

(** The world without what the owner alone changes. *)
Definition norm (w : World) : World :=
  {| w_storage := set_treasury 0 (set_paused false (w_storage w)); w_held := w_held w;
     w_log := filter (λ ev, is_admin_event ev = false) (w_log w); w_paid := w_paid w;
     w_schedule := [] |}.

(** ** The moves *)

Definition move_deposit (d : Immutables) (c a e r : Z) (w : World) : World :=
  let id := nextNoteId (w_storage w) in
  w_emit (NoteDeposited id c a e r)
    (w_receive (a * unit_of d)
      (w_assign (set_next (id + 1))
        (w_assign (set_note id {| commitment := c; depositAmount := a; expiryTs := e;
                                  status := Active |})
          (w_assign (set_root r) w)))).

(** The payments of [_pay], when the treasury is [t]. *)
Definition pays (d : Immutables) (destination balance t share : Z) (w : World) : World :=
  let w := if (balance =? 0)%Z then w else w_pay destination (balance * unit_of d) w in
  if (share =? 0)%Z then w else w_pay t (share * unit_of d) w.

Definition move_status (id : Z) (st : NoteStatus) (w : World) : World :=
  w_assign (set_note id (with_status (note_of (w_storage w) id) st)) w.

Definition move_close (d : Immutables) (i : WithdrawalPublicInputs) (r t : Z) (w : World) : World :=
  let id := noteId i in
  let share := (depositAmount (note_of (w_storage w) id) - finalBalance i)%Z in
  w_emit (MutualClose id (withdrawalNullifier i) (finalBalance i) (destination i))
    (pays d (destination i) (finalBalance i) t share
      (move_status id Closed
        (w_assign (set_root r) (w_assign (use_nullifier (withdrawalNullifier i)) w)))).

Definition move_initiate (i : WithdrawalPublicInputs) (deadline r : Z) (w : World) : World :=
  let id := noteId i in
  w_emit (EscapeWithdrawalInitiated id (withdrawalNullifier i) (finalBalance i) (destination i)
            deadline r)
    (w_assign (set_pending id (Some {| exists_ := true; pActiveRoot := currentRoot (w_storage w);
        pWithdrawalNullifier := withdrawalNullifier i; pFinalBalance := finalBalance i;
        pDestination := destination i; challengeDeadline := deadline |}))
      (move_status id PendingWithdrawal
        (w_assign (set_root r) (w_assign (use_nullifier (withdrawalNullifier i)) w)))).

Definition move_challenge (id r : Z) (w : World) : World :=
  w_emit (EscapeWithdrawalChallenged id (pWithdrawalNullifier (pending_of (w_storage w) id)) r)
    (w_assign (set_pending id None) (move_status id Active (w_assign (set_root r) w))).

Definition move_finalize (d : Immutables) (id t : Z) (w : World) : World :=
  let p := pending_of (w_storage w) id in
  let share := (depositAmount (note_of (w_storage w) id) - pFinalBalance p)%Z in
  w_emit (EscapeWithdrawalFinalized id (pWithdrawalNullifier p) (pFinalBalance p) (pDestination p))
    (pays d (pDestination p) (pFinalBalance p) t share
      (w_assign (set_pending id None) (move_status id Closed w))).

Definition move_expire (d : Immutables) (id r t : Z) (w : World) : World :=
  let a := depositAmount (note_of (w_storage w) id) in
  w_emit (ExpiredClaimed id a r)
    (w_pay t (a * unit_of d) (move_status id Closed (w_assign (set_root r) w))).

(** ** Runs *)

Lemma require_not_inv bad e w u w' : require_not bad e w = (Ok u, w') → bad = false ∧ w' = w.
Proof. unfold require_not. intros [H ->]%lift_inv. by apply guard_err_Ok in H. Qed.

Lemma change_inv f w u w' : change f w = (Ok u, w') → w' = f w.
Proof. by intros [= _ <-]. Qed.

Lemma storage_inv w s w' : storage w = (Ok s, w') → s = w_storage w ∧ w' = w.
Proof. by intros [= <- <-]. Qed.

(** Split a successful run into the guards it passed and the changes it made. *)
Ltac vault_inv H :=
  repeat (let u := fresh "u" in let w := fresh "w" in let R := fresh "R" in
    apply M_bind_inv in H as (u & w & R & H);
    first
    [ apply require_not_inv in R as [R ->]
    | apply storage_inv in R as [-> ->]
    | apply change_inv in R as ->
    | apply lift_inv in R as [R ->]
    | idtac ]).

Lemma transact_inv m w r w' :
  transact m w = (r, w') → (∃ u, m w = (Ok u, w') ∧ r = Ok tt) ∨ (w' = w ∧ r ≠ Ok tt).
Proof.
  unfold transact. destruct (m w) as [[u|e|] w1]; intros [= <- <-]; [left; by exists u|by right..].
Qed.

Lemma admin_norm tx sender call w u w' : admin tx sender call w = (Ok u, w') → norm w' = norm w.
Proof.
  intros H. destruct call; cbn [admin] in H; [unfold setTreasury in H|unfold pause in H|unfold unpause in H];
    unfold only_owner in H; vault_inv H; apply change_inv in H as ->; try reflexivity.
  unfold norm, w_emit, w_assign. cbn. by rewrite filter_app, app_nil_r.
Qed.

Lemma transact_admin_norm tx sender call w : norm (transact (admin tx sender call) w).2 = norm w.
Proof.
  destruct (transact _ w) as [r w'] eqn:E. apply transact_inv in E as [(u & E & _)|[-> _]]; [|done].
  by eapply admin_norm.
Qed.

Lemma reenter_norm tx calls w u w' : reenter tx calls w = (Ok u, w') → norm w' = norm w.
Proof.
  revert w. induction calls as [|[sender call] calls IH]; intros w H; [by injection H as _ <-|].
  cbn [reenter] in H. apply M_bind_inv in H as (? & w1 & R & H). injection R as _ <-.
  apply IH in H as ->. apply transact_admin_norm.
Qed.

Lemma external_call_norm tx e w u w' : external_call tx e w = (Ok u, w') → norm w' = norm w.
Proof.
  unfold external_call. destruct (w_schedule w) as [|[calls|] sch]; [by intros [= _ <-]| |done].
  intros H. by apply reenter_norm in H as ->.
Qed.

Lemma transfer_norm d tx destination amount w u w' :
  transfer d tx destination amount w = (Ok u, w') →
  norm w' = w_pay destination (amount * unit_of d) (norm w).
Proof.
  unfold transfer, unit_of. destruct (_ =? _)%Z; intros H; vault_inv H.
  - apply external_call_norm in H as ->. by rewrite Z.mul_1_r.
  - apply external_call_norm in H as ->. by apply checked_Ok in R as [-> _].
Qed.

Lemma pay_norm d tx destination balance share w u w' :
  pay d tx destination balance share w = (Ok u, w') →
  ∃ t, norm w' = pays d destination balance t share (norm w).
Proof.
  unfold pay, pays. intros H. apply M_bind_inv in H as (v & w1 & R & H).
  assert (norm w1 = if (balance =? 0)%Z then norm w
                    else w_pay destination (balance * unit_of d) (norm w)) as E1.
  { destruct (balance =? 0)%Z; [by injection R as _ <-|by eapply transfer_norm]. }
  rewrite <- E1. destruct (share =? 0)%Z; [exists 0%Z; by injection H as _ <-|].
  vault_inv H. exists (treasury (w_storage w1)). by eapply transfer_norm.
Qed.

#[local] Opaque pay transfer.

(** ** The specification: which moves a call may make *)

Record withdrawal_bound (d : Immutables) (tx : Tx) (i : WithdrawalPublicInputs) : Prop := {
  wb_version : protocolVersion i = PROTOCOL_VERSION;
  wb_chain : chainId i = block_chainid tx;
  wb_contract : contractAddress i = this d;
  wb_state_key : stateSigningKeyX i = vStateSigningKeyX d ∧ stateSigningKeyY i = vStateSigningKeyY d;
  wb_clear_key : clearanceSigningKeyX i = vClearanceSigningKeyX d ∧
                 clearanceSigningKeyY i = vClearanceSigningKeyY d;
}.

Record request_bound (d : Immutables) (tx : Tx) (i : RequestPublicInputs) : Prop := {
  rb_version : rProtocolVersion i = PROTOCOL_VERSION;
  rb_chain : rChainId i = block_chainid tx;
  rb_contract : rContractAddress i = this d;
  rb_state_key : rStateSigningKeyX i = vStateSigningKeyX d ∧ rStateSigningKeyY i = vStateSigningKeyY d;
}.

Section moves.
Context {PA : ProofAdapter} (d : Immutables) (tx : Tx).

(** What a withdrawal of an active note must pass, together or alone. *)
Record leaves (i : WithdrawalPublicInputs) (proof : list byte) (siblings : vec Z 32) (r : Z)
  (w : World) : Prop := {
  lv_inputs : withdrawal_inputs_ok i = true;
  lv_bound : withdrawal_bound d tx i;
  lv_root : activeRoot i = currentRoot (w_storage w);
  lv_proof : assertValidWithdrawal i proof = Ok tt;
  lv_active : status (note_of (w_storage w) (noteId i)) = Active;
  lv_balance : (finalBalance i ≤ depositAmount (note_of (w_storage w) (noteId i)))%Z;
  lv_fresh : withdrawalNullifier i ∉ usedNullifiers (w_storage w);
  lv_path : MerkleUpdateLib.verifyAndUpdate (currentRoot (w_storage w)) (noteId i)
    (leaf_of (noteId i) (note_of (w_storage w) (noteId i))) 0 siblings = Ok r;
}.

Record awaits (id : Z) (w : World) : Prop := {
  aw_id : fits 32 id;
  aw_status : status (note_of (w_storage w) id) = PendingWithdrawal;
  aw_exists : exists_ (pending_of (w_storage w) id) = true;
}.

Inductive moved (w : World) : Call → World → Prop :=
| moved_deposit c a siblings e r :
    (0 < c < SCALAR_MODULUS)%Z → (0 < a)%Z → fits 128 a →
    bucketed_expiry d tx = Ok e → fits 64 e →
    MerkleUpdateLib.verifyAndUpdate (currentRoot (w_storage w)) (nextNoteId (w_storage w)) 0
      (NoteLeafLib.computeLeaf (nextNoteId (w_storage w)) c a e) siblings = Ok r →
    fits 32 (nextNoteId (w_storage w) + 1) →
    moved w (Deposit c a siblings) (move_deposit d c a e r w)
| moved_close i proof siblings r t :
    leaves i proof siblings r w → hasClearance i = true →
    moved w (MutualCloseCall i proof siblings) (move_close d i r t w)
| moved_initiate i proof siblings r deadline :
    leaves i proof siblings r w → hasClearance i = false →
    deadline = (wrap 64 (block_timestamp tx) + challengePeriod d)%Z → fits 64 deadline →
    moved w (InitiateEscape i proof siblings) (move_initiate i deadline r w)
| moved_challenge id i proof siblings r :
    awaits id w → request_inputs_ok i = true → request_bound d tx i →
    (block_timestamp tx < challengeDeadline (pending_of (w_storage w) id))%Z →
    requestNullifier i = pWithdrawalNullifier (pending_of (w_storage w) id) →
    assertValidRequest i proof = Ok tt →
    MerkleUpdateLib.verifyAndUpdate (currentRoot (w_storage w)) id 0
      (leaf_of id (note_of (w_storage w) id)) siblings = Ok r →
    moved w (ChallengeEscape id i proof siblings) (move_challenge id r w)
| moved_finalize id t :
    awaits id w → (challengeDeadline (pending_of (w_storage w) id) ≤ block_timestamp tx)%Z →
    moved w (FinalizeEscape id) (move_finalize d id t w)
| moved_expire id siblings r t :
    fits 32 id → status (note_of (w_storage w) id) = Active →
    (expiryTs (note_of (w_storage w) id) ≤ block_timestamp tx)%Z →
    MerkleUpdateLib.verifyAndUpdate (currentRoot (w_storage w)) id
      (leaf_of id (note_of (w_storage w) id)) 0 siblings = Ok r →
    moved w (ClaimExpired id siblings) (move_expire d id r t w)
| moved_admin call : moved w (Admin call) w.

Lemma is_status_false n st : negb (is_status n st) = false → status n = st.
Proof. unfold is_status. intros H. by bool_facts. Qed.

Lemma withdrawal_binding_inv i w u w' :
  validateWithdrawalBinding d tx i w = (Ok u, w') → withdrawal_bound d tx i ∧ w' = w.
Proof.
  intros [H ->]%require_not_inv. bool_facts. split; [|done]. by split.
Qed.

Lemma request_binding_inv i w u w' :
  validateRequestBinding d tx i w = (Ok u, w') → request_bound d tx i ∧ w' = w.
Proof. intros [H ->]%require_not_inv. bool_facts. split; [|done]. by split. Qed.

(** The guards of a run, as propositions. *)
Ltac vault_facts :=
  repeat match goal with
  | H : checked_add _ _ _ = Ok _ |- _ => apply checked_Ok in H as [-> H]
  | H : checked_sub _ _ _ = Ok _ |- _ => apply checked_Ok in H as [-> H]
  | H : negb (is_status _ _) = false |- _ => apply is_status_false in H
  | H : validateWithdrawalBinding _ _ _ _ = (Ok _, _) |- _ =>
      apply withdrawal_binding_inv in H as [H ->]
  | H : validateRequestBinding _ _ _ _ = (Ok _, _) |- _ =>
      apply request_binding_inv in H as [H ->]
  | H : requireField _ = Ok _ |- _ => unfold requireField in H; apply guard_err_Ok in H
  | H : negb (_ && _) = false |- _ => apply negb_false_iff, andb_true_iff in H as [? ?]
  | H : _ && _ = true |- _ => apply andb_true_iff in H as [? ?]
  | H : not_pending _ _ = false |- _ => apply orb_false_iff in H as [? ?]
  | u : () |- _ => destruct u
  end; bool_facts; cbn [w_storage w_receive w_assign w_emit w_pay currentRoot nextNoteId notes
    pendingWithdrawals usedNullifiers set_root set_note set_pending use_nullifier set_next] in *.

Lemma norm_emit ev w : is_admin_event ev = false → norm (w_emit ev w) = w_emit ev (norm w).
Proof.
  intros Hev. unfold norm, w_emit. cbn. f_equal. rewrite filter_app. f_equal.
  by rewrite filter_cons_True.
Qed.

(** What a deposit brings in, by value or by transfer. *)
Lemma deposit_received a w w1 f :
  wrong_value d tx a = false →
  (∀ v, norm (w_receive v w) = w_receive v (norm w)) →
  (∀ v, norm (f (w_receive v w)) = w_receive v (norm (f w))) →
  (if (nativeAssetWeiPerUnit d =? 0)%Z
   then _ ← receive a; external_call tx SafeERC20FailedOperation else mret ())
    (f (w_receive (msg_value tx) w)) = (Ok (), w1) →
  norm w1 = w_receive (a * unit_of d) (norm (f w)).
Proof.
  unfold wrong_value, unit_of. intros Hv _ Hf. destruct (_ =? _)%Z; cbn [negb] in Hv; intros H.
  - apply M_bind_inv in H as (? & w2 & R & H). injection R as _ <-.
    apply external_call_norm in H as ->. bool_facts.
    change (norm (w_receive a ?x)) with (w_receive a (norm x)). rewrite Hf, Hv.
    unfold w_receive. cbn. f_equal. lia.
  - injection H as <-. rewrite Hf. bool_facts. by rewrite Hv.
Qed.

Lemma moved_to w call n n' : moved w call n → n = n' → moved w call n'.
Proof. by intros H <-. Qed.

(** A guard of a move, from the guards of the run. *)
Ltac vault_guard := first [eassumption | done | by split | by eauto].

Lemma deposit_moved c a siblings w u w' :
  execute d tx (Deposit c a siblings) w = (Ok u, w') →
  moved (norm w) (Deposit c a siblings) (norm w').
Proof.
  intros H. unfold execute in H. cbn [payable body calldata_ok] in H. vault_inv H.
  unfold deposit in H. vault_inv H. apply change_inv in H as ->. vault_facts. destruct_and!.
  rewrite norm_emit by done.
  match goal with R : (if _ then _ else _) (w_assign ?f (w_assign ?g (w_assign ?h _))) = _ |- _ =>
    apply (deposit_received _ _ _ (λ w, w_assign f (w_assign g (w_assign h w)))) in R as -> end;
    [|done..].
  eapply moved_to; [eapply moved_deposit; try done; unfold fits in *; try lia; eassumption|reflexivity].
Qed.

Lemma consume_inv n w u w' :
  consumeNullifier n w = (Ok u, w') →
  (n ∉ usedNullifiers (w_storage w)) ∧ w' = w_assign (use_nullifier n) w.
Proof.
  unfold consumeNullifier. intros H. vault_inv H. apply change_inv in H as ->. by bool_facts.
Qed.

Lemma closed_moved i proof siblings w u w' :
  execute d tx (MutualCloseCall i proof siblings) w = (Ok u, w') →
  moved (norm w) (MutualCloseCall i proof siblings) (norm w').
Proof.
  intros H. unfold execute in H. cbn [payable body calldata_ok] in H. vault_inv H.
  unfold mutualClose in H. vault_inv H. apply change_inv in H as ->.
  match goal with R : closeActive _ _ _ _ _ = _ |- _ =>
    unfold closeActive in R; vault_inv R; rename R into Rpay end.
  match goal with R : consumeNullifier _ _ = _ |- _ => apply consume_inv in R as [? ->] end.
  vault_facts. rewrite norm_emit by done. apply pay_norm in Rpay as [t ->].
  eapply moved_to; [eapply moved_close; [split; vault_guard|done]|reflexivity].
Qed.

Lemma initiated_moved i proof siblings w u w' :
  execute d tx (InitiateEscape i proof siblings) w = (Ok u, w') →
  moved (norm w) (InitiateEscape i proof siblings) (norm w').
Proof.
  intros H. unfold execute in H. cbn [payable body calldata_ok] in H. vault_inv H.
  unfold initiateEscapeWithdrawal in H. vault_inv H. apply change_inv in H as ->.
  match goal with R : consumeNullifier _ _ = _ |- _ => apply consume_inv in R as [? ->] end.
  vault_facts. rewrite norm_emit by done.
  eapply moved_to; [eapply moved_initiate; [split; vault_guard|vault_guard..]|reflexivity].
Qed.

Lemma challenged_moved id i proof siblings w u w' :
  execute d tx (ChallengeEscape id i proof siblings) w = (Ok u, w') →
  moved (norm w) (ChallengeEscape id i proof siblings) (norm w').
Proof.
  intros H. unfold execute in H. cbn [payable body calldata_ok] in H. vault_inv H.
  unfold challengeEscapeWithdrawal in H. vault_inv H. apply change_inv in H as ->.
  vault_facts. rewrite norm_emit by done.
  eapply moved_to; [eapply moved_challenge; vault_guard|reflexivity].
Qed.

Lemma finalized_moved id w u w' :
  execute d tx (FinalizeEscape id) w = (Ok u, w') →
  moved (norm w) (FinalizeEscape id) (norm w').
Proof.
  intros H. unfold execute in H. cbn [payable body calldata_ok] in H. vault_inv H.
  unfold finalizeEscapeWithdrawal in H. vault_inv H. apply change_inv in H as ->.
  match goal with R : pay _ _ _ _ _ _ = _ |- _ => apply pay_norm in R as [t R] end.
  vault_facts. rewrite norm_emit by done.
  match goal with R : norm _ = pays _ _ _ _ _ _ |- _ => rewrite R end.
  eapply moved_to; [eapply moved_finalize with (t := t); vault_guard|reflexivity].
Qed.

Lemma expired_moved id siblings w u w' :
  execute d tx (ClaimExpired id siblings) w = (Ok u, w') →
  moved (norm w) (ClaimExpired id siblings) (norm w').
Proof.
  intros H. unfold execute in H. cbn [payable body calldata_ok] in H. vault_inv H.
  unfold claimExpired in H. vault_inv H. apply change_inv in H as ->.
  match goal with R : transfer _ _ _ _ _ = _ |- _ => apply transfer_norm in R end.
  vault_facts. rewrite norm_emit by done.
  match goal with R : norm _ = w_pay _ _ _ |- _ => rewrite R end.
  eapply moved_to; [eapply moved_expire; vault_guard|reflexivity].
Qed.

(** The contract refines the moves. *)
Lemma execute_moved call w u w' :
  execute d tx call w = (Ok u, w') → moved (norm w) call (norm w').
Proof.
  destruct call; [apply deposit_moved|apply closed_moved|apply initiated_moved|apply challenged_moved|
    apply finalized_moved|apply expired_moved|].
  intros H. unfold execute in H. cbn [payable body] in H. vault_inv H.
  apply admin_norm in H as ->. apply moved_admin.
Qed.
End moves.

(** A transaction of a history: a move, or nothing. *)
Lemma run_step_moved `{ProofAdapter} d w st :
  norm (run_step d w st) = norm w ∨
  (is_ok (transact (execute d (st_tx st) (st_call st)) (with_schedule (st_outcomes st) w)).1 = true ∧
   moved d (st_tx st) (norm w) (st_call st) (norm (run_step d w st))).
Proof.
  unfold run_step. destruct (transact _ _) as [r w'] eqn:E. cbn [fst snd].
  change (norm (with_schedule [] w')) with (norm w').
  apply transact_inv in E as [(u & E & ->)|[-> _]]; [right; split; [done|]|by left].
  apply execute_moved in E. exact E.
Qed.

(** ** The invariant *)

(** What the vault owes on account of a note. *)
Definition liability (n : Note) : Z :=
  match status n with Active | PendingWithdrawal => depositAmount n | _ => 0%Z end.

Definition liabilities (m : gmap Z Note) : Z := map_fold (λ _ n acc, (liability n + acc)%Z) 0%Z m.

(** The nullifiers that withdrew. *)
Definition spent_by (ev : Event) : option Z :=
  match ev with
  | MutualClose _ n _ _ | EscapeWithdrawalInitiated _ n _ _ _ _ => Some n
  | _ => None
  end.
Definition spent (log : list Event) : list Z := omap spent_by log.

Definition deposited_by (ev : Event) : Z :=
  match ev with NoteDeposited _ _ a _ _ => a | _ => 0%Z end.
Definition deposited (log : list Event) : Z := foldr (λ ev acc, (deposited_by ev + acc)%Z) 0%Z log.
Definition paid_total (l : list (Z * Z)) : Z := foldr (λ p acc, (p.2 + acc)%Z) 0%Z l.

Record note_ok (n : Note) : Prop := {
  no_commitment : (0 ≤ commitment n < SCALAR_MODULUS)%Z;
  no_amount : fits 128 (depositAmount n);
  no_expiry : fits 64 (expiryTs n);
}.

Record notes_ok (s : Storage) : Prop := {
  vo_next : fits 32 (nextNoteId s);
  vo_ids id : status (note_of s id) ≠ Uninitialized ↔ (0 ≤ id < nextNoteId s)%Z;
  vo_note id : note_ok (note_of s id);
  vo_pending id : exists_ (pending_of s id) = true ↔ status (note_of s id) = PendingWithdrawal;
  vo_claim id : status (note_of s id) = PendingWithdrawal →
    (0 ≤ pFinalBalance (pending_of s id) ≤ depositAmount (note_of s id))%Z ∧
    pWithdrawalNullifier (pending_of s id) ∈ usedNullifiers s;
}.

(** What the vault holds is what it owes, and all it ever took in is there or
    was paid. *)
Record money_ok (d : Immutables) (w : World) : Prop := {
  vo_held : w_held w = (unit_of d * liabilities (notes (w_storage w)))%Z;
  vo_book : (w_held w + paid_total (w_paid w) = unit_of d * deposited (w_log w))%Z;
}.

(** The used nullifiers are those that withdrew, each once. *)
Record spent_ok (w : World) : Prop := {
  vo_spent n : n ∈ usedNullifiers (w_storage w) ↔ n ∈ spent (w_log w);
  vo_once : NoDup (spent (w_log w));
}.

Record vault_ok (d : Immutables) (w : World) : Prop := {
  vo_notes : notes_ok (w_storage w);
  vo_money : money_ok d w;
  vo_nullifiers : spent_ok w;
}.

#[global] Arguments deposited : simpl never.
#[global] Arguments paid_total : simpl never.
#[global] Arguments liabilities : simpl never.
#[global] Arguments spent : simpl never.

Lemma liabilities_insert m id n :
  liabilities (<[id := n]> m) = (liabilities m - liability (default no_note (m !! id)) + liability n)%Z.
Proof.
  assert (∀ m' id' n', m' !! id' = None →
    liabilities (<[id' := n']> m') = (liability n' + liabilities m')%Z) as Hi.
  { intros m' id' n' Hm. unfold liabilities. rewrite map_fold_insert_L; [done| |done]. intros; lia. }
  destruct (m !! id) as [n0|] eqn:E; cbn.
  - assert (liabilities m = liability n0 + liabilities (delete id m))%Z as ->.
    { unfold liabilities. rewrite (map_fold_delete_L _ _ id n0 m); [done| |done]. intros; lia. }
    rewrite <- insert_delete_eq, Hi by apply lookup_delete_eq. lia.
  - rewrite Hi by done. change (liability no_note) with 0%Z. lia.
Qed.

Lemma liability_nonneg n : note_ok n → (0 ≤ liability n)%Z.
Proof. intros [_ [? _] _]. unfold liability. by destruct (status n). Qed.

Lemma note_of_set s id n id' :
  note_of (set_note id n s) id' = if decide (id' = id) then n else note_of s id'.
Proof.
  unfold note_of. cbn. case_decide as E; [subst; by rewrite lookup_insert_eq|by rewrite lookup_insert_ne].
Qed.

Lemma pending_of_set s id p id' :
  pending_of (set_pending id p s) id' = if decide (id' = id) then default no_pending p else pending_of s id'.
Proof.
  unfold pending_of. cbn. case_decide as E; [subst; by rewrite lookup_partial_alter_eq|by rewrite lookup_partial_alter_ne].
Qed.

Lemma deposited_app l ev : deposited (l ++ [ev]) = (deposited l + deposited_by ev)%Z.
Proof. unfold deposited. induction l as [|x l IH]; cbn in *; lia. Qed.

Lemma paid_total_app l p : paid_total (l ++ [p]) = (paid_total l + p.2)%Z.
Proof. unfold paid_total. induction l as [|x l IH]; cbn in *; lia. Qed.

Lemma spent_app l ev : spent (l ++ [ev]) = spent l ++ match spent_by ev with Some n => [n] | None => [] end.
Proof. unfold spent. rewrite omap_app. cbn. by destruct (spent_by ev). Qed.

(** ** Every move keeps it *)

Lemma notes_restatus s s' id st :
  notes_ok s → nextNoteId s' = nextNoteId s →
  notes s' = <[id := with_status (note_of s id) st]> (notes s) →
  (∀ id', id' ≠ id → pending_of s' id' = pending_of s id') →
  usedNullifiers s ⊆ usedNullifiers s' →
  status (note_of s id) ≠ Uninitialized → st ≠ Uninitialized →
  (exists_ (pending_of s' id) = true ↔ st = PendingWithdrawal) →
  (st = PendingWithdrawal →
     (0 ≤ pFinalBalance (pending_of s' id) ≤ depositAmount (note_of s id))%Z ∧
     pWithdrawalNullifier (pending_of s' id) ∈ usedNullifiers s') →
  notes_ok s'.
Proof.
  intros [H1 H2 H3 H4 H5] En Em Ep Hu Hid Hst He Hc.
  assert (∀ id', note_of s' id' = if decide (id' = id) then with_status (note_of s id) st
                                  else note_of s id') as Hn.
  { intros id'. unfold note_of at 1. rewrite Em. exact (note_of_set s id _ id'). }
  split; [by rewrite En|intros id'; rewrite ?Hn, ?En; case_decide as E; [subst id'|]..];
    [|by apply H2| |by apply H3| | |exact Hc|].
  - split; [intros _; by apply H2|done].
  - destruct (H3 id). by split.
  - exact He.
  - rewrite Ep by done. apply H4.
  - intros Hs. rewrite Ep by done. destruct (H5 id' Hs). by split; [|apply Hu].
Qed.

Lemma pays_fields d destination balance t share w :
  let w' := pays d destination balance t share w in
  w_storage w' = w_storage w ∧ w_log w' = w_log w ∧
  w_held w' = (w_held w - unit_of d * (balance + share))%Z ∧
  paid_total (w_paid w') = (paid_total (w_paid w) + unit_of d * (balance + share))%Z.
Proof.
  unfold pays. destruct (Z.eqb_spec balance 0), (Z.eqb_spec share 0); subst; cbn;
    rewrite ?paid_total_app; cbn; split_and!; done || lia.
Qed.

(** What an event does to the used nullifiers. *)
Definition spends (ev : Event) (s s' : Storage) : Prop :=
  match spent_by ev with
  | Some n => (n ∉ usedNullifiers s) ∧ usedNullifiers s' = {[n]} ∪ usedNullifiers s
  | None => usedNullifiers s' = usedNullifiers s
  end.

Lemma spent_move w w' ev :
  spent_ok w → w_log w' = w_log w ++ [ev] → spends ev (w_storage w) (w_storage w') → spent_ok w'.
Proof.
  unfold spends. intros [H1 H2] El. rewrite <- (app_nil_r (spent (w_log w))) in H2.
  destruct (spent_by ev) as [k|] eqn:Ek; [intros [Hk Es]|intros Es];
    (split; rewrite El, spent_app, Ek; [intros n; rewrite Es|]).
  - rewrite elem_of_app, <- H1, elem_of_union, elem_of_singleton, list_elem_of_singleton. tauto.
  - rewrite app_nil_r in H2. apply NoDup_app. split; [done|]. split; [|apply NoDup_singleton].
    intros n Hn%H1 ->%list_elem_of_singleton. done.
  - by rewrite app_nil_r.
  - done.
Qed.

Section preservation.
Context {PA : ProofAdapter} (d : Immutables) (tx : Tx).

(** Money when one note's status changes and an amount goes out. *)
Lemma money_restatus w w' id st out ev :
  money_ok d w →
  notes (w_storage w') = <[id := with_status (note_of (w_storage w) id) st]> (notes (w_storage w)) →
  w_log w' = w_log w ++ [ev] → deposited_by ev = 0%Z →
  w_held w' = (w_held w - unit_of d * out)%Z →
  paid_total (w_paid w') = (paid_total (w_paid w) + unit_of d * out)%Z →
  out = (liability (note_of (w_storage w) id) - liability (with_status (note_of (w_storage w) id) st))%Z →
  money_ok d w'.
Proof.
  intros [H1 H2] En El Ed Eh Ep ->. split.
  - rewrite Eh, En, H1, liabilities_insert. fold (note_of (w_storage w) id). lia.
  - rewrite Eh, Ep, El, deposited_app, Ed. lia.
Qed.

Lemma liability_active n : status n = Active → liability n = depositAmount n.
Proof. unfold liability. by intros ->. Qed.
Lemma liability_pending n : status n = PendingWithdrawal → liability n = depositAmount n.
Proof. unfold liability. by intros ->. Qed.

Lemma deposit_step_ok c a e r w :
  vault_ok d w → (0 < c < SCALAR_MODULUS)%Z → fits 128 a → fits 64 e →
  fits 32 (nextNoteId (w_storage w) + 1) →
  vault_ok d (move_deposit d c a e r w).
Proof.
  intros [[N1 N2 N3 N4 N5] [M1 M2] S] Hc Ha He Hn. set (id := nextNoteId (w_storage w)) in *.
  assert (status (note_of (w_storage w) id) = Uninitialized) as Hu.
  { destruct (decide (status (note_of (w_storage w) id) = Uninitialized)) as [|E]; [done|].
    apply N2 in E. lia. }
  assert (∀ id', note_of (w_storage (move_deposit d c a e r w)) id' =
    if decide (id' = id) then {| commitment := c; depositAmount := a; expiryTs := e; status := Active |}
    else note_of (w_storage w) id') as En by (intros id'; apply (note_of_set (w_storage w))).
  split; [split| |].
  - exact Hn.
  - intros id'. rewrite En. change (nextNoteId _) with (id + 1)%Z.
    case_decide as E; [subst id'|rewrite N2; unfold id in *; lia].
    split; [intros _; unfold fits, id in *; lia|done].
  - intros id'. rewrite En. case_decide; [|apply N3]. split; cbn; [lia|done..].
  - intros id'. rewrite En. change (pending_of _ id') with (pending_of (w_storage w) id').
    case_decide; [subst id'|apply N4]. rewrite N4, Hu. by split.
  - intros id'. rewrite En. case_decide; [done|apply N5].
  - split; cbn; fold id.
    + rewrite liabilities_insert. fold (note_of (w_storage w) id).
      unfold liability at 1. rewrite Hu. cbn. lia.
    + rewrite deposited_app. cbn. lia.
  - by eapply (spent_move w _ (NoteDeposited id c a e r)).
Qed.

(** One note changes its status, its pending withdrawal may change with it, an
    event is emitted and [out] is paid. *)
Record restatus (w w' : World) (id : Z) (st : NoteStatus) (ev : Event) (out : Z) : Prop := {
  rs_next : nextNoteId (w_storage w') = nextNoteId (w_storage w);
  rs_notes : notes (w_storage w') =
    <[id := with_status (note_of (w_storage w) id) st]> (notes (w_storage w));
  rs_other id' : id' ≠ id → pending_of (w_storage w') id' = pending_of (w_storage w) id';
  rs_from : status (note_of (w_storage w) id) ≠ Uninitialized;
  rs_to : st ≠ Uninitialized;
  rs_exists : exists_ (pending_of (w_storage w') id) = true ↔ st = PendingWithdrawal;
  rs_claim : st = PendingWithdrawal →
    (0 ≤ pFinalBalance (pending_of (w_storage w') id) ≤ depositAmount (note_of (w_storage w) id))%Z ∧
    pWithdrawalNullifier (pending_of (w_storage w') id) ∈ usedNullifiers (w_storage w');
  rs_log : w_log w' = w_log w ++ [ev];
  rs_event : deposited_by ev = 0%Z;
  rs_spends : spends ev (w_storage w) (w_storage w');
  rs_held : w_held w' = (w_held w - unit_of d * out)%Z;
  rs_paid : paid_total (w_paid w') = (paid_total (w_paid w) + unit_of d * out)%Z;
  rs_out : out = (liability (note_of (w_storage w) id)
                  - liability (with_status (note_of (w_storage w) id) st))%Z;
}.

Lemma restatus_ok w w' id st ev out : vault_ok d w → restatus w w' id st ev out → vault_ok d w'.
Proof.
  intros [N M S] []. split; [|by eapply money_restatus|by eapply spent_move].
  eapply (notes_restatus (w_storage w) _ id st); try done.
  revert rs_spends0. clear. unfold spends. destruct (spent_by ev); [intros [_ ->]|intros ->]; set_solver.
Qed.

Lemma close_restatus i proof siblings r t w :
  vault_ok d w → leaves d tx i proof siblings r w →
  restatus w (move_close d i r t w) (noteId i) Closed
    (MutualClose (noteId i) (withdrawalNullifier i) (finalBalance i) (destination i))
    (depositAmount (note_of (w_storage w) (noteId i))).
Proof.
  intros [N M S] L. pose proof (lv_active _ _ _ _ _ _ _ L) as Hact.
  unfold move_close. set (n := note_of (w_storage w) (noteId i)) in *.
  destruct (pays_fields d (destination i) (finalBalance i) t (depositAmount n - finalBalance i)
    (move_status (noteId i) Closed (w_assign (set_root r) (w_assign (use_nullifier (withdrawalNullifier i)) w))))
    as (E1 & E2 & E3 & E4).
  split; cbn [w_emit w_storage w_log w_held w_paid]; rewrite ?E1, ?E2, ?E3, ?E4, ?Zplus_minus; try done.
  - fold n. by rewrite Hact.
  - change (pending_of _ (noteId i)) with (pending_of (w_storage w) (noteId i)).
    rewrite (vo_pending _ N). fold n. by rewrite Hact.
  - by split; [apply L|].
  - fold n. rewrite liability_active by done. cbn. lia.
Qed.

Lemma initiate_restatus i proof siblings r deadline w :
  vault_ok d w → leaves d tx i proof siblings r w →
  restatus w (move_initiate i deadline r w) (noteId i) PendingWithdrawal
    (EscapeWithdrawalInitiated (noteId i) (withdrawalNullifier i) (finalBalance i) (destination i)
       deadline r) 0.
Proof.
  intros [N M S] L. pose proof (lv_active _ _ _ _ _ _ _ L) as Hact.
  assert (∀ id', pending_of (w_storage (move_initiate i deadline r w)) id' = _) as Ep
    by (intros id'; apply (pending_of_set (w_storage w) (noteId i))).
  split; try done; rewrite ?Ep, ?decide_True by done.
  - intros id' Hid. by rewrite Ep, decide_False.
  - by rewrite Hact.
  - by split.
  - intros _. cbn. split; [|set_solver].
    assert (withdrawal_inputs_ok i = true) as Hi by apply L. apply bool_decide_eq_true in Hi.
    destruct L. unfold fits in Hi. lia.
  - split; [apply L|done].
  - cbn. lia.
  - cbn. lia.
  - rewrite liability_active, (liability_pending (with_status _ _)) by done. cbn. lia.
Qed.

Lemma challenge_restatus id r w :
  awaits id w →
  restatus w (move_challenge id r w) id Active
    (EscapeWithdrawalChallenged id (pWithdrawalNullifier (pending_of (w_storage w) id)) r) 0.
Proof.
  intros [_ Hst _].
  assert (∀ id', pending_of (w_storage (move_challenge id r w)) id' = _) as Ep
    by (intros id'; apply (pending_of_set (w_storage w) id)).
  split; try done; rewrite ?Ep, ?decide_True by done.
  - intros id' Hid. by rewrite Ep, decide_False.
  - by rewrite Hst.
  - done.
  - cbn. lia.
  - cbn. lia.
  - rewrite liability_pending, (liability_active (with_status _ _)) by done. cbn. lia.
Qed.

Lemma finalize_restatus id t w :
  awaits id w →
  restatus w (move_finalize d id t w) id Closed
    (EscapeWithdrawalFinalized id (pWithdrawalNullifier (pending_of (w_storage w) id))
       (pFinalBalance (pending_of (w_storage w) id)) (pDestination (pending_of (w_storage w) id)))
    (depositAmount (note_of (w_storage w) id)).
Proof.
  intros [_ Hst _]. unfold move_finalize.
  set (p := pending_of (w_storage w) id). set (n := note_of (w_storage w) id).
  destruct (pays_fields d (pDestination p) (pFinalBalance p) t (depositAmount n - pFinalBalance p)
    (w_assign (set_pending id None) (move_status id Closed w))) as (E1 & E2 & E3 & E4).
  assert (∀ id', pending_of (set_pending id None (w_storage w)) id' = _) as Ep
    by (intros id'; apply (pending_of_set (w_storage w) id)).
  split; cbn [w_emit w_storage w_log w_held w_paid]; rewrite ?E1, ?E2, ?E3, ?E4, ?Zplus_minus; try done.
  - intros id' Hid. etrans; [apply (Ep id')|]. by rewrite decide_False.
  - by rewrite Hst.
  - change (pending_of _ id) with (pending_of (set_pending id None (w_storage w)) id).
    by rewrite Ep, decide_True.
  - unfold n. rewrite liability_pending by done. cbn. lia.
Qed.

Lemma expire_restatus id r t w :
  vault_ok d w → status (note_of (w_storage w) id) = Active →
  restatus w (move_expire d id r t w) id Closed
    (ExpiredClaimed id (depositAmount (note_of (w_storage w) id)) r)
    (depositAmount (note_of (w_storage w) id)).
Proof.
  intros [N M S] Hst. split; try done.
  - by rewrite Hst.
  - change (pending_of _ id) with (pending_of (w_storage w) id). rewrite (vo_pending _ N). by rewrite Hst.
  - cbn. lia.
  - cbn. rewrite paid_total_app. cbn. lia.
  - rewrite liability_active by done. cbn. lia.
Qed.

Lemma moved_ok w call w' : vault_ok d w → moved d tx w call w' → vault_ok d w'.
Proof.
  intros H []; [by apply deposit_step_ok|eapply restatus_ok; [exact H|]..|done].
  - by eapply close_restatus.
  - by eapply initiate_restatus.
  - by eapply challenge_restatus.
  - by eapply finalize_restatus.
  - by eapply expire_restatus.
Qed.
End preservation.

(** ** Histories *)

Lemma omap_filter_events {X} (f : Event → option X) (l : list Event) :
  (∀ ev, is_admin_event ev = true → f ev = None) →
  omap f (filter (λ ev, is_admin_event ev = false) l) = omap f l.
Proof.
  intros Hf. induction l as [|ev l IH]; [done|]. rewrite filter_cons. cbn.
  case_decide as E; cbn; [by rewrite IH|]. rewrite IH, Hf; [done|]. by destruct (is_admin_event ev).
Qed.

Lemma spent_norm w : spent (w_log (norm w)) = spent (w_log w).
Proof. apply omap_filter_events. by intros []. Qed.

Lemma deposited_norm w : deposited (w_log (norm w)) = deposited (w_log w).
Proof.
  unfold norm. cbn [w_log]. induction (w_log w) as [|ev l IH]; [done|]. rewrite filter_cons.
  case_decide as E; unfold deposited in *; cbn [foldr]; rewrite IH; [done|]. by destruct ev.
Qed.

Lemma vault_ok_norm d w : vault_ok d (norm w) ↔ vault_ok d w.
Proof.
  assert (notes_ok (w_storage (norm w)) ↔ notes_ok (w_storage w)) as E1.
  { by split; intros [? ? ? ? ?]. }
  assert (money_ok d (norm w) ↔ money_ok d w) as E2.
  { pose proof (deposited_norm w) as E.
    split; intros [H1 H2]; split; try exact H1; [by rewrite <- E|by rewrite E]. }
  assert (spent_ok (norm w) ↔ spent_ok w) as E3.
  { pose proof (spent_norm w) as E. split; intros [H1 H2];
      (split; [intros n; etrans; [apply (H1 n)|by rewrite E]|]); [by rewrite <- E|by rewrite E]. }
  split; intros [? ? ?]; split; tauto.
Qed.

Lemma run_step_ok `{ProofAdapter} d w st : vault_ok d w → vault_ok d (run_step d w st).
Proof.
  intros Hw%vault_ok_norm. apply vault_ok_norm.
  destruct (run_step_moved d w st) as [->|[_ Hm]]; [done|by eapply moved_ok].
Qed.

Lemma run_steps_ok `{ProofAdapter} d w steps : vault_ok d w → vault_ok d (run_steps d w steps).
Proof.
  unfold run_steps. revert w. induction steps as [|st steps IH]; intros w Hw; [done|].
  cbn. by apply IH, run_step_ok.
Qed.

Lemma deployed_ok d s b t ttl cp cap pa kx ky cx cy ow self :
  constructor b t ttl cp cap pa kx ky cx cy ow self = Ok (d, s) →
  vault_ok d (deployed s) ∧ (0 < unit_of d)%Z ∧ currentRoot s = computeEmptyTreeRoot ∧ notes s = ∅.
Proof.
  unfold constructor. intros H. repeat apply result_bind_Ok in H as (? & _ & H). injection H as <- <-. split; [|split; [|done]].
  - split; [| |split; [intros n; cbn; set_solver|constructor]].
    2:{ split; [symmetry; apply Z.mul_0_r|symmetry; apply Z.mul_0_r]. }
    split; [done|..]; intros id; unfold note_of, pending_of; cbn; rewrite ?lookup_empty; cbn; try done.
    + split; [done|lia].
  - unfold unit_of. cbn. by destruct (b =? 0)%Z.
Qed.

Lemma liability_le m id :
  (∀ id, note_ok (default no_note (m !! id))) →
  (0 ≤ liability (default no_note (m !! id)) ≤ liabilities m)%Z.
Proof.
  intros Hm. assert (∀ m' : gmap Z Note, (∀ id, note_ok (default no_note (m' !! id))) → 0 ≤ liabilities m')%Z
    as Hpos.
  { intros m'. induction m' as [|i n m' Hi IH] using map_ind; [done|]. intros H.
    rewrite liabilities_insert, Hi. cbn. change (liability no_note) with 0%Z.
    assert (0 ≤ liability n)%Z by (apply liability_nonneg; specialize (H i); by rewrite lookup_insert_eq in H).
    assert (0 ≤ liabilities m')%Z; [|lia]. apply IH. intros j. specialize (H j).
    destruct (decide (j = i)) as [->|Hne]; [by rewrite Hi|by rewrite lookup_insert_ne in H]. }
  split; [by apply liability_nonneg|].
  assert (0 ≤ liabilities (<[id := no_note]> m))%Z as H.
  { apply Hpos. intros j. destruct (decide (j = id)) as [->|Hne];
      [by rewrite lookup_insert_eq|by rewrite lookup_insert_ne]. }
  rewrite liabilities_insert in H. change (liability no_note) with 0%Z in H. lia.
Qed.

Lemma open_note_covered d w id :
  (0 < unit_of d)%Z → notes_ok (w_storage w) →
  w_held w = (unit_of d * liabilities (notes (w_storage w)))%Z →
  status (note_of (w_storage w) id) = Active ∨ status (note_of (w_storage w) id) = PendingWithdrawal →
  (unit_of d * depositAmount (note_of (w_storage w) id) ≤ w_held w)%Z.
Proof.
  intros Hu N -> Hst.
  destruct (liability_le (notes (w_storage w)) id (vo_note _ N)) as [_ Hle].
  fold (note_of (w_storage w) id) in Hle.
  assert (liability (note_of (w_storage w) id) = depositAmount (note_of (w_storage w) id)) as El
    by (destruct Hst; [by apply liability_active|by apply liability_pending]).
  apply Z.mul_le_mono_nonneg_l; lia.
Qed.

(** C11. The vault is solvent: whatever transactions are sent to it, by whomever,
    with whatever the recipients of its payments answer or call back, it holds
    exactly what the open notes deposited, so every note can be paid in full;
    all that ever came in is still there or was paid out; a pending withdrawal
    takes no more than its note has; and no nullifier withdraws twice. The
    holdings are counted from the vault's own transfers: the token is taken to
    move exactly the amount asked, and a payment addressed to the vault itself
    counts as paid out. *)
Theorem vault_solvent `{ProofAdapter} b t ttl cp cap pa kx ky cx cy ow self d s steps :
  constructor b t ttl cp cap pa kx ky cx cy ow self = Ok (d, s) →
  let w := run_steps d (deployed s) steps in
  let s' := w_storage w in
  w_held w = (unit_of d * liabilities (notes s'))%Z ∧
  (w_held w + paid_total (w_paid w) = unit_of d * deposited (w_log w))%Z ∧
  (∀ id, status (note_of s' id) = Active ∨ status (note_of s' id) = PendingWithdrawal →
     unit_of d * depositAmount (note_of s' id) ≤ w_held w)%Z ∧
  (∀ id, exists_ (pending_of s' id) = true ↔ status (note_of s' id) = PendingWithdrawal) ∧
  (∀ id, status (note_of s' id) = PendingWithdrawal →
     0 ≤ pFinalBalance (pending_of s' id) ≤ depositAmount (note_of s' id))%Z ∧
  (∀ n, n ∈ usedNullifiers s' ↔ n ∈ spent (w_log w)) ∧ NoDup (spent (w_log w)).
Proof.
  intros (Hok & Hu & _)%deployed_ok w s'. apply (run_steps_ok d _ steps) in Hok as [N [M1 M2] [S1 S2]].
  split; [exact M1|]. split; [exact M2|]. split; [|split; [apply N|split; [apply N|by split]]].
  intros id Hst. apply (open_note_covered d w id); [done|exact N|exact M1|exact Hst].
Qed.

(** How the state of one note may change in a transaction. *)
Inductive note_change `{ProofAdapter} (d : Immutables) (tx : Tx) (s : Storage) (id : Z) :
  Call → NoteStatus → NoteStatus → Prop :=
| change_deposit c a siblings :
    id = nextNoteId s →
    note_change d tx s id (Deposit c a siblings) Uninitialized Active
| change_close i proof siblings :
    noteId i = id → hasClearance i = true → withdrawal_bound d tx i →
    activeRoot i = currentRoot s → assertValidWithdrawal i proof = Ok tt →
    withdrawalNullifier i ∉ usedNullifiers s →
    note_change d tx s id (MutualCloseCall i proof siblings) Active Closed
| change_initiate i proof siblings :
    noteId i = id → hasClearance i = false → withdrawal_bound d tx i →
    activeRoot i = currentRoot s → assertValidWithdrawal i proof = Ok tt →
    withdrawalNullifier i ∉ usedNullifiers s →
    note_change d tx s id (InitiateEscape i proof siblings) Active PendingWithdrawal
| change_challenge i proof siblings :
    request_bound d tx i → assertValidRequest i proof = Ok tt →
    requestNullifier i = pWithdrawalNullifier (pending_of s id) →
    (block_timestamp tx < challengeDeadline (pending_of s id))%Z →
    note_change d tx s id (ChallengeEscape id i proof siblings) PendingWithdrawal Active
| change_finalize :
    (challengeDeadline (pending_of s id) ≤ block_timestamp tx)%Z →
    note_change d tx s id (FinalizeEscape id) PendingWithdrawal Closed
| change_expire siblings :
    (expiryTs (note_of s id) ≤ block_timestamp tx)%Z →
    note_change d tx s id (ClaimExpired id siblings) Active Closed.

Lemma restatus_note d w w' id st ev out id' :
  restatus d w w' id st ev out →
  note_of (w_storage w') id' =
  if decide (id' = id) then with_status (note_of (w_storage w) id) st else note_of (w_storage w) id'.
Proof. intros []. unfold note_of at 1. rewrite rs_notes0. exact (note_of_set (w_storage w) id _ id'). Qed.

Lemma deposit_note d c a e r w id' :
  note_of (w_storage (move_deposit d c a e r w)) id' =
  if decide (id' = nextNoteId (w_storage w))
  then {| commitment := c; depositAmount := a; expiryTs := e; status := Active |}
  else note_of (w_storage w) id'.
Proof. apply (note_of_set (w_storage w)). Qed.

Definition changes_by `{ProofAdapter} (d : Immutables) (tx : Tx) (call : Call) (w w' : World) (id : Z) : Prop :=
  note_of (w_storage w') id = note_of (w_storage w) id ∨
  (note_change d tx (w_storage w) id call (status (note_of (w_storage w) id))
     (status (note_of (w_storage w') id)) ∧
   (status (note_of (w_storage w) id) = Uninitialized ∨
    note_of (w_storage w') id
    = with_status (note_of (w_storage w) id) (status (note_of (w_storage w') id)))).

Lemma restatus_changes `{ProofAdapter} d tx call w w' id st ev out id' :
  restatus d w w' id st ev out →
  note_change d tx (w_storage w) id call (status (note_of (w_storage w) id)) st →
  changes_by d tx call w w' id'.
Proof.
  intros R Hc. unfold changes_by. rewrite (restatus_note _ _ _ _ _ _ _ id' R).
  case_decide as E; [subst id'; right|by left]. cbn. split; [done|by right].
Qed.

Lemma next_uninitialized s : notes_ok s → status (note_of s (nextNoteId s)) = Uninitialized.
Proof.
  intros N. destruct (decide (status (note_of s (nextNoteId s)) = Uninitialized)) as [|E]; [done|].
  apply (vo_ids _ N) in E. lia.
Qed.

Lemma moved_changes `{ProofAdapter} d tx w call w' id :
  vault_ok d w → moved d tx w call w' → changes_by d tx call w w' id.
Proof.
  intros Hw Hm. destruct Hm as [c a siblings e r ? ? ? ? ? ? ?|i proof siblings r t L ?|
    i proof siblings r dl L ? ? ?|id0 i proof siblings r Haw ? ? ? ? ? ?|id0 t Haw ?|
    id0 siblings r t ? Hst ? ?|]; [|eapply restatus_changes..|by left].
  - unfold changes_by. rewrite deposit_note. case_decide as E; [right|by left].
    rewrite E, (next_uninitialized _ (vo_notes _ _ Hw)). split; [by apply change_deposit|by left].
  - by eapply close_restatus.
  - rewrite (lv_active _ _ _ _ _ _ _ L). by apply change_close; try apply L.
  - by eapply initiate_restatus.
  - rewrite (lv_active _ _ _ _ _ _ _ L). by apply change_initiate; try apply L.
  - by apply challenge_restatus.
  - rewrite (aw_status _ _ Haw). by apply (change_challenge _ _ _ _ i proof siblings).
  - by apply (finalize_restatus _ _ t).
  - rewrite (aw_status _ _ Haw). by apply change_finalize.
  - by apply (expire_restatus _ _ r t).
  - rewrite Hst. by apply change_expire.
Qed.

Lemma note_change_norm `{ProofAdapter} d tx w id call a b :
  note_change d tx (w_storage (norm w)) id call a b → note_change d tx (w_storage w) id call a b.
Proof. intros []; econstructor; eauto. Qed.

(** C13. The life of a note: in any history, a transaction changes a note only in
    one of six ways: a deposit opens it under the next id; with a withdrawal
    proof the adapter accepted for this deployment, the current root and an
    unused nullifier it is closed (with the server's clearance) or frozen
    (without); a frozen note is reopened before the deadline by an accepted
    request proof of the same nullifier, and closed after the deadline; an
    expired one is closed.  Its commitment, amount and expiry never change, and
    a closed note stays closed. *)
Theorem note_lifecycle `{ProofAdapter} b t ttl cp cap pa kx ky cx cy ow self d s steps st id :
  constructor b t ttl cp cap pa kx ky cx cy ow self = Ok (d, s) →
  let w := run_steps d (deployed s) steps in
  let n := note_of (w_storage w) id in
  let n' := note_of (w_storage (run_step d w st)) id in
  (n' = n ∨
   (note_change d (st_tx st) (w_storage w) id (st_call st) (status n) (status n') ∧
    (status n = Uninitialized ∨ n' = with_status n (status n')))) ∧
  (status n = Closed → n' = n).
Proof.
  intros (Hok & _)%deployed_ok w n n'. apply (run_steps_ok d _ steps) in Hok. fold w in Hok.
  assert (changes_by d (st_tx st) (st_call st) (norm w) (norm (run_step d w st)) id) as Hc.
  { destruct (run_step_moved d w st) as [->|[_ Hm]]; [by left|].
    apply moved_changes; [by apply vault_ok_norm|exact Hm]. }
  assert (n' = n ∨ note_change d (st_tx st) (w_storage w) id (st_call st) (status n) (status n') ∧
    (status n = Uninitialized ∨ n' = with_status n (status n'))) as Hc'.
  { destruct Hc as [Hc|[Hc1 Hc2]]; [by left|right]. split; [|exact Hc2]. by apply note_change_norm. }
  split; [exact Hc'|]. intros Hcl. destruct Hc' as [|[Hc' _]]; [done|]. rewrite Hcl in Hc'. inversion Hc'.
Qed.
