(* ===== verification/Adapter.v ===== *)
(** * The proof adapter (contracts/src/adapters/Groth16ProofAdapter.sol)

    The verifier the setup generated: the statement flattened to words, the
    proof's coordinates, the linear combination of the key's points and the
    pairing check, on the chain's precompiled contracts.  The theorems compare
    it with the verifier of the proof crate, and put it behind the vault. *)
From S2P Require Import Prelude Felt Types Group Ark CoreV2 Merkle Groth16 Circuit Compact Solidity.
From S2P Require Import Evm SolPoseidon Vault VaultLedger.
Import sol vault.

(** The precompiled contracts 6, 7 and 8: a call answers words, or fails. *)
Class Precompiles : Type := {
  ecAdd : list Z → option (Z * Z);
  ecMul : list Z → option (Z * Z);
  ecPairing : list Z → option Z;
}.

Module adapter.

Record G1Point : Type := G1P { g1x : Z; g1y : Z }.
(** Coordinates in the order of arkworks, the real part first. *)
Record G2Point : Type := G2P { g2x : Z * Z; g2y : Z * Z }.
Record Proof : Type := { proof_a : G1Point; proof_b : G2Point; proof_c : G1Point }.

(** The constants of [_requestAlpha] to [_requestIc]. *)
Record Key : Type := {
  k_alpha : G1Point;
  k_beta : G2Point;
  k_gamma : G2Point;
  k_delta : G2Point;
  k_ic : list G1Point;
}.

Definition request_values (i : RequestPublicInputs) : list Z :=
  [ rProtocolVersion i; rChainId i; rContractAddress i; rActiveRoot i; rStateSigningKeyX i;
    rStateSigningKeyY i; requestTime i; solvencyBound i; requestNullifier i; authorizationTag i;
    anonymousCommitmentX i; anonymousCommitmentY i ].

Definition withdrawal_values (i : WithdrawalPublicInputs) : list Z :=
  [ protocolVersion i; chainId i; contractAddress i; activeRoot i; stateSigningKeyX i;
    stateSigningKeyY i; clearanceSigningKeyX i; clearanceSigningKeyY i; noteId i; finalBalance i;
    destination i; withdrawalNullifier i; (if hasClearance i then 1 else 0)%Z; withdrawalTag i ].

(** The eight words of the call data; [None] for [valid = false]. *)
Definition decodeProof (encoded : list byte) : option Proof :=
  if negb (bool_decide (length encoded = 256%nat)) then None
  else
    let words := be_val <$> chunks32 8 encoded in
    if existsb (λ w, BASE_MODULUS <=? w)%Z words then None
    else
      match words with
      | [w0; w1; w2; w3; w4; w5; w6; w7] =>
          Some {| proof_a := G1P w0 w1; proof_b := G2P (w2, w3) (w4, w5); proof_c := G1P w6 w7 |}
      | _ => None
      end.

Definition negate (point : G1Point) : G1Point :=
  if ((g1x point =? 0) && (g1y point =? 0))%Z then G1P 0 0
  else G1P (g1x point) (BASE_MODULUS - g1y point mod BASE_MODULUS).

Definition writePair (g1 : G1Point) (g2 : G2Point) : list Z :=
  [g1x g1; g1y g1; (g2x g2).2; (g2x g2).1; (g2y g2).2; (g2y g2).1].

Definition key_ic (key : Key) (index : nat) : result Error G1Point :=
  match k_ic key !! index with Some point => Ok point | None => Err InvalidProof end.

Section functions.
Context {PC : Precompiles}.

Definition add (a b : G1Point) : option G1Point :=
  '(x, y) ← ecAdd [g1x a; g1y a; g1x b; g1y b]; Some (G1P x y).

Definition scalarMul (point : G1Point) (scalar : Z) : option G1Point :=
  '(x, y) ← ecMul [g1x point; g1y point; scalar]; Some (G1P x y).

Definition pairing (a1 : G1Point) (a2 : G2Point) (b1 : G1Point) (b2 : G2Point)
  (c1 : G1Point) (c2 : G2Point) (d1 : G1Point) (d2 : G2Point) : bool :=
  match ecPairing (writePair a1 a2 ++ writePair b1 b2 ++ writePair c1 c2 ++ writePair d1 d2) with
  | Some output => (output =? 1)%Z
  | None => false
  end.

(** The loop, from input [i]; [Ok None] is [return false]. *)
Fixpoint accumulate (key : Key) (i : nat) (values : list Z) (accumulator : G1Point) :
  result Error (option G1Point) :=
  match values with
  | [] => Ok (Some accumulator)
  | value :: values =>
      if (SCALAR_MODULUS <=? value)%Z then Ok None
      else
        point ← key_ic key (i + 1);
        match scalarMul point value with
        | None => Ok None
        | Some term =>
            match add accumulator term with
            | None => Ok None
            | Some accumulator => accumulate key (S i) values accumulator
            end
        end
  end.

(** [_verifyRequest] and [_verifyWithdrawal]. *)
Definition verify (key : Key) (values : list Z) (proof : Proof) : result Error bool :=
  first ← key_ic key 0;
  accumulator ← accumulate key 0 values first;
  Ok (match accumulator with
      | None => false
      | Some accumulator =>
          pairing (negate (proof_a proof)) (proof_b proof) (k_alpha key) (k_beta key)
            accumulator (k_gamma key) (proof_c proof) (k_delta key)
      end).

Definition assert_valid (key : Key) (values : list Z) (encoded : list byte) : result Error () :=
  match decodeProof encoded with
  | None => Err InvalidProof
  | Some parsed => ok ← verify key values parsed; guard_err (negb ok) InvalidProof
  end.

(** The contract with given keys. *)
Definition with_keys (request withdrawal : Key) : ProofAdapter := {|
  assertValidRequest := λ inputs, assert_valid request (request_values inputs);
  assertValidWithdrawal := λ inputs, assert_valid withdrawal (withdrawal_values inputs) |}.
End functions.

(** The keys of the deployed contract. *)

Definition request_key : Key := {|
  k_alpha := G1P 0x10ba3e5ba8596ba51db06e46d7da8e8979772e7e6d3cf4bf317643e0dddb0620
      0x123da26d22d43331e967ff8e114fb59f189899e8cb9ceddc4da353d5999aa271;
  k_beta := G2P (0x1528aeec4a0d86a0f1872a82d6a1561f7fa141c3876db6ba3b0fefd9b31b919e,
      0x018b3ac8da743666eac86ed526d014109edb3c8d28bc881db744ca3ec4d2aa1d)%Z
      (0x093d1c4cbe931e02fed65443c168b1e9dbf52dc7585c662b65662f83145e65c0,
      0x110036c8d501478c54d8b2e29a9179f5fd8d02aa75ac2c3ae354350a5fb1f17a)%Z;
  k_gamma := G2P (0x03a58bd945e92b664b8910fd16d46a5774df2281bd4fb02f69de93709eff1282,
      0x1d2e2b5507dceb20c1627ca160f0991ec59e97bbcce6b415c15faa567a69c46c)%Z
      (0x1c8314036c37a5238a26b2128f7b36b7820f388ca3f4b446442e410e12c0dda8,
      0x29f52c12bd0e399248d80cd27f4d316b2f85832efb74e3d668d61fef82ed14f6)%Z;
  k_delta := G2P (0x2edc223d533aa01cd4fbd64b973070fa5d09a4c4a5219690efe7d1ebcc6f6696,
      0x15de832e84f776aa038a07f6282e1c94129c4ba0a207b79d25db8d833b5fd4f2)%Z
      (0x11039fadaf696374e6d1f5a5a78c40a3b3f73ed2cf9ae764047479fe6797d33f,
      0x290a4105af46eeecbe32fc842d8bc9b5a6c6499c88aff6c79cf2ea2f6eb45ff4)%Z;
  k_ic := [
    G1P 0x174aee0b310184c85f0cc09a7797573c8121914ba0d1cdcc07ec8bc3126a46bc
      0x2d361922636dcbde6c1eb17d0d7f8338b14605fedf1276f2ce809cea6a53ac57;
    G1P 0x14b762f8fb4c93344ab0fc0e0c72df252646dc0f2a6ca4c9807d406637fb0623
      0x226ad0a46ea2024e71e24e87b6f4e5b839c530431440d76cb856dd8cad064ba3;
    G1P 0x15375b2c3434be5e3146bbcd35a24a53a16c9cd7c11a21cdcd6adef5864f32dc
      0x1d4788d03f950fe789b64cdba7e9cbceea70cb6a03f04e312bdd0b508e11311a;
    G1P 0x04c4222205a81c127d0ac2cc4dd958a9b410f4e04d45ee54f50843d70d218da7
      0x27085ed594c715cb9bbc96a6754eb116cbaa4c1a3da28eba81d196953d40621a;
    G1P 0x2544865c8d55cf2fcad8c1dbf05e7b4d43dea4de9ed68de0b809975f62df3c02
      0x1ec27bf0d2572be8fc969cc21591f19647968fef95e5e263535f2be6c9bed4f6;
    G1P 0x2376bf76dc45478e9f47b4e2151e479eda388155bae81bf7d1feb138b1a7d474
      0x13f2853847210b7500e92e9bef2150fcac8d380d4ddb7e509eb989d7b4b69f51;
    G1P 0x2d6e51a3adb76cd1735b0ad411c42e447e90a6be4a33f99dadcf13a4d9eeaf31
      0x255f507d0b179b8fe0316ff75784da578af0ac7844d32ab9ea5ba420c66ffc15;
    G1P 0x245a76ef7b13667e7693c8dcbf0e91a1d958c66e0bf24ebc10c519d469eb9274
      0x083b088bfedc67f72b53dd54b48fe1acedfc6b5d25fb0dabf0fd1de9ae9a64c3;
    G1P 0x042ec83ce0538c0f56f3eb1f534acbaab56f44fc040fb22f03129244f47a4c8e
      0x16c767075f65958a08c481fd53d54b40c95a914e0444f8377486526fbbc51c37;
    G1P 0x2a247dcc1c285b0f4e31e96c622566fcd34bf23444dee957d0827773cfc458c4
      0x2ced1e1bf83caa086cb74a30601bc0cc9fa675d45189d62e107f30d394fdec84;
    G1P 0x090219e32321331209f5b2cf6e74f41b254e3655f8d63b8e101472443cd83e48
      0x044ad923155f1c8d283efdab696ebc309da12340c1eb47011fca17aa4b803d5b;
    G1P 0x037968a077509d5db62d0d15ec78531e4581519b4085dc9d1120f1c491f85007
      0x09b1608c468e6d3759e4ccca0abc8a361332605116dc52a3e050dde479746696;
    G1P 0x21ace17e82c5c9e36243f5aa05f705ce0c811942ca9c85ebc8a4da875decf52b
      0x13fcd96f7d5eb7a3fb68a7bf34390fc393af1e8642a32ddb7b36eac1159f3dcc] |}.

Definition withdrawal_key : Key := {|
  k_alpha := G1P 0x1b68f243a5120511f84c88daaf020016c4ccc552efac97db30e202964a0f97c6
      0x1c6c644b440b3d672f121fe14e191cd61aeee4336fa9000557ae3cd0a5b6a3b4;
  k_beta := G2P (0x14e880b05dab34ab9d8e2859eac18465303588648542266dbccf4d12fe613f80,
      0x28e6870b066b8d6787b6a58dd65fe24b8740880589ff227934cc58fe666f3cef)%Z
      (0x1390d942e685b7f9ab55a8dcdf0d102693c2250697dfa65bef54491173aa2b16,
      0x22358fd10742e5486a1eea3c0201142616a6e28dfa8ceb27f47481f866e9cb7a)%Z;
  k_gamma := G2P (0x0fb1b8fb2f8546e4f051ee63d95077529f6a38d5309f09fd77294c7f51d991de,
      0x11d1e24c5678701cd8a0307fb43b76f74f8f32d5c57189106387594c19f9426a)%Z
      (0x0f29505fb8c56780294020ce185649986d7319a52fecf9f9b8ae37da7824e17b,
      0x27e9a4ed2f4ef4efeb6a41a0bc077b0c815678a914ae4e5b52c0779823c5fc3c)%Z;
  k_delta := G2P (0x000dcd58940f740d08041c957d4ed647ac1bcd47aa79413078a3c8c67c2bf97a,
      0x2ae3d495d8a41db13d7b6cfdb779e736281fc9cf82aff7b2148dd31622b64408)%Z
      (0x1f2d271fa1cdef48f60395b6c34ff202aca2e4bfe9a830ee13462fa1ed7741c0,
      0x0610c280e78c787de109eebe744b678d15fe4b2983e81fea3c259904cb08a19d)%Z;
  k_ic := [
    G1P 0x23bcf00d9cb8869b3c4049e0d31fe1c01166635ae33eadf2dcf0664a3b6a5f7a
      0x085a22accb9ddaa7de10dbb6db5a1dcaa5aa43bd6868024b096875b4fc4f97fb;
    G1P 0x0cf771a769ac19b9d94e52bd219efb1c7d857ae38331ae91b04502bcc1351441
      0x1e13f96a68e67625d29042e5a56dba939241e4ffbb2c644f4f31e9211de12578;
    G1P 0x2f7bf4395880097fad5e558726c149ac96bfc8c80d556996716601ca42fe2eee
      0x072033d3eb57ec50403d57c7dcf372e75461af3864db17781b7dd3e13bd22f20;
    G1P 0x119f446f1e059715aa3726db63094b54af436c4ebb853bde084ae4aa6da5d1ec
      0x1f46255071e48a87e8921fe55face923de4d179eaf16bcc1d78a1feafe42c3de;
    G1P 0x0cf355372151e0226f2aae2f73ca849c4506f5794a551353a9be997abe9f18bf
      0x02653477629494a85df2289b64e70cd39cf6e6b61ca7f71fbe49e4f266e64a51;
    G1P 0x10d7380431997375db7343bb63d19aa2fdc7a074e70c604a2a14bd8c13c5a01f
      0x228c44eda5c853b54ccb56fb27f5fc08675d07924372e3703d09c909d525919a;
    G1P 0x20481997027f5a3f1aa5f701770ddc85d72a04f6ff71f24e9ede9f3c44a7b063
      0x0b4aeb8e2110985c4369aa819d4f1a90bf981c618b82aa3311a7dced86656fea;
    G1P 0x09626f2649c660c659d9c033d2040b9dd48d6a163bd55f72e9156104509e13a1
      0x19d311f67aeeb9cce576064e6b3aac9b284edf19665cdc10409f5bbec888cd42;
    G1P 0x1841f89c356bd239098b64939203b61f50c126649589b6f7b4eb02bb966504a1
      0x0f384c41b3c6cf49adb6ea32d6d5eb7423aa6464d5be566ee337b9747077143b;
    G1P 0x0691e96a90fe638eec94cf392f09e42a210dfb9a4051cb8a998c795739c721c2
      0x15491bfec0a280a816393ffc8abd685dd7a4453cbcb07cb2faacc97f1f829f08;
    G1P 0x1118135f7bd7642a3f4a97cc65a753de1a3edcb8ce038b349eb0002d8765a527
      0x17bc505eed6159b0441af30157f9f2a0f44dfebe281012bda0f6ddb5b6f3d8f6;
    G1P 0x178b8641c7d4c8878d2ea2e1112a6e6431aa297f8600c492022706d70e8592a8
      0x2ffad292edae7bf627d7fbeb963821cb2a27a16f186dd2b7ec6c23d5781acc80;
    G1P 0x29f9884b6578bfe504209a3d06d7ed895b6a566a53ad63a8c4f6f7e110f4ced6
      0x0dbd57c26240585cac2765e563d26dded5f7cad6b2afad23c164bc59d6977e5a;
    G1P 0x03516852c6b425644ae6878e532c12d2ede06086a1533c6d2e696f7e0fb0a1f0
      0x0fbf07f2e7af142fb38ec1c65269abff2015d6862769ef367cecf7dd481387a6;
    G1P 0x049e373bc04913bef644e77d51b6e92ed0cb1970dfa08d5679fcea088d6e7229
      0x04fef570797d750fec4d65d20c6ec5af25f726fadf54ce261e4d3e6c6c4e08bb] |}.

(** [Groth16ProofAdapter]. *)
Definition deployed_adapter `{Precompiles} : ProofAdapter := with_keys request_key withdrawal_key.

End adapter.
Import adapter.

(** ** The generated constants *)

(** On the curve y² = x³ + 3, with coordinates below the modulus. *)
Definition on_g1 (p : G1Point) : bool :=
  ((0 <=? g1x p) && (g1x p <? BASE_MODULUS) && (0 <=? g1y p) && (g1y p <? BASE_MODULUS) &&
   ((g1y p * g1y p) mod BASE_MODULUS =? (g1x p * g1x p * g1x p + 3) mod BASE_MODULUS))%Z.

(** The committed keys have a point for every public input and one more, all on
    the curve, so no statement is refused because of the key. *)
Lemma deployed_keys_shape :
  length (k_ic request_key) = 13%nat ∧ length (k_ic withdrawal_key) = 15%nat ∧
  forallb on_g1 (k_alpha request_key :: k_ic request_key) = true ∧
  forallb on_g1 (k_alpha withdrawal_key :: k_ic withdrawal_key) = true.
Proof. vm_compute. by repeat split. Qed.

(** ** The chain and the proof crate run the same check *)

Section agreement.
Context {A : Ark} {PS : ProofSystem} {KM : KeyMaterial} {PC : Precompiles}.

(** A point as the setup writes it into the contract. *)
Definition sol_g1 (p : G1) : G1Point := G1P (fint p.1) (fint p.2).
Definition sol_g2 (q : G2) : G2Point := G2P (fint q.1.1, fint q.1.2) (fint q.2.1, fint q.2.2).
Definition sol_key (key : VerifyingKey) : Key := {|
  k_alpha := sol_g1 (vk_alpha_g1 key); k_beta := sol_g2 (vk_beta_g2 key);
  k_gamma := sol_g2 (vk_gamma_g2 key); k_delta := sol_g2 (vk_delta_g2 key);
  k_ic := sol_g1 <$> vk_gamma_abc_g1 key |}.

(** Points the precompiles take: of the group, or zero for the neutral element. *)
Definition g1_point (p : G1) : Prop :=
  p = (fzero, fzero) ∨ g1_on_curve p = true ∧ g1_in_subgroup p = true.
Definition g2_point (q : G2) : Prop :=
  q = ((fzero, fzero), (fzero, fzero)) ∨ g2_on_curve q = true ∧ g2_in_subgroup q = true.
Definition g1_neg (p : G1) : G1 := (p.1, fneg p.2).

(** The words of EIP-197: of a coordinate in the extension the imaginary part
    comes first. *)
Definition eip197_words (p : G1Point) (q : G2Point) : list Z :=
  let '(x_re, x_im) := g2x q in
  let '(y_re, y_im) := g2y q in
  [g1x p; g1y p; x_im; x_re; y_im; y_re].
Definition pair_words (l : list (G1Point * G2Point)) : list Z := l ≫= λ pq, eip197_words pq.1 pq.2.
Definition sol_pair (pq : G1 * G2) : G1Point * G2Point := (sol_g1 pq.1, sol_g2 pq.2).

(** EIP-196 and EIP-197: the precompiles add, multiply and pair the points of
    the group, and the pairing check fails on any other words; the group's order
    is odd; and the equation that [Groth16::verify] checks. *)
Class PairingLaw : Type := {
  g1_add : G1 → G1 → G1;
  g1_mul : G1 → Fr → G1;
  pairing_product : list (G1 * G2) → bool;
  g1_order p : g1_on_curve p = true → g1_in_subgroup p = true → p.2 ≠ fzero;
  g1_neg_point p : g1_point p → g1_point (g1_neg p);
  ecAdd_law p q : g1_point p → g1_point q →
    g1_point (g1_add p q) ∧
    ecAdd [fint p.1; fint p.2; fint q.1; fint q.2] = Some (fint (g1_add p q).1, fint (g1_add p q).2);
  ecMul_law p s : g1_point p →
    g1_point (g1_mul p s) ∧
    ecMul [fint p.1; fint p.2; fint s] = Some (fint (g1_mul p s).1, fint (g1_mul p s).2);
  ecPairing_law l : Forall (λ pq, g1_point pq.1 ∧ g2_point pq.2) l →
    ecPairing (pair_words (sol_pair <$> l)) = Some (Z.b2z (pairing_product l));
  ecPairing_invalid l output : ecPairing (pair_words l) = Some output →
    Forall (λ pq, ∃ p q, pq = (sol_g1 p, sol_g2 q) ∧ g1_point p ∧ g2_point q) l;
  vk_points key : g1_point (vk_alpha_g1 key) ∧ g2_point (vk_beta_g2 key) ∧
    g2_point (vk_gamma_g2 key) ∧ g2_point (vk_delta_g2 key) ∧ Forall g1_point (vk_gamma_abc_g1 key);
  groth16_law key inputs p : proof_valid p →
    length (vk_gamma_abc_g1 key) = S (length inputs) →
    groth16_verify key inputs p = Ok (
      match vk_gamma_abc_g1 key with
      | [] => false
      | first :: ic =>
          pairing_product
            [ (g1_neg p.1.1, p.1.2); (vk_alpha_g1 key, vk_beta_g2 key);
              (foldl g1_add first (zip_with g1_mul ic inputs), vk_gamma_g2 key);
              (p.2, vk_delta_g2 key) ]
      end);
}.

(** The bytes of a proof: [proof_to_wire] before base64. *)
Definition proof_bytes (p : Proof16) : list byte :=
  proof_coordinates p ≫= λ c, vec_to_list (prime_field_bytes c).
Definition sol_proof (p : Proof16) : Proof :=
  {| proof_a := sol_g1 p.1.1; proof_b := sol_g2 p.1.2; proof_c := sol_g1 p.2 |}.

Lemma fq_bound (x : Fq) : (0 ≤ fint x < BASE_MODULUS)%Z.
Proof. rewrite <- Fq_modulus. apply fint_bound. Qed.

Lemma fq_word w : (0 ≤ w < BASE_MODULUS)%Z → fint (fof w : Fq) = w.
Proof. intros. apply fint_small. by rewrite Fq_modulus. Qed.

(** The words of a string of coordinates. *)
Lemma coordinate_words (l : list Fq) :
  be_val <$> chunks32 (length l) (l ≫= λ c, vec_to_list (prime_field_bytes c)) = fint <$> l.
Proof.
  rewrite chunks32_concat, <- list_fmap_compose. apply list_fmap_ext.
  intros i c _. apply be_val_prime_field_bytes.
Qed.

Lemma words_coordinates n bytes :
  length bytes = (n * 32)%nat →
  Forall (λ w, w < BASE_MODULUS)%Z (be_val <$> chunks32 n bytes) →
  bytes = ((fof <$> (be_val <$> chunks32 n bytes) : list Fq) ≫= λ c, vec_to_list (prime_field_bytes c)).
Proof.
  revert bytes. induction n as [|n IH]; intros bytes Hl Hw; cbn [chunks32 fmap list_fmap] in *.
  - by apply length_zero_iff_nil.
  - inversion Hw as [|? ? Hb Hw']; subst. rewrite bind_cons.
    rewrite <- (IH (drop 32 bytes)) by (done || rewrite length_drop; lia).
    rewrite <- (take_drop 32 bytes) at 1. f_equal.
    unfold prime_field_bytes. rewrite fq_word by (split; [apply be_val_bound|done]).
    apply be_val_inj; [rewrite length_vec_to_list, length_take; lia|].
    rewrite be_val_be_bytes. symmetry. apply Z.mod_small. split; [apply be_val_bound|].
    pose proof (be_val_bound (take 32 bytes)) as [_ H]. by rewrite length_take_le in H by lia.
Qed.

Lemma decodeProof_spec encoded parsed :
  decodeProof encoded = Some parsed ↔ ∃ p, encoded = proof_bytes p ∧ parsed = sol_proof p.
Proof.
  unfold decodeProof. split.
  - case_bool_decide as Hl; [|done]. cbn [negb]. destruct (existsb _ _) eqn:Hw; [done|]. intros H.
    assert (Forall (λ w, w < BASE_MODULUS)%Z (be_val <$> chunks32 8 encoded)) as Hb.
    { apply Forall_forall. intros w Hin. apply Z.leb_gt. apply not_true_iff_false. intros Hlt.
      apply not_true_iff_false in Hw. apply Hw, existsb_exists. exists w.
      by rewrite <- list_elem_of_In. }
    pose proof (words_coordinates 8 encoded Hl Hb) as He.
    destruct (be_val <$> chunks32 8 encoded) as [|w0 [|w1 [|w2 [|w3 [|w4 [|w5 [|w6 [|w7 [|]]]]]]]]] eqn:E; try done.
    injection H as <-.
    assert (Forall (λ w, 0 ≤ w < BASE_MODULUS)%Z [w0; w1; w2; w3; w4; w5; w6; w7]) as Hb'.
    { rewrite <- E in Hb |- *. apply Forall_fmap in Hb. apply Forall_fmap. eapply Forall_impl; [exact Hb|].
      intros c Hc. split; [apply be_val_bound|exact Hc]. }
    exists (((fof w0, fof w1), ((fof w2, fof w3), (fof w4, fof w5))), (fof w6, fof w7)).
    split; [exact He|]. repeat (apply Forall_cons in Hb' as [? Hb']).
    unfold sol_proof, sol_g1, sol_g2. cbn [fst snd]. by rewrite !fq_word.
  - intros (p & -> & ->).
    assert (length (proof_coordinates p) = 8%nat) as H8 by by destruct p as [[[] [[] []]] []].
    rewrite bool_decide_true by (unfold proof_bytes; rewrite bytes_of_coords_length; lia). cbn [negb].
    pose proof (coordinate_words (proof_coordinates p)) as Hw. rewrite H8 in Hw.
    unfold proof_bytes. rewrite Hw.
    assert (existsb (λ w, BASE_MODULUS <=? w)%Z (fint <$> proof_coordinates p) = false) as ->.
    { apply not_true_iff_false. intros (w & Hin & Hle)%existsb_exists.
      apply list_elem_of_In, list_elem_of_fmap in Hin as (c & -> & _). apply Z.leb_le in Hle.
      pose proof (fq_bound c). lia. }
    by destruct p as [[[] [[] []]] []].
Qed.

Lemma sol_g1_inj p q : sol_g1 p = sol_g1 q → p = q.
Proof. destruct p, q. intros [= ->%fint_inj ->%fint_inj]. done. Qed.

Lemma sol_g1_zero : sol_g1 (fzero, fzero) = G1P 0 0.
Proof. unfold sol_g1, fzero. cbn [fst snd]. by rewrite fq_word by (split; [done|by vm_compute]). Qed.

Lemma fint_zero (x : Fq) : fint x = 0%Z ↔ x = fzero.
Proof.
  split.
  - intros E. rewrite <- (fof_fint x), E. done.
  - intros ->. unfold fzero. by rewrite fq_word by (split; [done|by vm_compute]).
Qed.

Lemma fint_fneg (x : Fq) : x ≠ fzero → fint (fneg x) = (BASE_MODULUS - fint x)%Z.
Proof.
  intros Hx. unfold fneg. rewrite fint_fof, Fq_modulus. pose proof (fq_bound x).
  assert (fint x ≠ 0%Z) by by rewrite fint_zero.
  symmetry. apply Z.mod_unique_pos with (-1)%Z; lia.
Qed.

Lemma fneg_zero : fneg fzero = fzero :> Fq.
Proof.
  apply fint_zero. unfold fneg. by rewrite (proj2 (fint_zero fzero) eq_refl), fint_fof.
Qed.

Lemma fneg_involutive (x : Fq) : fneg (fneg x) = x.
Proof.
  destruct (decide (x = fzero)) as [->|Hx]; [by rewrite !fneg_zero|].
  pose proof (fint_fneg x Hx) as E. pose proof (fq_bound x) as Hb.
  assert (fint x ≠ 0%Z) by by rewrite fint_zero.
  apply fint_inj. rewrite fint_fneg; [lia|]. intros E0%fint_zero. lia.
Qed.

Context {PL : PairingLaw}.

Lemma g1_point_neg p : g1_point (g1_neg p) ↔ g1_point p.
Proof.
  split; [|apply g1_neg_point]. intros H%g1_neg_point. unfold g1_neg in H. cbn [fst snd] in H.
  rewrite fneg_involutive in H. by destruct p.
Qed.

(** [_negate] on a point. *)
Lemma negate_spec p : g1_point p → negate (sol_g1 p) = sol_g1 (g1_neg p).
Proof.
  unfold negate, sol_g1, g1_neg. cbn [g1x g1y fst snd]. intros [->|[H1 H2]].
  - cbn [fst snd]. rewrite fneg_zero. by rewrite (proj2 (fint_zero fzero) eq_refl).
  - pose proof (g1_order p H1 H2) as Hy. rewrite (fint_fneg _ Hy).
    assert (fint p.2 ≠ 0%Z) as Hy' by by rewrite fint_zero.
    rewrite (proj2 (Z.eqb_neq _ _) Hy'), andb_false_r.
    by rewrite Z.mod_small by apply fq_bound.
Qed.

(** What it writes is a point only when it was given one. *)
Lemma negate_inv p p' : negate (sol_g1 p) = sol_g1 p' → g1_point p' → g1_point p.
Proof.
  unfold negate. cbn [sol_g1 g1x g1y]. destruct (_ && _) eqn:Ez.
  - intros _ _. apply andb_true_iff in Ez as [Hx%Z.eqb_eq%fint_zero Hy%Z.eqb_eq%fint_zero].
    left. destruct p. cbn [fst snd] in *. congruence.
  - intros [= Hx Hy] Hp'. rewrite Z.mod_small in Hy by apply fq_bound.
    assert (p.2 ≠ fzero) as Hn.
    { intros E%fint_zero. rewrite E in Hy. pose proof (fq_bound p'.2). lia. }
    rewrite <- (fint_fneg _ Hn) in Hy. apply g1_point_neg.
    replace (g1_neg p) with p'; [done|]. destruct p' as [x y]. unfold g1_neg.
    cbn [fst snd] in *. apply fint_inj in Hx, Hy. congruence.
Qed.

Lemma key_ic_spec key n p : vk_gamma_abc_g1 key !! n = Some p → key_ic (sol_key key) n = Ok (sol_g1 p).
Proof. intros E. unfold key_ic. cbn [sol_key k_ic]. by rewrite list_lookup_fmap, E. Qed.

Lemma scalarMul_spec p v : g1_point p → reduced v →
  g1_point (g1_mul p (fof v)) ∧ scalarMul (sol_g1 p) v = Some (sol_g1 (g1_mul p (fof v))).
Proof.
  intros Hp Hv. destruct (ecMul_law p (fof v) Hp) as [Ht Em]. split; [exact Ht|].
  rewrite fint_reduced in Em by done. unfold scalarMul. cbn [sol_g1 g1x g1y]. by rewrite Em.
Qed.

Lemma add_spec p q : g1_point p → g1_point q →
  g1_point (g1_add p q) ∧ add (sol_g1 p) (sol_g1 q) = Some (sol_g1 (g1_add p q)).
Proof.
  intros Hp Hq. destruct (ecAdd_law p q Hp Hq) as [Hs Ea]. split; [exact Hs|].
  unfold add. cbn [sol_g1 g1x g1y]. by rewrite Ea.
Qed.

(** The loop adds up the key's points, and stops at a word outside the field. *)
Lemma accumulate_spec key i values ic acc :
  g1_point acc → Forall g1_point ic → Forall (λ v, 0 ≤ v)%Z values →
  drop (S i) (vk_gamma_abc_g1 key) = ic → length ic = length values →
  ∃ sum, g1_point sum ∧ accumulate (sol_key key) i values (sol_g1 acc) =
    Ok (if decide (Forall reduced values) then Some (sol_g1 sum) else None) ∧
    sum = foldl g1_add acc (zip_with g1_mul ic (fof <$> values)).
Proof.
  revert i ic acc. induction values as [|v values IH]; intros i ic acc Hacc Hic Hv Hd Hl.
  - exists acc. destruct ic; [|done]. rewrite decide_True by constructor. done.
  - destruct ic as [|p ic]; [done|]. cbn [accumulate zip_with fmap list_fmap foldl].
    apply Forall_cons in Hic as [Hp Hic]. apply Forall_cons in Hv as [Hv0 Hv].
    assert (vk_gamma_abc_g1 key !! (i + 1) = Some p) as Hlook.
    { replace (i + 1)%nat with (S i + 0)%nat by lia. rewrite <- lookup_drop, Hd. done. }
    assert (g1_point (g1_mul p (fof v))) as Ht by apply (ecMul_law p (fof v) Hp).
    destruct (add_spec acc (g1_mul p (fof v)) Hacc Ht) as [Hs Ea].
    destruct (IH (S i) ic (g1_add acc (g1_mul p (fof v))) Hs Hic Hv) as (sum & Hsum & E & Esum).
    { rewrite <- (Nat.add_1_r (S i)), <- drop_drop, Hd. done. }
    { by injection Hl. }
    exists sum. split; [exact Hsum|]. split; [|exact Esum].
    destruct (Z.leb_spec SCALAR_MODULUS v) as [Hle|Hlt].
    { rewrite decide_False; [done|]. intros [[? ?] _]%Forall_cons. lia. }
    rewrite (key_ic_spec _ _ _ Hlook), result_Ok_bind.
    assert (reduced v) as Hr by by split.
    rewrite (proj2 (scalarMul_spec p v Hp Hr)), Ea, E. f_equal. apply decide_ext.
    rewrite Forall_cons. tauto.
Qed.

(** The equation of the proof system. *)
Definition equation (key : VerifyingKey) (inputs : list Fr) (p : Proof16) : bool :=
  match vk_gamma_abc_g1 key with
  | [] => false
  | first :: ic =>
      pairing_product
        [ (g1_neg p.1.1, p.1.2); (vk_alpha_g1 key, vk_beta_g2 key);
          (foldl g1_add first (zip_with g1_mul ic inputs), vk_gamma_g2 key);
          (p.2, vk_delta_g2 key) ]
  end.

Definition proof_points (p : Proof16) : Prop := g1_point p.1.1 ∧ g2_point p.1.2 ∧ g1_point p.2.

Lemma proof_valid_points p : proof_valid p → proof_points p.
Proof. intros (?&?&?&?&?&?). split_and!; right; by split. Qed.

Lemma writePair_words p q : writePair p q = eip197_words p q.
Proof. by destruct q as [[] []]. Qed.

(** The pairing check on a decoded proof. *)
Lemma pairing_spec key p sum : g1_point sum →
  pairing (negate (sol_g1 p.1.1)) (sol_g2 p.1.2) (k_alpha (sol_key key)) (k_beta (sol_key key))
    (sol_g1 sum) (k_gamma (sol_key key)) (sol_g1 p.2) (k_delta (sol_key key)) = true ↔
  proof_points p ∧ pairing_product
    [ (g1_neg p.1.1, p.1.2); (vk_alpha_g1 key, vk_beta_g2 key); (sum, vk_gamma_g2 key);
      (p.2, vk_delta_g2 key) ] = true.
Proof.
  intros Hsum. destruct (vk_points key) as (Ha & Hb & Hc & Hd & _).
  unfold pairing. rewrite !writePair_words. match goal with |- context [ecPairing ?ws] =>
    change ws with (pair_words [(negate (sol_g1 p.1.1), sol_g2 p.1.2);
      sol_pair (vk_alpha_g1 key, vk_beta_g2 key); sol_pair (sum, vk_gamma_g2 key);
      sol_pair (p.2, vk_delta_g2 key)]) end.
  assert (proof_points p → ecPairing (pair_words [(negate (sol_g1 p.1.1), sol_g2 p.1.2);
      sol_pair (vk_alpha_g1 key, vk_beta_g2 key); sol_pair (sum, vk_gamma_g2 key);
      sol_pair (p.2, vk_delta_g2 key)]) = Some (Z.b2z (pairing_product
    [ (g1_neg p.1.1, p.1.2); (vk_alpha_g1 key, vk_beta_g2 key); (sum, vk_gamma_g2 key);
      (p.2, vk_delta_g2 key) ]))) as Hgood.
  { intros (H1 & H2 & H3). rewrite (negate_spec _ H1). apply g1_point_neg in H1.
    refine (ecPairing_law [(g1_neg p.1.1, p.1.2); (vk_alpha_g1 key, vk_beta_g2 key); (sum, vk_gamma_g2 key);
      (p.2, vk_delta_g2 key)] _).
    do 4 (apply Forall_cons_2; [by split|]). apply Forall_nil_2. }
  split.
  - destruct (ecPairing _) as [out|] eqn:E; [|done]. intros Hout.
    assert (proof_points p) as Hp.
    { pose proof (ecPairing_invalid _ _ E) as Hl.
      apply Forall_cons in Hl as [(p1 & q1 & [= Hn Hq] & Hp1 & Hq1) Hl].
      apply Forall_cons in Hl as [_ Hl]. apply Forall_cons in Hl as [_ Hl].
      apply Forall_cons in Hl as [(p2 & q2 & [= E1 E2] & Hp2 & Hq2) _].
      split; [exact (negate_inv _ _ Hn Hp1)|split].
      - replace p.1.2 with q1; [done|]. destruct q1 as [[] []], p.1.2 as [[] []].
        cbn [fst snd] in *. f_equal; f_equal; by apply fint_inj.
      - replace p.2 with p2; [done|]. destruct p2, p.2. cbn [fst snd] in *. f_equal; by apply fint_inj. }
    split; [exact Hp|]. injection (Hgood Hp) as ->. by destruct (pairing_product _).
  - intros [Hp E]. by rewrite (Hgood Hp), E.
Qed.

(** What the contract accepts. *)
Lemma assert_valid_spec key values encoded :
  length (vk_gamma_abc_g1 key) = S (length values) → Forall (λ v, 0 ≤ v)%Z values →
  assert_valid (sol_key key) values encoded = Ok tt ↔
  Forall reduced values ∧
  ∃ p, encoded = proof_bytes p ∧ proof_points p ∧ equation key (fof <$> values) p = true.
Proof.
  intros Hl Hv. destruct (vk_points key) as (_ & _ & _ & _ & Hic). unfold equation.
  destruct (vk_gamma_abc_g1 key) as [|first ic] eqn:Ek; [done|]. injection Hl as Hl.
  apply Forall_cons in Hic as [Hf Hic].
  destruct (accumulate_spec key 0 values ic first Hf Hic Hv) as (sum & Hsum & E & Es);
    [by rewrite Ek|done|]. rewrite <- Es. clear Es.
  assert (∀ p, verify (sol_key key) values (sol_proof p) =
    Ok (if decide (Forall reduced values) then pairing (negate (sol_g1 p.1.1)) (sol_g2 p.1.2)
      (k_alpha (sol_key key)) (k_beta (sol_key key)) (sol_g1 sum) (k_gamma (sol_key key)) (sol_g1 p.2)
      (k_delta (sol_key key)) else false)) as Hver.
  { intros p. unfold verify. rewrite (key_ic_spec key 0 first) by by rewrite Ek.
    rewrite result_Ok_bind, E, result_Ok_bind. by destruct (decide _). }
  unfold assert_valid. split.
  - destruct (decodeProof encoded) as [parsed|] eqn:Ed; [|done].
    apply decodeProof_spec in Ed as (p & -> & ->). rewrite Hver, result_Ok_bind.
    intros H%guard_err_Ok%negb_false_iff. destruct (decide _) as [Hr|]; [|done].
    split; [exact Hr|]. exists p. split; [done|]. by apply pairing_spec.
  - intros (Hr & p & -> & Hp).
    rewrite (proj2 (decodeProof_spec (proof_bytes p) (sol_proof p))) by by exists p.
    rewrite Hver, decide_True, result_Ok_bind by done.
    apply guard_err_Ok, negb_false_iff. by apply pairing_spec.
Qed.

(** ** Statements *)

(** The statement of the proof crate that the contract's words stand for. *)
Definition rust_request (i : RequestPublicInputs) : RequestPublicInputsV2 := {|
  rp2_protocol_version := rProtocolVersion i;
  rp2_chain_id := rChainId i;
  rp2_contract_address := uint_felt (rContractAddress i);
  rp2_active_root := uint_felt (rActiveRoot i);
  rp2_state_signing_key_x := uint_felt (rStateSigningKeyX i);
  rp2_state_signing_key_y := uint_felt (rStateSigningKeyY i);
  rp2_request_time := requestTime i;
  rp2_solvency_bound := solvencyBound i;
  rp2_request_nullifier := uint_felt (requestNullifier i);
  rp2_authorization_tag := uint_felt (authorizationTag i);
  rp2_anonymous_commitment_x := uint_felt (anonymousCommitmentX i);
  rp2_anonymous_commitment_y := uint_felt (anonymousCommitmentY i) |}.

Definition rust_withdrawal (i : WithdrawalPublicInputs) : WithdrawalPublicInputsV2 := {|
  wp2_protocol_version := protocolVersion i;
  wp2_chain_id := chainId i;
  wp2_contract_address := uint_felt (contractAddress i);
  wp2_active_root := uint_felt (activeRoot i);
  wp2_state_signing_key_x := uint_felt (stateSigningKeyX i);
  wp2_state_signing_key_y := uint_felt (stateSigningKeyY i);
  wp2_clearance_signing_key_x := uint_felt (clearanceSigningKeyX i);
  wp2_clearance_signing_key_y := uint_felt (clearanceSigningKeyY i);
  wp2_note_id := noteId i;
  wp2_final_balance := finalBalance i;
  wp2_destination := be_bytes 20 (destination i);
  wp2_withdrawal_nullifier := uint_felt (withdrawalNullifier i);
  wp2_has_clearance := hasClearance i;
  wp2_withdrawal_tag := uint_felt (withdrawalTag i) |}.

Lemma request_ok_fits i : request_inputs_ok i = true →
  request_v2_fits (rust_request i) ∧ Forall (λ v, 0 ≤ v)%Z (request_values i).
Proof.
  unfold request_inputs_ok, fits. intros H%bool_decide_eq_true. destruct_and!.
  split; [by repeat split|]. repeat (apply Forall_cons_2; [done|]). apply Forall_nil_2.
Qed.

Lemma withdrawal_ok_fits i : withdrawal_inputs_ok i = true →
  withdrawal_v2_fits (rust_withdrawal i) ∧ fits 160 (destination i) ∧
  Forall (λ v, 0 ≤ v)%Z (withdrawal_values i).
Proof.
  unfold withdrawal_inputs_ok, fits. intros H%bool_decide_eq_true. destruct_and!.
  split; [by repeat split|]. split; [by split|].
  repeat (apply Forall_cons_2; [done || by destruct (hasClearance i)|]). apply Forall_nil_2.
Qed.

Lemma request_values_felts i : request_inputs_ok i = true →
  felt_to_field <$> vec_to_list (request_v2_to_field_elements (rust_request i))
  = fof <$> request_values i.
Proof.
  intros [(Hv & Hc & Ht & Hb) _]%request_ok_fits. unfold request_v2_to_field_elements, request_values.
  cbn -[felt_to_field] in *. rewrite !felt_to_field_uint, felt_to_field_from_u128 by done.
  by rewrite !felt_to_field_from_u64 by (done || by apply (fits_weaken 16 64)).
Qed.

Lemma be_val_padded n {m} (v : vec byte m) : be_val (vreplicate n x00 +++ v) = be_val v.
Proof. by rewrite vec_to_list_app, vec_to_list_replicate, be_val_replicate. Qed.

Lemma destination_word i : fits 160 (destination i) →
  felt_to_field (destination_field (rust_withdrawal i)) = fof (destination i).
Proof.
  intros Hd. rewrite felt_to_field_val. f_equal. unfold felt_val, destination_field.
  etrans; [exact (be_val_padded 12 (be_bytes 20 (destination i)))|]. rewrite be_val_be_bytes.
  apply Z.mod_small. exact Hd.
Qed.

Lemma withdrawal_values_felts i : withdrawal_inputs_ok i = true →
  felt_to_field <$> vec_to_list (withdrawal_v2_to_field_elements (rust_withdrawal i))
  = fof <$> withdrawal_values i.
Proof.
  intros [(Hv & Hc & Hn & Hb) [Hd _]]%withdrawal_ok_fits.
  unfold withdrawal_v2_to_field_elements, withdrawal_values.
  pose proof (destination_word i Hd) as Ed.
  cbn -[felt_to_field destination_field] in *. rewrite Ed, !felt_to_field_uint, felt_to_field_from_u128 by done.
  rewrite !felt_to_field_from_u64 by (done || (by apply (fits_weaken 16 64)) || (by apply (fits_weaken 32 64)) ||
    by destruct (hasClearance i)).
  by destruct (hasClearance i).
Qed.

Lemma request_to_field_elements_values i q : request_inputs_ok i = true →
  request_public_from_wire (rust_request i) = Ok q → request_to_field_elements q = fof <$> request_values i.
Proof.
  intros Hi Hq. rewrite <- (request_values_felts i Hi).
  exact (proj1 public_inputs_agree _ _ (proj1 (request_ok_fits i Hi)) Hq).
Qed.

Lemma withdrawal_to_field_elements_values i q : withdrawal_inputs_ok i = true →
  withdrawal_public_from_wire (rust_withdrawal i) = Ok q →
  withdrawal_to_field_elements q = fof <$> withdrawal_values i.
Proof.
  intros Hi Hq. rewrite <- (withdrawal_values_felts i Hi).
  exact (proj2 public_inputs_agree _ _ (proj1 (withdrawal_ok_fits i Hi)) Hq).
Qed.

(** Reading back the wire form of a proof with valid points. *)
Lemma proof_wire p w : proof_valid p → proof_to_wire p = Ok w →
  ensure_backend w = Ok tt ∧ proof_from_wire w = Ok p.
Proof.
  intros Hp [= <-]. split; [done|]. apply proof_from_wire_Ok. cbn [gp_proof].
  by rewrite base64_roundtrip.
Qed.

Lemma proof_bytes_inj p p' : proof_bytes p = proof_bytes p' → p = p'.
Proof.
  intros E. assert (Some (sol_proof p) = Some (sol_proof p')) as [= Es].
  { rewrite <- (proj2 (decodeProof_spec (proof_bytes p) (sol_proof p))) by by exists p.
    rewrite E. apply decodeProof_spec. by exists p'. }
  destruct p as [[[] [[] []]] []], p' as [[[] [[] []]] []]. cbn [fst snd] in *.
  repeat match goal with H : fint _ = fint _ |- _ => apply fint_inj in H as -> end. done.
Qed.

(** The contract on a proof with valid points and a statement in the field. *)
Lemma contract_verifies key values p :
  length (vk_gamma_abc_g1 key) = S (length values) → Forall (λ v, 0 ≤ v)%Z values →
  Forall reduced values → proof_valid p →
  assert_valid (sol_key key) values (proof_bytes p) = Ok tt ↔
  groth16_verify key (fof <$> values) p = Ok true.
Proof.
  intros Hl Hv Hr Hp. rewrite assert_valid_spec by done.
  rewrite groth16_law by (done || by rewrite length_fmap).
  change (match vk_gamma_abc_g1 key with [] => _ | _ => _ end) with (equation key (fof <$> values) p).
  split.
  - by intros (_ & p' & <-%proof_bytes_inj & _ & ->).
  - intros [= E]. split; [done|]. exists p. split; [done|]. split; [by apply proof_valid_points|done].
Qed.

Lemma contract_strict key values encoded :
  length (vk_gamma_abc_g1 key) = S (length values) → Forall (λ v, 0 ≤ v)%Z values →
  assert_valid (sol_key key) values encoded = Ok tt →
  Forall reduced values ∧ ∃ p, encoded = proof_bytes p ∧ proof_points p.
Proof. intros Hl Hv (Hr & p & E & Hp & _)%assert_valid_spec; eauto. Qed.

Lemma map_err_true {E E'} (f : E → E') (r : result E bool) : map_err f r = Ok true ↔ r = Ok true.
Proof. by destruct r as [[]| |]. Qed.

(** C16. The contract's verifier is the crate's: it accepts only words of the
    field and a proof of eight canonical coordinates of points of the groups (so
    a statement or a proof has no second form on the chain), and on a statement
    and a proof the crate can read the two answers are the same. *)
Theorem onchain_verifier_agrees (request withdrawal : VerifyingKey) :
  length (vk_gamma_abc_g1 request) = 13%nat → length (vk_gamma_abc_g1 withdrawal) = 15%nat →
  let contract := with_keys (sol_key request) (sol_key withdrawal) in
  (∀ i encoded, request_inputs_ok i = true →
     (@assertValidRequest contract i encoded = Ok tt →
        Forall reduced (request_values i) ∧ ∃ p, encoded = proof_bytes p ∧ proof_points p) ∧
     ∀ p q w, proof_valid p → proof_to_wire p = Ok w →
       Forall reduced (request_values i) → request_public_from_wire (rust_request i) = Ok q →
       @assertValidRequest contract i (proof_bytes p) = Ok tt ↔
       request_verify request (rust_request i) w = Ok true) ∧
  (∀ i encoded, withdrawal_inputs_ok i = true →
     (@assertValidWithdrawal contract i encoded = Ok tt →
        Forall reduced (withdrawal_values i) ∧ ∃ p, encoded = proof_bytes p ∧ proof_points p) ∧
     ∀ p q w, proof_valid p → proof_to_wire p = Ok w →
       Forall reduced (withdrawal_values i) → withdrawal_public_from_wire (rust_withdrawal i) = Ok q →
       @assertValidWithdrawal contract i (proof_bytes p) = Ok tt ↔
       withdrawal_verify withdrawal (rust_withdrawal i) w = Ok true).
Proof.
  intros Hlr Hlw contract. split; intros i encoded Hi.
  - pose proof (request_ok_fits i Hi) as [_ Hv]. split; [by apply contract_strict|].
    intros p q w Hp Hw Hr Hq. destruct (proof_wire p w Hp Hw) as [Hb Hpw].
    unfold request_verify. rewrite Hb, result_Ok_bind, Hpw, result_Ok_bind, Hq, result_Ok_bind, map_err_true.
    unfold verify_request. rewrite (request_to_field_elements_values i q Hi Hq).
    by apply contract_verifies.
  - pose proof (withdrawal_ok_fits i Hi) as (_ & _ & Hv). split; [by apply contract_strict|].
    intros p q w Hp Hw Hr Hq. destruct (proof_wire p w Hp Hw) as [Hb Hpw].
    unfold withdrawal_verify. rewrite Hb, result_Ok_bind, Hpw, result_Ok_bind, Hq, result_Ok_bind, map_err_true.
    unfold verify_withdrawal. rewrite (withdrawal_to_field_elements_values i q Hi Hq).
    by apply contract_verifies.
Qed.
End agreement.

(** ** The vault behind this adapter *)

Section exits.
Context {PC : Precompiles}.

(** Whatever the keys and the precompiles, a word outside the field is refused. *)
Lemma accumulate_reduced key i values acc sum :
  accumulate key i values acc = Ok (Some sum) → Forall (λ v, v < SCALAR_MODULUS)%Z values.
Proof.
  revert i acc. induction values as [|v values IH]; intros i acc H; [by constructor|].
  cbn [accumulate] in H. destruct (Z.leb_spec SCALAR_MODULUS v); [done|].
  apply result_bind_Ok in H as (p & _ & H). destruct (scalarMul p v); [|done].
  destruct (add _ _); [|done]. constructor; [done|by eapply IH].
Qed.

Lemma assert_valid_reduced key values encoded :
  assert_valid key values encoded = Ok tt → Forall (λ v, v < SCALAR_MODULUS)%Z values.
Proof.
  unfold assert_valid. destruct (decodeProof encoded) as [p|]; [|done].
  intros (ok & Hv & Hok%guard_err_Ok%negb_false_iff)%result_bind_Ok. subst ok.
  unfold verify in Hv. apply result_bind_Ok in Hv as (first & _ & Hv).
  apply result_bind_Ok in Hv as ([sum|] & Ha & Hv); [|done]. by eapply accumulate_reduced.
Qed.

(** The withdrawal a nullifier stands for in the log. *)
Record proven `{ProofAdapter} (d : Immutables) (n : Z) (i : WithdrawalPublicInputs)
  (encoded : list byte) : Prop := {
  pr_nullifier : withdrawalNullifier i = n;
  pr_inputs : withdrawal_inputs_ok i = true;
  pr_version : protocolVersion i = Vault.PROTOCOL_VERSION;
  pr_contract : contractAddress i = this d;
  pr_keys : stateSigningKeyX i = vStateSigningKeyX d ∧ stateSigningKeyY i = vStateSigningKeyY d;
  pr_proof : assertValidWithdrawal i encoded = Ok tt;
}.

Lemma leaves_proven `{ProofAdapter} d tx i encoded siblings r w :
  leaves d tx i encoded siblings r w → proven d (withdrawalNullifier i) i encoded.
Proof. intros [Hi [? ? ? ? ?] _ Hp _ _ _ _]. by split. Qed.

(** Only an accepted withdrawal adds to the nullifiers of the log. *)
Lemma moved_spent `{ProofAdapter} d tx w call w' : moved d tx w call w' →
  spent (w_log w') = spent (w_log w) ∨
  ∃ n i encoded, spent (w_log w') = spent (w_log w) ++ [n] ∧ proven d n i encoded.
Proof.
  assert (∀ w0 ev, w_log w0 = w_log w → spent (w_log (w_emit ev w0)) =
    spent (w_log w) ++ match spent_by ev with Some n => [n] | None => [] end) as Hlog.
  { intros w0 ev E. cbn [w_emit w_log]. by rewrite spent_app, E. }
  destruct 1 as [| i proof siblings r t L|i proof siblings r dl L| |id t| |].
  - left. etrans; [by apply Hlog|]. apply app_nil_r.
  - right. exists (withdrawalNullifier i), i, proof. split; [|by eapply leaves_proven].
    apply Hlog. etrans; [exact (proj1 (proj2 (pays_fields d _ _ _ _ _)))|done].
  - right. exists (withdrawalNullifier i), i, proof. split; [|by eapply leaves_proven].
    by apply Hlog.
  - left. etrans; [by apply Hlog|]. apply app_nil_r.
  - left. etrans; [apply Hlog|apply app_nil_r].
    etrans; [exact (proj1 (proj2 (pays_fields d _ _ _ _ _)))|done].
  - left. etrans; [by apply Hlog|]. apply app_nil_r.
  - by left.
Qed.

Lemma run_steps_proven `{ProofAdapter} d w steps :
  Forall (λ n, ∃ i encoded, proven d n i encoded) (spent (w_log w)) →
  Forall (λ n, ∃ i encoded, proven d n i encoded) (spent (w_log (run_steps d w steps))).
Proof.
  unfold run_steps. revert w. induction steps as [|st steps IH]; intros w Hw; [done|].
  apply IH. rewrite <- spent_norm. rewrite <- spent_norm in Hw.
  destruct (run_step_moved d w st) as [->|[_ Hm]]; [done|].
  destruct (moved_spent _ _ _ _ _ Hm) as [->|(n & i & e & -> & Hp)]; [done|].
  apply Forall_app. split; [done|]. constructor; [by exists i, e|constructor].
Qed.

(** C15. Behind this adapter a state can leave the vault once: every nullifier
    that withdrew belongs to a proof the adapter accepted for this contract and
    these keys, is a word of the field, and no two of them are the same element
    of the field, which is all that a proof speaks of. *)
Theorem exits_proven `{Ark} request withdrawal b t ttl cp cap pa kx ky cx cy ow self d s steps :
  constructor b t ttl cp cap pa kx ky cx cy ow self = Ok (d, s) →
  let contract := with_keys request withdrawal in
  let exits := spent (w_log (@run_steps contract d (deployed s) steps)) in
  Forall (λ n, reduced n ∧ ∃ i encoded, @proven contract d n i encoded) exits ∧
  NoDup ((fof <$> exits) : list Fr).
Proof.
  intros (Hok & _)%deployed_ok contract exits.
  assert (Forall (λ n, reduced n ∧ ∃ i encoded, @proven contract d n i encoded) exits) as Hr.
  { eapply Forall_impl; [apply run_steps_proven; constructor|].
    intros n (i & e & Hpr). split; [|by exists i, e].
    pose proof (assert_valid_reduced _ _ _ (pr_proof _ _ _ _ Hpr)) as Hp.
    destruct (withdrawal_ok_fits i (pr_inputs _ _ _ _ Hpr)) as (_ & _ & Hn).
    rewrite Forall_forall in Hp, Hn. rewrite <- (pr_nullifier _ _ _ _ Hpr).
    split; [apply Hn|apply Hp]; unfold withdrawal_values; set_solver. }
  split; [exact Hr|]. destruct (@run_steps_ok contract d _ steps Hok) as [_ _ [_ Hnd]].
  apply NoDup_fmap_2_strong; [|exact Hnd]. rewrite Forall_forall in Hr. intros n m Hn Hm E.
  apply (f_equal fint) in E. rewrite !fint_reduced in E by by apply Hr. exact E.
Qed.
End exits.

(** ** Witnesses *)

#[local] Existing Instance Toy.
#[local] Existing Instance toy_keccak.
#[local] Existing Instance toy_statics.

(** Pairs of field elements with a sum, a product and a check that are easy to
    evaluate; keys for the two circuits. *)
Definition Tq : Type := modint (Z.pos BASE_MODULUS_pos).
#[local] Instance Tq_field : PrimeField Tq := modint_field BASE_MODULUS_pos eq_refl.

Definition tq_mul (a b : Tq) : Tq := fof (fint a * fint b).
Definition toy_sum (p q : Tq * Tq) : Tq * Tq := (fadd p.1 q.1, fone).
Definition toy_times (p : Tq * Tq) (s : @Fr Toy) : Tq * Tq := (fof (fint p.1 * fint s), fone).
Definition toy_product (l : list ((Tq * Tq) * ((Tq * Tq) * (Tq * Tq)))) : bool :=
  bool_decide (foldr (λ pq acc, fadd (tq_mul pq.1.1 pq.2.1.1) acc) fzero l = fzero).
Definition tq1 : Tq * Tq := (fone, fone).
Definition toy_ic (withdrawal : bool) : list (Tq * Tq) := replicate (if withdrawal then 15 else 13) tq1.

Lemma fneg_fof a : fneg (fof a) = fof (- a) :> Tq.
Proof.
  apply fint_inj. unfold fneg. rewrite !fint_fof, <- !Z.sub_0_l. apply Zminus_mod_idemp_r.
Qed.

Lemma tq_mul_one a : tq_mul a fone = a.
Proof.
  unfold tq_mul. assert (fint (fone : Tq) = 1%Z) as -> by by vm_compute.
  by rewrite Z.mul_1_r, fof_fint.
Qed.

Lemma toy_balance (x y z : Tq) :
  fadd x (fadd y (fadd z (fadd (tq_mul (fneg (fadd x (fadd y z))) fone) fzero))) = fzero.
Proof.
  rewrite tq_mul_one. rewrite <- (fof_fint x), <- (fof_fint y), <- (fof_fint z). unfold fzero.
  rewrite !fadd_fof, fneg_fof, !fadd_fof. f_equal. lia.
Qed.

Definition pairing_system : ProofSystem (A := Toy).
Proof.
  refine {|
    Fq := Tq; Fq_field := Tq_field; Fq_modulus := eq_refl;
    g1_on_curve := λ p, negb (bool_decide (p.2 = fzero)); g1_in_subgroup := λ _, true;
    g2_on_curve := λ _, true; g2_in_subgroup := λ _, true;
    ProvingKey := (); VerifyingKey := bool;
    deserialize_pk := λ l, match l with [] => Err "unexpected end of file" | _ :: l => Ok (tt, l) end;
    deserialize_vk := λ l, match l with
      | [] => Err "unexpected end of file" | c :: l => Ok (bool_decide (c = x01), l) end;
    groth16_prove := λ _ _ _ _, Err "unsatisfied";
    groth16_verify := λ key inputs p, Ok (
      match toy_ic key with
      | [] => false
      | first :: ic => toy_product
          [((p.1.1.1, fneg p.1.1.2), p.1.2); (tq1, (tq1, tq1));
           (foldl toy_sum first (zip_with toy_times ic inputs), (tq1, tq1)); (p.2, (tq1, tq1))]
      end);
    base64_encode := str_of; base64_decode := λ s, Some (str_bytes s) |}.
  intros b. by rewrite str_bytes_of.
Defined.
#[local] Existing Instance pairing_system.

Definition pairing_keys : KeyMaterial.
Proof.
  refine {|
    vk_alpha_g1 := λ _, tq1; vk_beta_g2 := λ _, (tq1, tq1); vk_gamma_g2 := λ _, (tq1, tq1);
    vk_delta_g2 := λ _, (tq1, tq1); vk_gamma_abc_g1 := toy_ic;
    serialize_pk := λ _, Ok [x00]; serialize_vk := λ k, Ok [if k : bool then x01 else x00] |}.
  - by intros [] b [= <-].
  - by intros [] b [= <-].
  - intros [] [|c [|c' b]] rest; cbn; by intros [=].
  - intros k [|c [|c' b]] rest; cbn; try by intros [=]. by intros [= <-].
Defined.
#[local] Existing Instance pairing_keys.

Definition to_fq (w : Z) : option Tq :=
  if decide (0 ≤ w < BASE_MODULUS)%Z then Some (fof w) else None.
Definition is_point (p : Tq * Tq) : bool :=
  bool_decide (p.2 ≠ fzero) || bool_decide (p = (fzero, fzero)).

Fixpoint read_pairs (words : list Z) : option (list ((Tq * Tq) * ((Tq * Tq) * (Tq * Tq)))) :=
  match words with
  | [] => Some []
  | a :: b :: c :: d :: e :: f :: words =>
      x ← to_fq a; y ← to_fq b; u1 ← to_fq c; u0 ← to_fq d; v1 ← to_fq e; v0 ← to_fq f;
      if is_point (x, y) then
        l ← read_pairs words; Some (((x, y), ((u0, u1), (v0, v1))) :: l)
      else None
  | _ => None
  end.

#[local] Instance toy_chain : Precompiles := {|
  ecAdd := λ l, match l with
    | [a; b; c; d] => let p := toy_sum (fof a, fof b) (fof c, fof d) in Some (fint p.1, fint p.2)
    | _ => None end;
  ecMul := λ l, match l with
    | [a; b; s] => let p := toy_times (fof a, fof b) (fof s) in Some (fint p.1, fint p.2)
    | _ => None end;
  ecPairing := λ l, Z.b2z ∘ toy_product <$> read_pairs l |}.

Lemma to_fq_word (x : Tq) : to_fq (fint x) = Some x.
Proof. unfold to_fq. rewrite decide_True by exact (fint_bound x). by rewrite fof_fint. Qed.

Lemma to_fq_inv w (x : Tq) : to_fq w = Some x → w = fint x.
Proof. unfold to_fq. case_decide as H; [|done]. intros [= <-]. symmetry. exact (fint_small (F:=Tq) w H). Qed.

Lemma is_point_iff p : is_point p = true ↔ g1_point p.
Proof.
  unfold is_point, g1_point. cbn [g1_on_curve g1_in_subgroup pairing_system].
  rewrite orb_true_iff, negb_true_iff, !bool_decide_eq_true, bool_decide_eq_false. tauto.
Qed.

Lemma read_pairs_words l : Forall (λ pq, g1_point pq.1 ∧ g2_point pq.2) l →
  read_pairs (pair_words (sol_pair <$> l)) = Some l.
Proof.
  induction 1 as [|[[x y] [[u0 u1] [v0 v1]]] l [Hp _] _ IH]; [done|].
  cbn [fmap list_fmap]. unfold pair_words in *. rewrite bind_cons. cbn -[fint to_fq is_point].
  rewrite !to_fq_word. cbn -[fint to_fq is_point]. apply is_point_iff in Hp. cbn in Hp. rewrite Hp.
  by rewrite IH.
Qed.

Lemma read_pairs_inv l ps : read_pairs (pair_words l) = Some ps →
  Forall (λ pq, ∃ p q, pq = (sol_g1 p, sol_g2 q) ∧ g1_point p ∧ g2_point q) l.
Proof.
  revert ps. induction l as [|[[a b] [[c0 c1] [e0 e1]]] l IH]; intros ps H; [constructor|].
  unfold pair_words in H, IH. rewrite bind_cons in H. cbn -[to_fq is_point] in H.
  apply bind_Some in H as (x & Hx%to_fq_inv & H). apply bind_Some in H as (y & Hy%to_fq_inv & H).
  apply bind_Some in H as (u1 & Hu1%to_fq_inv & H). apply bind_Some in H as (u0 & Hu0%to_fq_inv & H).
  apply bind_Some in H as (v1 & Hv1%to_fq_inv & H). apply bind_Some in H as (v0 & Hv0%to_fq_inv & H).
  destruct (is_point (x, y)) eqn:Hp; [|done]. apply bind_Some in H as (ps' & H & _).
  constructor; [|by eapply IH]. exists (x, y), ((u0, u1), (v0, v1)).
  split; [|split; [by apply is_point_iff|by right]]. by rewrite Hx, Hy, Hu1, Hu0, Hv1, Hv0.
Qed.

Lemma fone_neq : (fone : Tq) ≠ fzero.
Proof. intros E%(f_equal fint). vm_compute in E. discriminate. Qed.

Lemma toy_point (x : Tq) : g1_point (x, fone).
Proof. apply is_point_iff. unfold is_point. by rewrite bool_decide_true by apply fone_neq. Qed.

Definition toy_pairing : PairingLaw.
Proof.
  refine {| g1_add := toy_sum; g1_mul := toy_times; pairing_product := toy_product |}.
  - intros p H _. by apply negb_true_iff, bool_decide_eq_false in H.
  - intros p [->|[H _]]; [left; unfold g1_neg; cbn [fst snd]; f_equal; exact fneg_zero|right].
    split; [|done]. apply negb_true_iff, bool_decide_eq_false. cbn [g1_neg fst snd].
    apply negb_true_iff, bool_decide_eq_false in H. intros E. apply H.
    etrans; [symmetry; exact (fneg_involutive p.2)|]. etrans; [exact (f_equal fneg E)|exact fneg_zero].
  - intros p q _ _. split; [apply toy_point|]. cbn -[fof fint toy_sum]. rewrite !fof_fint. by destruct p, q.
  - intros p q _. split; [apply toy_point|]. cbn -[fof fint toy_times]. rewrite !fof_fint. by destruct p.
  - intros l Hl. cbn. by rewrite read_pairs_words.
  - intros l out H. cbn in H. apply fmap_Some in H as (ps & H & _). by eapply read_pairs_inv.
  - intros key. repeat split; try apply toy_point; try (by right). by apply Forall_replicate, toy_point.
  - intros key inputs p _ _. reflexivity.
Defined.
#[local] Existing Instance toy_pairing.

(** A proof whose last point balances the toy check for a withdrawal. *)
Definition toy_total (values : list (@Fr Toy)) : Tq :=
  fadd (tq_mul fone fone) (fadd (tq_mul fone fone)
    (tq_mul (foldl toy_sum tq1 (zip_with toy_times (replicate 14 tq1) values)).1 fone)).
Definition balanced (values : list Z) : Proof16 :=
  (tq1, (tq1, tq1), (fneg (toy_total (fof <$> values)), fone)).

(** The contract with the toy keys. *)
Definition toy_adapter : ProofAdapter :=
  with_keys (sol_key (PS:=pairing_system) false) (sol_key (PS:=pairing_system) true).

Lemma toy_adapter_accepts i : withdrawal_inputs_ok i = true → Forall reduced (withdrawal_values i) →
  @assertValidWithdrawal toy_adapter i (proof_bytes (PS:=pairing_system) (balanced (withdrawal_values i))) = Ok tt.
Proof.
  intros Hi Hr. destruct (withdrawal_ok_fits i Hi) as (_ & _ & Hv).
  apply (assert_valid_spec (PL:=toy_pairing) true (withdrawal_values i) _ eq_refl Hv). split; [exact Hr|].
  exists (balanced (withdrawal_values i)). split; [reflexivity|].
  split; [split; [apply toy_point|split; [by right|apply toy_point]]|].
  apply bool_decide_eq_true. apply toy_balance.
Qed.

(** A request of the sample wallet, and a proof whose last point balances the
    toy check. *)
Definition toy_request : RequestPublicInputs :=
  let p := sample_request_wire in {|
  rProtocolVersion := 2; rChainId := 1; rContractAddress := 99;
  rActiveRoot := felt_val (rp2_active_root p);
  rStateSigningKeyX := felt_val (rp2_state_signing_key_x p);
  rStateSigningKeyY := felt_val (rp2_state_signing_key_y p);
  requestTime := 20; solvencyBound := 300;
  requestNullifier := felt_val (rp2_request_nullifier p);
  authorizationTag := felt_val (rp2_authorization_tag p);
  anonymousCommitmentX := felt_val (rp2_anonymous_commitment_x p);
  anonymousCommitmentY := felt_val (rp2_anonymous_commitment_y p) |}.

Definition toy_proof : Proof16 :=
  (tq1, (tq1, tq1), (fneg (fof (3 + foldr Z.add 0 (request_values toy_request))%Z), fone)).

Lemma onchain_verifier_agrees_witness :
  match proof_to_wire toy_proof with
  | Ok w => request_verify false (rust_request toy_request) w = Ok true
  | _ => False
  end ∧ Forall reduced (request_values toy_request).
Proof.
  destruct (onchain_verifier_agrees (PS:=pairing_system) (KM:=pairing_keys) (PL:=toy_pairing) false true eq_refl eq_refl) as [Hreq _].
  destruct (Hreq toy_request (proof_bytes toy_proof) ltac:(by vm_compute)) as [Hstrict Hagree].
  assert (@assertValidRequest (with_keys (sol_key (PS:=pairing_system) false) (sol_key (PS:=pairing_system) true)) toy_request (proof_bytes toy_proof)
    = Ok tt) as Hrun by by vm_compute.
  destruct (Hstrict Hrun) as [Hr _].
  assert (∃ q, request_public_from_wire (rust_request toy_request) = Ok q) as [q Hq]
    by (apply is_ok_value; vm_compute; reflexivity).
  split; [|exact Hr].
  refine (proj1 (Hagree toy_proof q _ _ eq_refl Hr Hq) Hrun). by repeat split.
Defined.
