(* ===== verification/VaultSpec.v ===== *)
(** * The vault and the rest of the system

    The indexer's mirror (zkapi-indexer), fed with the vault's events, has the
    vault's root and the paths the vault accepts; a user who holds a provable
    state can leave alone. *)
From S2P Require Import Prelude Felt Types Group Ark CoreV2 Merkle Mirror Evm SolPoseidon Vault.
From S2P Require Import VaultLedger Adapter.
Import sol vault adapter.

(** A 32-byte word of an event, as the felt with those bytes. *)
Definition word_felt (z : Z) : Felt252 := Felt (be_bytes 32 z).

(** The events the indexer follows, in its own type. *)
Definition rust_event (ev : Event) : option VaultEvent :=
  match ev with
  | NoteDeposited id c a e r => Some (Mirror.NoteDeposited id (word_felt c) a e (word_felt r))
  | MutualClose id n b _ => Some (Mirror.MutualClose id (word_felt n) b)
  | EscapeWithdrawalInitiated id n b _ t r =>
      Some (Mirror.EscapeWithdrawalInitiated id (word_felt n) b t (word_felt r))
  | EscapeWithdrawalChallenged id n r =>
      Some (Mirror.EscapeWithdrawalChallenged id (word_felt n) (word_felt r))
  | EscapeWithdrawalFinalized id n b _ => Some (Mirror.EscapeWithdrawalFinalized id (word_felt n) b)
  | ExpiredClaimed id a r => Some (Mirror.ExpiredClaimed id a (word_felt r))
  | ProofAdapterSet _ | TreasurySet _ => None
  end.

Section mirrored.
Context {A : Ark} {PL : PoseidonLaw}.

Definition mirror_of (w : World) : TreeMirror :=
  process_events mirror_new (omap rust_event (w_log w)).

Definition felt_leaf (id : Z) (n : Note) : Felt252 :=
  note_leaf id (uint_felt (commitment n)) (depositAmount n) (expiryTs n).

(** The leaf the tree has for a note: the frozen and the closed have none. *)
Definition leaf_view (id : Z) (n : Note) : Felt252 :=
  if decide (status n = Active) then felt_leaf id n else ZERO.

Record agrees (w : World) : Prop := {
  ag_inv : mirror_inv (mirror_of w);
  ag_root : felt_val (mirror_root (mirror_of w)) = currentRoot (w_storage w);
  ag_leaf id : fits 32 id → mirror_get_leaf (mirror_of w) id = leaf_view id (note_of (w_storage w) id);
  ag_original id : status (note_of (w_storage w) id) ≠ Uninitialized →
    original_leaves (mirror_of w) !! id = Some (felt_leaf id (note_of (w_storage w) id));
}.

(** The leaf a call replaces, and the siblings it gives for it. *)
Definition call_path (s : Storage) (call : Call) : option (Z * Z * vec Z 32) :=
  match call with
  | Deposit _ _ siblings => Some (nextNoteId s, 0%Z, siblings)
  | MutualCloseCall i _ siblings | InitiateEscape i _ siblings =>
      Some (noteId i, leaf_of (noteId i) (note_of s (noteId i)), siblings)
  | ChallengeEscape id _ _ siblings => Some (id, 0%Z, siblings)
  | ClaimExpired id siblings => Some (id, leaf_of id (note_of s id), siblings)
  | FinalizeEscape _ | Admin _ => None
  end.

(** The call's siblings differ from the mirror's path, and lead to its root:
    two pairs of felts on the way have one hash. *)
Definition collides (w : World) (call : Call) : Prop :=
  match call_path (w_storage w) call with
  | Some (id, leaf, siblings) =>
      walk_collision id (uint_felt leaf) (uint_felt leaf) (sibling_felts siblings)
        (get_path (mirror_of w) id)
  | None => False
  end.

Lemma word_felt_uint z : reduced z → word_felt z = uint_felt z.
Proof. intros Hz. unfold word_felt, uint_felt, field_to_felt. by rewrite fint_reduced. Qed.

Lemma uint_felt_leaf id n : fits 32 id → note_ok n → uint_felt (leaf_of id n) = felt_leaf id n.
Proof. intros Hid [? ? ?]. by apply computeLeaf_felt. Qed.

Lemma mirror_of_emit w ev v :
  rust_event ev = Some v → process_events mirror_new (omap rust_event (w_log w ++ [ev]))
  = process_event (mirror_of w) v.
Proof.
  intros Hv. rewrite omap_app. cbn. rewrite Hv. unfold process_events. by rewrite foldl_app.
Qed.

(** One leaf changes on both sides. *)
Lemma update_agrees m id old new siblings root r :
  mirror_inv m → fits 32 id → felt_val (mirror_root m) = root →
  reduced old → reduced new → mirror_get_leaf m id = uint_felt old →
  MerkleUpdateLib.verifyAndUpdate root id old new siblings = Ok r →
  felt_val (Merkle.root (set_leaf (tree m) id (uint_felt new))) = r ∨
  walk_collision id (uint_felt old) (uint_felt old) (sibling_felts siblings) (get_path m id).
Proof.
  intros [Hr _] Hid <- Ho Hn Hl. rewrite verifyAndUpdate_spec by done. cbn zeta.
  case_decide as E; [|done]. intros [= <-]. apply felt_val_inj in E.
  apply tree_reach_wf in Hr as (Ht & _ & _).
  pose proof (compute_root_get (tree m) id Ht Hid) as G.
  unfold mirror_get_leaf in Hl. unfold mirror_root in E. unfold get_path. rewrite Hl in G.
  rewrite <- G in E.
  apply compute_root_siblings_binding in E as [->|E]; [left|by right].
  by rewrite (compute_root_set _ _ _ Ht Hid).
Qed.

Lemma mirror_leaf_set m id v id' :
  mirror_inv m → get_leaf (set_leaf (tree m) id v) id' = if decide (id' = id) then v else mirror_get_leaf m id'.
Proof. intros [(Ht & _ & _)%tree_reach_wf _]. by apply get_leaf_set. Qed.

(** The agreement after a move that changes one note and its leaf. *)
Lemma agrees_update w w' ev v id old new siblings root' :
  agrees w → notes_ok (w_storage w) → fits 32 id → reduced old → reduced new →
  mirror_get_leaf (mirror_of w) id = uint_felt old →
  MerkleUpdateLib.verifyAndUpdate (currentRoot (w_storage w)) id old new siblings = Ok root' →
  w_log w' = w_log w ++ [ev] → rust_event ev = Some v →
  currentRoot (w_storage w') = root' →
  tree (process_event (mirror_of w) v) = set_leaf (tree (mirror_of w)) id (uint_felt new) →
  (∀ id', id' ≠ id → note_of (w_storage w') id' = note_of (w_storage w) id' ∧
     original_leaves (process_event (mirror_of w) v) !! id' = original_leaves (mirror_of w) !! id') →
  uint_felt new = leaf_view id (note_of (w_storage w') id) →
  original_leaves (process_event (mirror_of w) v) !! id = Some (felt_leaf id (note_of (w_storage w') id)) →
  event_note v = id →
  agrees w' ∨ walk_collision id (uint_felt old) (uint_felt old) (sibling_felts siblings)
    (get_path (mirror_of w) id).
Proof.
  intros [Ai Ar Al Ao] N Hid Ho Hn Hold Hpath El Ev Er Et Hother Hleaf Horig Hnote.
  destruct (update_agrees (mirror_of w) id old new siblings _ root' Ai Hid Ar Ho Hn Hold Hpath)
    as [Hroot|]; [left|by right].
  assert (mirror_of w' = process_event (mirror_of w) v) as Em.
  { unfold mirror_of at 1. rewrite El. by apply mirror_of_emit. }
  split; rewrite ?Em.
  - apply process_event_inv; [done|]. by rewrite Hnote.
  - rewrite Er, <- Hroot. unfold mirror_root. by rewrite Et.
  - intros id' Hid'. unfold mirror_get_leaf. rewrite Et, mirror_leaf_set by done.
    case_decide as E; [by subst id'|]. rewrite Al by done. by destruct (Hother id' E) as [-> _].
  - intros id' Hst. destruct (decide (id' = id)) as [->|E]; [done|].
    destruct (Hother id' E) as [En ->]. rewrite En in *. by apply Ao.
Qed.

Lemma siblings_from_canonical t n level idx :
  tree_wf t → (level + n ≤ MERKLE_DEPTH)%nat → (0 ≤ idx)%Z →
  (level = 0%nat → canonical (get_leaf t (Z.lxor idx 1))) →
  Forall canonical (vec_to_list (siblings_from t n level idx)).
Proof.
  intros Ht. revert level idx. induction n as [|n IH]; intros level idx Hl Hi H0; [constructor|].
  cbn [siblings_from vec_to_list]. constructor.
  - destruct level as [|level]; [by apply H0|].
    rewrite (wf_nodes _ Ht) by (lia || (apply Z.lxor_nonneg; lia)).
    apply hash_domain_canonical.
  - apply IH; [lia|by apply Z.div_pos|done].
Qed.

Lemma siblings_canonical t idx :
  tree_wf t → (0 ≤ idx)%Z → canonical (get_leaf t (Z.lxor idx 1)) →
  Forall canonical (vec_to_list (get_siblings t idx)).
Proof. intros Ht Hi Hc. by apply siblings_from_canonical. Qed.

(** From here on these are used through their lemmas. *)
#[local] Opaque set_leaf compute_root get_siblings note_leaf process_events uint_felt word_felt
  MerkleUpdateLib.verifyAndUpdate NoteLeafLib.computeLeaf walk_collision.

Lemma reduced_0 : reduced 0.
Proof. by split. Qed.

Lemma leaf_of_reduced id n : reduced (leaf_of id n).
Proof. apply computeLeaf_reduced. Qed.

Lemma leaf_view_active id n : status n = Active → leaf_view id n = felt_leaf id n.
Proof. intros Hs. unfold leaf_view. by rewrite decide_True. Qed.

Lemma leaf_view_none id n : status n ≠ Active → leaf_view id n = ZERO.
Proof. intros Hs. unfold leaf_view. by rewrite decide_False. Qed.

Lemma deposit_agrees d w c a siblings e r :
  agrees w → notes_ok (w_storage w) → (0 < c < SCALAR_MODULUS)%Z → fits 128 a → fits 64 e →
  MerkleUpdateLib.verifyAndUpdate (currentRoot (w_storage w)) (nextNoteId (w_storage w)) 0
    (NoteLeafLib.computeLeaf (nextNoteId (w_storage w)) c a e) siblings = Ok r →
  agrees (move_deposit d c a e r w) ∨ collides w (Deposit c a siblings).
Proof.
  intros Hag N Hc Ha He Hp. pose proof (vo_next _ N) as Hid.
  set (id := nextNoteId (w_storage w)) in *.
  assert (compute_note_leaf id (word_felt c) a e = uint_felt (NoteLeafLib.computeLeaf id c a e)) as El.
  { unfold compute_note_leaf. rewrite computeLeaf_felt, word_felt_uint by (done || split; lia). done. }
  assert (∀ n, n = note_of (w_storage (move_deposit d c a e r w)) id →
    n = {| commitment := c; depositAmount := a; expiryTs := e; status := Active |}) as Hnew.
  { intros n ->. by rewrite deposit_note, decide_True. }
  assert (reduced c) as Hcr by (split; lia).
  refine (agrees_update w (move_deposit d c a e r w) (NoteDeposited id c a e r)
    (Mirror.NoteDeposited id (word_felt c) a e (word_felt r)) id 0 (NoteLeafLib.computeLeaf id c a e)
    siblings r Hag N Hid reduced_0 (computeLeaf_reduced _ _ _ _) _ Hp eq_refl eq_refl eq_refl _ _ _ _ eq_refl).
  - rewrite uint_felt_0, (ag_leaf _ Hag) by exact Hid. apply leaf_view_none. unfold id.
    by rewrite next_uninitialized.
  - cbn [process_event tree]. by rewrite El.
  - intros id' Hne. rewrite deposit_note, decide_False by done. split; [reflexivity|].
    cbn [process_event original_leaves]. by rewrite lookup_insert_ne.
  - rewrite (Hnew _ eq_refl), leaf_view_active by reflexivity. by apply computeLeaf_felt.
  - rewrite (Hnew _ eq_refl). cbn [process_event original_leaves].
    rewrite lookup_insert_eq, El. f_equal. by apply computeLeaf_felt.
Qed.

(** The word a note has in the tree. *)
Definition word_view (id : Z) (n : Note) : Z := if decide (status n = Active) then leaf_of id n else 0%Z.

Lemma word_view_reduced id n : reduced (word_view id n).
Proof. unfold word_view. case_decide; [apply leaf_of_reduced|apply reduced_0]. Qed.

Lemma word_view_felt id n : fits 32 id → note_ok n → uint_felt (word_view id n) = leaf_view id n.
Proof.
  intros Hid Hn. unfold word_view, leaf_view.
  case_decide; [by apply uint_felt_leaf|apply uint_felt_0].
Qed.

Lemma restatus_agrees d w w' id st ev out v siblings r :
  agrees w → notes_ok (w_storage w) → restatus d w w' id st ev out → fits 32 id →
  MerkleUpdateLib.verifyAndUpdate (currentRoot (w_storage w)) id
    (word_view id (note_of (w_storage w) id))
    (word_view id (with_status (note_of (w_storage w) id) st)) siblings = Ok r →
  rust_event ev = Some v → currentRoot (w_storage w') = r → event_note v = id →
  process_event (mirror_of w) v =
    with_tree (mirror_of w) (set_leaf (tree (mirror_of w)) id
      (uint_felt (word_view id (with_status (note_of (w_storage w) id) st)))) →
  agrees w' ∨
  walk_collision id (uint_felt (word_view id (note_of (w_storage w) id)))
    (uint_felt (word_view id (note_of (w_storage w) id))) (sibling_felts siblings)
    (get_path (mirror_of w) id).
Proof.
  intros Hag N R Hid Hp Ev Er En Et. set (n := note_of (w_storage w) id) in *.
  assert (note_ok (with_status n st)) as Hn by (destruct (vo_note _ N id); by split).
  pose proof (λ id', restatus_note _ _ _ _ _ _ _ id' R) as Hnote. cbn beta in Hnote.
  refine (agrees_update w w' ev v id (word_view id n) (word_view id (with_status n st)) siblings r
    Hag N Hid (word_view_reduced _ _) (word_view_reduced _ _) _ Hp (rs_log _ _ _ _ _ _ _ R) Ev Er _ _ _ _ En).
  - rewrite word_view_felt, (ag_leaf _ Hag) by (exact Hid || apply N). reflexivity.
  - by rewrite Et.
  - intros id' Hne. rewrite Hnote, decide_False by done. by rewrite Et.
  - rewrite Hnote, decide_True by done. by apply word_view_felt.
  - rewrite Hnote, decide_True, Et by done. apply (ag_original _ Hag). apply R.
Qed.

Lemma word_view_active id n : status n = Active → word_view id n = leaf_of id n.
Proof. intros Hs. unfold word_view. by rewrite decide_True. Qed.

Lemma word_view_none id n : status n ≠ Active → word_view id n = 0%Z.
Proof. intros Hs. unfold word_view. by rewrite decide_False. Qed.

(** Finalizing changes no leaf. *)
Lemma finalize_agrees d w id t : agrees w → awaits id w → agrees (move_finalize d id t w).
Proof.
  intros [Ai Ar Al Ao] Haw. pose proof (finalize_restatus d id t w Haw) as R.
  assert (mirror_of (move_finalize d id t w) = mirror_of w) as Em.
  { unfold mirror_of at 1. rewrite (rs_log _ _ _ _ _ _ _ R). erewrite mirror_of_emit by reflexivity.
    reflexivity. }
  split; rewrite ?Em; [done| | |].
  - rewrite Ar. unfold move_finalize.
    destruct (pays_fields d (pDestination (pending_of (w_storage w) id)) (pFinalBalance (pending_of (w_storage w) id))
      t (depositAmount (note_of (w_storage w) id) - pFinalBalance (pending_of (w_storage w) id))
      (w_assign (set_pending id None) (move_status id Closed w))) as (E & _).
    cbn [w_emit w_storage]. by rewrite E.
  - intros id' Hid'. rewrite Al, (restatus_note _ _ _ _ _ _ _ id' R) by done.
    case_decide as E; [subst id'|done].
    rewrite !leaf_view_none; [done|done|]. by rewrite (aw_status _ _ Haw).
  - intros id' Hst. rewrite (restatus_note _ _ _ _ _ _ _ id' R) in Hst |- *.
    case_decide as E; [subst id'|by apply Ao]. rewrite Ao by (by rewrite (aw_status _ _ Haw)). done.
Qed.

Section moves.
Context {PA : ProofAdapter} (d : Immutables) (tx : Tx) (w : World).
Hypothesis Hag : agrees w.
Hypothesis Hok : vault_ok d w.

(** A leaf taken out: [leaf_of] goes to zero. *)
Lemma leave_path id st siblings r :
  status (note_of (w_storage w) id) = Active → st ≠ Active →
  MerkleUpdateLib.verifyAndUpdate (currentRoot (w_storage w)) id
    (leaf_of id (note_of (w_storage w) id)) 0 siblings = Ok r →
  MerkleUpdateLib.verifyAndUpdate (currentRoot (w_storage w)) id
    (word_view id (note_of (w_storage w) id))
    (word_view id (with_status (note_of (w_storage w) id) st)) siblings = Ok r.
Proof. intros Hs Hst Hp. by rewrite word_view_active, word_view_none. Qed.

Lemma set_zero id st : st ≠ Active →
  set_leaf (tree (mirror_of w)) id ZERO =
  set_leaf (tree (mirror_of w)) id (uint_felt (word_view id (with_status (note_of (w_storage w) id) st))).
Proof. intros Hst. by rewrite word_view_none, uint_felt_0. Qed.

Lemma close_agrees i proof siblings r t :
  leaves d tx i proof siblings r w →
  agrees (move_close d i r t w) ∨ collides w (MutualCloseCall i proof siblings).
Proof.
  intros L. pose proof (lv_active _ _ _ _ _ _ _ L) as Hact.
  assert (fits 32 (noteId i)) as Hid.
  { pose proof (lv_inputs _ _ _ _ _ _ _ L) as Hi. apply bool_decide_eq_true in Hi. apply Hi. }
  destruct (restatus_agrees d w _ _ _ _ _ (Mirror.MutualClose (noteId i) (word_felt (withdrawalNullifier i))
    (finalBalance i)) siblings r Hag (vo_notes _ _ Hok) (close_restatus d tx i proof siblings r t w Hok L) Hid
    (leave_path _ Closed _ _ Hact ltac:(done) (lv_path _ _ _ _ _ _ _ L)) eq_refl) as [|Hc].
  - unfold move_close. cbn [w_emit w_storage].
    match goal with |- context [pays d ?a ?b t ?c ?x] => destruct (pays_fields d a b t c x) as (-> & _) end.
    reflexivity.
  - reflexivity.
  - cbn [process_event]. rewrite (set_zero (noteId i) Closed) by discriminate. reflexivity.
  - by left.
  - right. unfold collides. cbn [call_path]. by rewrite word_view_active in Hc.
Qed.

Lemma initiate_agrees i proof siblings r deadline :
  leaves d tx i proof siblings r w →
  agrees (move_initiate i deadline r w) ∨ collides w (InitiateEscape i proof siblings).
Proof.
  intros L. pose proof (lv_active _ _ _ _ _ _ _ L) as Hact.
  assert (fits 32 (noteId i)) as Hid.
  { pose proof (lv_inputs _ _ _ _ _ _ _ L) as Hi. apply bool_decide_eq_true in Hi. apply Hi. }
  destruct (restatus_agrees d w _ _ _ _ _ (Mirror.EscapeWithdrawalInitiated (noteId i)
    (word_felt (withdrawalNullifier i)) (finalBalance i) deadline (word_felt r)) siblings r Hag
    (vo_notes _ _ Hok) (initiate_restatus d tx i proof siblings r deadline w Hok L) Hid
    (leave_path _ PendingWithdrawal _ _ Hact ltac:(done) (lv_path _ _ _ _ _ _ _ L)) eq_refl) as [|Hc].
  - reflexivity.
  - reflexivity.
  - cbn [process_event]. rewrite (set_zero (noteId i) PendingWithdrawal) by discriminate. reflexivity.
  - by left.
  - right. unfold collides. cbn [call_path]. by rewrite word_view_active in Hc.
Qed.

Lemma expire_agrees id siblings r t :
  fits 32 id → status (note_of (w_storage w) id) = Active →
  MerkleUpdateLib.verifyAndUpdate (currentRoot (w_storage w)) id
    (leaf_of id (note_of (w_storage w) id)) 0 siblings = Ok r →
  agrees (move_expire d id r t w) ∨ collides w (ClaimExpired id siblings).
Proof.
  intros Hid Hact Hp.
  destruct (restatus_agrees d w _ _ _ _ _ (Mirror.ExpiredClaimed id (depositAmount (note_of (w_storage w) id))
    (word_felt r)) siblings r Hag (vo_notes _ _ Hok) (expire_restatus d id r t w Hok Hact) Hid
    (leave_path _ Closed _ _ Hact ltac:(done) Hp) eq_refl) as [|Hc].
  - reflexivity.
  - reflexivity.
  - cbn [process_event]. rewrite (set_zero id Closed) by discriminate. reflexivity.
  - by left.
  - right. unfold collides. cbn [call_path]. by rewrite word_view_active in Hc.
Qed.

Lemma challenge_agrees id i proof siblings r :
  awaits id w →
  MerkleUpdateLib.verifyAndUpdate (currentRoot (w_storage w)) id 0
    (leaf_of id (note_of (w_storage w) id)) siblings = Ok r →
  agrees (move_challenge id r w) ∨ collides w (ChallengeEscape id i proof siblings).
Proof.
  intros Haw Hp. pose proof (aw_status _ _ Haw) as Hst. pose proof (aw_id _ _ Haw) as Hid.
  assert (word_view id (note_of (w_storage w) id) = 0%Z) as E0
    by (apply word_view_none; by rewrite Hst).
  assert (word_view id (with_status (note_of (w_storage w) id) Active)
    = leaf_of id (note_of (w_storage w) id)) as E1.
  { rewrite word_view_active by reflexivity. reflexivity. }
  destruct (restatus_agrees d w _ _ _ _ _ (Mirror.EscapeWithdrawalChallenged id
    (word_felt (pWithdrawalNullifier (pending_of (w_storage w) id))) (word_felt r)) siblings r Hag
    (vo_notes _ _ Hok) (challenge_restatus d id r w Haw) Hid) as [|Hc].
  - by rewrite E0, E1.
  - reflexivity.
  - reflexivity.
  - reflexivity.
  - cbn [process_event]. rewrite (ag_original _ Hag) by (by rewrite Hst). rewrite E1.
    rewrite (uint_felt_leaf id _ Hid (vo_note _ (vo_notes _ _ Hok) id)). reflexivity.
  - by left.
  - right. unfold collides. cbn [call_path]. by rewrite E0 in Hc.
Qed.
End moves.

Lemma moved_agrees `{ProofAdapter} d tx w call w' :
  agrees w → vault_ok d w → moved d tx w call w' → agrees w' ∨ collides w call.
Proof.
  intros Hag Hok Hm. pose proof (vo_notes _ _ Hok) as N.
  destruct Hm as [c a siblings e r ? ? ? ? ? ? ?|i proof siblings r t L ?|
    i proof siblings r dl L ? ? ?|id i proof siblings r Haw ? ? ? ? ? Hp|id t Haw ?|
    id siblings r t ? Hst ? Hp|].
  - by apply deposit_agrees.
  - by eapply close_agrees.
  - by eapply initiate_agrees.
  - by eapply challenge_agrees.
  - left. by apply finalize_agrees.
  - by eapply expire_agrees.
  - by left.
Qed.

(** ** From the deployment on *)

Lemma empty_root_succ n :
  empty_root (S n) = MerkleUpdateLib.poseidonNodeHash (empty_root n) (empty_root n).
Proof. unfold empty_root. rewrite (Nat.iter_succ n). reflexivity. Qed.

Lemma empty_root_felt n i : uint_felt (empty_root n) = ref_node (λ _, ZERO) n i.
Proof.
  revert i. induction n as [|n IH]; intros i; [apply uint_felt_0|].
  rewrite empty_root_succ, poseidonNodeHash_felt. cbn [ref_node]. by rewrite <- !IH.
Qed.

Lemma empty_root_reduced n : reduced (empty_root n).
Proof.
  destruct n as [|n]; [apply reduced_0|]. rewrite empty_root_succ.
  unfold MerkleUpdateLib.poseidonNodeHash. rewrite hash3_sponge. apply hash_reduced.
Qed.

Lemma mirror_new_root : mirror_root mirror_new = ref_root (λ _, ZERO).
Proof.
  unfold mirror_root, mirror_new. cbn [tree]. rewrite (root_ref _ new_wf). apply ref_root_ext.
  intros i _. apply get_leaf_new.
Qed.

Lemma empty_root_new : felt_val (mirror_root mirror_new) = computeEmptyTreeRoot.
Proof.
  rewrite mirror_new_root. unfold computeEmptyTreeRoot, ref_root.
  rewrite <- (empty_root_felt MERKLE_DEPTH 0). apply felt_val_uint, empty_root_reduced.
Qed.

Lemma deployed_agrees s :
  currentRoot s = computeEmptyTreeRoot → notes s = ∅ → agrees (deployed s).
Proof.
  intros Hr Hn.
  assert (mirror_of (deployed s) = mirror_new) as Em by reflexivity.
  assert (∀ id, note_of s id = no_note) as Hno by (intros id; unfold note_of; rewrite Hn, lookup_empty; reflexivity).
  split; rewrite ?Em; [apply mirror_new_inv| | |].
  - rewrite empty_root_new. symmetry. exact Hr.
  - intros id _. cbn [w_storage deployed]. rewrite Hno, leaf_view_none by discriminate. apply get_leaf_new.
  - intros id Hst. cbn [w_storage deployed] in Hst. rewrite Hno in Hst. exfalso. apply Hst. reflexivity.
Qed.

Lemma mirror_of_norm w : mirror_of (norm w) = mirror_of w.
Proof. unfold mirror_of. f_equal. apply omap_filter_events. by intros []. Qed.

Lemma agrees_norm w : agrees (norm w) ↔ agrees w.
Proof. split; intros [H1 H2 H3 H4]; rewrite ?mirror_of_norm in *; split; rewrite ?mirror_of_norm; assumption. Qed.

Lemma collides_norm w call : collides (norm w) call → collides w call.
Proof.
  unfold collides. rewrite mirror_of_norm.
  replace (call_path (w_storage (norm w)) call) with (call_path (w_storage w) call) by by destruct call.
  done.
Qed.

Lemma run_steps_agrees `{ProofAdapter} d w steps :
  agrees w → vault_ok d w →
  agrees (run_steps d w steps) ∨
  ∃ pre st post, steps = pre ++ st :: post ∧ collides (run_steps d w pre) (st_call st).
Proof.
  revert w. induction steps as [|st steps IH]; intros w Hag Hok; [by left|].
  assert (agrees (run_step d w st) ∨ collides w (st_call st)) as [Hag'|Hc].
  { apply agrees_norm in Hag. apply vault_ok_norm in Hok.
    destruct (run_step_moved d w st) as [E|[_ Hm]].
    - left. apply agrees_norm. by rewrite E.
    - apply (moved_agrees _ _ _ _ _ Hag Hok) in Hm as [Hm|Hm]; [left; by apply agrees_norm|right].
      by apply collides_norm. }
  - destruct (IH (run_step d w st) Hag' (run_step_ok d w st Hok)) as [Hr|(pre & st' & post & E & Hc)];
      [by left|right].
    exists (st :: pre), st', post. by rewrite E.
  - right. by exists [], st, steps.
Qed.

(** ** The served paths *)

(** The siblings as call data. *)
Definition path_words (m : TreeMirror) (id : Z) : vec Z 32 := vmap felt_val (get_path m id).

Lemma lxor_1_fits id : fits 32 id → fits 32 (Z.lxor id 1).
Proof.
  intros Hid. rewrite lxor_1. unfold fits in *. change (2 ^ 32)%Z with 4294967296%Z in *.
  pose proof (Z.div_mod id 2 ltac:(lia)). pose proof (Z.mod_pos_bound id 2 ltac:(lia)).
  destruct (Z.eqb_spec (id mod 2) 0); lia.
Qed.

Lemma leaf_view_canonical id n : canonical (leaf_view id n).
Proof. unfold leaf_view. case_decide; [apply hash_domain_canonical|by vm_compute]. Qed.

Lemma path_canonical w id :
  agrees w → fits 32 id → Forall canonical (vec_to_list (get_path (mirror_of w) id)).
Proof.
  intros Hag Hid. pose proof (ag_inv _ Hag) as [(Ht & _ & _)%tree_reach_wf _].
  apply siblings_canonical; [exact Ht|apply Hid|].
  change (canonical (mirror_get_leaf (mirror_of w) (Z.lxor id 1))).
  rewrite (ag_leaf _ Hag) by by apply lxor_1_fits. apply leaf_view_canonical.
Qed.

Lemma path_words_felts w id :
  agrees w → fits 32 id → sibling_felts (path_words (mirror_of w) id) = get_path (mirror_of w) id.
Proof.
  intros Hag Hid. pose proof (path_canonical w id Hag Hid) as Hc.
  unfold sibling_felts, path_words. apply vec_to_list_inj2. rewrite !vec_to_list_map.
  induction Hc as [|f l Hf _ IH]; [reflexivity|]. cbn [fmap list_fmap]. rewrite IH.
  rewrite (uint_felt_val f Hf). reflexivity.
Qed.

Lemma path_words_fit w id :
  agrees w → fits 32 id → siblings_ok (path_words (mirror_of w) id) = true.
Proof.
  intros Hag Hid. apply bool_decide_eq_true. unfold path_words. rewrite vec_to_list_map.
  apply Forall_fmap. eapply Forall_impl; [by apply path_canonical|]. intros f Hf. split; [apply felt_val_bound|].
  assert (FIELD_MODULUS < 2 ^ 256)%Z by by vm_compute. unfold canonical in Hf. cbn. lia.
Qed.

(** The vault accepts the served path for any change of the note's leaf. *)
Lemma served_path_accepted w id new :
  agrees w → notes_ok (w_storage w) → fits 32 id → reduced new →
  MerkleUpdateLib.verifyAndUpdate (currentRoot (w_storage w)) id
    (word_view id (note_of (w_storage w) id)) new (path_words (mirror_of w) id)
  = Ok (felt_val (Merkle.root (set_leaf (tree (mirror_of w)) id (uint_felt new)))).
Proof.
  intros Hag N Hid Hn. rewrite (verifyAndUpdate_spec _ _ _ _ _ (word_view_reduced _ _) Hn). cbn zeta.
  rewrite (path_words_felts w id Hag Hid).
  rewrite (word_view_felt id _ Hid (vo_note _ N id)), <- (ag_leaf _ Hag id Hid).
  pose proof (ag_inv _ Hag) as [(Ht & _ & _)%tree_reach_wf _].
  pose proof (compute_root_get _ _ Ht Hid) as Hg. pose proof (compute_root_set _ _ (uint_felt new) Ht Hid) as Hs.
  unfold get_path, mirror_get_leaf. rewrite Hg, Hs, decide_True by exact (ag_root _ Hag). reflexivity.
Qed.

Lemma mirror_root_reduced w : agrees w → reduced (felt_val (mirror_root (mirror_of w))).
Proof.
  intros Hag. pose proof (ag_inv _ Hag) as [(Ht & _ & _)%tree_reach_wf _].
  assert (fits 32 0) as H0 by by split.
  pose proof (compute_root_get _ _ Ht H0) as Hg. unfold mirror_root. rewrite <- Hg.
  split; [apply felt_val_bound|]. apply compute_root_canonical.
Qed.
End mirrored.

(** C14. The indexer follows the vault: after any history of transactions, the
    mirror fed with the vault's events has the vault's root, its leaves are
    those of the active notes and zero for all others, and for every note the
    path it serves is accepted by the vault for the next change of that note;
    unless a caller gave siblings that differ from the served path and still
    led to the root, which shows two pairs with one node hash. *)
Theorem mirror_follows_vault `{PoseidonLaw} `{ProofAdapter} b t ttl cp cap pa kx ky cx cy ow self d s steps :
  constructor b t ttl cp cap pa kx ky cx cy ow self = Ok (d, s) →
  let w := run_steps d (deployed s) steps in
  let m := process_events mirror_new (omap rust_event (w_log w)) in
  (felt_val (mirror_root m) = currentRoot (w_storage w) ∧
   ∀ id, fits 32 id →
     mirror_get_leaf m id = leaf_view id (note_of (w_storage w) id) ∧
     ∀ new, reduced new →
       MerkleUpdateLib.verifyAndUpdate (currentRoot (w_storage w)) id
         (word_view id (note_of (w_storage w) id)) new (path_words m id)
       = Ok (felt_val (Merkle.root (set_leaf (tree m) id (uint_felt new))))) ∨
  ∃ pre st post, steps = pre ++ st :: post ∧
    collides (run_steps d (deployed s) pre) (st_call st).
Proof.
  intros (Hok & _ & Hr & Hn)%deployed_ok w m.
  destruct (run_steps_agrees d (deployed s) steps (deployed_agrees s Hr Hn) Hok) as [Hag|Hc];
    [left|by right].
  split; [exact (ag_root _ Hag)|]. intros id Hid. split; [exact (ag_leaf _ Hag id Hid)|].
  intros new Hnew. apply (run_steps_ok d _ steps) in Hok.
  exact (served_path_accepted w id new Hag (vo_notes _ _ Hok) Hid Hnew).
Qed.

(** ** Leaving alone *)

Lemma run_require {X} b e (f : () → V X) w : b = false → (require_not b e ≫= f) w = f tt w.
Proof. by intros ->. Qed.

Lemma run_storage {X} (f : Storage → V X) w : (storage ≫= f) w = f (w_storage w) w.
Proof. done. Qed.

Lemma run_change {X} g (f : () → V X) w : (change g ≫= f) w = f tt (g w).
Proof. done. Qed.

Lemma run_lift {X Y} (r : result Error X) x (f : X → V Y) w : r = Ok x → (lift r ≫= f) w = f x w.
Proof. by intros ->. Qed.

Lemma run_assoc {X Y Z'} (m : V X) (f : X → V Y) (g : Y → V Z') w :
  ((m ≫= f) ≫= g) w = (m ≫= λ x, f x ≫= g) w.
Proof. apply M_bind_assoc. Qed.

Lemma is_status_true n st : status n = st → negb (is_status n st) = false.
Proof. intros <-. unfold is_status. by rewrite bool_decide_true. Qed.

Lemma withdrawal_bound_run d tx i : withdrawal_bound d tx i →
  validateWithdrawalBinding d tx i = require_not false InvalidDeploymentBinding.
Proof.
  unfold validateWithdrawalBinding. intros [-> -> -> [-> ->] [-> ->]]. by rewrite !Z.eqb_refl.
Qed.

Lemma initiate_runs `{ProofAdapter} d tx i proof siblings r deadline w :
  leaves d tx i proof siblings r w → siblings_ok siblings = true →
  hasClearance i = false → paused (w_storage w) = false → msg_value tx = 0%Z →
  deadline = (wrap 64 (block_timestamp tx) + challengePeriod d)%Z → fits 64 deadline →
  execute d tx (InitiateEscape i proof siblings) w = (Ok tt, move_initiate i deadline r w).
Proof.
  intros L Hs Hc Hp Hv -> Hd. unfold execute. cbn [calldata_ok payable body].
  rewrite run_require by (by rewrite (lv_inputs _ _ _ _ _ _ _ L), Hs).
  rewrite Hv, run_require by done. unfold initiateEscapeWithdrawal, when_not_paused.
  rewrite run_assoc, run_storage, Hp, run_require by done.
  rewrite (withdrawal_bound_run _ _ _ (lv_bound _ _ _ _ _ _ _ L)), run_require by done.
  rewrite Hc, run_require, run_storage by done.
  rewrite run_require by (by rewrite (lv_root _ _ _ _ _ _ _ L), Z.eqb_refl).
  rewrite (run_lift _ tt) by apply L.
  rewrite run_require by (apply is_status_true, L).
  rewrite run_require by (apply Z.ltb_ge, L).
  unfold consumeNullifier. rewrite run_assoc, run_storage, run_assoc.
  rewrite run_require by (apply bool_decide_eq_false, L). unfold assign. rewrite run_change.
  rewrite (run_lift _ r) by apply L.
  rewrite (run_lift _ (wrap 64 (block_timestamp tx) + challengePeriod d)%Z) by by apply checked_ok.
  rewrite !run_change. reflexivity.
Qed.

Lemma transfer_runs d tx destination amount w :
  w_schedule w = [] → fits 128 amount → (0 ≤ nativeAssetWeiPerUnit d ≤ GWEI)%Z →
  transfer d tx destination amount w = (Ok tt, w_pay destination (amount * unit_of d) w).
Proof.
  intros Hs Ha Hn. unfold transfer, unit_of, pay_out. destruct (Z.eqb_spec (nativeAssetWeiPerUnit d) 0).
  - rewrite run_change, Z.mul_1_r. unfold external_call. cbn [w_schedule w_pay]. by rewrite Hs.
  - rewrite (run_lift _ (amount * nativeAssetWeiPerUnit d)%Z).
    + rewrite run_change. unfold external_call. cbn [w_schedule w_pay]. by rewrite Hs.
    + apply checked_ok. unfold fits, GWEI in *. nia.
Qed.

Lemma pay_runs d tx destination balance share w :
  w_schedule w = [] → fits 128 balance → fits 128 share → (0 ≤ nativeAssetWeiPerUnit d ≤ GWEI)%Z →
  pay d tx destination balance share w
  = (Ok tt, pays d destination balance (treasury (w_storage w)) share w).
Proof.
  intros Hs Hb Hsh Hn. unfold pay, pays.
  destruct (balance =? 0)%Z; destruct (share =? 0)%Z; unfold mret, M_mret.
  - reflexivity.
  - change (((λ w, (Ok tt, w)) ≫= ?f) w) with (f tt w). cbn beta. rewrite run_storage. by apply transfer_runs.
  - rewrite (M_bind_Ok _ _ _ _ _ (transfer_runs d tx destination balance w Hs Hb Hn)). reflexivity.
  - rewrite (M_bind_Ok _ _ _ _ _ (transfer_runs d tx destination balance w Hs Hb Hn)).
    rewrite run_storage. by apply transfer_runs.
Qed.

Lemma not_pending_false id w : awaits id w →
  not_pending (note_of (w_storage w) id) (pending_of (w_storage w) id) = false.
Proof. intros [_ Hst He]. unfold not_pending. rewrite (is_status_true _ _ Hst), He. reflexivity. Qed.

Lemma finalize_runs `{ProofAdapter} d tx id w :
  vault_ok d w → awaits id w → (0 ≤ nativeAssetWeiPerUnit d ≤ GWEI)%Z →
  (challengeDeadline (pending_of (w_storage w) id) ≤ block_timestamp tx)%Z →
  msg_value tx = 0%Z → w_schedule w = [] →
  execute d tx (FinalizeEscape id) w = (Ok tt, move_finalize d id (treasury (w_storage w)) w).
Proof.
  intros Hok Haw Hn Ht Hv Hs. pose proof (vo_notes _ _ Hok) as N.
  destruct (vo_claim _ N id (aw_status _ _ Haw)) as [Hb _]. destruct (vo_note _ N id) as [_ Ha _].
  unfold execute. cbn [calldata_ok payable body].
  rewrite run_require by (by rewrite bool_decide_true by apply Haw).
  rewrite Hv, run_require by done. unfold finalizeEscapeWithdrawal.
  rewrite run_storage, run_require by (by apply not_pending_false).
  rewrite run_require by by apply Z.ltb_ge.
  rewrite (run_lift _ (depositAmount (note_of (w_storage w) id) - pFinalBalance (pending_of (w_storage w) id))%Z)
    by (apply checked_ok; unfold fits in *; lia).
  unfold assign. rewrite !run_change.
  match goal with |- (pay d tx ?a ?b ?c ≫= _) ?w = _ =>
    pose proof (pay_runs d tx a b c w Hs ltac:(unfold fits in *; lia) ltac:(unfold fits in *; lia) Hn) as Hp end.
  rewrite (M_bind_Ok _ _ _ _ _ Hp). reflexivity.
Qed.

(** A frozen note waits until it is challenged or finalized. *)
Lemma moved_pending `{ProofAdapter} d tx w call w' id :
  vault_ok d w → moved d tx w call w' → status (note_of (w_storage w) id) = PendingWithdrawal →
  (note_of (w_storage w') id = note_of (w_storage w) id ∧
   pending_of (w_storage w') id = pending_of (w_storage w) id) ∨
  (∃ i proof siblings, call = ChallengeEscape id i proof siblings ∧ request_bound d tx i ∧
     assertValidRequest i proof = Ok tt ∧
     requestNullifier i = pWithdrawalNullifier (pending_of (w_storage w) id) ∧
     (block_timestamp tx < challengeDeadline (pending_of (w_storage w) id))%Z) ∨
  (∃ t, call = FinalizeEscape id ∧ w' = move_finalize d id t w).
Proof.
  intros Hok Hm Hst.
  assert (∀ id0 st ev out, restatus d w w' id0 st ev out → id0 ≠ id →
    note_of (w_storage w') id = note_of (w_storage w) id ∧
    pending_of (w_storage w') id = pending_of (w_storage w) id) as Hother.
  { intros id0 st ev out R Hne. rewrite (restatus_note _ _ _ _ _ _ _ id R), decide_False by congruence.
    split; [reflexivity|]. apply R. congruence. }
  destruct Hm as [c a siblings e r ? ? ? ? ? ? ?|i proof siblings r t L ?|
    i proof siblings r dl L ? ? ?|id0 i proof siblings r Haw ? ? ? ? ? Hp|id0 t Haw ?|
    id0 siblings r t ? Hst0 ? Hp|].
  - left. rewrite deposit_note, decide_False; [done|]. intros ->.
    by rewrite next_uninitialized in Hst by apply Hok.
  - left. eapply Hother; [by eapply close_restatus|]. intros <-. by rewrite (lv_active _ _ _ _ _ _ _ L) in Hst.
  - left. eapply Hother; [by eapply initiate_restatus|]. intros <-. by rewrite (lv_active _ _ _ _ _ _ _ L) in Hst.
  - destruct (decide (id0 = id)) as [->|Hne]; [right; left; by exists i, proof, siblings|left].
    eapply Hother; [by eapply challenge_restatus|done].
  - destruct (decide (id0 = id)) as [->|Hne]; [right; right; by exists t|left].
    eapply Hother; [by eapply finalize_restatus|done].
  - left. eapply Hother; [by eapply expire_restatus|]. intros ->. by rewrite Hst0 in Hst.
  - by left.
Qed.

(** Payments are never taken back. *)
Lemma pays_paid d destination balance t share w :
  w_paid (pays d destination balance t share w) =
  w_paid w ++ (if (balance =? 0)%Z then [] else [(destination, (balance * unit_of d)%Z)])
           ++ (if (share =? 0)%Z then [] else [(t, (share * unit_of d)%Z)]).
Proof.
  unfold pays. destruct (balance =? 0)%Z, (share =? 0)%Z; cbn [w_paid w_pay app];
    rewrite ?app_nil_r, <- ?app_assoc; reflexivity.
Qed.

Lemma moved_paid `{ProofAdapter} d tx w call w' : moved d tx w call w' → ∃ l, w_paid w' = w_paid w ++ l.
Proof.
  intros []; try (exists []; by rewrite app_nil_r).
  - eexists. unfold move_close. cbn [w_emit w_paid]. rewrite pays_paid. reflexivity.
  - eexists. unfold move_finalize. cbn [w_emit w_paid]. rewrite pays_paid. reflexivity.
  - eexists. reflexivity.
Qed.

(** Once closed, with the payment made. *)
Definition left_with (d : Immutables) (id : Z) (p : PendingWithdrawalData) (w : World) : Prop :=
  status (note_of (w_storage w) id) = Closed ∧
  (pFinalBalance p ≠ 0%Z → (pDestination p, (pFinalBalance p * unit_of d)%Z) ∈ w_paid w).

(** Still waiting, with its claim. *)
Definition waits (d : Immutables) (n : Note) (id : Z) (p : PendingWithdrawalData) (w : World) : Prop :=
  vault_ok d w ∧ note_of (w_storage w) id = n ∧ status n = PendingWithdrawal ∧
  pending_of (w_storage w) id = p.

(** A step with an accepted challenge of the claim. *)
Definition challenges `{ProofAdapter} (d : Immutables) (id : Z) (p : PendingWithdrawalData) (st : Step) : Prop :=
  ∃ j proof siblings, st_call st = ChallengeEscape id j proof siblings ∧ request_bound d (st_tx st) j ∧
    assertValidRequest j proof = Ok tt ∧ requestNullifier j = pWithdrawalNullifier p ∧
    (block_timestamp (st_tx st) < challengeDeadline p)%Z.

Lemma left_step `{ProofAdapter} d id p w st : vault_ok d w → left_with d id p w → left_with d id p (run_step d w st).
Proof.
  intros Hok [Hcl Hp]. destruct (run_step_moved d w st) as [E|[_ Hm]].
  - unfold left_with. change (w_storage (run_step d w st)) with (w_storage (run_step d w st)).
    change (note_of (w_storage (run_step d w st)) id) with (note_of (w_storage (norm (run_step d w st))) id).
    change (w_paid (run_step d w st)) with (w_paid (norm (run_step d w st))). by rewrite E.
  - destruct (moved_paid _ _ _ _ _ Hm) as [l El].
    apply vault_ok_norm in Hok. pose proof (moved_changes _ _ _ _ _ id Hok Hm) as Hc.
    split; [|intros Hb; change (w_paid (run_step d w st)) with (w_paid (norm (run_step d w st)));
             rewrite El; apply elem_of_app; left; by apply Hp].
    destruct Hc as [Hc|[Hc _]].
    + change (status (note_of (w_storage (norm (run_step d w st))) id) = Closed). by rewrite Hc.
    + change (note_of (w_storage (norm w)) id) with (note_of (w_storage w) id) in Hc.
      rewrite Hcl in Hc. inversion Hc.
Qed.

Lemma waits_step `{ProofAdapter} d n id p w st :
  waits d n id p w →
  challenges d id p st ∨ left_with d id p (run_step d w st) ∨ waits d n id p (run_step d w st).
Proof.
  intros (Hok & Hn & Hst & Hp). destruct (run_step_moved d w st) as [E|[_ Hm]].
  - right; right. split; [by apply run_step_ok|].
    change (note_of (w_storage (norm (run_step d w st))) id = n ∧ status n = PendingWithdrawal ∧
      pending_of (w_storage (norm (run_step d w st))) id = p). by rewrite E.
  - assert (vault_ok d (norm w)) as Hok' by by apply vault_ok_norm.
    assert (status (note_of (w_storage (norm w)) id) = PendingWithdrawal) as Hst' by (by rewrite <- Hn in Hst).
    destruct (moved_pending _ _ _ _ _ id Hok' Hm Hst') as [[E1 E2]|[(j & proof & sib & Ec & Hb & Hv & En & Ht)|(t & _ & Ew)]].
    + right; right. split; [by apply run_step_ok|]. split; [|split; [done|]].
      * exact (eq_trans E1 Hn).
      * exact (eq_trans E2 Hp).
    + left. exists j, proof, sib. change (pending_of (w_storage (norm w)) id) with (pending_of (w_storage w) id) in *.
      rewrite Hp in *. done.
    + right; left.
      assert (awaits id (norm w)) as Haw.
      { assert (status (note_of (w_storage (norm w)) id) ≠ Uninitialized) as Hne by by rewrite Hst'.
        pose proof (vo_notes _ _ Hok') as N. apply (vo_ids _ N) in Hne. pose proof (vo_next _ N) as Hnext.
        split; [unfold fits in *; lia|exact Hst'|by apply (vo_pending _ N)]. }
      split.
      * change (status (note_of (w_storage (norm (run_step d w st))) id) = Closed).
        rewrite Ew, (restatus_note _ _ _ _ _ _ _ id (finalize_restatus d id t (norm w) Haw)), decide_True; done.
      * intros Hb. change (w_paid (run_step d w st)) with (w_paid (norm (run_step d w st))). rewrite Ew.
        unfold move_finalize. cbn [w_emit w_paid]. rewrite pays_paid.
        change (pending_of (w_storage (norm w)) id) with (pending_of (w_storage w) id). rewrite Hp.
        destruct (Z.eqb_spec (pFinalBalance p) 0); [done|]. rewrite !elem_of_app. right; left.
        apply list_elem_of_singleton. reflexivity.
Qed.

Lemma waits_steps `{ProofAdapter} d n id p w later :
  waits d n id p w →
  (∃ pre st post, later = pre ++ st :: post ∧ challenges d id p st) ∨
  left_with d id p (run_steps d w later) ∨ waits d n id p (run_steps d w later).
Proof.
  intros Hw. induction later as [|st later IH] using rev_ind; [by right; right|].
  unfold run_steps. rewrite foldl_app. cbn [foldl]. fold (run_steps d w later).
  destruct IH as [(pre & st' & post & -> & Hc)|[Hl|Hl]].
  - left. exists pre, st', (post ++ [st]). by rewrite <- app_assoc.
  - right; left. apply left_step; [apply run_steps_ok, Hw|done].
  - destruct (waits_step d n id p _ st Hl) as [Hc|[Hc|Hc]]; [left|by right; left|by right; right].
    exists later, st, []. done.
Qed.

Lemma constructor_native d s b t ttl cp cap pa kx ky cx cy ow self :
  constructor b t ttl cp cap pa kx ky cx cy ow self = Ok (d, s) →
  (0 ≤ nativeAssetWeiPerUnit d ≤ GWEI)%Z ∧ challengePeriod d = cp.
Proof.
  unfold constructor. intros H. repeat apply result_bind_Ok in H as (? & _ & H). injection H as <- <-.
  cbn. split; [|done]. by destruct (b =? 0)%Z.
Qed.

(** What the owner of a note brings to the vault to leave alone. *)
Record escape_ready `{ProofAdapter} (d : Immutables) (tx : Tx) (i : WithdrawalPublicInputs)
  (proof : list byte) (w : World) : Prop := {
  er_inputs : withdrawal_inputs_ok i = true;
  er_bound : withdrawal_bound d tx i;
  er_alone : hasClearance i = false;
  er_root : activeRoot i = currentRoot (w_storage w);
  er_proof : assertValidWithdrawal i proof = Ok tt;
  er_active : status (note_of (w_storage w) (noteId i)) = Active;
  er_balance : (finalBalance i ≤ depositAmount (note_of (w_storage w) (noteId i)))%Z;
  er_fresh : withdrawalNullifier i ∉ usedNullifiers (w_storage w);
  er_value : msg_value tx = 0%Z;
  er_deadline : fits 64 (wrap 64 (block_timestamp tx) + challengePeriod d);
}.

(** The claim it registers. *)
Definition escape_claim (d : Immutables) (tx : Tx) (i : WithdrawalPublicInputs) (root : Z) :
  PendingWithdrawalData :=
  {| exists_ := true; pActiveRoot := root; pWithdrawalNullifier := withdrawalNullifier i;
     pFinalBalance := finalBalance i; pDestination := destination i;
     challengeDeadline := (wrap 64 (block_timestamp tx) + challengePeriod d)%Z |}.

Lemma run_step_done `{ProofAdapter} d w st w' :
  execute d (st_tx st) (st_call st) (with_schedule (st_outcomes st) w) = (Ok tt, w') →
  run_step d w st = with_schedule [] w'.
Proof. intros E. unfold run_step, transact. by rewrite E. Qed.

(** The escape goes through. *)
Lemma escape_runs `{PoseidonLaw} `{ProofAdapter} d tx i proof w outcomes :
  vault_ok d w → agrees w → escape_ready d tx i proof w → paused (w_storage w) = false →
  ∃ r, run_step d w {| st_tx := tx; st_outcomes := outcomes;
      st_call := InitiateEscape i proof (path_words (mirror_of w) (noteId i)) |} =
    with_schedule [] (move_initiate i (wrap 64 (block_timestamp tx) + challengePeriod d)%Z r
      (with_schedule outcomes w)).
Proof.
  intros Hok Hag E Hpz.
  assert (fits 32 (noteId i)) as Hid.
  { pose proof (er_inputs _ _ _ _ _ E) as Hi. apply bool_decide_eq_true in Hi. apply Hi. }
  pose proof (served_path_accepted w (noteId i) 0 Hag (vo_notes _ _ Hok) Hid reduced_0) as Hp.
  rewrite (word_view_active _ _ (er_active _ _ _ _ _ E)) in Hp.
  assert (leaves d tx i proof (path_words (mirror_of w) (noteId i))
    (felt_val (Merkle.root (set_leaf (tree (mirror_of w)) (noteId i) (uint_felt 0))))
    (with_schedule outcomes w)) as L.
  { split; try apply E. exact Hp. }
  pose proof (initiate_runs d tx i proof _ _ _ _ L (path_words_fit w _ Hag Hid) (er_alone _ _ _ _ _ E)
    Hpz (er_value _ _ _ _ _ E) eq_refl (er_deadline _ _ _ _ _ E)) as Hrun.
  eexists. apply run_step_done. exact Hrun.
Qed.

Lemma escape_waits `{PoseidonLaw} `{ProofAdapter} d tx i proof w outcomes :
  vault_ok d w → agrees w → escape_ready d tx i proof w → paused (w_storage w) = false →
  let st := {| st_tx := tx; st_outcomes := outcomes;
    st_call := InitiateEscape i proof (path_words (mirror_of w) (noteId i)) |} in
  waits d (with_status (note_of (w_storage w) (noteId i)) PendingWithdrawal) (noteId i)
    (escape_claim d tx i (currentRoot (w_storage w))) (run_step d w st).
Proof.
  intros Hok Hag E Hpz st.
  destruct (escape_runs d tx i proof w outcomes Hok Hag E Hpz) as [r Hrun].
  split; [by apply run_step_ok|]. unfold st. rewrite Hrun.
  split; [|split; [reflexivity|]].
  - unfold move_initiate. cbn [with_schedule w_storage w_emit w_assign].
    unfold note_of at 1. cbn [notes set_pending set_note move_status w_assign w_storage set_root use_nullifier].
    rewrite lookup_insert_eq. reflexivity.
  - unfold move_initiate. cbn [with_schedule w_storage w_emit w_assign].
    rewrite pending_of_set, decide_True by reflexivity. reflexivity.
Qed.

(** A paused vault refuses to start an escape. *)
Lemma paused_refuses `{ProofAdapter} d w st i proof siblings :
  st_call st = InitiateEscape i proof siblings → paused (w_storage w) = true →
  run_step d w st = with_schedule [] w.
Proof.
  intros Hcall Hp. unfold run_step. destruct (transact _ _) as [r w'] eqn:E. cbn [snd].
  apply transact_inv in E as [(u & E & ->)|[-> _]]; [exfalso|reflexivity].
  rewrite Hcall in E. unfold execute in E. cbn [payable body calldata_ok] in E. vault_inv E.
  unfold initiateEscapeWithdrawal, when_not_paused in E. vault_inv E.
  cbn [w_storage with_schedule] in *. congruence.
Qed.

(** C12. A user can leave alone: while the vault is not paused, with an accepted
    withdrawal proof for an active note and the path the indexer serves, the
    escape goes through (a paused vault refuses it); and whatever transactions
    follow, either one of them is an accepted challenge by a request with the
    same nullifier before the deadline, or the note has been closed and its
    balance paid to the destination, or the claim still stands and from the
    deadline on, paused or not, anyone can finalize it, which, when the two
    payments go through, pays the balance to the destination and the rest to the
    treasury. *)
Theorem escape_exits `{PoseidonLaw} `{ProofAdapter} b t ttl cp cap pa kx ky cx cy ow self d s steps
    tx i proof outcomes later :
  constructor b t ttl cp cap pa kx ky cx cy ow self = Ok (d, s) →
  let w := run_steps d (deployed s) steps in
  agrees w → escape_ready d tx i proof w →
  let id := noteId i in
  let claim := escape_claim d tx i (currentRoot (w_storage w)) in
  let w1 := run_step d w {| st_tx := tx; st_outcomes := outcomes;
    st_call := InitiateEscape i proof (path_words (mirror_of w) id) |} in
  let w2 := run_steps d w1 later in
  if paused (w_storage w) then w1 = with_schedule [] w else
  (status (note_of (w_storage w1) id) = PendingWithdrawal ∧ pending_of (w_storage w1) id = claim) ∧
  ((∃ pre st post, later = pre ++ st :: post ∧ challenges d id claim st) ∨
   (status (note_of (w_storage w2) id) = Closed ∧
    (finalBalance i ≠ 0%Z → (destination i, (finalBalance i * unit_of d)%Z) ∈ w_paid w2)) ∨
   ∀ tx', msg_value tx' = 0%Z → (challengeDeadline claim ≤ block_timestamp tx')%Z →
     let w3 := run_step d w2 {| st_tx := tx'; st_call := FinalizeEscape id; st_outcomes := [] |} in
     let share := (depositAmount (note_of (w_storage w) id) - finalBalance i)%Z in
     status (note_of (w_storage w3) id) = Closed ∧
     w_paid w3 = w_paid w2
       ++ (if (finalBalance i =? 0)%Z then [] else [(destination i, (finalBalance i * unit_of d)%Z)])
       ++ (if (share =? 0)%Z then [] else [(treasury (w_storage w2), (share * unit_of d)%Z)])).
Proof.
  intros Hc w Hag E id claim w1 w2.
  destruct (paused (w_storage w)) eqn:Hpz; [by eapply paused_refuses|].
  pose proof (constructor_native _ _ _ _ _ _ _ _ _ _ _ _ _ _ Hc) as [Hn _].
  apply deployed_ok in Hc as (Hok & _). apply (run_steps_ok d _ steps) in Hok. fold w in Hok.
  pose proof (escape_waits d tx i proof w outcomes Hok Hag E Hpz) as Hw. cbn zeta in Hw. fold id claim in Hw. fold w1 in Hw.
  split; [destruct Hw as (_ & -> & _ & ->); by split|].
  destruct (waits_steps _ _ _ _ _ later Hw) as [Hl|[Hl|(Hok2 & Hn2 & _ & Hp2)]]; [by left|by right; left|right; right].
  fold w2 in Hok2, Hn2, Hp2. intros tx' Hv Ht w3 share.
  assert (awaits id w2) as Haw.
  { pose proof (er_inputs _ _ _ _ _ E) as Hi. apply bool_decide_eq_true in Hi.
    split; [apply Hi|by rewrite Hn2|by rewrite Hp2]. }
  assert (vault_ok d (with_schedule [] w2)) as Hok3
    by exact (proj1 (vault_ok_norm d (with_schedule [] w2)) (proj2 (vault_ok_norm d w2) Hok2)).
  assert (awaits id (with_schedule [] w2)) as Haw' by (destruct Haw; by split).
  assert (challengeDeadline (pending_of (w_storage w2) id) ≤ block_timestamp tx')%Z as Ht' by by rewrite Hp2.
  assert (w3 = with_schedule [] (move_finalize d id (treasury (w_storage w2)) (with_schedule [] w2))) as ->.
  { unfold w3. apply run_step_done. exact (finalize_runs d tx' id _ Hok3 Haw' Hn Ht' Hv eq_refl). }
  split.
  - pose proof (restatus_note _ _ _ _ _ _ _ id (finalize_restatus d id (treasury (w_storage w2)) _ Haw')) as Hr.
    cbn [w_storage with_schedule] in Hr |- *. rewrite Hr, decide_True; done.
  - unfold move_finalize. cbn [w_paid with_schedule w_emit w_storage]. rewrite pays_paid, Hp2, Hn2.
    cbn [w_paid w_assign with_schedule move_status pFinalBalance pDestination claim escape_claim depositAmount with_status].
    reflexivity.
Qed.

(** ** Deposits *)

Lemma run_ok {X Y} (m : V X) (f : X → V Y) w x w' : m w = (Ok x, w') → (m ≫= f) w = f x w'.
Proof. apply M_bind_Ok. Qed.

Lemma walk_no_collision `{Ark} idx c siblings : ¬ walk_collision idx c c siblings siblings.
Proof.
  revert idx c. induction siblings as [|s siblings IH]; intros idx c; [exact id|].
  #[local] Transparent walk_collision. cbn [walk_collision]. intros [[Hne _]|Hc]; [exact (Hne eq_refl)|exact (IH _ _ Hc)].
Qed.

Lemma external_quiet tx e w : w_schedule w = [] → external_call tx e w = (Ok tt, w).
Proof. unfold external_call. by intros ->. Qed.

Lemma moved_deposit_inv `{ProofAdapter} d tx w c a siblings w' :
  moved d tx w (Deposit c a siblings) w' →
  ∃ e r, bucketed_expiry d tx = Ok e ∧ w' = move_deposit d c a e r w.
Proof. inversion 1. eexists _, _. split; [eassumption|reflexivity]. Qed.

Lemma deposit_executes `{ProofAdapter} d tx c a e siblings r w :
  paused (w_storage w) = false → wrong_value d tx a = false →
  (0 < c < SCALAR_MODULUS)%Z → (0 < a)%Z → fits 128 a → siblings_ok siblings = true →
  bucketed_expiry d tx = Ok e → fits 64 e → fits 32 (nextNoteId (w_storage w) + 1) →
  MerkleUpdateLib.verifyAndUpdate (currentRoot (w_storage w)) (nextNoteId (w_storage w)) 0
    (NoteLeafLib.computeLeaf (nextNoteId (w_storage w)) c a e) siblings = Ok r →
  w_schedule w = [] →
  ∃ w', execute d tx (Deposit c a siblings) w = (Ok tt, w') ∧ paused (w_storage w') = false.
Proof.
  intros Hp Hv Hc Ha Ha' Hsib He He' Hn Hpath Hs. unfold execute. cbn [calldata_ok payable body].
  rewrite run_require by (rewrite bool_decide_true by (split; [unfold fits, SCALAR_MODULUS in *; lia|done]);
    by rewrite Hsib).
  unfold receive at 1. rewrite run_change. unfold deposit, when_not_paused.
  rewrite run_assoc, run_storage. cbn [w_storage w_receive]. rewrite Hp, run_require by done.
  rewrite Hv, run_require by done. rewrite run_require by (apply Z.eqb_neq; lia).
  rewrite run_require by (apply Z.eqb_neq; lia).
  rewrite (run_lift _ tt) by (unfold requireField; apply guard_err_Ok, Z.leb_gt; lia).
  rewrite run_storage. cbn [w_storage w_receive]. rewrite (run_lift _ e) by done.
  rewrite run_require by by rewrite bool_decide_true.
  rewrite (run_lift _ r) by exact Hpath. unfold assign. rewrite !run_change.
  rewrite (run_lift _ (nextNoteId (w_storage w) + 1)%Z) by by apply checked_ok. rewrite run_change.
  destruct (nativeAssetWeiPerUnit d =? 0)%Z.
  - unfold receive. rewrite run_assoc, run_change.
    match goal with |- context [(external_call tx ?e ≫= ?f) ?w] =>
      rewrite (run_ok (external_call tx e) f w tt w (external_quiet tx e w Hs)) end.
    eexists. split; [reflexivity|exact Hp].
  - eexists. split; [reflexivity|exact Hp].
Qed.

Lemma collides_deposit `{Ark} w c a siblings :
  collides w (Deposit c a siblings) →
  walk_collision (nextNoteId (w_storage w)) (uint_felt 0) (uint_felt 0) (sibling_felts siblings)
    (get_path (mirror_of w) (nextNoteId (w_storage w))).
Proof. exact id. Qed.

(** With the served path nothing can collide, so the indexer still agrees. *)
Lemma served_no_collision `{PoseidonLaw} d w c a :
  agrees w → vault_ok d w →
  ¬ collides w (Deposit c a (path_words (mirror_of w) (nextNoteId (w_storage w)))).
Proof.
  intros Hag Hok Hc%collides_deposit.
  rewrite (path_words_felts w _ Hag (vo_next _ (vo_notes _ _ Hok))) in Hc.
  exact (walk_no_collision _ _ _ Hc).
Qed.

Lemma served_deposit_agrees `{PoseidonLaw} `{ProofAdapter} d tx c a w w' :
  agrees w → vault_ok d w →
  moved d tx (norm w) (Deposit c a (path_words (mirror_of w) (nextNoteId (w_storage w)))) (norm w') →
  agrees w'.
Proof.
  intros Hag Hok Hm. apply agrees_norm.
  destruct (moved_agrees d tx _ _ _ (proj2 (agrees_norm w) Hag) (proj2 (vault_ok_norm d w) Hok) Hm)
    as [Hag'|Hc']; [exact Hag'|exfalso].
  exact (served_no_collision d w c a Hag Hok (collides_norm _ _ Hc')).
Qed.

(** A deposit with the served path for the next note goes through. *)
Lemma deposit_runs `{PoseidonLaw} `{ProofAdapter} d tx c a e w :
  agrees w → vault_ok d w → paused (w_storage w) = false → wrong_value d tx a = false →
  (0 < c < SCALAR_MODULUS)%Z → (0 < a)%Z → fits 128 a → bucketed_expiry d tx = Ok e → fits 64 e →
  fits 32 (nextNoteId (w_storage w) + 1) → w_schedule w = [] →
  ∃ r w', execute d tx (Deposit c a (path_words (mirror_of w) (nextNoteId (w_storage w)))) w = (Ok tt, w') ∧
    agrees w' ∧ paused (w_storage w') = false ∧ norm w' = move_deposit d c a e r (norm w).
Proof.
  intros Hag Hok Hp Hv Hc Ha Ha' He He' Hn Hs. pose proof (vo_notes _ _ Hok) as N.
  pose proof (vo_next _ N) as Hid.
  pose proof (served_path_accepted w _ (NoteLeafLib.computeLeaf (nextNoteId (w_storage w)) c a e) Hag N Hid
    (computeLeaf_reduced _ _ _ _)) as Hpath.
  rewrite word_view_none in Hpath by (by rewrite next_uninitialized).
  destruct (deposit_executes d tx c a e _ _ w Hp Hv Hc Ha Ha' (path_words_fit w _ Hag Hid) He He' Hn Hpath Hs)
    as (w' & Hrun & Hp').
  pose proof (deposit_moved d tx _ _ _ _ _ _ Hrun) as Hm.
  destruct (moved_deposit_inv _ _ _ _ _ _ _ Hm) as (e' & r & E' & Hw').
  rewrite He in E'. injection E' as <-. exists r, w'.
  split; [exact Hrun|]. split; [|split; [exact Hp'|exact Hw']].
  exact (served_deposit_agrees d tx c a w w' Hag Hok Hm).
Qed.

#[local] Opaque computeEmptyTreeRoot.

Lemma note_of_norm w id : note_of (w_storage w) id = note_of (w_storage (norm w)) id.
Proof. reflexivity. Qed.
Lemma used_norm w : usedNullifiers (w_storage w) = usedNullifiers (w_storage (norm w)).
Proof. reflexivity. Qed.

(** The first deposit into a new vault. *)
Lemma first_deposit `{PoseidonLaw} `{ProofAdapter} d s tx c a e :
  currentRoot s = computeEmptyTreeRoot → notes s = ∅ → vault_ok d (deployed s) →
  paused s = false → nextNoteId s = 0%Z → wrong_value d tx a = false →
  (0 < c < SCALAR_MODULUS)%Z → (0 < a)%Z → fits 128 a → bucketed_expiry d tx = Ok e → fits 64 e →
  let w := run_steps d (deployed s) [{| st_tx := tx; st_outcomes := [];
    st_call := Deposit c a (path_words (mirror_of (deployed s)) 0) |}] in
  agrees w ∧ paused (w_storage w) = false ∧
  ∃ r, norm w = move_deposit d c a e r (norm (deployed s)).
Proof.
  intros Hr Hn Hok Hp Hz Hv Hc Ha Ha' He He' w. pose proof (deployed_agrees s Hr Hn) as Hag.
  assert (fits 32 (nextNoteId s + 1)) as Hid by (rewrite Hz; split; reflexivity || discriminate).
  destruct (deposit_runs d tx c a e (deployed s) Hag Hok Hp Hv Hc Ha Ha' He He' Hid eq_refl)
    as (r & w' & Hrun & Hag' & Hp' & Hn').
  cbn [w_storage deployed] in Hrun. rewrite Hz in Hrun.
  assert (w = with_schedule [] w') as -> by (unfold w, run_steps; cbn [foldl]; apply run_step_done; exact Hrun).
  split; [exact (proj1 (agrees_norm (with_schedule [] w')) (proj2 (agrees_norm w') Hag'))|].
  split; [exact Hp'|]. exists r. exact Hn'.
Qed.

(** ** Examples *)

(** A vault for a token, behind the contract with the toy keys of [Adapter]. *)
#[local] Existing Instance toy_adapter.
#[local] Existing Instance Real.
#[local] Existing Instance real_poseidon.

Definition toy_vault : Immutables :=
  {| billingToken := 5; nativeAssetWeiPerUnit := 0; noteTtl := 86400; challengePeriod := 86400;
     requestChargeCap := 100; vStateSigningKeyX := 11; vStateSigningKeyY := 12;
     vClearanceSigningKeyX := 13; vClearanceSigningKeyY := 14; this := 77 |}.

Definition toy_storage : Storage :=
  {| treasury := 9; paused := false; currentRoot := computeEmptyTreeRoot; nextNoteId := 0;
     notes := ∅; pendingWithdrawals := ∅; usedNullifiers := ∅ |}.

Lemma toy_deployed : constructor 5 9 86400 86400 100 3 11 12 13 14 2 77 = Ok (toy_vault, toy_storage).
Proof. reflexivity. Qed.

Definition toy_tx : Tx :=
  {| msg_sender := 4; msg_value := 0; block_timestamp := 1000; block_chainid := 1; owner := 2 |}.

(** A deposit of 50 for the commitment 6, with the path the indexer serves. *)
Definition toy_deposit : Step :=
  {| st_tx := toy_tx; st_outcomes := [];
     st_call := Deposit 6 50 (path_words (mirror_of (deployed toy_storage)) 0) |}.

Definition toy_world : World := run_steps toy_vault (deployed toy_storage) [toy_deposit].

Lemma toy_deposited :
  agrees toy_world ∧ paused (w_storage toy_world) = false ∧
  ∃ r, norm toy_world = move_deposit toy_vault 6 50 172800 r (norm (deployed toy_storage)).
Proof.
  assert (0 < 6 < SCALAR_MODULUS)%Z as Hc by by vm_compute.
  assert (0 < 50)%Z as Ha by lia. assert (fits 128 50) as Ha' by by vm_compute.
  assert (fits 64 172800) as He by by vm_compute.
  destruct (deployed_ok _ _ _ _ _ _ _ _ _ _ _ _ _ _ toy_deployed) as (Hok & _ & Hr & Hn).
  exact (first_deposit toy_vault toy_storage toy_tx 6 50 172800 Hr Hn Hok eq_refl eq_refl eq_refl
    Hc Ha Ha' eq_refl He).
Qed.

Lemma toy_world_step : run_step toy_vault (deployed toy_storage) toy_deposit = toy_world.
Proof. reflexivity. Qed.

Lemma toy_world_run : run_steps toy_vault (deployed toy_storage) [toy_deposit] = toy_world.
Proof. reflexivity. Qed.

#[local] Opaque toy_world.

Lemma toy_facts :
  note_of (w_storage toy_world) 0
    = {| commitment := 6; depositAmount := 50; expiryTs := 172800; status := Active |} ∧
  usedNullifiers (w_storage toy_world) = ∅ ∧ fits 256 (currentRoot (w_storage toy_world)).
Proof.
  destruct toy_deposited as (Hag & _ & r & E).
  assert (w_storage (norm toy_world) = w_storage (move_deposit toy_vault 6 50 172800 r (norm (deployed toy_storage))))
    as Es by (rewrite E; reflexivity).
  split; [|split].
  - rewrite note_of_norm, Es. reflexivity.
  - rewrite used_norm, Es. reflexivity.
  - rewrite <- (ag_root _ Hag). split; [apply felt_val_bound|].
    apply (Z.lt_le_trans _ _ _ (proj2 (felt_val_bound _))). discriminate.
Qed.

Lemma toy_no_collision : ¬ collides (deployed toy_storage) (st_call toy_deposit).
Proof.
  destruct (deployed_ok _ _ _ _ _ _ _ _ _ _ _ _ _ _ toy_deployed) as (Hok & _ & Hr & Hn).
  exact (served_no_collision _ (deployed toy_storage) 6 50 (deployed_agrees toy_storage Hr Hn) Hok).
Qed.

(** The proof that an owner of that note brings to leave with 30. *)
Definition toy_exit : WithdrawalPublicInputs :=
  {| protocolVersion := 2; chainId := 1; contractAddress := 77;
     activeRoot := currentRoot (w_storage toy_world);
     stateSigningKeyX := 11; stateSigningKeyY := 12; clearanceSigningKeyX := 13;
     clearanceSigningKeyY := 14; noteId := 0; finalBalance := 30; destination := 21;
     withdrawalNullifier := 8; hasClearance := false; withdrawalTag := 7 |}.

Definition toy_exit_proof : list byte :=
  proof_bytes (PS:=pairing_system) (balanced (withdrawal_values toy_exit)).

Lemma toy_root_reduced : reduced (currentRoot (w_storage toy_world)).
Proof.
  destruct toy_deposited as (Hag & _ & _). rewrite <- (ag_root _ Hag).
  exact (mirror_root_reduced toy_world Hag).
Qed.

Lemma toy_exit_reduced : Forall reduced (withdrawal_values toy_exit).
Proof.
  unfold withdrawal_values, toy_exit. cbn [protocolVersion chainId contractAddress activeRoot
    stateSigningKeyX stateSigningKeyY clearanceSigningKeyX clearanceSigningKeyY noteId finalBalance
    destination withdrawalNullifier hasClearance withdrawalTag].
  repeat (apply Forall_cons_2; [lazymatch goal with
    | |- reduced (currentRoot _) => exact toy_root_reduced
    | _ => split; [discriminate|reflexivity]
    end|]). apply Forall_nil_2.
Qed.

Lemma toy_ready : escape_ready toy_vault toy_tx toy_exit toy_exit_proof toy_world.
Proof.
  destruct toy_facts as (Hnote & Hused & Hroot).
  assert (withdrawal_inputs_ok toy_exit = true) as Hinputs.
  { apply bool_decide_eq_true. cbn [toy_exit protocolVersion chainId contractAddress activeRoot
      stateSigningKeyX stateSigningKeyY clearanceSigningKeyX clearanceSigningKeyY noteId finalBalance
      destination withdrawalNullifier withdrawalTag].
    split_and!; lazymatch goal with
    | |- fits _ (currentRoot _) => exact Hroot
    | _ => split; [discriminate|reflexivity]
    end. }
  split.
  - exact Hinputs.
  - split; try reflexivity; split; reflexivity.
  - reflexivity.
  - reflexivity.
  - apply toy_adapter_accepts; [exact Hinputs|exact toy_exit_reduced].
  - cbn [noteId toy_exit]. rewrite Hnote. reflexivity.
  - cbn [noteId toy_exit]. rewrite Hnote. discriminate.
  - rewrite Hused. apply not_elem_of_empty.
  - reflexivity.
  - split; [discriminate|reflexivity].
Qed.

Lemma vault_solvent_witness :
  status (note_of (w_storage toy_world) 0) = Active ∧ (50 ≤ w_held toy_world)%Z.
Proof.
  destruct toy_facts as (Hnote & _ & _).
  destruct (vault_solvent _ _ _ _ _ _ _ _ _ _ _ _ _ _ [toy_deposit] toy_deployed) as (_ & _ & Hs & _).
  specialize (Hs 0%Z). rewrite !toy_world_run, Hnote in Hs. split; [rewrite Hnote; reflexivity|].
  exact (Hs (or_introl eq_refl)).
Defined.

Lemma note_lifecycle_witness :
  note_change toy_vault toy_tx toy_storage 0 (st_call toy_deposit) Uninitialized Active.
Proof.
  destruct toy_facts as (Hnote & _ & _).
  destruct (note_lifecycle _ _ _ _ _ _ _ _ _ _ _ _ _ _ [] toy_deposit 0 toy_deployed) as [[E|[Hc _]] _].
  - cbn [run_steps foldl] in E. rewrite toy_world_step, Hnote in E. discriminate E.
  - cbn [run_steps foldl] in Hc. rewrite toy_world_step, Hnote in Hc. exact Hc.
Defined.

Lemma mirror_follows_vault_witness :
  felt_val (mirror_root (mirror_of toy_world)) = currentRoot (w_storage toy_world) ∧
  mirror_get_leaf (mirror_of toy_world) 0 = leaf_view 0 (note_of (w_storage toy_world) 0).
Proof.
  destruct (mirror_follows_vault _ _ _ _ _ _ _ _ _ _ _ _ _ _ [toy_deposit] toy_deployed)
    as [[Hr Hl]|(pre & st & post & E & Hc)].
  - rewrite !toy_world_run in Hr. rewrite !toy_world_run in Hl. destruct (Hl 0%Z (conj (Z.le_refl 0) eq_refl)) as [Hl0 _]. exact (conj Hr Hl0).
  - exfalso. destruct pre as [|st' pre]; [|by destruct pre]. injection E as <- _.
    exact (toy_no_collision Hc).
Defined.

(** The note of the deposit leaves with 30. *)
Definition toy_escape : Step :=
  {| st_tx := toy_tx; st_outcomes := [];
     st_call := InitiateEscape toy_exit toy_exit_proof (path_words (mirror_of toy_world) 0) |}.

Lemma toy_vault_ok : vault_ok toy_vault toy_world.
Proof.
  destruct (deployed_ok _ _ _ _ _ _ _ _ _ _ _ _ _ _ toy_deployed) as [Hok _].
  rewrite <- toy_world_run. exact (run_steps_ok toy_vault _ [toy_deposit] Hok).
Qed.

Lemma spent_initiate i deadline r l l' w :
  spent (w_log (with_schedule l (move_initiate i deadline r (with_schedule l' w))))
  = spent (w_log w) ++ [withdrawalNullifier i].
Proof. exact (spent_app (w_log w) _). Qed.

Lemma toy_exits :
  spent (w_log (run_steps toy_vault (deployed toy_storage) [toy_deposit; toy_escape])) = [8%Z].
Proof.
  change (run_steps toy_vault (deployed toy_storage) [toy_deposit; toy_escape])
    with (run_step toy_vault (run_steps toy_vault (deployed toy_storage) [toy_deposit]) toy_escape).
  rewrite toy_world_run. destruct toy_deposited as (Hag & Hp & r0 & E).
  destruct (escape_runs toy_vault toy_tx toy_exit toy_exit_proof toy_world [] toy_vault_ok Hag toy_ready Hp)
    as [r Hrun].
  etrans; [exact (f_equal (λ w, spent (w_log w)) Hrun)|].
  rewrite spent_initiate, <- (spent_norm toy_world), E. reflexivity.
Qed.

Lemma exits_proven_witness :
  let exits := spent (w_log (run_steps toy_vault (deployed toy_storage) [toy_deposit; toy_escape])) in
  exits = [8%Z] ∧ (∃ i encoded, withdrawalNullifier i = 8%Z ∧
    contractAddress i = this toy_vault ∧ assertValidWithdrawal i encoded = Ok tt) ∧
  NoDup ((fof <$> exits) : list Fr).
Proof.
  destruct (exits_proven (PC:=toy_chain) (sol_key (KM:=pairing_keys) false) (sol_key (KM:=pairing_keys) true)
    _ _ _ _ _ _ _ _ _ _ _ _ _ _ [toy_deposit; toy_escape] toy_deployed) as [Hp Hn].
  split; [exact toy_exits|split; [|exact Hn]].
  change (Forall (λ n, reduced n ∧ ∃ i encoded, proven toy_vault n i encoded)
    (spent (w_log (run_steps toy_vault (deployed toy_storage) [toy_deposit; toy_escape])))) in Hp.
  rewrite toy_exits in Hp. apply Forall_cons in Hp as [[_ (i & e & Hi)] _].
  exists i, e. split; [apply Hi|split; apply Hi].
Defined.

Lemma escape_exits_witness :
  let w1 := run_step toy_vault toy_world {| st_tx := toy_tx; st_outcomes := [];
    st_call := InitiateEscape toy_exit toy_exit_proof (path_words (mirror_of toy_world) 0) |} in
  let later := {| msg_sender := 4; msg_value := 0; block_timestamp := 90000; block_chainid := 1; owner := 2 |} in
  let w3 := run_step toy_vault w1 {| st_tx := later; st_call := FinalizeEscape 0; st_outcomes := [] |} in
  status (note_of (w_storage w1) 0) = PendingWithdrawal ∧
  status (note_of (w_storage w3) 0) = Closed ∧ (21, 30)%Z ∈ w_paid w3.
Proof.
  intros w1 later w3. destruct toy_deposited as (Hag & Hp0 & _).
  pose proof (escape_exits _ _ _ _ _ _ _ _ _ _ _ _ _ _ [toy_deposit] toy_tx toy_exit toy_exit_proof [] [] toy_deployed Hag toy_ready) as H.
  cbn zeta in H. rewrite toy_world_run, Hp0 in H. destruct H as [[Hs _] [(pre & st & post & E & _)|[[Hc _]|Hf]]].
  - exfalso. by destruct pre.
  - exfalso. change (run_steps toy_vault ?w []) with w in Hc. rewrite Hs in Hc. discriminate Hc.
  - split; [exact Hs|]. destruct (Hf later eq_refl) as [Hcl Hp]; [discriminate|].
    split; [exact Hcl|]. unfold w3, w1. cbn zeta in Hp.
    eapply (eq_rect_r (λ l, (21, 30)%Z ∈ l)); [|exact Hp].
    apply elem_of_app. right. left.
Defined.
